(* ===== verification/_CoqProject ===== *)
-Q . S2P
Prelude.v
Conc.v
Core.v
Utf8.v
Api.v
Instances.v
ApiSafety.v
ApiProps.v
Fs.v
FsOps.v
Commands.v
ProcessRuntime.v
ProcessProps.v
ProcessApi.v
Inet.v
GuestOutput.v
Guest.v
GuestProps.v
Network.v
NetworkProps.v
Template.v
TemplateProps.v
TemplateRuntime.v
Rootfs.v
Snapshot.v
SnapshotProps.v
Machines.v
Firecracker.v
FirecrackerOps.v
FirecrackerFrame.v
FirecrackerWaits.v
FirecrackerLaunch.v
FirecrackerInv.v
FirecrackerPool.v
FirecrackerClone.v
FirecrackerSnapshots.v
FirecrackerGuest.v
FirecrackerHost.v
FirecrackerProps.v
FirecrackerMeasure.v
Http.v
Cli.v
HttpHost.v
HttpProps.v
CliProps.v
CliFiles.v
ApiMain.v
NodeMain.v
NodeProps.v
Probe.v
