(* ===== verification/Prelude.v ===== *)
(** * Ferrobox: a verification of the sandbox service

    Ferrobox runs untrusted commands in sandboxes. A control plane answers HTTP
    requests, a runtime backend owns the sandboxes, and inside a virtual machine a
    guest agent executes what the runtime asks for. This development models the
    Rust program under src/crates/ and proves what makes its parts correct. It has
    no axioms; what lies outside the repository (the kernel, the VMM, gRPC, JSON,
    hashing, the passing of time) is a type class whose fields are the calls and
    whose laws are documented behaviour, with a concrete computable instance
    wherever a theorem relies on the laws.

    ** How the program is modelled

    Asynchronous code is a program of atomic steps over a state ([Conc.prog]): one
    lock acquisition with the work under it, one system call, one clock reading.
    [run] executes a program alone and is total; [cstep] interleaves programs, and
    [safe] is the rule that carries a property of the steps to every interleaving.
    [Lens] lets a component's program run on the state of a larger one. Errors are
    values of [result], and [do?] is Rust's question mark. Maps are stdpp's [gmap],
    machine integers are [Z] with their bounds written out, bytes are
    [Byte.byte], and texts are [string] with the UTF-8 checks of the sources.

    ** Files, and the code they model

    - Foundations. [Prelude] (results, integers, texts, hexadecimal); [Conc]
      (programs, loops, preserved relations, interleaving); [Utf8] (lossy
      decoding); [Inet] (IPv4 addresses, lines of text); [Commands]
      (std::process); [Fs] and [FsOps] (paths, kernel path resolution with
      symbolic links, the calls of std::fs, an adversarial list of faults that any
      call may meet).
    - [Core]: ferrobox-core/src/lib.rs. Limits, identifiers, requests and their
      validation, the state machine of a sandbox, sandbox paths, and the trait
      [SandboxRuntime], a class that both backends implement.
    - [Api] (lib.rs, auth.rs and audit.rs of ferrobox-api): the router, every
      handler, bearer tokens and the TTL reaper, over any [SandboxRuntime].
      [ApiSafety] proves properties of every interleaving of requests, reapers and
      time; [ApiProps] what each handler does alone. [Instances] has a scripted
      runtime.
    - [Http] (the same lib.rs): the routes, the limits on bodies, the JSON and the
      queries that serde's derived code reads and writes, and [serve], the whole
      service from a request's bytes to an answer's. [HttpHost] is a concrete JSON
      and a concrete connection, [HttpProps] has the theorems.
    - [Cli] (ferrobox-cli/src/main.rs): every command of the client as a program
      over the service, the connection, the local files and the printed text.
      [CliProps] proves it against the handlers, [CliFiles] end to end with the
      development runtime.
    - [ApiMain] (ferrobox-api/src/main.rs): the start of the server, and the loop
      of the task that keeps the ready pool filled, among the calls of clients.
    - [ProcessRuntime] (process_runtime.rs and audit.rs of ferrobox-node): the
      development backend. [ProcessProps] proves confinement and the round trip
      of files; [ProcessApi] runs the control plane over it.
    - [GuestOutput], [Guest] (ferrobox-guest/src/service.rs): the agent's identity,
      its RPCs, the task of one process and the two that forward its output.
      [GuestProps] has the theorems.
    - [Network], [NetworkProps] (network.rs): namespaces, firewall and DNS relay.
    - [Template], [TemplateProps] (ferrobox-template/src/lib.rs): the catalog of
      content-addressed templates. [TemplateRuntime] (template_runtime.rs): which
      of them the microVM runtime accepts.
    - [Rootfs] (rootfs.rs), [Snapshot], [SnapshotProps] (snapshot.rs): the images
      of a jail, and snapshots on disk.
    - [Machines] (firecracker.rs, vsock.rs): the client of the VMM's API and the
      connection to a guest. [Firecracker], [FirecrackerOps]
      (firecracker_runtime.rs): launching, waiting, ending, the ready pool and the
      operations of the contract, as a second instance of [SandboxRuntime].
      [FirecrackerFrame], [FirecrackerWaits], [FirecrackerLaunch],
      [FirecrackerInv], [FirecrackerPool], [FirecrackerClone],
      [FirecrackerSnapshots] and [FirecrackerGuest] are its lemmas by topic,
      [FirecrackerHost] a concrete host, [FirecrackerProps] the theorems.
      [FirecrackerMeasure] has the benchmark operations and the memory of the VMM
      processes.
    - [NodeMain], [NodeProps] (ferrobox-node/src/main.rs): the node's commands,
      with the benchmark and its statistics. [Probe] (bin/microvm-probe.rs): the
      program that measures a machine from outside.

    The parts meet in four places: [Core.SandboxRuntime], against which the
    control plane is proved; [Http.serve], to which the client's requests are
    delivered; [Guest]'s events, which [FirecrackerGuest] follows from the agent's
    process task to the result on the node; and [Network]'s lease, whose addresses
    the agent accepts ([NetworkProps.lease_accepted_by_guest]).

    ** What the theorems show

    - Safety of the control plane: tokens are never shared between resources,
      records change only along the state machine, a request without the right
      token changes nothing ([ApiSafety], [ApiProps]).
    - Confinement: a path given by a client never resolves outside its workspace,
      on the host ([ProcessProps.safe_path_confined]) and in the guest
      ([GuestProps.guest_path_confined]); a deletion of the development runtime
      stays inside the sandbox's directory ([ProcessProps.delete_confined]).
    - Refinement: over the development runtime the tables of the control plane and
      of the runtime agree ([ProcessApi.lifecycle_refinement]); every command of
      the client runs its handler and reports what that answered
      ([CliProps.command_runs_handler]).
    - The edge: the status of an answer tells its outcome, bodies are limited,
      and a file that the client uploads comes back byte for byte ([HttpProps],
      [CliFiles]).
    - Start and upkeep: a server is started as it should or not at all; from any
      time on, if the maintaining task is scheduled for ever and the runtime does
      not fail it for ever, the ready pool is full again, whatever the clients
      take from it ([ApiMain]); the node's commands leave nothing behind when
      they succeed and never panic ([NodeProps]).
    - The guest: identity changes only by initialization and rekeying, output never
      exceeds the limit under any interleaving, and every command has a result.
    - Machines: every running machine belongs to a sandbox of the table through any
      sequence of calls and failures, or is one whose control group the kernel
      refused to kill when the sandbox was ended; clones and rollbacks are all or
      nothing; a snapshot leaves its source as it was, record and machine, unless
      the answer to the pause request was lost; a sandbox is handed out once.
    - Networks: a network that is created has every one of its commands and its
      firewall accepted, a creation that fails stops at the first that was not
      and tries to take everything back; the relay answers every query.
    - Artifacts: a template's identity is its content, inspection and snapshot
      verification detect exactly the differences they are there for, and what is
      built is found and verifies.
    - Termination: pagination visits every snapshot, and the waits for a machine
      end by the clock.

    ** Machines, jailers and control groups

    A microVM is launched through a jailer, which puts it in a process namespace
    and a control group of its own; the process that the runtime spawns, kills and
    waits for is the jailer. [FirecrackerFrame.ProcessLaws] keeps the two apart:
    [jailer] says which identifiers have a jailer, [runs] which have a machine. To
    kill or wait for a jailer ends the jailer only. A machine ends when the write
    of its group's cgroup.kill succeeds, or when its group is found to be gone or
    is removed, which the kernel allows only of an empty group. [refused] marks
    the groups whose cgroup.kill was refused, and a machine is stuck
    ([FirecrackerFrame.stuck]) when it runs in one of them. Everything else that
    the runtime asks of the outside leaves machines as they are. [PauseLaws] says
    in the same way which requests to a machine pause and resume it.
    [FirecrackerHost] is a host for which all of these laws are proved.

    ** What is assumed of the libraries

    Of serde_json: a value whose integers are those of an i64 or a u64, that holds
    no other numbers and nests at most 127 deep reads back as it was written
    ([Http.JsonText]). Of axum: the default body limit of its extractors. Of
    cap-std: a path that leads through real directories below the opened directory
    shows what the host has there ([GuestProps.beneath]); nothing is assumed of
    paths that leave it or meet a link. Of the hashing and encoding
    crates: comparison compares, base64 reads back, a secret has 32 bytes
    ([Core.CryptoLib]); nothing is assumed about collisions.

    ** Bounds

    Loops whose number of turns depends on the outside run through [Conc.loop n],
    which makes up to [2^n] turns. [READ_TURNS] and [HASH_TURNS] exceed the bytes
    that a file can have ([run_loop] discharges them from the file's length).
    [POLL_TURNS] exceeds the turns of five milliseconds in any [Duration], so that
    [FirecrackerWaits.run_poll] never ends for want of turns. [CGROUP_ATTEMPTS] is
    the constant 250 of the source. The forwarding tasks of the guest take their
    number of turns as an argument, and their theorems hold for every number.
    [PROBE_TURNS] exceeds the turns of five milliseconds in the probe's thirty
    seconds ([Probe.probe_wait_ends]).

    ** What is not modelled

    The operations of the microVM runtime are modelled one at a time: its locks
    are part of the state, but interleavings of its operations are not. The task
    that maintains the pool interleaves with the calls at its own awaits (it
    counts, replenishes, sleeps), but a replenishment is one turn. The sandboxes
    of [prewarm] after the first are created one after the other, so that a
    failure drops none that is half created, which try_join_all can. Log
    messages and the fault-injection feature are left out. clap's parsing of
    arguments, axum, reqwest, serde_json and the generated gRPC code are outside
    the repository and are parameters. The start-up of the guest agent, which
    only binds a vsock listener and serves, is not modelled, nor is anything that
    is not Rust. A hard link is a copy, since nothing writes
    through either name.

    ** Plan

    Interleavings of the operations of the microVM runtime under their locks; the
    agreement of the control plane with it, as for the development runtime; the
    clean-up of networks through the life of a sandbox; the creations of [prewarm]
    side by side. *)
From stdpp Require Export base tactics list gmap strings sets pretty sorting.
From Stdlib Require Export ZArith Lia.
From Stdlib Require Export Ascii.

#[export] Set Default Goal Selector "!".
#[global] Arguments String.append !_ _ / : simpl nomatch.

(** ** Results

    [Result<T, E>] of the Rust sources. *)

Inductive result (A E : Type) : Type :=
| Ok (a : A)
| Err (e : E).
Arguments Ok {A E} a.
Arguments Err {A E} e.

Definition result_map {A B E} (f : A -> B) (r : result A E) : result B E :=
  match r with Ok a => Ok (f a) | Err e => Err e end.

Definition map_err {A E F} (f : E -> F) (r : result A E) : result A F :=
  match r with Ok a => Ok a | Err e => Err (f e) end.

Definition result_bind {A B E} (r : result A E) (k : A -> result B E) : result B E :=
  match r with Ok a => k a | Err e => Err e end.

Definition ok_or {A E} (e : E) (o : option A) : result A E :=
  match o with Some a => Ok a | None => Err e end.

Definition is_ok {A E} (r : result A E) : bool :=
  match r with Ok _ => true | Err _ => false end.

Definition result_ok {A E} (r : result A E) : option A :=
  match r with Ok a => Some a | Err _ => None end.

Declare Scope result_scope.
Delimit Scope result_scope with result.

(** [let? x := r in k] is the [?] operator of Rust on pure results. *)
Notation "'let?' x ':=' r 'in' k" := (result_bind r (fun x => k))
  (at level 10, x pattern, r at level 100, k at level 200)
  : result_scope.

#[export] Instance result_eq_dec {A E} `{EqDecision A} `{EqDecision E} :
  EqDecision (result A E).
Proof. solve_decision. Defined.

Lemma result_bind_ok {A B E} (r : result A E) (k : A -> result B E) b :
  result_bind r k = Ok b -> exists a, r = Ok a /\ k a = Ok b.
Proof. destruct r; simpl; naive_solver. Qed.

Lemma map_err_ok {A E F} (f : E -> F) (r : result A E) a :
  map_err f r = Ok a <-> r = Ok a.
Proof. destruct r; simpl; naive_solver. Qed.

Lemma ok_or_ok {A E} (e : E) (o : option A) a : ok_or e o = Ok a <-> o = Some a.
Proof. destruct o; simpl; naive_solver. Qed.

(** ** Fixed-width integers

    Unsigned machine integers are [Z] values; the saturating operations of the
    standard library clamp at the largest value of the width. *)

Definition u8_max : Z := 255.
Definition u16_max : Z := 65535.
Definition u32_max : Z := 4294967295.
Definition u64_max : Z := 18446744073709551615.
Definition u128_max : Z := 340282366920938463463374607431768211455.

Definition saturating_add (max a b : Z) : Z := Z.min max (a + b).
Definition saturating_mul (max a b : Z) : Z := Z.min max (a * b).
Definition saturating_sub (a b : Z) : Z := Z.max 0 (a - b).

Definition in_range (lo hi x : Z) : bool := (lo <=? x)%Z && (x <=? hi)%Z.

Lemma in_range_spec lo hi x : in_range lo hi x = true <-> (lo <= x <= hi)%Z.
Proof. unfold in_range. rewrite andb_true_iff, !Z.leb_le. lia. Qed.

Lemma in_range_false lo hi x : in_range lo hi x = false <-> ~ (lo <= x <= hi)%Z.
Proof. rewrite <-in_range_spec. destruct (in_range lo hi x); naive_solver. Qed.

(** ** Strings

    A Rust [str] is the [string] of its UTF-8 bytes, so [len] is
    [String.length] and byte predicates apply directly. *)

Definition slen (s : string) : Z := Z.of_nat (String.length s).

Definition byte_code (c : ascii) : N := N_of_ascii c.

Fixpoint string_all (p : ascii -> bool) (s : string) : bool :=
  match s with
  | EmptyString => true
  | String c s' => p c && string_all p s'
  end.

Definition string_contains (c : ascii) (s : string) : bool :=
  negb (string_all (fun d => negb (Ascii.eqb c d)) s).

Definition is_empty (s : string) : bool :=
  match s with EmptyString => true | _ => false end.

Definition is_ascii_digit (c : ascii) : bool :=
  let n := byte_code c in (48 <=? n)%N && (n <=? 57)%N.
Definition is_ascii_lower (c : ascii) : bool :=
  let n := byte_code c in (97 <=? n)%N && (n <=? 122)%N.
Definition is_ascii_upper (c : ascii) : bool :=
  let n := byte_code c in (65 <=? n)%N && (n <=? 90)%N.
Definition is_ascii_alphanumeric (c : ascii) : bool :=
  is_ascii_digit c || is_ascii_lower c || is_ascii_upper c.
Definition is_ascii_hexdigit (c : ascii) : bool :=
  let n := byte_code c in
  is_ascii_digit c || ((97 <=? n)%N && (n <=? 102)%N) || ((65 <=? n)%N && (n <=? 70)%N).

(** [str::strip_prefix] *)
Fixpoint strip_prefix (p s : string) : option string :=
  match p, s with
  | EmptyString, _ => Some s
  | String a p', String b s' => if Ascii.eqb a b then strip_prefix p' s' else None
  | String _ _, EmptyString => None
  end.

Definition starts_with (p s : string) : bool :=
  match strip_prefix p s with Some _ => true | None => false end.

(** [str::split(char)]: the pieces between separators, never an empty list. *)
Fixpoint split_on (c : ascii) (s : string) : list string :=
  match s with
  | EmptyString => [EmptyString]
  | String a s' =>
      if Ascii.eqb a c then EmptyString :: split_on c s'
      else match split_on c s' with
           | h :: t => String a h :: t
           | [] => [String a EmptyString]
           end
  end.

(** [str::trim_start_matches(char)] *)
Fixpoint trim_start_matches (c : ascii) (s : string) : string :=
  match s with
  | String a s' => if Ascii.eqb a c then trim_start_matches c s' else s
  | EmptyString => EmptyString
  end.

(** [str::trim_end_matches(char)] *)
Fixpoint trim_end_matches (c : ascii) (s : string) : string :=
  match s with
  | String a s' =>
      match trim_end_matches c s' with
      | EmptyString => if Ascii.eqb a c then EmptyString else String a EmptyString
      | t => String a t
      end
  | EmptyString => EmptyString
  end.

Fixpoint srev_append (s acc : string) : string :=
  match s with
  | EmptyString => acc
  | String c s' => srev_append s' (String c acc)
  end.
Definition srev (s : string) : string := srev_append s EmptyString.

(** The UTF-8 encodings of the characters with the Unicode property
    White_Space, as lists of bytes ([char::is_whitespace]). *)
Definition whitespace_encodings : list (list N) :=
  ([ [9]; [10]; [11]; [12]; [13]; [32]; [0xC2; 0x85]; [0xC2; 0xA0];
     [0xE1; 0x9A; 0x80];
     [0xE2; 0x80; 0x80]; [0xE2; 0x80; 0x81]; [0xE2; 0x80; 0x82]; [0xE2; 0x80; 0x83];
     [0xE2; 0x80; 0x84]; [0xE2; 0x80; 0x85]; [0xE2; 0x80; 0x86]; [0xE2; 0x80; 0x87];
     [0xE2; 0x80; 0x88]; [0xE2; 0x80; 0x89]; [0xE2; 0x80; 0x8A];
     [0xE2; 0x80; 0xA8]; [0xE2; 0x80; 0xA9]; [0xE2; 0x80; 0xAF];
     [0xE2; 0x81; 0x9F]; [0xE3; 0x80; 0x80] ])%N.

(** Drops the bytes [enc] from the front of [s], when they are there. *)
Fixpoint strip_bytes (enc : list N) (s : string) : option string :=
  match enc, s with
  | [], _ => Some s
  | n :: enc', String c s' => if (byte_code c =? n)%N then strip_bytes enc' s' else None
  | _ :: _, EmptyString => None
  end.

Fixpoint strip_first (encs : list (list N)) (s : string) : option string :=
  match encs with
  | [] => None
  | e :: encs' => match strip_bytes e s with Some s' => Some s' | None => strip_first encs' s end
  end.

(** Strips encodings while one matches; each strip shortens the string, so the
    length is enough fuel. *)
Fixpoint strip_all (encs : list (list N)) (fuel : nat) (s : string) : string :=
  match fuel with
  | O => s
  | S fuel' => match strip_first encs s with
               | Some s' => strip_all encs fuel' s'
               | None => s
               end
  end.

Definition trim_start (s : string) : string :=
  strip_all whitespace_encodings (String.length s) s.
(** UTF-8 is self-synchronising: a suffix equal to the encoding of a character
    is that character, so trimming the end strips reversed encodings from the
    reversed bytes. *)
Definition trim_end (s : string) : string :=
  srev (strip_all (List.map (@List.rev N) whitespace_encodings) (String.length s) (srev s)).
(** [str::trim] *)
Definition trim (s : string) : string := trim_end (trim_start s).

(** [s.chars().any(char::is_control)]: U+0000-U+001F, U+007F and
    U+0080-U+009F, the last range being the byte pairs C2 80 to C2 9F. *)
Fixpoint any_control (s : string) : bool :=
  match s with
  | EmptyString => false
  | String a s' =>
      let n := byte_code a in
      (n <? 32)%N || (n =? 127)%N ||
      match s' with
      | String b _ => (n =? 0xC2)%N && ((0x80 <=? byte_code b)%N && (byte_code b <=? 0x9F)%N)
      | EmptyString => false
      end || any_control s'
  end.

Definition ascii_lower (c : ascii) : ascii :=
  if is_ascii_upper c then ascii_of_N (byte_code c + 32) else c.

(** [str::to_ascii_lowercase] *)
Fixpoint to_ascii_lowercase (s : string) : string :=
  match s with
  | EmptyString => EmptyString
  | String c s' => String (ascii_lower c) (to_ascii_lowercase s')
  end.

(** [&s[..n]] for an [n] that is a character boundary within [s]. *)
Fixpoint string_take (n : nat) (s : string) : string :=
  match n, s with
  | S n', String c s' => String c (string_take n' s')
  | _, _ => EmptyString
  end.

Definition hex_char (n : N) : ascii :=
  ascii_of_N (if (n <? 10)%N then n + 48 else n + 87)%N.
Definition hex_byte (b : Byte.byte) : string :=
  let n := Byte.to_N b in String (hex_char (n / 16)) (String (hex_char (n mod 16)) "").
(** [format!("{:x}", digest)] *)
Fixpoint hex_string (bytes : list Byte.byte) : string :=
  match bytes with [] => "" | b :: rest => hex_byte b +:+ hex_string rest end.

#[export] Instance byte_eq_dec : EqDecision Byte.byte := Byte.byte_eq_dec.

(** The separator characters the sources test for. *)
Definition slash : ascii := "/"%char.
Definition nul : ascii := "000"%char.

(** ** String lemmas *)

Lemma eqb_ascii_spec a b : Ascii.eqb a b = true <-> a = b.
Proof. apply Ascii.eqb_eq. Qed.

Lemma append_nil_r s : s +:+ "" = s.
Proof. induction s as [|c s IH]; simpl; [done|]. by f_equal. Qed.

Lemma append_assoc_s a b c : a +:+ (b +:+ c) = (a +:+ b) +:+ c.
Proof. induction a as [|x a IH]; simpl; [done|]. by f_equal. Qed.

Lemma length_append_s a b : String.length (a +:+ b) = String.length a + String.length b.
Proof. induction a as [|x a IH]; simpl; [done|]. by rewrite IH. Qed.

Lemma strip_prefix_Some p s r : strip_prefix p s = Some r <-> s = p +:+ r.
Proof.
  revert s. induction p as [|a p IH]; intros [|b s]; simpl; try naive_solver.
  destruct (Ascii.eqb a b) eqn:E.
  - apply eqb_ascii_spec in E as ->. rewrite IH. naive_solver.
  - apply Ascii.eqb_neq in E. naive_solver.
Qed.

Lemma strip_prefix_app p r : strip_prefix p (p +:+ r) = Some r.
Proof. by apply strip_prefix_Some. Qed.

Lemma starts_with_spec p s : starts_with p s = true <-> exists r, s = p +:+ r.
Proof.
  unfold starts_with. setoid_rewrite <-strip_prefix_Some.
  destruct (strip_prefix p s); naive_solver.
Qed.

Lemma string_all_app p a b : string_all p (a +:+ b) = string_all p a && string_all p b.
Proof. induction a as [|x a IH]; simpl; [done|]. by rewrite IH, andb_assoc. Qed.

Lemma string_contains_app c a b :
  string_contains c (a +:+ b) = string_contains c a || string_contains c b.
Proof. unfold string_contains. by rewrite string_all_app, negb_andb. Qed.

Lemma string_contains_cons c a s :
  string_contains c (String a s) = Ascii.eqb c a || string_contains c s.
Proof. unfold string_contains; simpl. by rewrite negb_andb, negb_involutive. Qed.

Lemma split_on_not_nil c s : split_on c s <> [].
Proof. destruct s as [|a s]; simpl; [done|]. destruct (Ascii.eqb a c); [done|].
  by destruct (split_on c s). Qed.

Lemma split_on_sep c b : split_on c (String c b) = "" :: split_on c b.
Proof. simpl. by rewrite Ascii.eqb_refl. Qed.

Lemma split_on_app_sep c a b :
  split_on c (a +:+ String c b) = split_on c a ++ split_on c b.
Proof.
  induction a as [|x a IH]; simpl; [by rewrite Ascii.eqb_refl|].
  destruct (Ascii.eqb x c); rewrite IH; [done|].
  destruct (split_on c a) eqn:E; [by destruct (split_on_not_nil c a)|]. done.
Qed.

(** A piece without separators is its own split. *)
Lemma split_on_no_sep c s : string_contains c s = false -> split_on c s = [s].
Proof.
  induction s as [|a s IH]; simpl; [done|]. rewrite string_contains_cons, orb_false_iff.
  intros [Hne Hs]. rewrite Ascii.eqb_sym, Hne, IH; done.
Qed.

(** No piece contains the separator. *)
Lemma split_on_pieces c s : Forall (fun x => string_contains c x = false) (split_on c s).
Proof.
  induction s as [|a s IH]; simpl; [by constructor|].
  destruct (Ascii.eqb a c) eqn:E; [by constructor|].
  destruct (split_on c s) as [|h t] eqn:Es; [by destruct (split_on_not_nil c s)|].
  inversion_clear IH as [|?? Hh Ht].
  constructor; [|done]. rewrite string_contains_cons, Ascii.eqb_sym, E. done.
Qed.

Lemma trim_start_matches_spec c s :
  exists n, s = Nat.iter n (String c) (trim_start_matches c s) /\
            (forall r, trim_start_matches c s <> String c r).
Proof.
  induction s as [|a s (n&Hs&Hr)]; simpl; [by exists 0|].
  destruct (Ascii.eqb a c) eqn:E.
  - apply eqb_ascii_spec in E as ->. exists (S n). by rewrite Hs at 1.
  - exists 0. split; [done|]. intros r [= -> _]. by rewrite Ascii.eqb_refl in E.
Qed.

Lemma trim_end_matches_spec c s :
  exists q, s = trim_end_matches c s +:+ q /\ string_all (Ascii.eqb c) q = true.
Proof.
  induction s as [|a s (q&Hs&Hq)]; simpl; [by exists ""|].
  destruct (trim_end_matches c s) as [|b t] eqn:Et.
  - destruct (Ascii.eqb a c) eqn:E.
    + apply eqb_ascii_spec in E as ->. simpl in Hs. subst q. exists (String c s).
      split; [done|]. simpl. by rewrite Ascii.eqb_refl.
    + simpl in Hs. subst q. by exists s.
  - exists q. split; [|done]. simpl in *. by f_equal.
Qed.

Lemma trim_end_matches_no_sep c s r : trim_end_matches c s <> r +:+ String c "".
Proof.
  revert r. induction s as [|a s IH]; intros r; simpl; [by destruct r|].
  destruct (trim_end_matches c s) as [|b t] eqn:Et.
  - destruct (Ascii.eqb a c) eqn:E; [by destruct r|].
    destruct r as [|x r]; simpl; [intros [= ->]; by rewrite Ascii.eqb_refl in E|].
    destruct r; simpl; discriminate.
  - destruct r as [|x r]; simpl; [discriminate|]. intros [= -> Hr]. by apply (IH r).
Qed.

Lemma split_on_iter_sep c n s :
  split_on c (Nat.iter n (String c) s) = replicate n "" ++ split_on c s.
Proof.
  induction n as [|n IH]; [done|]. change (Nat.iter (S n) (String c) s) with
    (String c (Nat.iter n (String c) s)). by rewrite split_on_sep, IH.
Qed.

Lemma string_contains_iter d c n s :
  string_contains d (Nat.iter n (String c) s) = false -> string_contains d s = false.
Proof.
  induction n as [|n IH]; [done|]. simpl. rewrite string_contains_cons, orb_false_iff.
  naive_solver.
Qed.

Lemma is_empty_spec s : is_empty s = true <-> s = "".
Proof. by destruct s. Qed.

Lemma trim_end_matches_app c a b :
  trim_end_matches c (a +:+ b) =
  if is_empty (trim_end_matches c b) then trim_end_matches c a
  else a +:+ trim_end_matches c b.
Proof.
  induction a as [|x a IH]; simpl.
  - by destruct (trim_end_matches c b).
  - rewrite IH. destruct (is_empty (trim_end_matches c b)) eqn:E; [done|].
    destruct (trim_end_matches c b) as [|y t]; [done|]. by destruct a.
Qed.

Lemma split_on_trim_end c s x :
  x ∈ split_on c (trim_end_matches c s) -> x ∈ split_on c s.
Proof.
  destruct (trim_end_matches_spec c s) as (q&Hs&Hq). rewrite Hs at 2.
  destruct q as [|a q]; [by rewrite append_nil_r|].
  simpl in Hq. apply andb_true_iff in Hq as [Ha _]. apply eqb_ascii_spec in Ha as <-.
  rewrite split_on_app_sep. set_solver.
Qed.

Lemma string_contains_trim_end d c s :
  string_contains d s = false -> string_contains d (trim_end_matches c s) = false.
Proof.
  destruct (trim_end_matches_spec c s) as (q&Hs&_). rewrite Hs at 1.
  rewrite string_contains_app, orb_false_iff. naive_solver.
Qed.

Lemma hex_char_inj n m : (n < 16)%N -> (m < 16)%N -> hex_char n = hex_char m -> n = m.
Proof.
  intros Hn Hm He. apply (f_equal N_of_ascii) in He. unfold hex_char in He.
  rewrite !N_ascii_embedding in He by (repeat case_match; lia).
  destruct (N.ltb_spec n 10), (N.ltb_spec m 10); lia.
Qed.

Lemma byte_to_N_inj a b : Byte.to_N a = Byte.to_N b -> a = b.
Proof. intros He. apply (f_equal Byte.of_N) in He. rewrite !Byte.of_to_N in He. by injection He. Qed.

Lemma hex_string_inj a b : hex_string a = hex_string b -> a = b.
Proof.
  revert b. induction a as [|x a IH]; intros [|y b]; [done|done|done|].
  cbn [hex_string hex_byte]. simpl. intros [= H1 H2 H3]. f_equal; [|by apply IH].
  pose proof (Byte.to_N_bounded x). pose proof (Byte.to_N_bounded y). apply byte_to_N_inj.
  apply hex_char_inj in H1; [|apply N.Div0.div_lt_upper_bound; lia..].
  apply hex_char_inj in H2; [|apply N.mod_lt; lia..].
  rewrite (N.div_mod (Byte.to_N x) 16), (N.div_mod (Byte.to_N y) 16) by lia. lia.
Qed.
