(* ===== verification/Conc.v ===== *)
(** * Atomic-step programs

    The asynchronous handlers of the sources are sequences of steps that are
    atomic with respect to the other tasks: one lock acquisition with the work
    done under it, one clock reading, one call that the operating system
    performs as a unit. [prog S A] is such a sequence over a shared state [S].
    The same program is executed alone by [run] (a total function) and
    interleaved with others by [cstep]; [safe] is the proof rule that
    transports a per-step property to every interleaving. *)
From S2P Require Import Prelude.

Inductive prog (S A : Type) : Type :=
| Ret (a : A)
| Act {B : Type} (f : S -> B * S) (k : B -> prog S A).
Arguments Ret {S A} a.
Arguments Act {S A B} f k.

Section Programs.
Context {S : Type}.

Fixpoint bind {A B} (p : prog S A) (k : A -> prog S B) : prog S B :=
  match p with
  | Ret a => k a
  | Act f k' => Act f (fun b => bind (k' b) k)
  end.

(** Sequential execution. *)
Fixpoint run {A} (p : prog S A) (s : S) : A * S :=
  match p with
  | Ret a => (a, s)
  | Act f k => run (k (f s).1) (f s).2
  end.

Definition act {B} (f : S -> B * S) : prog S B := Act f Ret.
Definition gets {B} (f : S -> B) : prog S B := act (fun s => (f s, s)).
Definition modify (f : S -> S) : prog S unit := act (fun s => (tt, f s)).

(** The [?] operator on a fallible step. *)
Definition bind_ok {A B E} (p : prog S (result A E)) (k : A -> prog S (result B E)) :
  prog S (result B E) :=
  bind p (fun r => match r with Ok a => k a | Err e => Ret (Err e) end).

Definition fmap_prog {A B} (f : A -> B) (p : prog S A) : prog S B :=
  bind p (fun a => Ret (f a)).

(** [p.map_err(f)] *)
Definition prog_map_err {A E F} (f : E -> F) (p : prog S (result A E)) :
  prog S (result A F) := fmap_prog (map_err f) p.
End Programs.

Declare Scope prog_scope.
Delimit Scope prog_scope with prog.
Bind Scope prog_scope with prog.

Notation "'do' x <- p ;; k" := (bind p (fun x => k))
  (at level 10, x pattern, p at level 99, k at level 200) : prog_scope.
Notation "'do?' x <- p ;; k" := (bind_ok p (fun x => k))
  (at level 10, x pattern, p at level 99, k at level 200) : prog_scope.

(** A program that fails at once, and the lifting of a pure result. *)
Definition throw {S A E} (e : E) : prog S (result A E) := Ret (Err e).
Definition ok {S A E} (a : A) : prog S (result A E) := Ret (Ok a).
Definition of_result {S A E} (r : result A E) : prog S (result A E) := Ret r.

Section RunLemmas.
Context {S : Type}.

Lemma run_bind {A B} (p : prog S A) (k : A -> prog S B) s :
  run (bind p k) s = run (k (run p s).1) (run p s).2.
Proof. revert s. induction p as [a|C f k' IH]; intros s; simpl; [done|]. by rewrite IH. Qed.

Lemma run_bind_ok {A B E} (p : prog S (result A E)) (k : A -> prog S (result B E)) s :
  run (bind_ok p k) s =
  match (run p s).1 with
  | Ok a => run (k a) (run p s).2
  | Err e => (Err e, (run p s).2)
  end.
Proof. unfold bind_ok. rewrite run_bind. by destruct (run p s).1. Qed.

Lemma run_fmap {A B} (f : A -> B) (p : prog S A) s :
  run (fmap_prog f p) s = (f (run p s).1, (run p s).2).
Proof. unfold fmap_prog. by rewrite run_bind. Qed.

Lemma run_map_err {A E F} (f : E -> F) (p : prog S (result A E)) s :
  run (prog_map_err f p) s = (map_err f (run p s).1, (run p s).2).
Proof. apply run_fmap. Qed.

Lemma run_act {B} (f : S -> B * S) s : run (act f) s = f s.
Proof. simpl. by destruct (f s). Qed.

Lemma run_gets {B} (f : S -> B) s : run (gets f) s = (f s, s).
Proof. done. Qed.

Lemma run_modify (f : S -> S) s : run (modify f) s = (tt, f s).
Proof. done. Qed.
End RunLemmas.

Create Rewrite HintDb prog.
#[export] Hint Rewrite @run_bind @run_bind_ok @run_map_err @run_gets @run_modify : prog.

(** ** State components *)

Class Lens (S T : Type) := {
  view : S -> T;
  put : T -> S -> S;
  view_put t s : view (put t s) = t;
  put_view s : put (view s) s = s;
  put_put t t' s : put t' (put t s) = put t' s;
}.

Section Lift.
Context {S T : Type} `{Lens S T}.

(** A program on a component, run on the whole state. *)
Fixpoint lift {A} (p : prog T A) : prog S A :=
  match p with
  | Ret a => Ret a
  | Act f k => Act (fun s => ((f (view s)).1, put (f (view s)).2 s)) (fun b => lift (k b))
  end.

Lemma run_lift {A} (p : prog T A) s :
  run (lift p) s = ((run p (view s)).1, put (run p (view s)).2 s).
Proof.
  revert s. induction p as [a|B f k IH]; intros s; simpl.
  - by rewrite put_view.
  - rewrite IH. by rewrite view_put, put_put.
Qed.
End Lift.
#[export] Hint Rewrite @run_lift : prog.

(** [for x in l { body }] with early return. *)
Fixpoint for_each {S X E} (l : list X) (body : X -> prog S (result unit E)) :
  prog S (result unit E) :=
  match l with
  | [] => Ret (Ok tt)
  | x :: l' => bind_ok (body x) (fun _ => for_each l' body)
  end.

(** The iterator [map] followed by [collect::<Result<Vec<_>, _>>()] for a fallible body. *)
Fixpoint map_prog {S X Y E} (l : list X) (body : X -> prog S (result Y E)) :
  prog S (result (list Y) E) :=
  match l with
  | [] => Ret (Ok [])
  | x :: l' => bind_ok (body x) (fun y => bind_ok (map_prog l' body) (fun ys => Ret (Ok (y :: ys))))
  end.

(** [while]/[loop]: [body] goes on with [inl] and ends with [inr]. At most [2^n]
    iterations are made. *)
Fixpoint loop {S X R} (n : nat) (body : X -> prog S (X + R)) (x : X) : prog S (X + R) :=
  match n with
  | O => body x
  | S n' =>
      bind (loop n' body x) (fun r => match r with inl y => loop n' body y | inr e => Ret (inr e) end)
  end.

(** A loop whose iterations keep [Inv] and lower the measure [mu] ends with a
    result that satisfies [Q]. *)
Section Measures.
Context {S X R : Type} (body : X -> prog S (X + R)) (mu : X -> S -> Z) (Inv : X -> S -> Prop) (Q : R -> S -> Prop).

Hypothesis mu_nonneg : forall x s, Inv x s -> (0 <= mu x s)%Z.
Hypothesis body_step : forall x s, Inv x s ->
  match run (body x) s with
  | (inl y, s') => Inv y s' /\ (mu y s' < mu x s)%Z
  | (inr r, s') => Q r s'
  end.

Lemma run_measured_some n x s : Inv x s ->
  match run (loop n body x) s with
  | (inl y, s') => Inv y s' /\ (mu y s' + 2 ^ Z.of_nat n <= mu x s)%Z
  | (inr r, s') => Q r s'
  end.
Proof.
  revert x s. induction n as [|n IH]; intros x s Hx; cbn [loop].
  - pose proof (body_step x s Hx) as Hb. destruct (run (body x) s) as [[y|r] s']; [|done].
    destruct Hb. split; [done|]. change (2 ^ Z.of_nat 0)%Z with 1%Z. lia.
  - rewrite run_bind. pose proof (IH x s Hx) as H1. destruct (run (loop n body x) s) as [[y|r] s1]; [|done].
    destruct H1 as [Hy Hmu]. cbn [fst snd]. pose proof (IH y s1 Hy) as H2.
    destruct (run (loop n body y) s1) as [[z|r] s2]; [|done]. destruct H2 as [Hz Hmu2]. split; [done|].
    rewrite Nat2Z.inj_succ, Z.pow_succ_r by lia. lia.
Qed.

Lemma run_measured n x s : Inv x s -> (mu x s < 2 ^ Z.of_nat n)%Z ->
  exists r s', run (loop n body x) s = (inr r, s') /\ Q r s'.
Proof.
  intros Hx Hmu. pose proof (run_measured_some n x s Hx) as Hl.
  destruct (run (loop n body x) s) as [[y|r] s']; [|by exists r, s'].
  destruct Hl as [Hy Hle]. apply mu_nonneg in Hy. lia.
Qed.
End Measures.

(** The same for a measure of the loop's value alone. *)
Lemma run_loop_some {S X R} (body : X -> prog S (X + R)) (mu : X -> Z) (Inv : X -> S -> Prop) (Q : R -> S -> Prop)
    (body_step : forall x s, Inv x s ->
      match run (body x) s with
      | (inl y, s') => Inv y s' /\ (mu y < mu x)%Z
      | (inr r, s') => Q r s'
      end) n x s : Inv x s ->
  match run (loop n body x) s with
  | (inl y, s') => Inv y s' /\ (mu y + 2 ^ Z.of_nat n <= mu x)%Z
  | (inr r, s') => Q r s'
  end.
Proof. by apply (run_measured_some body (fun x _ => mu x)). Qed.

Lemma run_loop {S X R} (body : X -> prog S (X + R)) (mu : X -> Z) (Inv : X -> S -> Prop) (Q : R -> S -> Prop)
    (mu_nonneg : forall x s, Inv x s -> (0 <= mu x)%Z)
    (body_step : forall x s, Inv x s ->
      match run (body x) s with
      | (inl y, s') => Inv y s' /\ (mu y < mu x)%Z
      | (inr r, s') => Q r s'
      end) n x s : Inv x s -> (mu x < 2 ^ Z.of_nat n)%Z ->
  exists r s', run (loop n body x) s = (inr r, s') /\ Q r s'.
Proof. by apply (run_measured body (fun x _ => mu x)). Qed.

(** ** Preserved relations

    A program run alone relates its first to its last state by [P] when each of
    its steps does. *)
Section Preserves.
Context {S : Type} (P : S -> S -> Prop) `{!PreOrder P}.

Definition preserves {A} (p : prog S A) : Prop := forall s, P s (run p s).2.

Lemma preserves_ret {A} (a : A) : preserves (Ret a).
Proof. intros s. simpl. reflexivity. Qed.

Lemma preserves_act {A} (f : S -> A * S) : (forall s, P s (f s).2) -> preserves (act f).
Proof. intros Hf s. rewrite run_act. apply Hf. Qed.

Lemma preserves_bind {A B} (p : prog S A) (k : A -> prog S B) :
  preserves p -> (forall a, preserves (k a)) -> preserves (bind p k).
Proof. intros Hp Hk s. rewrite run_bind. etrans; [apply Hp|apply Hk]. Qed.

Lemma preserves_bind_ok {A B E} (p : prog S (result A E)) (k : A -> prog S (result B E)) :
  preserves p -> (forall a, preserves (k a)) -> preserves (bind_ok p k).
Proof. intros Hp Hk. apply preserves_bind; [done|]. intros []; [apply Hk|apply preserves_ret]. Qed.

Lemma preserves_fmap {A B} (f : A -> B) (p : prog S A) : preserves p -> preserves (fmap_prog f p).
Proof. intros Hp. apply preserves_bind; [done|]. intros a. apply preserves_ret. Qed.
End Preserves.

Ltac preserves_step :=
  first
    [ assumption
    | apply preserves_bind_ok | apply preserves_bind | apply preserves_fmap
    | apply preserves_ret
    | progress intros
    | match goal with
      | |- PreOrder _ => apply _
      | |- preserves _ (if ?b then _ else _) => destruct b
      | |- preserves _ (match ?x with _ => _ end) => destruct x
      | |- preserves _ (throw _) => apply preserves_ret
      | |- preserves _ (ok _) => apply preserves_ret
      | |- preserves _ (of_result _) => apply preserves_ret
      end ].

(** ** Interleaving

    A configuration is a pool of tasks over the shared state. Any task may
    take its next atomic step; new tasks may arrive (a request, a spawned
    task); the environment may act (time passes). *)
Section Interleaving.
Context {S A : Type}.
Context (arrives : S -> prog S A -> S -> Prop) (env : S -> S -> Prop).

Definition config : Type := list (prog S A) * S.

Inductive cstep : config -> config -> Prop :=
| cs_run ts i B (f : S -> B * S) k s :
    ts !! i = Some (Act f k) -> cstep (ts, s) (<[i := k (f s).1]> ts, (f s).2)
| cs_arrive ts p s s' : arrives s p s' -> cstep (ts, s) (ts ++ [p], s')
| cs_env ts s s' : env s s' -> cstep (ts, s) (ts, s').

(** ** Ownership

    Some facts a task relies on are exclusive: it holds something (an issued
    secret, say) that no other task holds. [K] names such things; the
    invariant [I s held] relates the shared state to the set held by all
    tasks together. [safe G I p own Q]: a task that holds [own] and runs [p],
    whatever the others do in between, makes only [G] steps, keeps the
    invariant, and ends with a result and holdings that satisfy [Q]. *)
Context {K : Type} `{Countable K}.
Context (G : S -> S -> Prop) (I : S -> gset K -> Prop).

Fixpoint safe {B} (p : prog S B) (own : gset K) (Q : B -> gset K -> Prop) : Prop :=
  match p with
  | Ret a => Q a own
  | Act f k => forall s rest, own ## rest -> I s (own ∪ rest) ->
      G s (f s).2 /\ exists own', own' ## rest /\ I (f s).2 (own' ∪ rest) /\
                               safe (k (f s).1) own' Q
  end.

Lemma safe_mono {B} (p : prog S B) own (Q Q' : B -> gset K -> Prop) :
  (forall b o, Q b o -> Q' b o) -> safe p own Q -> safe p own Q'.
Proof.
  intros HQ. revert own. induction p as [a|C f k IH]; intros own; simpl; [auto|].
  intros Hp s rest Hd Hs. destruct (Hp s rest Hd Hs) as (?&own'&?&?&?). eauto 10.
Qed.

Lemma safe_bind {B C} (p : prog S B) (k : B -> prog S C) own
    (Q : B -> gset K -> Prop) (R : C -> gset K -> Prop) :
  safe p own Q -> (forall b o, Q b o -> safe (k b) o R) -> safe (bind p k) own R.
Proof.
  intros Hp Hk. revert own Hp. induction p as [a|D f k' IH]; intros own Hp; simpl in *; [auto|].
  intros s rest Hd Hs. destruct (Hp s rest Hd Hs) as (?&own'&?&?&?). eauto 10.
Qed.

Lemma safe_bind_ok {B C E} (p : prog S (result B E)) (k : B -> prog S (result C E)) own
    (Q : B -> gset K -> Prop) (R : result C E -> gset K -> Prop) :
  safe p own (fun r o => match r with Ok b => Q b o | Err e => R (Err e) o end) ->
  (forall b o, Q b o -> safe (k b) o R) -> safe (bind_ok p k) own R.
Proof. intros Hp Hk. unfold bind_ok. eapply safe_bind; [exact Hp|]. intros []; simpl; auto. Qed.

Lemma safe_fmap {B C} (f : B -> C) (p : prog S B) own (R : C -> gset K -> Prop) :
  safe p own (fun b o => R (f b) o) -> safe (fmap_prog f p) own R.
Proof. intros. unfold fmap_prog. eapply safe_bind; done. Qed.

Lemma safe_map_prog {X Y E} (l : list X) (body : X -> prog S (result Y E)) own :
  (forall x o, safe (body x) o (fun _ _ => True)) ->
  safe (map_prog l body) own (fun _ _ => True).
Proof.
  intros Hb. revert own. induction l as [|x l IH]; intros own; simpl; [done|].
  eapply (safe_bind_ok _ _ _ (fun _ _ => True)); [eapply safe_mono, Hb; by intros []|].
  intros y o _. eapply (safe_bind_ok _ _ _ (fun _ _ => True)); [eapply safe_mono, IH; by intros []|].
  done.
Qed.

(** [Fin] is what a finished task still holds. *)
Context (Fin : A -> gset K -> Prop).

Hypothesis arrive_safe : forall s p s' held, I s held -> arrives s p s' ->
  G s s' /\ I s' held /\ safe p ∅ Fin.
Hypothesis env_safe : forall s s' held, I s held -> env s s' -> G s s' /\ I s' held.

(** The holdings of the tasks are pairwise disjoint. *)
Definition exclusive (owns : list (gset K)) : Prop :=
  forall i j a b, i <> j -> owns !! i = Some a -> owns !! j = Some b -> a ## b.

Definition pool_safe (c : config) : Prop :=
  exists owns, Forall2 (fun p o => safe p o Fin) c.1 owns
          /\ exclusive owns /\ I c.2 (⋃ owns).

Definition held_by_others (owns : list (gset K)) (i : nat) : gset K :=
  ⋃ (<[i := ∅]> owns).

Lemma elem_of_others owns i x :
  x ∈ held_by_others owns i <-> exists j b, j <> i /\ owns !! j = Some b /\ x ∈ b.
Proof.
  unfold held_by_others. rewrite elem_of_union_list. split.
  - intros (b&[j Hj]%list_elem_of_lookup&Hx). exists j, b.
    apply list_lookup_insert_Some in Hj as [(_&<-&_)|[Hne Hj]]; [set_solver|done].
  - intros (j&b&Hne&Hj&Hx). exists b. split; [|done]. apply list_elem_of_lookup. exists j.
    by rewrite list_lookup_insert_ne.
Qed.

Lemma split_holdings owns i a :
  exclusive owns -> owns !! i = Some a ->
  a ## held_by_others owns i /\ ⋃ owns = a ∪ held_by_others owns i.
Proof.
  intros Hex Hi. split.
  - intros x Hx (j&b&Hne&Hj&Hb)%elem_of_others. by apply (Hex i j a b (not_eq_sym Hne) Hi Hj x).
  - apply set_eq. intros x. rewrite elem_of_union, elem_of_others, elem_of_union_list. split.
    + intros (b&[j Hj]%list_elem_of_lookup&Hx).
      destruct (decide (j = i)); [left; congruence|right; naive_solver].
    + intros [Hx|(j&b&_&Hj&Hx)]; [exists a|exists b]; (split; [|done]);
        apply list_elem_of_lookup; eauto.
Qed.

Lemma update_holdings owns i a a' :
  exclusive owns -> owns !! i = Some a -> a' ## held_by_others owns i ->
  exclusive (<[i := a']> owns) /\ ⋃ (<[i := a']> owns) = a' ∪ held_by_others owns i.
Proof.
  intros Hex Hi Hd. pose proof (lookup_lt_Some _ _ _ Hi) as Hlt.
  assert (forall j b, j <> i -> <[i := a']> owns !! j = Some b -> b ⊆ held_by_others owns i) as Hsub.
  { intros j b Hne Hj x Hx. rewrite list_lookup_insert_ne in Hj by done.
    apply elem_of_others. eauto 10. }
  assert (exclusive (<[i := a']> owns)) as Hex'.
  { intros j k b c Hne Hj Hk. destruct (decide (j = i)) as [->|]; [|destruct (decide (k = i)) as [->|]].
    - rewrite list_lookup_insert_eq in Hj by done. injection Hj as <-.
      specialize (Hsub k c (not_eq_sym Hne) Hk). set_solver.
    - rewrite list_lookup_insert_eq in Hk by done. injection Hk as <-.
      specialize (Hsub j b ltac:(done) Hj). set_solver.
    - rewrite list_lookup_insert_ne in Hj by done. rewrite list_lookup_insert_ne in Hk by done.
      by apply (Hex j k). }
  split; [done|].
  destruct (split_holdings _ i a' Hex') as [_ ->]; [by apply list_lookup_insert_eq|].
  f_equal. unfold held_by_others. by rewrite list_insert_insert_eq.
Qed.

Lemma cstep_safe c c' : pool_safe c -> cstep c c' -> G c.2 c'.2 /\ pool_safe c'.
Proof.
  intros (owns&Hts&Hex&HI) Hstep.
  destruct Hstep as [ts i B f k s Hi|ts p s s' Harr|ts s s' Henv]; simpl in *.
  - destruct (Forall2_lookup_l _ _ _ _ _ Hts Hi) as (own&Hown&Hp); simpl in Hp.
    destruct (split_holdings _ _ _ Hex Hown) as [Hd Heq]. rewrite Heq in HI.
    destruct (Hp s _ Hd HI) as (HG&own'&Hd'&HI'&Hk). split; [done|].
    destruct (update_holdings _ _ _ own' Hex Hown Hd') as [Hex' Hu].
    exists (<[i := own']> owns). repeat split; [|done|by simpl; rewrite Hu].
    by apply Forall2_insert.
  - destruct (arrive_safe _ _ _ _ HI Harr) as (?&?&?). split; [done|].
    exists (owns ++ [∅]). repeat split.
    + apply Forall2_app; [done|]. by repeat constructor.
    + intros i j a b Hne Hi Hj x Ha Hb.
      apply lookup_app_Some in Hi as [Hi|[_ [_ <-]%list_lookup_singleton_Some]]; [|set_solver].
      apply lookup_app_Some in Hj as [Hj|[_ [_ <-]%list_lookup_singleton_Some]]; [|set_solver].
      by apply (Hex i j a b Hne Hi Hj x).
    + simpl. rewrite union_list_app_L; simpl. by rewrite union_empty_r_L, union_empty_r_L.
  - destruct (env_safe _ _ _ HI Henv) as (?&?). split; [done|]. by exists owns.
Qed.

(** Every reachable configuration is safe, so every step anywhere in an
    execution is a guarantee step. *)
Lemma reachable_safe c c' : pool_safe c -> rtc cstep c c' -> pool_safe c'.
Proof.
  intros Hc Hr. induction Hr as [c|c1 c2 c3 Hstep _ IH]; [done|].
  apply IH. by destruct (cstep_safe _ _ Hc Hstep).
Qed.
End Interleaving.

(** A schedule runs one atomic step of each listed task in turn. *)
Section Schedules.
Context {S A : Type}.

Definition sched_step (i : nat) (c : list (prog S A) * S) : list (prog S A) * S :=
  match c.1 !! i with
  | Some (Act f k) => (<[i := k (f c.2).1]> c.1, (f c.2).2)
  | _ => c
  end.

Fixpoint run_schedule (sch : list nat) (c : list (prog S A) * S) : list (prog S A) * S :=
  match sch with
  | [] => c
  | i :: sch' => run_schedule sch' (sched_step i c)
  end.

Lemma run_schedule_reachable arrives env sch c :
  rtc (cstep (S:=S) (A:=A) arrives env) c (run_schedule sch c).
Proof.
  revert c. induction sch as [|i sch IH]; intros c; simpl; [apply rtc_refl|].
  unfold sched_step. destruct c as [ts s]; simpl.
  destruct (ts !! i) as [[a|B f k]|] eqn:Hi; simpl; [apply IH| |apply IH].
  eapply rtc_l; [by eapply cs_run|]. apply IH.
Qed.

Lemma sched_step_cstep arrives env i c :
  (match c.1 !! i with Some (Act _ _) => true | _ => false end) = true ->
  cstep (S:=S) (A:=A) arrives env c (sched_step i c).
Proof.
  unfold sched_step. destruct c as [ts s]; simpl.
  destruct (ts !! i) as [[a|B f k]|] eqn:Hi; [done| |done]. intros _. by eapply cs_run.
Qed.
End Schedules.
