(* ===== verification/Core.v ===== *)
(** * Domain types and runtime contract

    Models [crates/ferrobox-core/src/lib.rs]: the limits, identifiers, request
    types with their [validate] methods, the sandbox state machine, path
    confinement, error kinds, and the [SandboxRuntime] trait that both runtime
    backends implement and the HTTP API is written against. *)
From S2P Require Import Prelude Conc.

(** ** Limits *)

Definition MAX_CPU_COUNT : Z := 32.
Definition MIN_MEMORY_MB : Z := 128.
Definition MAX_MEMORY_MB : Z := 32 * 1024.
Definition MAX_TIMEOUT_SECONDS : Z := 86400.
Definition MAX_OUTPUT_BYTES : Z := 16 * 1024 * 1024.
Definition MAX_FILE_BYTES : Z := 64 * 1024 * 1024.
Definition MAX_SNAPSHOT_NAME_BYTES : Z := 128.

(** ** Identifiers

    The [uuid] crate: an identifier type with its text form, and the sequences
    of identifiers that successive calls of [Uuid::now_v7] and [Uuid::new_v4]
    return. The laws are the documented ones: [FromStr] accepts the [Display]
    form, and generated identifiers are unique. *)
Class UuidLib := {
  Uuid : Type;
  Uuid_eq_dec :: EqDecision Uuid;
  Uuid_countable :: Countable Uuid;
  uuid_to_string : Uuid -> string;
  uuid_parse : string -> option Uuid;
  now_v7 : nat -> Uuid;
  new_v4 : nat -> Uuid;
  uuid_parse_to_string u : uuid_parse (uuid_to_string u) = Some u;
  now_v7_inj n m : now_v7 n = now_v7 m -> n = m;
  new_v4_inj n m : new_v4 n = new_v4 m -> n = m;
}.


(** The [sha2], [base64], [rand] and [subtle] crates: digests, the two base64
    alphabets in use, the successive results of [rand::random], and
    constant-time comparison. *)
Class CryptoLib := {
  sha256 : list Byte.byte -> list Byte.byte;
  base64_url : list Byte.byte -> string;
  base64_encode : list Byte.byte -> string;
  base64_decode : string -> option (list Byte.byte);
  random_secret : nat -> list Byte.byte;
  ct_eq : list Byte.byte -> list Byte.byte -> bool;
  ct_eq_spec a b : ct_eq a b = true <-> a = b;
  base64_roundtrip d : base64_decode (base64_encode d) = Some d;
  base64_url_nonempty d : d <> [] -> base64_url d <> "";
  random_secret_length n : length (random_secret n) = 32;
}.

Section Ids.
Context `{UuidLib}.

Record SandboxId := MkSandboxId { sandbox_uuid : Uuid }.
Record SnapshotId := MkSnapshotId { snapshot_uuid : Uuid }.

#[export] Instance SandboxId_eq_dec : EqDecision SandboxId.
Proof. solve_decision. Defined.
#[export] Instance SnapshotId_eq_dec : EqDecision SnapshotId.
Proof. solve_decision. Defined.
#[export] Instance SandboxId_countable : Countable SandboxId.
Proof. by refine (inj_countable' sandbox_uuid MkSandboxId _); intros []. Defined.
#[export] Instance SnapshotId_countable : Countable SnapshotId.
Proof. by refine (inj_countable' snapshot_uuid MkSnapshotId _); intros []. Defined.

(** [SandboxId::new], the [n]-th identifier generated by the process. *)
Definition SandboxId_new (n : nat) : SandboxId := MkSandboxId (now_v7 n).
Definition SnapshotId_new (n : nat) : SnapshotId := MkSnapshotId (now_v7 n).

Definition SandboxId_to_string (id : SandboxId) : string := uuid_to_string (sandbox_uuid id).
Definition SandboxId_from_str (s : string) : option SandboxId := MkSandboxId <$> uuid_parse s.
Definition SnapshotId_to_string (id : SnapshotId) : string := uuid_to_string (snapshot_uuid id).
Definition SnapshotId_from_str (s : string) : option SnapshotId := MkSnapshotId <$> uuid_parse s.

Lemma SandboxId_roundtrip id : SandboxId_from_str (SandboxId_to_string id) = Some id.
Proof. destruct id. unfold SandboxId_from_str, SandboxId_to_string; simpl.
  by rewrite uuid_parse_to_string. Qed.
Lemma SnapshotId_roundtrip id : SnapshotId_from_str (SnapshotId_to_string id) = Some id.
Proof. destruct id. unfold SnapshotId_from_str, SnapshotId_to_string; simpl.
  by rewrite uuid_parse_to_string. Qed.
Lemma SandboxId_new_inj n m : SandboxId_new n = SandboxId_new m -> n = m.
Proof. intros Heq. injection Heq. apply now_v7_inj. Qed.
End Ids.

(** ** Errors *)

Inductive RuntimeErrorKind :=
| NotFound | Conflict | InvalidInput | Unauthorized | Unsupported
| Timeout | ResourceExhausted | Unavailable | Internal.

#[export] Instance RuntimeErrorKind_eq_dec : EqDecision RuntimeErrorKind.
Proof. solve_decision. Defined.

Record RuntimeError := MkRuntimeError { re_kind : RuntimeErrorKind; re_message : string }.

#[export] Instance RuntimeError_eq_dec : EqDecision RuntimeError.
Proof. solve_decision. Defined.

Definition RuntimeError_not_found (m : string) : RuntimeError := MkRuntimeError NotFound m.
Definition RuntimeError_invalid (m : string) : RuntimeError := MkRuntimeError InvalidInput m.
Definition RuntimeError_internal (m : string) : RuntimeError := MkRuntimeError Internal m.

Inductive ValidationError :=
| VE_InvalidTemplate | VE_CpuCount | VE_Memory | VE_Timeout | VE_Argv
| VE_Environment | VE_OutputLimit | VE_SandboxPath | VE_ProcessId | VE_SnapshotName.

#[export] Instance ValidationError_eq_dec : EqDecision ValidationError.
Proof. solve_decision. Defined.

(** The [#[error(...)]] messages. *)
Definition ValidationError_to_string (e : ValidationError) : string :=
  match e with
  | VE_InvalidTemplate =>
      "template_id must contain 1-64 ASCII letters, digits, hyphens, or underscores"
  | VE_CpuCount => "cpu_count is outside the supported range"
  | VE_Memory => "memory_mb is outside the supported range"
  | VE_Timeout => "timeout_seconds is outside the supported range"
  | VE_Argv => "argv is empty or invalid"
  | VE_Environment => "environment is invalid"
  | VE_OutputLimit => "max_output_bytes is outside the supported range"
  | VE_SandboxPath => "sandbox path escapes /home/sandbox"
  | VE_ProcessId => "process id is invalid"
  | VE_SnapshotName =>
      "snapshot name must be 1-128 bytes without surrounding whitespace or control characters"
  end.

(** ** Sandbox specification *)

Inductive NetworkMode := Disabled | Internet.

#[export] Instance NetworkMode_eq_dec : EqDecision NetworkMode.
Proof. solve_decision. Defined.

Record SandboxSpec := MkSandboxSpec {
  template_id : string;
  cpu_count : Z;
  memory_mb : Z;
  spec_timeout_seconds : Z;
  network : NetworkMode;
}.

#[export] Instance SandboxSpec_eq_dec : EqDecision SandboxSpec.
Proof. solve_decision. Defined.

Definition template_byte (b : ascii) : bool :=
  is_ascii_alphanumeric b || Ascii.eqb b "-" || Ascii.eqb b "_".

Definition SandboxSpec_validate (s : SandboxSpec) : result unit ValidationError :=
  if is_empty (template_id s) || (64 <? slen (template_id s))%Z
     || negb (string_all template_byte (template_id s))
  then Err VE_InvalidTemplate
  else if negb (in_range 1 MAX_CPU_COUNT (cpu_count s)) then Err VE_CpuCount
  else if negb (in_range MIN_MEMORY_MB MAX_MEMORY_MB (memory_mb s)) then Err VE_Memory
  else if negb (in_range 1 MAX_TIMEOUT_SECONDS (spec_timeout_seconds s)) then Err VE_Timeout
  else Ok tt.

(** ** The sandbox state machine *)

Inductive SandboxState :=
| Creating | Running | Pausing | Paused | Resuming | Deleting | Deleted | Failed.

#[export] Instance SandboxState_eq_dec : EqDecision SandboxState.
Proof. solve_decision. Defined.

Definition can_transition_to (self next : SandboxState) : bool :=
  match self, next with
  | Creating, (Running | Failed | Deleting) => true
  | Running, (Pausing | Deleting | Failed) => true
  | Pausing, (Paused | Failed | Deleting) => true
  | Paused, (Resuming | Deleting | Failed) => true
  | Resuming, (Running | Failed | Deleting) => true
  | Failed, Deleting => true
  | Deleting, (Deleted | Failed) => true
  | _, _ => false
  end.

Definition SandboxState_debug (s : SandboxState) : string :=
  match s with
  | Creating => "Creating" | Running => "Running" | Pausing => "Pausing"
  | Paused => "Paused" | Resuming => "Resuming" | Deleting => "Deleting"
  | Deleted => "Deleted" | Failed => "Failed"
  end.

(** ** Paths inside a sandbox *)

Record SandboxPath := MkSandboxPath { path_str : string }.

#[export] Instance SandboxPath_eq_dec : EqDecision SandboxPath.
Proof. solve_decision. Defined.

Definition SandboxPath_new (value : string) : result SandboxPath ValidationError :=
  let invalid_absolute :=
    starts_with "/" value && negb (String.eqb value "/home/sandbox")
    && negb (starts_with "/home/sandbox/" value) in
  if string_contains nul value
     || existsb (fun part => String.eqb part "..") (split_on slash value)
     || invalid_absolute
  then Err VE_SandboxPath
  else Ok (MkSandboxPath value).

Definition SandboxPath_workspace : SandboxPath := MkSandboxPath "/home/sandbox".

Definition SandboxPath_relative (p : SandboxPath) : string :=
  trim_start_matches slash
    match strip_prefix "/home/sandbox/" (path_str p) with
    | Some r => r
    | None => match strip_prefix "/home/sandbox" (path_str p) with
              | Some r => r
              | None => path_str p
              end
    end.

(** ** Snapshots, processes and files *)

Record CreateSnapshotRequest := MkCreateSnapshotRequest { snapshot_name : option string }.

Definition CreateSnapshotRequest_validate (r : CreateSnapshotRequest) :
  result unit ValidationError :=
  match snapshot_name r with
  | Some name =>
      if is_empty name || (MAX_SNAPSHOT_NAME_BYTES <? slen name)%Z
         || negb (String.eqb (trim name) name) || any_control name
      then Err VE_SnapshotName else Ok tt
  | None => Ok tt
  end.

Record ProcessId := MkProcessId { process_str : string }.

#[export] Instance ProcessId_eq_dec : EqDecision ProcessId.
Proof. solve_decision. Defined.

Definition ProcessId_new (value : string) : result ProcessId ValidationError :=
  if is_empty value || (128 <? slen value)%Z then Err VE_ProcessId
  else Ok (MkProcessId value).

Record ExecRequest := MkExecRequest {
  argv : list string;
  cwd : SandboxPath;
  environment : gmap string string;
  exec_timeout_seconds : Z;
  max_output_bytes : Z;
}.

Definition invalid_argument (a : string) : bool :=
  string_contains nul a || (128 * 1024 <? slen a)%Z.

Definition invalid_variable (kv : string * string) : bool :=
  is_empty kv.1 || string_contains "="%char kv.1 || string_contains nul kv.1
  || string_contains nul kv.2.

Definition ExecRequest_validate (r : ExecRequest) : result unit ValidationError :=
  if bool_decide (argv r = []) || (256 <? length (argv r))%nat
     || existsb invalid_argument (argv r)
  then Err VE_Argv
  else if negb (in_range 1 MAX_TIMEOUT_SECONDS (exec_timeout_seconds r)) then Err VE_Timeout
  else if negb (in_range 1 MAX_OUTPUT_BYTES (max_output_bytes r)) then Err VE_OutputLimit
  else if (256 <? size (environment r))%nat
          || existsb invalid_variable (map_to_list (environment r))
  then Err VE_Environment
  else Ok tt.

Inductive ExecTermination :=
| Exited (exit_code : Z)
| Signaled (signal : Z)
| TimedOut
| OutputLimitExceeded.

#[export] Instance ExecTermination_eq_dec : EqDecision ExecTermination.
Proof. solve_decision. Defined.

Record OutputTruncation := MkOutputTruncation { trunc_stdout : bool; trunc_stderr : bool }.
Definition OutputTruncation_default : OutputTruncation := MkOutputTruncation false false.

(** [Vec<u8>] is a list of bytes. *)
Record ExecResult := MkExecResult {
  er_process_id : ProcessId;
  er_termination : ExecTermination;
  er_stdout : list Byte.byte;
  er_stderr : list Byte.byte;
  er_truncation : OutputTruncation;
}.

Record SignalRequest := MkSignalRequest { sr_process_id : ProcessId; sr_signal : Z }.
Record SignalResult := MkSignalResult { delivered : bool }.
Record WriteFileRequest := MkWriteFileRequest {
  wf_path : SandboxPath; wf_data : list Byte.byte; wf_overwrite : bool; wf_mode : option Z }.
Record WriteFileResult := MkWriteFileResult { bytes_written : Z }.
Record ReadFileRequest := MkReadFileRequest {
  rf_path : SandboxPath; rf_offset : Z; rf_max_bytes : Z }.
Record ReadFileResult := MkReadFileResult { rf_data : list Byte.byte; rf_eof : bool }.
Record ListDirectoryRequest := MkListDirectoryRequest { ld_path : SandboxPath }.

Inductive FileKind := FK_File | FK_Directory.

Record DirectoryEntry := MkDirectoryEntry {
  de_name : string;
  de_path : SandboxPath;
  de_kind : FileKind;
  de_size_bytes : Z;
  de_modified_unix_millis : option Z;
  de_mode : option Z;
}.
Record ListDirectoryResult := MkListDirectoryResult { entries : list DirectoryEntry }.

Section Contract.
Context `{UuidLib}.

Record SandboxHandle := MkSandboxHandle {
  sh_sandbox_id : SandboxId; sh_node_id : string; sh_state : SandboxState }.

Record SnapshotHandle := MkSnapshotHandle {
  sn_snapshot_id : SnapshotId;
  sn_source_sandbox_id : SandboxId;
  sn_name : option string;
  sn_created_at_unix_ms : Z;
  sn_source_state : SandboxState;
  sn_spec : SandboxSpec;
  sn_size_bytes : Z;
  sn_digest_sha256 : string;
}.

Record SnapshotVerification := MkSnapshotVerification {
  sv_snapshot_id : SnapshotId;
  sv_valid : bool;
  sv_checked_artifacts : Z;
  sv_failure : option string;
}.

(** The [SandboxRuntime] trait: each method is a program over the state of
    the runtime, so that the API can be interleaved with it. *)
Class SandboxRuntime (R : Type) := {
  rt_create : SandboxSpec -> prog R (result SandboxHandle RuntimeError);
  rt_execute : SandboxId -> ExecRequest -> prog R (result ExecResult RuntimeError);
  rt_signal : SandboxId -> SignalRequest -> prog R (result SignalResult RuntimeError);
  rt_write : SandboxId -> WriteFileRequest -> prog R (result WriteFileResult RuntimeError);
  rt_read : SandboxId -> ReadFileRequest -> prog R (result ReadFileResult RuntimeError);
  rt_list : SandboxId -> ListDirectoryRequest ->
    prog R (result ListDirectoryResult RuntimeError);
  rt_pause : SandboxId -> prog R (result unit RuntimeError);
  rt_resume : SandboxId -> prog R (result unit RuntimeError);
  rt_create_snapshot : SandboxId -> CreateSnapshotRequest ->
    prog R (result SnapshotHandle RuntimeError);
  rt_list_snapshots : SandboxId -> prog R (result (list SnapshotHandle) RuntimeError);
  rt_get_snapshot : SnapshotId -> prog R (result SnapshotHandle RuntimeError);
  rt_verify_snapshot : SnapshotId -> prog R (result SnapshotVerification RuntimeError);
  rt_restore_snapshot : SnapshotId -> prog R (result SandboxHandle RuntimeError);
  rt_clone_snapshot : SnapshotId -> Z -> prog R (result (list SandboxHandle) RuntimeError);
  rt_rollback_snapshot : SandboxId -> SnapshotId ->
    prog R (result SandboxHandle RuntimeError);
  rt_delete_snapshot : SnapshotId -> prog R (result unit RuntimeError);
  rt_delete : SandboxId -> prog R (result unit RuntimeError);
}.
End Contract.

(** ** Properties of the state machine *)

Definition transition_allowed (a b : SandboxState) : Prop := can_transition_to a b = true.

(** The states in which a sandbox may still serve requests, now or later. *)
Definition live_state (s : SandboxState) : bool :=
  match s with
  | Creating | Running | Pausing | Paused | Resuming => true
  | Deleting | Deleted | Failed => false
  end.

Lemma transition_not_live a b :
  live_state a = false -> transition_allowed a b -> live_state b = false.
Proof. unfold transition_allowed. by destruct a, b. Qed.

Lemma transitions_not_live a b :
  live_state a = false -> rtc transition_allowed a b -> live_state b = false.
Proof. intros Ha Hr. induction Hr as [|x y z Hxy _ IH]; [done|]. eauto using transition_not_live. Qed.

(** Teardown is irreversible and always possible: once a sandbox has left
    the live states (it is Deleting, Deleted or Failed), no sequence of
    transitions that [can_transition_to] accepts brings it back to a live one,
    Deleted has no successor, and Deleted can be reached from every state. *)
Theorem teardown_irreversible :
  (forall a b, live_state a = false -> rtc transition_allowed a b -> live_state b = false)
  /\ (forall b, can_transition_to Deleted b = false)
  /\ (forall a, rtc transition_allowed a Deleted).
Proof.
  split; [exact transitions_not_live|]. split; [by intros []|].
  intros a. destruct (decide (a = Deleted)) as [->|Hne]; [done|].
  destruct (decide (a = Deleting)) as [->|Hne2]; [by apply rtc_once|].
  eapply (rtc_l _ _ Deleting); [by destruct a|]. by apply rtc_once.
Qed.

(** ** Properties of validation *)

Lemma SandboxSpec_validate_ok s :
  SandboxSpec_validate s = Ok tt <->
  template_id s <> "" /\ (slen (template_id s) <= 64)%Z
  /\ string_all template_byte (template_id s) = true
  /\ (1 <= cpu_count s <= 32)%Z /\ (128 <= memory_mb s <= 32768)%Z
  /\ (1 <= spec_timeout_seconds s <= 86400)%Z.
Proof.
  unfold SandboxSpec_validate.
  destruct (is_empty (template_id s)) eqn:E1; simpl.
  { apply is_empty_spec in E1. split; [done|]. by intros [? _]. }
  assert (template_id s <> "") by (intros Heq; by rewrite Heq in E1).
  destruct (Z.ltb_spec 64 (slen (template_id s))); simpl; [split; [done|lia]|].
  destruct (string_all template_byte (template_id s)); simpl; [|split; [done|naive_solver]].
  destruct (in_range 1 MAX_CPU_COUNT (cpu_count s)) eqn:E2; simpl;
    [apply in_range_spec in E2|apply in_range_false in E2; split; [done|unfold MAX_CPU_COUNT in *; lia]].
  destruct (in_range MIN_MEMORY_MB MAX_MEMORY_MB (memory_mb s)) eqn:E3; simpl;
    [apply in_range_spec in E3|apply in_range_false in E3; split; [done|
      unfold MIN_MEMORY_MB, MAX_MEMORY_MB in *; lia]].
  destruct (in_range 1 MAX_TIMEOUT_SECONDS (spec_timeout_seconds s)) eqn:E4; simpl;
    [apply in_range_spec in E4|apply in_range_false in E4; split; [done|
      unfold MAX_TIMEOUT_SECONDS in *; lia]].
  unfold MAX_CPU_COUNT, MIN_MEMORY_MB, MAX_MEMORY_MB, MAX_TIMEOUT_SECONDS in *.
  split; [|done]. intros _. repeat split; (done || lia).
Qed.

(** A valid template identifier is free of path separators and NUL bytes. *)
Lemma template_bytes_not_contain c s :
  template_byte c = false -> string_all template_byte s = true -> string_contains c s = false.
Proof.
  intros Hc. induction s as [|a s IH]; simpl; [done|].
  rewrite andb_true_iff, string_contains_cons, orb_false_iff. intros [Ha Hs].
  split; [|auto]. apply Ascii.eqb_neq. intros ->. congruence.
Qed.

(** ** Path confinement *)

Lemma SandboxPath_new_ok v p :
  SandboxPath_new v = Ok p <->
  p = MkSandboxPath v /\ string_contains nul v = false /\ (".." ∉ split_on slash v)
  /\ (starts_with "/" v = true ->
      v = "/home/sandbox" \/ starts_with "/home/sandbox/" v = true).
Proof.
  unfold SandboxPath_new.
  destruct (string_contains nul v); simpl; [naive_solver|].
  destruct (existsb _ _) eqn:Hdd; simpl.
  { apply existsb_exists in Hdd as (x&Hin&Hx). apply String.eqb_eq in Hx as ->.
    apply list_elem_of_In in Hin. naive_solver. }
  assert (".." ∉ split_on slash v).
  { intros Hin. apply list_elem_of_In in Hin. apply not_true_iff_false in Hdd. apply Hdd.
    apply existsb_exists. exists "..". by rewrite String.eqb_refl. }
  destruct (starts_with "/" v); simpl; [|naive_solver].
  destruct (String.eqb_spec v "/home/sandbox"); simpl; [naive_solver|].
  destruct (starts_with "/home/sandbox/" v); naive_solver.
Qed.

(** The part of an accepted path below the workspace keeps the accepted path's
    good properties and loses its root. *)
Definition confined (r : string) : Prop :=
  starts_with "/" r = false /\ (".." ∉ split_on slash r) /\ string_contains nul r = false.

Lemma confined_trim r :
  ".." ∉ split_on slash r -> string_contains nul r = false ->
  confined (trim_start_matches slash r).
Proof.
  intros Hdd Hnul. destruct (trim_start_matches_spec slash r) as (n&Heq&Hno).
  rewrite Heq in Hdd, Hnul. rewrite split_on_iter_sep in Hdd.
  split; [|split; [set_solver|by apply string_contains_iter in Hnul]].
  destruct (starts_with "/" (trim_start_matches slash r)) eqn:E; [|done].
  apply starts_with_spec in E as [t Ht]. by destruct (Hno t).
Qed.

Lemma relative_confined p v : SandboxPath_new v = Ok p -> confined (SandboxPath_relative p).
Proof.
  intros (->&Hnul&Hdd&Habs)%SandboxPath_new_ok. unfold SandboxPath_relative; cbn [path_str].
  destruct (strip_prefix "/home/sandbox/" v) as [r|] eqn:E1.
  - apply strip_prefix_Some in E1 as ->.
    change ("/home/sandbox/" +:+ r) with ("/home/sandbox" +:+ String slash r) in *.
    rewrite split_on_app_sep in Hdd. rewrite string_contains_app, orb_false_iff in Hnul.
    destruct Hnul as [_ Hnul]. rewrite string_contains_cons, orb_false_iff in Hnul.
    apply confined_trim; [set_solver|naive_solver].
  - destruct (strip_prefix "/home/sandbox" v) as [r|] eqn:E2.
    + assert (starts_with "/" v = true) as Hs.
      { apply strip_prefix_Some in E2 as ->. by apply starts_with_spec; eexists. }
      destruct (Habs Hs) as [->|Hs']; [|].
      { cbn in E2. injection E2 as <-. apply confined_trim; [set_solver|done]. }
      unfold starts_with in Hs'. by rewrite E1 in Hs'.
    + by apply confined_trim.
Qed.

(** ** Paths of directory entries

    Both directory listings build the path of an entry from the requested
    path and the entry's name. *)
Definition child_path (base : string) (name : string) : string :=
  trim_end_matches slash base +:+ "/" +:+ name.

(** What an operating system guarantees of a directory entry's name. *)
Definition entry_name (name : string) : Prop :=
  string_contains slash name = false /\ string_contains nul name = false /\ name <> "..".

Lemma child_path_absolute v name :
  string_contains slash name = false ->
  v = "/home/sandbox" \/ starts_with "/home/sandbox/" v = true ->
  starts_with "/home/sandbox/" (child_path v name) = true.
Proof.
  intros Hname Hv. apply starts_with_spec. unfold child_path.
  assert (exists r, v = "/home/sandbox" +:+ r /\ (r = "" \/ exists t, r = String slash t))
    as (r&->&Hr).
  { destruct Hv as [->|[t ->]%starts_with_spec]; [by exists ""; split; [|left]|].
    exists (String slash t). split; [done|]. right. by eexists. }
  rewrite trim_end_matches_app. destruct (is_empty _) eqn:E; [by exists name|].
  destruct Hr as [->|[t ->]]; [done|].
  destruct (trim_end_matches slash (String slash t)) as [|a u] eqn:Eu; [done|].
  assert (a = slash) as ->.
  { destruct (trim_end_matches_spec slash (String slash t)) as (q&Hq&_).
    rewrite Eu in Hq. simpl in Hq. by injection Hq. }
  exists (u +:+ "/" +:+ name). done.
Qed.

Lemma child_path_spec p name :
  SandboxPath_new (path_str p) = Ok p -> entry_name name ->
  is_ok (SandboxPath_new (child_path (path_str p) name)) = negb (is_empty (path_str p)).
Proof.
  intros (_&Hnul&Hdd&Habs)%SandboxPath_new_ok (Hslash&Hnnul&Hndd).
  set (v := path_str p) in *.
  assert (string_contains nul (child_path v name) = false) as Hcnul.
  { unfold child_path. rewrite !string_contains_app, string_contains_trim_end, Hnnul; done. }
  assert (".." ∉ split_on slash (child_path v name)) as Hcdd.
  { unfold child_path. change ("/" +:+ name) with (String slash name).
    rewrite split_on_app_sep, (split_on_no_sep slash name) by done.
    rewrite elem_of_app, list_elem_of_singleton.
    intros [Hin|<-]; [by apply Hdd, (split_on_trim_end slash)|done]. }
  destruct (is_empty v) eqn:Ev; simpl.
  - apply is_empty_spec in Ev. rewrite Ev. unfold child_path; simpl.
    destruct (SandboxPath_new (String "/" name)) eqn:E; [|done].
    apply SandboxPath_new_ok in E as (_&_&_&E).
    destruct E as [[= Hn]|[t Ht]%starts_with_spec]; [done| |].
    + by rewrite Hn in Hslash.
    + injection Ht as ->. by cbn in Hslash.
  - destruct (SandboxPath_new (child_path v name)) eqn:E; [done|]. exfalso.
    assert (SandboxPath_new (child_path v name) = Ok (MkSandboxPath (child_path v name))) as E';
      [|by rewrite E' in E].
    apply SandboxPath_new_ok. repeat split; [done|done|]. intros Hs. right.
    apply child_path_absolute, Habs; [done|].
    apply starts_with_spec. apply starts_with_spec in Hs as [t Ht].
    destruct (trim_end_matches_spec slash v) as (q&Hq&Hall).
    destruct (trim_end_matches slash v) as [|a u] eqn:Eu.
    + simpl in Hq. subst q. destruct v as [|b w]; [done|]. cbn [string_all] in Hall.
      apply andb_true_iff in Hall as [Hb%eqb_ascii_spec _]. rewrite <-Hb. by eexists.
    + unfold child_path in Ht. rewrite Eu in Ht. injection Ht as -> _. rewrite Hq. by eexists.
Qed.
