(* ===== verification/Utf8.v ===== *)
(** * Lossy UTF-8 decoding

    [String::from_utf8_lossy], which the API applies to command output: valid
    sequences are kept and every maximal invalid prefix of a sequence becomes
    one U+FFFD. *)
From S2P Require Import Prelude.

Definition byte_N (b : Byte.byte) : N := Byte.to_N b.
Definition byte_in (lo hi : N) (b : Byte.byte) : bool := (lo <=? byte_N b)%N && (byte_N b <=? hi)%N.

(** The ranges that the continuation bytes of a sequence starting with [b] must
    fall in, or [None] when no sequence starts with [b]. *)
Definition continuation (b : Byte.byte) : option (list (N * N)) :=
  let c := (0x80, 0xBF)%N in
  if byte_in 0x00 0x7F b then Some []
  else if byte_in 0xC2 0xDF b then Some [c]
  else if byte_in 0xE0 0xE0 b then Some [(0xA0, 0xBF)%N; c]
  else if byte_in 0xE1 0xEC b || byte_in 0xEE 0xEF b then Some [c; c]
  else if byte_in 0xED 0xED b then Some [(0x80, 0x9F)%N; c]
  else if byte_in 0xF0 0xF0 b then Some [(0x90, 0xBF)%N; c; c]
  else if byte_in 0xF1 0xF3 b then Some [c; c; c]
  else if byte_in 0xF4 0xF4 b then Some [(0x80, 0x8F)%N; c; c]
  else None.

(** How many of the leading bytes of [l] fit the ranges, and whether all
    ranges were met. *)
Fixpoint match_ranges (rs : list (N * N)) (l : list Byte.byte) : nat * bool :=
  match rs, l with
  | [], _ => (0, true)
  | (lo, hi) :: rs', b :: l' =>
      if byte_in lo hi b then let '(n, full) := match_ranges rs' l' in (S n, full)
      else (0, false)
  | _ :: _, [] => (0, false)
  end.

Definition replacement : list Byte.byte := [Byte.xef; Byte.xbf; Byte.xbd].

Fixpoint lossy (fuel : nat) (l : list Byte.byte) : list Byte.byte :=
  match fuel, l with
  | S fuel', b :: l' =>
      match continuation b with
      | None => replacement ++ lossy fuel' l'
      | Some rs =>
          let '(n, full) := match_ranges rs l' in
          (if full then b :: take n l' else replacement) ++ lossy fuel' (drop n l')
      end
  | _, _ => []
  end.

Definition from_utf8_lossy (l : list Byte.byte) : string :=
  String.string_of_list_byte (lossy (length l) l).

(** [String::from_utf8]: nothing is lost exactly when all of it is valid. *)
Definition from_utf8 (l : list Byte.byte) : option string :=
  if bool_decide (lossy (length l) l = l) then Some (String.string_of_list_byte l) else None.

(** Valid UTF-8, by the same table. *)
Inductive utf8_valid : list Byte.byte -> Prop :=
| utf8_nil : utf8_valid []
| utf8_char b rs l l' :
    continuation b = Some rs -> match_ranges rs l = (length rs, true) ->
    l' = drop (length rs) l -> utf8_valid l' -> utf8_valid (b :: l).

Lemma match_ranges_le rs l n full : match_ranges rs l = (n, full) -> n <= length l.
Proof.
  revert l n full. induction rs as [|[lo hi] rs IH]; intros l n full; simpl.
  { intros [= <- _]. lia. }
  destruct l as [|b l]; simpl; [intros [= <- _]; lia|].
  destruct (byte_in lo hi b); [|intros [= <- _]; lia].
  destruct (match_ranges rs l) as [m g] eqn:E. intros [= <- _]. apply IH in E. lia.
Qed.

Lemma lossy_valid l : utf8_valid l -> forall fuel, length l <= fuel -> lossy fuel l = l.
Proof.
  induction 1 as [|b rs l l' Hc Hm Hl' _ IH]; intros fuel Hf; [by destruct fuel|].
  destruct fuel as [|fuel]; simpl in *; [lia|]. rewrite Hc, Hm. simpl. f_equal.
  rewrite <-Hl', IH.
  - rewrite Hl'. apply take_drop.
  - rewrite Hl', length_drop. lia.
Qed.

Lemma from_utf8_lossy_valid l :
  utf8_valid l -> from_utf8_lossy l = String.string_of_list_byte l.
Proof. intros Hv. unfold from_utf8_lossy. by rewrite lossy_valid. Qed.

Example lossy_examples :
  (lossy 3 [Byte.x61; Byte.xff; Byte.x62], lossy 3 [Byte.xe2; Byte.x82; Byte.x61],
   lossy 2 [Byte.xc3; Byte.xa9])
  = ([Byte.x61] ++ replacement ++ [Byte.x62], replacement ++ [Byte.x61],
     [Byte.xc3; Byte.xa9]).
Proof. reflexivity. Qed.
