(* ===== verification/Api.v ===== *)
(** * HTTP control plane

    Models [crates/ferrobox-api/src/lib.rs] with its modules [auth.rs] and
    [audit.rs]: the shared state behind the router, bearer authorisation, every
    route handler, and the TTL reaper. Handlers are programs of atomic steps
    over [World], which holds the API state, the runtime behind the
    [SandboxRuntime] interface, the clocks and the audit log. *)
From S2P Require Import Prelude Conc Core Utf8.
(** ** Errors *)

Definition StatusCode := N.
Definition OK : StatusCode := 200%N.
Definition CREATED : StatusCode := 201%N.
Definition NO_CONTENT : StatusCode := 204%N.

Record ApiError := MkApiError { ae_status : StatusCode; ae_code : string; ae_message : string }.

#[export] Instance ApiError_eq_dec : EqDecision ApiError.
Proof. solve_decision. Defined.

Definition bad_request (m : string) : ApiError := MkApiError 400%N "invalid_request" m.
Definition unauthorized (m : string) : ApiError := MkApiError 401%N "unauthorized" m.
Definition not_found (m : string) : ApiError := MkApiError 404%N "not_found" m.
Definition conflict (m : string) : ApiError := MkApiError 409%N "conflict" m.
Definition internal : ApiError := MkApiError 500%N "internal" "internal server error".

Definition from_runtime (e : RuntimeError) : ApiError :=
  match re_kind e with
  | NotFound => MkApiError 404%N "not_found" (re_message e)
  | Conflict => MkApiError 409%N "conflict" (re_message e)
  | InvalidInput => MkApiError 400%N "invalid_request" (re_message e)
  | Unauthorized => MkApiError 401%N "unauthorized" (re_message e)
  | Unsupported => MkApiError 501%N "unsupported" (re_message e)
  | Timeout => MkApiError 504%N "timeout" (re_message e)
  | ResourceExhausted => MkApiError 413%N "resource_exhausted" (re_message e)
  | Unavailable => MkApiError 503%N "unavailable" (re_message e)
  | Internal => internal
  end.

(** ** Request bodies and defaults *)

Definition default_cpu : Z := 1.
Definition default_memory : Z := 512.
Definition default_ttl : Z := 300.
Definition default_command_timeout : Z := 30.
Definition default_output_limit : Z := 1024 * 1024.
Definition default_file_read_limit : Z := 64 * 1024 * 1024.
Definition default_snapshot_limit : nat := 50.
Definition default_cwd : string := "/home/sandbox".

Record CreateSandboxRequest := MkCreateSandboxRequest {
  cr_template : string; cr_cpu_count : Z; cr_memory_mb : Z;
  cr_timeout_seconds : Z; cr_internet_access : bool }.

Record ExecuteCommandRequest := MkExecuteCommandRequest {
  ec_argv : list string; ec_cwd : string; ec_environment : gmap string string;
  ec_timeout_seconds : Z; ec_max_output_bytes : Z }.

Record WriteFileBody := MkWriteFileBody {
  wb_path : string; wb_content_base64 : string; wb_overwrite : bool; wb_mode : option Z }.

Record ReadFileQuery := MkReadFileQuery {
  rq_path : string; rq_offset : Z; rq_max_bytes : Z }.

Record ListSnapshotsQuery := MkListSnapshotsQuery { lq_limit : nat; lq_cursor : option string }.

Record CloneSnapshotRequest := MkCloneSnapshotRequest { cs_count : Z; cs_timeout_seconds : Z }.

Definition validate_ttl (value : Z) : result unit ApiError :=
  if negb (in_range 1 MAX_TIMEOUT_SECONDS value)
  then Err (bad_request "timeout_seconds is outside the supported range")
  else Ok tt.

(** The one header the handlers read: [headers.get(AUTHORIZATION)], and the
    result of [to_str().ok()] on its value. *)
Record HeaderMap := MkHeaderMap { authorization : option (option string) }.

Definition bearer (headers : HeaderMap) : result string ApiError :=
  ok_or (unauthorized "missing bearer token")
    (match authorization headers with
     | Some (Some value) =>
         match strip_prefix "Bearer " value with
         | Some token => if is_empty token then None else Some token
         | None => None
         end
     | _ => None
     end).

Section Api.
Context `{U : UuidLib} `{C : CryptoLib} {R : Type} `{RT : @SandboxRuntime U R}.

Definition parse_id (value : string) : result SandboxId ApiError :=
  ok_or (bad_request "sandbox id is invalid") (SandboxId_from_str value).

Definition parse_snapshot_id (value : string) : result SnapshotId ApiError :=
  ok_or (bad_request "snapshot id is invalid") (SnapshotId_from_str value).

(** ** Shared state *)

(** [TokenDigest] of [auth.rs]. *)
Record TokenDigest := MkTokenDigest { digest : list Byte.byte }.

Definition from_plaintext (plaintext : string) : TokenDigest :=
  MkTokenDigest (sha256 (String.list_byte_of_string plaintext)).

Definition token_matches (self : TokenDigest) (candidate : string) : bool :=
  ct_eq (digest self) (digest (from_plaintext candidate)).

Record SandboxRecord := MkSandboxRecord {
  rec_token : TokenDigest;
  rec_state : SandboxState;
  rec_node_id : string;
  rec_expires_at : Z;
  rec_expires_at_unix_ms : Z;
}.

Record SnapshotRecord := MkSnapshotRecord {
  srec_token : TokenDigest;
  srec_source_sandbox_id : SandboxId;
}.

Record AuditEvent := MkAuditEvent {
  ev_timestamp_unix_ms : Z;
  ev_sandbox_id : option string;
  ev_operation : string;
  ev_outcome : string;
  ev_details : gmap string string;
}.

(** The state that handlers share: the runtime, the two record tables, the
    lines of the audit log, and the process environment. [w_audit_faults]
    says which of the next audit writes fail with an I/O error, [w_rng] counts
    the secrets drawn so far, [w_reapers] holds the spawned TTL tasks with the
    instant their sleep ends, and [w_now] is [Instant::now] in milliseconds. *)
Record World := MkWorld {
  w_runtime : R;
  w_records : gmap SandboxId SandboxRecord;
  w_snapshots : gmap SnapshotId SnapshotRecord;
  w_audit : list AuditEvent;
  w_audit_faults : list bool;
  w_reapers : list (SandboxId * Z);
  w_now : Z;
  w_unix_ms : Z;
  w_rng : nat;
}.

Definition set_runtime (x : R) (w : World) : World :=
  MkWorld x (w_records w) (w_snapshots w) (w_audit w) (w_audit_faults w) (w_reapers w)
    (w_now w) (w_unix_ms w) (w_rng w).
Definition set_records (x : gmap SandboxId SandboxRecord) (w : World) : World :=
  MkWorld (w_runtime w) x (w_snapshots w) (w_audit w) (w_audit_faults w) (w_reapers w)
    (w_now w) (w_unix_ms w) (w_rng w).
Definition set_snapshots (x : gmap SnapshotId SnapshotRecord) (w : World) : World :=
  MkWorld (w_runtime w) (w_records w) x (w_audit w) (w_audit_faults w) (w_reapers w)
    (w_now w) (w_unix_ms w) (w_rng w).
Definition set_audit (x : list AuditEvent) (fs : list bool) (w : World) : World :=
  MkWorld (w_runtime w) (w_records w) (w_snapshots w) x fs (w_reapers w)
    (w_now w) (w_unix_ms w) (w_rng w).
Definition set_reapers (x : list (SandboxId * Z)) (w : World) : World :=
  MkWorld (w_runtime w) (w_records w) (w_snapshots w) (w_audit w) (w_audit_faults w) x
    (w_now w) (w_unix_ms w) (w_rng w).
Definition set_rng (n : nat) (w : World) : World :=
  MkWorld (w_runtime w) (w_records w) (w_snapshots w) (w_audit w) (w_audit_faults w)
    (w_reapers w) (w_now w) (w_unix_ms w) n.
Definition set_time (now unix_ms : Z) (w : World) : World :=
  MkWorld (w_runtime w) (w_records w) (w_snapshots w) (w_audit w) (w_audit_faults w)
    (w_reapers w) now unix_ms (w_rng w).

#[export] Instance runtime_lens : Lens World R.
Proof. by refine {| view := w_runtime; put := set_runtime |}; intros; destruct s. Defined.

(** ** Steps *)

(** [AuditLog::record]: one event is appended, or the write fails. *)
Definition AuditLog_record (sandbox_id : option string) (operation outcome : string)
    (details : gmap string string) : prog World (result unit ApiError) :=
  act (fun w =>
    let event := MkAuditEvent (w_unix_ms w) sandbox_id operation outcome details in
    match w_audit_faults w with
    | true :: fs => (Err internal, set_audit (w_audit w) fs w)
    | false :: fs => (Ok tt, set_audit (w_audit w ++ [event]) fs w)
    | [] => (Ok tt, set_audit (w_audit w ++ [event]) [] w)
    end).

(** [TokenDigest::issue]: a fresh plaintext and its digest. *)
Definition plaintext_of (n : nat) : string := base64_url (random_secret n).
Definition issue : prog World (string * TokenDigest) :=
  act (fun w =>
    let plaintext := plaintext_of (w_rng w) in
    ((plaintext, from_plaintext plaintext), set_rng (S (w_rng w)) w)).

Definition runtime_call {A} (p : prog R (result A RuntimeError)) : prog World (result A ApiError) :=
  prog_map_err from_runtime (lift p).

Definition transition (id : SandboxId) (next : SandboxState) : prog World (result unit ApiError) :=
  act (fun w =>
    match w_records w !! id with
    | None => (Err (not_found "sandbox does not exist"), w)
    | Some record =>
        if can_transition_to (rec_state record) next then
          let record' := MkSandboxRecord (rec_token record) next (rec_node_id record)
            (rec_expires_at record) (rec_expires_at_unix_ms record) in
          (Ok tt, set_records (<[id := record']> (w_records w)) w)
        else
          (Err (conflict ("invalid state transition: " +:+ SandboxState_debug (rec_state record)
            +:+ " -> " +:+ SandboxState_debug next)), w)
    end).

Definition authorize (id : SandboxId) (headers : HeaderMap) :
  prog World (result SandboxRecord ApiError) :=
  (do? token <- of_result (bearer headers) ;;
   do? record <- gets (fun w => ok_or (not_found "sandbox does not exist") (w_records w !! id)) ;;
   do now <- gets w_now ;;
   if (rec_expires_at record <=? now)%Z then
     throw (MkApiError 410%N "sandbox_expired" "sandbox token has expired")
   else if negb (token_matches (rec_token record) token) then
     throw (unauthorized "invalid bearer token")
   else ok record)%prog.

Definition authorize_running (id : SandboxId) (headers : HeaderMap) :
  prog World (result SandboxRecord ApiError) :=
  (do? record <- authorize id headers ;;
   if bool_decide (rec_state record = Running) then ok record
   else throw (conflict "sandbox is not running"))%prog.

Definition authorize_snapshot (id : SnapshotId) (headers : HeaderMap) :
  prog World (result SnapshotRecord ApiError) :=
  (do? token <- of_result (bearer headers) ;;
   do? record <- gets (fun w => ok_or (not_found "snapshot does not exist") (w_snapshots w !! id)) ;;
   if negb (token_matches (srec_token record) token) then
     throw (unauthorized "invalid snapshot bearer token")
   else ok record)%prog.
(** ** Handlers *)

Record CreateSandboxResponse := MkCreateSandboxResponse {
  resp_sandbox_id : SandboxId; resp_node_id : string; resp_state : SandboxState;
  resp_token : string; resp_expires_at_unix_ms : Z }.

Record SandboxResponse := MkSandboxResponse {
  sr_sandbox_id : SandboxId; sr_node_id : string; sr_state : SandboxState;
  sr_expires_at_unix_ms : Z }.

Record ExecuteCommandResponse := MkExecuteCommandResponse {
  xr_process_id : string; xr_termination : ExecTermination;
  xr_stdout : string; xr_stderr : string;
  xr_stdout_base64 : string; xr_stderr_base64 : string;
  xr_truncation : OutputTruncation }.

Record ReadFileResponse := MkReadFileResponse {
  rr_content_base64 : string; rr_bytes : nat; rr_eof : bool }.

Record CreateSnapshotResponse := MkCreateSnapshotResponse {
  csr_snapshot : SnapshotHandle; csr_token : string }.

Record ListSnapshotsResponse := MkListSnapshotsResponse {
  ls_snapshots : list SnapshotHandle; ls_next_cursor : option string }.

Definition register_sandbox (handle : SandboxHandle) (ttl_seconds : Z) :
  prog World CreateSandboxResponse :=
  (do (token, dig) <- issue ;;
   do now <- gets w_now ;;
   let expires_at := (now + ttl_seconds * 1000)%Z in
   do unix_ms <- gets w_unix_ms ;;
   let expires_at_unix_ms :=
     saturating_add u128_max unix_ms (saturating_mul u128_max ttl_seconds 1000) in
   do _ <- modify (fun w => set_records
     (<[sh_sandbox_id handle := MkSandboxRecord dig (sh_state handle) (sh_node_id handle)
          expires_at expires_at_unix_ms]> (w_records w)) w) ;;
   do _ <- modify (fun w => set_reapers
     (w_reapers w ++ [(sh_sandbox_id handle, (w_now w + ttl_seconds * 1000)%Z)]) w) ;;
   Ret (MkCreateSandboxResponse (sh_sandbox_id handle) (sh_node_id handle) (sh_state handle)
     token expires_at_unix_ms))%prog.

Definition create_spec (request : CreateSandboxRequest) : SandboxSpec :=
  MkSandboxSpec (cr_template request) (cr_cpu_count request) (cr_memory_mb request)
    (cr_timeout_seconds request)
    (if cr_internet_access request then Internet else Disabled).

Definition NetworkMode_debug (m : NetworkMode) : string :=
  match m with Disabled => "Disabled" | Internet => "Internet" end.

Definition create_details (spec : SandboxSpec) : gmap string string :=
  <["network" := NetworkMode_debug (network spec)]> {["template" := template_id spec]}.

Definition validation {A} (r : result A ValidationError) : result A ApiError :=
  map_err (fun e => bad_request (ValidationError_to_string e)) r.

Definition create_sandbox (request : CreateSandboxRequest) :
  prog World (result (StatusCode * CreateSandboxResponse) ApiError) :=
  let spec := create_spec request in
  let details := create_details spec in
  (do? _ <- of_result (validation (SandboxSpec_validate spec)) ;;
   do? _ <- AuditLog_record None "create" "started" details ;;
   do created <- lift (rt_create spec) ;;
   match created with
   | Err error =>
       do? _ <- AuditLog_record None "create" "failed" {["error" := re_message error]} ;;
       throw (from_runtime error)
   | Ok handle =>
       do response <- register_sandbox handle (spec_timeout_seconds spec) ;;
       do? _ <- AuditLog_record (Some (SandboxId_to_string (resp_sandbox_id response)))
         "create" "succeeded" details ;;
       ok (CREATED, response)
   end)%prog.

Definition get_sandbox (id : string) (headers : HeaderMap) :
  prog World (result SandboxResponse ApiError) :=
  (do? id <- of_result (parse_id id) ;;
   do? record <- authorize id headers ;;
   ok (MkSandboxResponse id (rec_node_id record) (rec_state record)
     (rec_expires_at_unix_ms record)))%prog.

Definition execute_command (id : string) (headers : HeaderMap)
    (request : ExecuteCommandRequest) : prog World (result ExecuteCommandResponse ApiError) :=
  (do? id <- of_result (parse_id id) ;;
   do? _ <- authorize_running id headers ;;
   do? cwd <- of_result (validation (SandboxPath_new (ec_cwd request))) ;;
   let request := MkExecRequest (ec_argv request) cwd (ec_environment request)
     (ec_timeout_seconds request) (ec_max_output_bytes request) in
   do? result <- runtime_call (rt_execute id request) ;;
   do? _ <- AuditLog_record (Some (SandboxId_to_string id)) "execute" "succeeded"
     {["process_id" := process_str (er_process_id result)]} ;;
   ok (MkExecuteCommandResponse (process_str (er_process_id result)) (er_termination result)
     (from_utf8_lossy (er_stdout result)) (from_utf8_lossy (er_stderr result))
     (base64_encode (er_stdout result)) (base64_encode (er_stderr result))
     (er_truncation result)))%prog.

Definition write_file (id : string) (headers : HeaderMap) (request : WriteFileBody) :
  prog World (result Z ApiError) :=
  (do? id <- of_result (parse_id id) ;;
   do? _ <- authorize_running id headers ;;
   do? data <- of_result (ok_or (bad_request "content_base64 is invalid")
     (base64_decode (wb_content_base64 request))) ;;
   do? path <- of_result (validation (SandboxPath_new (wb_path request))) ;;
   do? result <- runtime_call (rt_write id
     (MkWriteFileRequest path data (wb_overwrite request) (wb_mode request))) ;;
   do? _ <- AuditLog_record (Some (SandboxId_to_string id)) "write_file" "succeeded"
     {["bytes" := pretty (bytes_written result)]} ;;
   ok (bytes_written result))%prog.

Definition read_file (id : string) (headers : HeaderMap) (request : ReadFileQuery) :
  prog World (result ReadFileResponse ApiError) :=
  (do? id <- of_result (parse_id id) ;;
   do? _ <- authorize_running id headers ;;
   do? path <- of_result (validation (SandboxPath_new (rq_path request))) ;;
   do? result <- runtime_call (rt_read id
     (MkReadFileRequest path (rq_offset request) (rq_max_bytes request))) ;;
   ok (MkReadFileResponse (base64_encode (rf_data result)) (length (rf_data result))
     (rf_eof result)))%prog.

Definition list_directory (id : string) (headers : HeaderMap) (path : string) :
  prog World (result ListDirectoryResult ApiError) :=
  (do? id <- of_result (parse_id id) ;;
   do? _ <- authorize_running id headers ;;
   do? path <- of_result (validation (SandboxPath_new path)) ;;
   do? result <- runtime_call (rt_list id (MkListDirectoryRequest path)) ;;
   ok result)%prog.

Definition pause_sandbox (id : string) (headers : HeaderMap) :
  prog World (result StatusCode ApiError) :=
  (do? id <- of_result (parse_id id) ;;
   do? _ <- authorize_running id headers ;;
   do? _ <- transition id Pausing ;;
   do paused <- lift (rt_pause id) ;;
   match paused with
   | Err error => do? _ <- transition id Failed ;; throw (from_runtime error)
   | Ok _ => do? _ <- transition id Paused ;; ok NO_CONTENT
   end)%prog.

Definition resume_sandbox (id : string) (headers : HeaderMap) :
  prog World (result StatusCode ApiError) :=
  (do? id <- of_result (parse_id id) ;;
   do? record <- authorize id headers ;;
   if negb (bool_decide (rec_state record = Paused)) then
     throw (conflict "sandbox is not paused")
   else
     do? _ <- transition id Resuming ;;
     do resumed <- lift (rt_resume id) ;;
     match resumed with
     | Err error => do? _ <- transition id Failed ;; throw (from_runtime error)
     | Ok _ => do? _ <- transition id Running ;; ok NO_CONTENT
     end)%prog.

Definition delete_internal (id : SandboxId) (reason : string) : prog World (result unit ApiError) :=
  (do? _ <- transition id Deleting ;;
   do deleted <- lift (rt_delete id) ;;
   match deleted with
   | Err error => do? _ <- transition id Failed ;; throw (from_runtime error)
   | Ok _ =>
       do? _ <- transition id Deleted ;;
       do _ <- modify (fun w => set_records (delete id (w_records w)) w) ;;
       AuditLog_record (Some (SandboxId_to_string id)) "delete" "succeeded" {["reason" := reason]}
   end)%prog.

Definition delete_sandbox (id : string) (headers : HeaderMap) :
  prog World (result StatusCode ApiError) :=
  (do? id <- of_result (parse_id id) ;;
   do? _ <- authorize id headers ;;
   do? _ <- delete_internal id "user" ;;
   ok NO_CONTENT)%prog.

(** The body of [spawn_ttl_reaper] after its sleep. *)
Definition ttl_reaper (id : SandboxId) : prog World unit :=
  (do expired <- gets (fun w =>
     match w_records w !! id with
     | Some record => (rec_expires_at record <=? w_now w)%Z
     | None => false
     end) ;;
   if expired : bool then fmap_prog (fun _ => tt) (delete_internal id "ttl") else Ret tt)%prog.

Definition create_snapshot (id : string) (headers : HeaderMap) (request : CreateSnapshotRequest) :
  prog World (result (StatusCode * CreateSnapshotResponse) ApiError) :=
  (do? id <- of_result (parse_id id) ;;
   do? _ <- authorize id headers ;;
   do? _ <- of_result (validation (CreateSnapshotRequest_validate request)) ;;
   do? snapshot <- runtime_call (rt_create_snapshot id request) ;;
   do (token, dig) <- issue ;;
   do _ <- modify (fun w => set_snapshots
     (<[sn_snapshot_id snapshot := MkSnapshotRecord dig id]> (w_snapshots w)) w) ;;
   do? _ <- AuditLog_record (Some (SandboxId_to_string id)) "snapshot_create" "succeeded"
     {["snapshot_id" := SnapshotId_to_string (sn_snapshot_id snapshot)]} ;;
   ok (CREATED, MkCreateSnapshotResponse snapshot token))%prog.

(** The index of the snapshot the cursor names ([Iterator::position]). *)
Definition snapshot_position (cursor : SnapshotId) (l : list SnapshotHandle) : option nat :=
  fst <$> list_find (fun s => sn_snapshot_id s = cursor) l.

(** The page of [snapshots] that a query selects. *)
Definition snapshot_page (snapshots : list SnapshotHandle) (query : ListSnapshotsQuery) :
  result ListSnapshotsResponse ApiError :=
  (let? start :=
     match lq_cursor query with
     | Some cursor =>
         let? cursor := parse_snapshot_id cursor in
         ok_or (bad_request "cursor does not belong to this sandbox")
           (S <$> snapshot_position cursor snapshots)
     | None => Ok 0
     end in
   let last := Nat.min (start + lq_limit query) (length snapshots) in
   let next_cursor :=
     if last <? length snapshots
     then (fun s => SnapshotId_to_string (sn_snapshot_id s)) <$> (snapshots !! (last - 1))
     else None in
   Ok (MkListSnapshotsResponse (take (last - start) (drop start snapshots)) next_cursor))%result.

Definition list_snapshots (id : string) (headers : HeaderMap) (query : ListSnapshotsQuery) :
  prog World (result ListSnapshotsResponse ApiError) :=
  (do? id <- of_result (parse_id id) ;;
   do? _ <- authorize id headers ;;
   if negb ((1 <=? lq_limit query) && (lq_limit query <=? 100)) then
     throw (bad_request "limit must be between 1 and 100")
   else
     do? snapshots <- runtime_call (rt_list_snapshots id) ;;
     of_result (snapshot_page snapshots query))%prog.

Definition get_snapshot (snapshot_id : string) (headers : HeaderMap) :
  prog World (result SnapshotHandle ApiError) :=
  (do? snapshot_id <- of_result (parse_snapshot_id snapshot_id) ;;
   do? _ <- authorize_snapshot snapshot_id headers ;;
   runtime_call (rt_get_snapshot snapshot_id))%prog.

Definition verify_snapshot (snapshot_id : string) (headers : HeaderMap) :
  prog World (result SnapshotVerification ApiError) :=
  (do? snapshot_id <- of_result (parse_snapshot_id snapshot_id) ;;
   do? _ <- authorize_snapshot snapshot_id headers ;;
   runtime_call (rt_verify_snapshot snapshot_id))%prog.

Definition snapshot_detail (id : SnapshotId) : gmap string string :=
  {["snapshot_id" := SnapshotId_to_string id]}.

Definition restore_snapshot (snapshot_id : string) (headers : HeaderMap) (timeout_seconds : Z) :
  prog World (result (StatusCode * CreateSandboxResponse) ApiError) :=
  (do? _ <- of_result (validate_ttl timeout_seconds) ;;
   do? snapshot_id <- of_result (parse_snapshot_id snapshot_id) ;;
   do? _ <- authorize_snapshot snapshot_id headers ;;
   do? handle <- runtime_call (rt_restore_snapshot snapshot_id) ;;
   do response <- register_sandbox handle timeout_seconds ;;
   do? _ <- AuditLog_record (Some (SandboxId_to_string (resp_sandbox_id response)))
     "snapshot_restore" "succeeded" (snapshot_detail snapshot_id) ;;
   ok (CREATED, response))%prog.

Definition register_clone (snapshot_id : SnapshotId) (timeout_seconds : Z) (handle : SandboxHandle) :
  prog World (result CreateSandboxResponse ApiError) :=
  (do response <- register_sandbox handle timeout_seconds ;;
   do? _ <- AuditLog_record (Some (SandboxId_to_string (resp_sandbox_id response)))
     "snapshot_clone" "succeeded" (snapshot_detail snapshot_id) ;;
   ok response)%prog.

Definition clone_snapshot (snapshot_id : string) (headers : HeaderMap)
    (request : CloneSnapshotRequest) :
  prog World (result (StatusCode * list CreateSandboxResponse) ApiError) :=
  (do? _ <- of_result (validate_ttl (cs_timeout_seconds request)) ;;
   if negb (in_range 1 32 (cs_count request)) then
     throw (bad_request "count must be between 1 and 32")
   else
     do? snapshot_id <- of_result (parse_snapshot_id snapshot_id) ;;
     do? _ <- authorize_snapshot snapshot_id headers ;;
     do? handles <- runtime_call (rt_clone_snapshot snapshot_id (cs_count request)) ;;
     do? sandboxes <- map_prog handles
       (register_clone snapshot_id (cs_timeout_seconds request)) ;;
     ok (CREATED, sandboxes))%prog.

Definition rollback_snapshot (id snapshot_id : string) (headers : HeaderMap) :
  prog World (result SandboxResponse ApiError) :=
  (do? id <- of_result (parse_id id) ;;
   do? snapshot_id <- of_result (parse_snapshot_id snapshot_id) ;;
   do? record <- authorize id headers ;;
   do? snapshot_record <- gets (fun w =>
     ok_or (not_found "snapshot does not exist") (w_snapshots w !! snapshot_id)) ;;
   if negb (bool_decide (srec_source_sandbox_id snapshot_record = id)) then
     throw (conflict "snapshot belongs to another sandbox")
   else
     do? handle <- runtime_call (rt_rollback_snapshot id snapshot_id) ;;
     do? _ <- act (fun w =>
       match w_records w !! id with
       | None => (Err (not_found "sandbox does not exist"), w)
       | Some current =>
           (Ok tt, set_records (<[id := MkSandboxRecord (rec_token current) (sh_state handle)
              (sh_node_id handle) (rec_expires_at current)
              (rec_expires_at_unix_ms current)]> (w_records w)) w)
       end) ;;
     do? _ <- AuditLog_record (Some (SandboxId_to_string id)) "snapshot_rollback" "succeeded"
       (snapshot_detail snapshot_id) ;;
     ok (MkSandboxResponse id (sh_node_id handle) (sh_state handle)
       (rec_expires_at_unix_ms record)))%prog.

Definition delete_snapshot (snapshot_id : string) (headers : HeaderMap) :
  prog World (result StatusCode ApiError) :=
  (do? snapshot_id <- of_result (parse_snapshot_id snapshot_id) ;;
   do? record <- authorize_snapshot snapshot_id headers ;;
   do? _ <- runtime_call (rt_delete_snapshot snapshot_id) ;;
   do _ <- modify (fun w => set_snapshots (delete snapshot_id (w_snapshots w)) w) ;;
   do? _ <- AuditLog_record (Some (SandboxId_to_string (srec_source_sandbox_id record)))
     "snapshot_delete" "succeeded" (snapshot_detail snapshot_id) ;;
   ok NO_CONTENT)%prog.

(** ** Router *)

(** The routes, with what the [axum] extractors take from each request. *)
Inductive Request :=
| GET_healthz
| POST_sandboxes (body : CreateSandboxRequest)
| GET_sandbox (id : string) (headers : HeaderMap)
| DELETE_sandbox (id : string) (headers : HeaderMap)
| POST_commands (id : string) (headers : HeaderMap) (body : ExecuteCommandRequest)
| PUT_files (id : string) (headers : HeaderMap) (body : WriteFileBody)
| GET_files (id : string) (headers : HeaderMap) (query : ReadFileQuery)
| GET_directories (id : string) (headers : HeaderMap) (path : string)
| POST_pause (id : string) (headers : HeaderMap)
| POST_resume (id : string) (headers : HeaderMap)
| POST_snapshots (id : string) (headers : HeaderMap) (body : CreateSnapshotRequest)
| GET_snapshots (id : string) (headers : HeaderMap) (query : ListSnapshotsQuery)
| POST_rollback (id snapshot_id : string) (headers : HeaderMap)
| GET_snapshot (snapshot_id : string) (headers : HeaderMap)
| DELETE_snapshot (snapshot_id : string) (headers : HeaderMap)
| POST_verify (snapshot_id : string) (headers : HeaderMap)
| POST_restore (snapshot_id : string) (headers : HeaderMap) (timeout_seconds : Z)
| POST_clones (snapshot_id : string) (headers : HeaderMap) (body : CloneSnapshotRequest).

Inductive Reply :=
| Re_status (s : StatusCode)
| Re_created (s : StatusCode) (r : CreateSandboxResponse)
| Re_sandbox (r : SandboxResponse)
| Re_command (r : ExecuteCommandResponse)
| Re_written (bytes : Z)
| Re_file (r : ReadFileResponse)
| Re_directory (r : ListDirectoryResult)
| Re_snapshot_created (s : StatusCode) (r : CreateSnapshotResponse)
| Re_snapshots (r : ListSnapshotsResponse)
| Re_snapshot (r : SnapshotHandle)
| Re_verification (r : SnapshotVerification)
| Re_clones (s : StatusCode) (r : list CreateSandboxResponse).

Definition reply {A} (f : A -> Reply) (p : prog World (result A ApiError)) :
  prog World (result Reply ApiError) := fmap_prog (result_map f) p.

Definition router (request : Request) : prog World (result Reply ApiError) :=
  match request with
  | GET_healthz => Ret (Ok (Re_status NO_CONTENT))
  | POST_sandboxes b => reply (fun '(s, r) => Re_created s r) (create_sandbox b)
  | GET_sandbox id h => reply Re_sandbox (get_sandbox id h)
  | DELETE_sandbox id h => reply Re_status (delete_sandbox id h)
  | POST_commands id h b => reply Re_command (execute_command id h b)
  | PUT_files id h b => reply Re_written (write_file id h b)
  | GET_files id h q => reply Re_file (read_file id h q)
  | GET_directories id h p => reply Re_directory (list_directory id h p)
  | POST_pause id h => reply Re_status (pause_sandbox id h)
  | POST_resume id h => reply Re_status (resume_sandbox id h)
  | POST_snapshots id h b => reply (fun '(s, r) => Re_snapshot_created s r) (create_snapshot id h b)
  | GET_snapshots id h q => reply Re_snapshots (list_snapshots id h q)
  | POST_rollback id sid h => reply Re_sandbox (rollback_snapshot id sid h)
  | GET_snapshot sid h => reply Re_snapshot (get_snapshot sid h)
  | DELETE_snapshot sid h => reply Re_status (delete_snapshot sid h)
  | POST_verify sid h => reply Re_verification (verify_snapshot sid h)
  | POST_restore sid h t => reply (fun '(s, r) => Re_created s r) (restore_snapshot sid h t)
  | POST_clones sid h b => reply (fun '(s, r) => Re_clones s r) (clone_snapshot sid h b)
  end.
End Api.
