(* ===== verification/Instances.v ===== *)
(** * Concrete instances

    Small computable instances of the interfaces that stand for code outside
    the repository, and a scripted runtime. They show that the interfaces can
    be satisfied and let theorems be applied at concrete inputs. *)
From S2P Require Import Prelude Conc Core Utf8 Api.

(** Identifiers are strings; the generated ones are numbered. *)
#[export] Instance string_uuid : UuidLib.
Proof.
  refine {| Uuid := string; uuid_to_string := id; uuid_parse := Some;
            now_v7 := fun n : nat => pretty n; new_v4 := fun n : nat => pretty n |}.
  - done.
  - intros n m. apply (inj pretty).
  - intros n m. apply (inj pretty).
Defined.

(** An identity "digest" and a byte-for-byte "base64". *)
#[export] Instance plain_crypto : CryptoLib.
Proof.
  refine {| sha256 := fun d => d;
            base64_url := String.string_of_list_byte;
            base64_encode := String.string_of_list_byte;
            base64_decode := fun s => Some (String.list_byte_of_string s);
            random_secret := fun n => take 32 (replicate n Byte.x61 ++ replicate 32 Byte.x62);
            ct_eq := fun a b => bool_decide (a = b) |}.
  - intros a b. apply bool_decide_eq_true.
  - intros d. by rewrite String.list_byte_of_string_of_list_byte.
  - by intros [|b d].
  - intros n. rewrite length_take, length_app, !length_replicate. lia.
Defined.

(** A runtime that numbers its sandboxes and snapshots and keeps no files. Its
    state scripts which of its next calls fail and lists the deleted sandboxes. *)
Record Script := MkScript {
  sc_next : nat;
  sc_snapshots : list SnapshotHandle;
  sc_failures : list bool;
  sc_deleted : list SandboxId;
}.

Section Scripted.
Definition scripted {A} (f : Script -> A * Script) : prog Script (result A RuntimeError) :=
  act (fun s =>
    match sc_failures s with
    | true :: fs =>
        (Err (RuntimeError_internal "scripted failure"),
         MkScript (sc_next s) (sc_snapshots s) fs (sc_deleted s))
    | fs =>
        let s' := (f s).2 in
        (Ok (f s).1, MkScript (sc_next s') (sc_snapshots s') (tail fs) (sc_deleted s'))
    end).

Definition scripted_handle (n : nat) : SandboxHandle :=
  MkSandboxHandle (SandboxId_new n) "node" Running.

Definition scripted_spec : SandboxSpec := MkSandboxSpec "python" 1 512 300 Disabled.

Definition scripted_snapshot (id : SandboxId) (n : nat) : SnapshotHandle :=
  MkSnapshotHandle (SnapshotId_new n) id None 0 Running scripted_spec 0 "".

Definition fresh {A} (f : nat -> A) (s : Script) : A * Script :=
  (f (sc_next s), MkScript (S (sc_next s)) (sc_snapshots s) (sc_failures s) (sc_deleted s)).

#[export] Instance scripted_runtime : SandboxRuntime Script := {|
  rt_create _ := scripted (fresh scripted_handle);
  rt_execute _ r := scripted (fun s =>
    (MkExecResult (MkProcessId "p") (Exited 0) [Byte.x68; Byte.x69] [] OutputTruncation_default, s));
  rt_signal _ _ := throw (RuntimeError_not_found "process does not exist");
  rt_write _ r := scripted (fun s => (MkWriteFileResult (Z.of_nat (length (wf_data r))), s));
  rt_read _ _ := scripted (fun s => (MkReadFileResult [] true, s));
  rt_list _ _ := scripted (fun s => (MkListDirectoryResult [], s));
  rt_pause _ := scripted (fun s => (tt, s));
  rt_resume _ := scripted (fun s => (tt, s));
  rt_create_snapshot id _ := scripted (fun s =>
    let h := scripted_snapshot id (sc_next s) in
    (h, MkScript (S (sc_next s)) (sc_snapshots s ++ [h]) (sc_failures s) (sc_deleted s)));
  rt_list_snapshots id := scripted (fun s => (sc_snapshots s, s));
  rt_get_snapshot sid := throw (RuntimeError_not_found "snapshot does not exist");
  rt_verify_snapshot sid := scripted (fun s => (MkSnapshotVerification sid true 4 None, s));
  rt_restore_snapshot _ := scripted (fresh scripted_handle);
  rt_clone_snapshot _ count := scripted (fun s =>
    (map scripted_handle (seq (sc_next s) (Z.to_nat count)),
     MkScript (sc_next s + Z.to_nat count) (sc_snapshots s) (sc_failures s) (sc_deleted s)));
  rt_rollback_snapshot id _ := scripted (fun s => (MkSandboxHandle id "node" Running, s));
  rt_delete_snapshot _ := scripted (fun s => (tt, s));
  rt_delete id := scripted (fun s =>
    (tt, MkScript (sc_next s) (sc_snapshots s) (sc_failures s) (id :: sc_deleted s)));
|}.
End Scripted.

Definition start : Script := MkScript 0 [] [] [].
