(* ===== verification/ApiSafety.v ===== *)
(** * Safety of the control plane under concurrency

    Every interleaving of requests, TTL reapers, runtime background work and
    the passage of time is a run of [api_step]. The file proves, step by step
    over the handlers of [Api], that records only evolve in the permitted ways
    and that bearer tokens are never shared between resources. *)
From S2P Require Import Prelude Conc Core Utf8 Api Instances.

Section Safety.
Context `{U : UuidLib} `{C : CryptoLib} {R : Type} `{RT : @SandboxRuntime U R}.

Abbreviation World := (@World U R).

(** ** The transition system *)

(** A sandbox or a snapshot: what a bearer token can authorise. *)
Definition resource : Type := SandboxId + SnapshotId.

Definition is_rollback (r : Request) : bool :=
  match r with POST_rollback _ _ _ => true | _ => false end.

Definition task {A} (p : prog World A) : prog World unit := fmap_prog (fun _ => tt) p.

(** New tasks: a request (a rollback only when [rb] allows it), or a TTL
    reaper whose sleep is over, which leaves the list of sleeping reapers. *)
Inductive api_arrives (rb : bool) : World -> prog World unit -> World -> Prop :=
| arrive_request w r :
    (is_rollback r = true -> rb = true) -> api_arrives rb w (task (router r)) w
| arrive_reaper w id wake l1 l2 :
    w_reapers w = l1 ++ (id, wake) :: l2 -> (wake <= w_now w)%Z ->
    api_arrives rb w (ttl_reaper id) (set_reapers (l1 ++ l2) w).

(** The environment: time moves forward, the runtime's own background tasks
    change its state, and further audit writes may be doomed to fail. *)
Inductive api_env : World -> World -> Prop :=
| env_time w now unix_ms : (w_now w <= now)%Z -> api_env w (set_time now unix_ms w)
| env_runtime w x : api_env w (set_runtime x w)
| env_faults w fs : api_env w (set_audit (w_audit w) fs w).

Definition api_step (rb : bool) := cstep (api_arrives rb) api_env.

(** The state after [AppState::new]. *)
Definition initial_world (x : R) (now unix_ms : Z) : World :=
  MkWorld x ∅ ∅ [] [] [] now unix_ms 0.

Definition reachable (rb : bool) (c : config) : Prop :=
  exists x now unix_ms, rtc (api_step rb) ([], initial_world x now unix_ms) c.

(** ** Invariant and guarantee *)

(** The digest of the [n]-th issued token. *)
Definition token_of (n : nat) : TokenDigest := from_plaintext (plaintext_of n).

Definition token_at (w : World) (res : resource) : option TokenDigest :=
  match res with
  | inl id => rec_token <$> w_records w !! id
  | inr sid => srec_token <$> w_snapshots w !! sid
  end.

(** Every stored token is the digest of an issued secret, different resources
    store different secrets, and secrets that a handler has drawn but not yet
    stored ([held]) are stored nowhere. *)
Definition tokens_ok (w : World) (held : gset nat) : Prop :=
  (forall n, n ∈ held -> n < w_rng w) /\
  exists num : gmap resource nat,
    (forall res, match token_at w res with
            | Some t => exists n, num !! res = Some n /\ t = token_of n
                            /\ n < w_rng w /\ n ∉ held
            | None => num !! res = None
            end) /\
    (forall a b n, num !! a = Some n -> num !! b = Some n -> a = b).

(** How the record of one sandbox may change in one step: not at all, by
    removal, by registration under a newly issued secret, by a transition the
    state machine allows, or (when rollback is allowed) by a rollback, which
    rewrites state and node. The last two keep token and expiry. *)
Definition record_evolves (rb : bool) (rng : nat) (o o' : option SandboxRecord) : Prop :=
  o' = o \/ o' = None
  \/ (exists n r', o' = Some r' /\ rec_token r' = token_of n /\ n < rng
        /\ forall r, o = Some r -> exists m, rec_token r = token_of m /\ m <> n)
  \/ (exists r r', o = Some r /\ o' = Some r' /\ rec_token r' = rec_token r
        /\ rec_expires_at r' = rec_expires_at r
        /\ rec_expires_at_unix_ms r' = rec_expires_at_unix_ms r
        /\ ((transition_allowed (rec_state r) (rec_state r') /\ rec_node_id r' = rec_node_id r)
           \/ rb = true)).

(** A snapshot record never changes: it is created and removed. *)
Definition snapshot_evolves (o o' : option SnapshotRecord) (rng : nat) : Prop :=
  o' = o \/ o' = None
  \/ (exists n r', o' = Some r' /\ srec_token r' = token_of n /\ n < rng
        /\ forall r, o = Some r -> exists m, srec_token r = token_of m /\ m <> n).

Definition world_evolves (rb : bool) (w w' : World) : Prop :=
  (forall id, record_evolves rb (w_rng w') (w_records w !! id) (w_records w' !! id))
  /\ (forall sid, snapshot_evolves (w_snapshots w !! sid) (w_snapshots w' !! sid) (w_rng w'))
  /\ w_rng w <= w_rng w'.

(** ** Steps that keep the tables *)

Definition same_tables (w w' : World) : Prop :=
  w_records w' = w_records w /\ w_snapshots w' = w_snapshots w /\ w_rng w' = w_rng w.

Lemma same_tables_evolves rb w w' : same_tables w w' -> world_evolves rb w w'.
Proof.
  intros (Hr&Hs&Hn). split; [|split; [|lia]]; intros; left; by rewrite ?Hr, ?Hs.
Qed.

Lemma same_tokens_ok w w' held :
  (forall res, token_at w' res = token_at w res) -> w_rng w' = w_rng w ->
  tokens_ok w held -> tokens_ok w' held.
Proof.
  intros Ht Hn (Hh&num&Hnum&Hinj). unfold tokens_ok. rewrite Hn. split; [done|].
  exists num. split; [|done]. intros res. rewrite Ht. apply Hnum.
Qed.

Lemma same_tables_ok w w' held : same_tables w w' -> tokens_ok w held -> tokens_ok w' held.
Proof.
  intros (Hr&Hs&Hn). apply same_tokens_ok; [|done].
  intros []; simpl; by rewrite ?Hr, ?Hs.
Qed.

(** A quiet program ends holding what it held. *)
Definition quiet (rb : bool) {A} (p : prog World A) : Prop :=
  forall own, safe (world_evolves rb) tokens_ok p own (fun _ o => o = own).

Section Rules.
Context (rb : bool).

Lemma quiet_ret {A} (a : A) : quiet rb (Ret a).
Proof. by intros own. Qed.

Lemma quiet_bind {A B} (p : prog World A) (k : A -> prog World B) :
  quiet rb p -> (forall a, quiet rb (k a)) -> quiet rb (bind p k).
Proof.
  intros Hp Hk own. eapply safe_bind; [apply Hp|]. intros b o ->. apply Hk.
Qed.

Lemma quiet_bind_ok {A B E} (p : prog World (result A E)) (k : A -> prog World (result B E)) :
  quiet rb p -> (forall a, quiet rb (k a)) -> quiet rb (bind_ok p k).
Proof. intros Hp Hk. apply quiet_bind; [done|]. intros [a|e]; [apply Hk|apply quiet_ret]. Qed.

Lemma quiet_fmap {A B} (f : A -> B) (p : prog World A) : quiet rb p -> quiet rb (fmap_prog f p).
Proof. intros Hp. apply quiet_bind; [done|]. intros a. apply quiet_ret. Qed.

Lemma quiet_map_prog {X Y E} (l : list X) (body : X -> prog World (result Y E)) :
  (forall x, quiet rb (body x)) -> quiet rb (map_prog l body).
Proof.
  intros Hb. induction l as [|x l IH]; simpl; [apply quiet_ret|].
  apply quiet_bind_ok; [done|]. intros y. apply quiet_bind_ok; [done|].
  intros ys. apply quiet_ret.
Qed.

(** A step that leaves the tables alone is quiet. *)
Lemma quiet_act {A} (f : World -> A * World) :
  (forall w, same_tables w (f w).2) -> quiet rb (act f).
Proof.
  intros Hf own w rest Hd HI. split; [by apply same_tables_evolves|].
  exists own. split; [done|]. split; [by eapply same_tables_ok|done].
Qed.

Lemma quiet_gets {A} (f : World -> A) : quiet rb (gets f).
Proof. apply quiet_act. by intros w. Qed.

Lemma quiet_lift {A} (p : prog R A) : quiet rb (lift p).
Proof.
  induction p as [a|B f k IH]; [apply quiet_ret|].
  change (quiet rb (bind (act (fun w : World => ((f (view w)).1, put (f (view w)).2 w)))
    (fun b => lift (k b)))).
  apply quiet_bind; [|done]. apply quiet_act. by intros w.
Qed.

Lemma quiet_runtime_call {A} (p : prog R (result A RuntimeError)) : quiet rb (runtime_call p).
Proof. apply quiet_fmap, quiet_lift. Qed.

Lemma quiet_audit o op out d : quiet rb (AuditLog_record o op out d).
Proof. apply quiet_act. intros w. by destruct (w_audit_faults w) as [|[] ?]. Qed.

(** Rewriting one record while keeping its token. *)
Lemma quiet_update_record {A} id (f : World -> A * World) :
  (forall w, (f w).2 = w \/
     exists r r', w_records w !! id = Some r /\ (f w).2 = set_records (<[id := r']> (w_records w)) w
     /\ record_evolves rb (w_rng w) (Some r) (Some r') /\ rec_token r' = rec_token r) ->
  quiet rb (act f).
Proof.
  intros Hf own w rest Hd HI. destruct (Hf w) as [Heq|(r&r'&Hr&Heq&Hev&Htok)].
  - simpl. rewrite Heq. split; [by apply same_tables_evolves|]. by exists own.
  - simpl. rewrite Heq. split.
    + split; [|split; [by left|done]]. intros id'. simpl.
      destruct (decide (id = id')) as [<-|Hne].
      * by rewrite lookup_insert_eq, Hr.
      * rewrite lookup_insert_ne by done. by left.
    + exists own. split; [done|]. split; [|done]. refine (same_tokens_ok w _ _ _ _ HI); [|done].
      intros [id'|sid]; simpl; [|done]. destruct (decide (id = id')) as [<-|Hne].
      * by rewrite lookup_insert_eq, Hr; simpl; rewrite Htok.
      * by rewrite lookup_insert_ne.
Qed.

Lemma quiet_transition id next : quiet rb (transition id next).
Proof.
  apply (quiet_update_record id). intros w.
  destruct (w_records w !! id) as [r|] eqn:Hr; [|by left].
  destruct (can_transition_to (rec_state r) next) eqn:Ht; [|by left].
  right. eexists r, _. split; [done|]. split; [done|]. split; [|done].
  right; right; right. eexists _, _. repeat split; by left.
Qed.

(** Removing a resource. *)
Lemma tokens_ok_remove w w' held res :
  token_at w' res = None -> (forall res', res' <> res -> token_at w' res' = token_at w res') ->
  w_rng w' = w_rng w -> tokens_ok w held -> tokens_ok w' held.
Proof.
  intros Hres Hother Hn (Hh&num&Hnum&Hinj). unfold tokens_ok. rewrite Hn. split; [done|].
  exists (delete res num). split.
  - intros res'. destruct (decide (res' = res)) as [->|Hne].
    + rewrite Hres. apply lookup_delete_eq.
    + rewrite Hother by done. rewrite lookup_delete_ne by done. apply Hnum.
  - intros a b n Ha%lookup_delete_Some Hb%lookup_delete_Some. naive_solver.
Qed.

Lemma quiet_remove_record id :
  quiet rb (modify (fun w : World => set_records (delete id (w_records w)) w)).
Proof.
  intros own w rest Hd HI. simpl. split.
  - split; [|split; [by left|done]]. intros id'. simpl.
    destruct (decide (id = id')) as [<-|Hne]; [right; left; apply lookup_delete_eq|].
    left. by rewrite lookup_delete_ne.
  - exists own. split; [done|]. split; [|done].
    refine (tokens_ok_remove w _ _ (inl id) _ _ _ HI); [| |done]; simpl.
    + by rewrite lookup_delete_eq.
    + intros [id'|sid] Hne; simpl; [|done]. rewrite lookup_delete_ne; naive_solver.
Qed.

Lemma quiet_remove_snapshot sid :
  quiet rb (modify (fun w : World => set_snapshots (delete sid (w_snapshots w)) w)).
Proof.
  intros own w rest Hd HI. simpl. split.
  - split; [by left|split; [|done]]. intros id'. simpl.
    destruct (decide (sid = id')) as [<-|Hne]; [right; left; apply lookup_delete_eq|].
    left. by rewrite lookup_delete_ne.
  - exists own. split; [done|]. split; [|done].
    refine (tokens_ok_remove w _ _ (inr sid) _ _ _ HI); [| |done]; simpl.
    + by rewrite lookup_delete_eq.
    + intros [id|id'] Hne; simpl; [done|]. rewrite lookup_delete_ne; naive_solver.
Qed.

(** Drawing a secret adds it to the holdings; storing it gives it away. *)
Lemma safe_issue own :
  safe (world_evolves rb) tokens_ok issue own
    (fun r o => exists n, r = (plaintext_of n, token_of n) /\ n ∉ own /\ o = {[n]} ∪ own).
Proof.
  intros w rest Hd (Hh&num&Hnum&Hinj). simpl. split.
  { split; [by left|split; [by left|simpl; lia]]. }
  assert (w_rng w ∉ own ∪ rest) as Hfresh by (intros Hin; specialize (Hh _ Hin); lia).
  exists ({[w_rng w]} ∪ own). split; [set_solver|]. split.
  - split; simpl.
    + intros n Hn. destruct (decide (n = w_rng w)); [lia|].
      assert (n < w_rng w); [apply Hh; set_solver|lia].
    + exists num. split; [|done]. intros res. specialize (Hnum res).
      change (token_at (set_rng _ w) res) with (token_at w res).
      destruct (token_at w res); [|done]. destruct Hnum as (n&?&?&?&?).
      exists n. repeat split; [done|done|lia|]. assert (n <> w_rng w) by lia. set_solver.
  - exists (w_rng w). repeat split. set_solver.
Qed.

Lemma tokens_ok_store w w' own rest n res :
  n ∉ own -> ({[n]} ∪ own) ## rest ->
  token_at w' res = Some (token_of n) ->
  (forall res', res' <> res -> token_at w' res' = token_at w res') -> w_rng w' = w_rng w ->
  tokens_ok w (({[n]} ∪ own) ∪ rest) -> tokens_ok w' (own ∪ rest).
Proof.
  intros Hno Hd Hres Hother Hn (Hh&num&Hnum&Hinj). unfold tokens_ok. rewrite Hn.
  assert (n < w_rng w) by (apply Hh; set_solver).
  split; [intros m Hm; apply Hh; set_solver|].
  assert (forall res' m, num !! res' = Some m -> m <> n) as Hneq.
  { intros res' m Hm ->. specialize (Hnum res'). destruct (token_at w res'); [|congruence].
    destruct Hnum as (m&Hm'&_&_&Hout). assert (m = n) as -> by congruence. set_solver. }
  exists (<[res := n]> num). split.
  - intros res'. destruct (decide (res' = res)) as [->|Hne].
    + rewrite Hres, lookup_insert_eq. exists n. repeat split; [done|]. set_solver.
    + rewrite Hother, lookup_insert_ne by done. specialize (Hnum res').
      destruct (token_at w res'); [|done]. destruct Hnum as (m&?&?&?&?).
      exists m. repeat split; [done|done|done|set_solver].
  - intros a b m Ha Hb. apply lookup_insert_Some in Ha, Hb. naive_solver.
Qed.

(** The number of a stored token is not held by anyone. *)
Lemma stored_number w held n res t :
  n ∈ held -> tokens_ok w held -> token_at w res = Some t ->
  exists m, t = token_of m /\ m <> n.
Proof.
  intros Hn (_&num&Hnum&_) Ht. specialize (Hnum res). rewrite Ht in Hnum.
  destruct Hnum as (m&_&->&_&Hout). exists m. split; [done|]. by intros ->.
Qed.

Lemma held_bound w held n : n ∈ held -> tokens_ok w held -> n < w_rng w.
Proof. intros Hn [Hh _]. auto. Qed.

Lemma safe_store_record n own id st node e1 e2 :
  n ∉ own ->
  safe (world_evolves rb) tokens_ok
    (modify (fun w : World => set_records (<[id := MkSandboxRecord (token_of n) st node e1 e2]>
       (w_records w)) w))
    ({[n]} ∪ own) (fun _ o => o = own).
Proof.
  intros Hno w rest Hd HI. assert (n ∈ ({[n]} ∪ own) ∪ rest) as Hn by set_solver. simpl. split.
  - split; [|split; [by left|done]]. intros id'. simpl.
    destruct (decide (id = id')) as [<-|Hne]; [|left; by rewrite lookup_insert_ne].
    rewrite lookup_insert_eq. right; right; left. eexists n, _. split; [done|].
    split; [done|]. split; [by eapply held_bound|]. intros r Hr.
    apply (stored_number w _ n (inl id) _ Hn HI). simpl. by rewrite Hr.
  - exists own. split; [set_solver|]. split; [|done].
    eapply (tokens_ok_store w _ own rest n (inl id)); [done|done| | |done|done]; simpl.
    + by rewrite lookup_insert_eq.
    + intros [id'|sid] Hne; simpl; [|done]. rewrite lookup_insert_ne; naive_solver.
Qed.

Lemma safe_store_snapshot n own sid src :
  n ∉ own ->
  safe (world_evolves rb) tokens_ok
    (modify (fun w : World => set_snapshots (<[sid := MkSnapshotRecord (token_of n) src]>
       (w_snapshots w)) w))
    ({[n]} ∪ own) (fun _ o => o = own).
Proof.
  intros Hno w rest Hd HI. assert (n ∈ ({[n]} ∪ own) ∪ rest) as Hn by set_solver. simpl. split.
  - split; [by left|split; [|done]]. intros id'. simpl.
    destruct (decide (sid = id')) as [<-|Hne]; [|left; by rewrite lookup_insert_ne].
    rewrite lookup_insert_eq. right; right. eexists n, _. split; [done|].
    split; [done|]. split; [by eapply held_bound|]. intros r Hr.
    apply (stored_number w _ n (inr sid) _ Hn HI). simpl. by rewrite Hr.
  - exists own. split; [set_solver|]. split; [|done].
    eapply (tokens_ok_store w _ own rest n (inr sid)); [done|done| | |done|done]; simpl.
    + by rewrite lookup_insert_eq.
    + intros [id|id'] Hne; simpl; [done|]. rewrite lookup_insert_ne; naive_solver.
Qed.

(** ** Handlers *)

Lemma quiet_of_issue {A} (k : string * TokenDigest -> prog World A) :
  (forall n own, n ∉ own -> safe (world_evolves rb) tokens_ok (k (plaintext_of n, token_of n))
                ({[n]} ∪ own) (fun _ o => o = own)) ->
  quiet rb (bind issue k).
Proof.
  intros Hk own. eapply safe_bind; [apply safe_issue|].
  intros r o (n&->&Hn&->). by apply Hk.
Qed.

(** A quiet continuation frames what is held. *)
Lemma safe_quiet_bind {A B} (p : prog World A) (k : A -> prog World B) own Q :
  quiet rb p -> (forall a, safe (world_evolves rb) tokens_ok (k a) own Q) ->
  safe (world_evolves rb) tokens_ok (bind p k) own Q.
Proof. intros Hp Hk. eapply safe_bind; [apply Hp|]. by intros a o ->. Qed.

Lemma safe_bind_quiet {A B} (p : prog World A) (k : A -> prog World B) own own' :
  safe (world_evolves rb) tokens_ok p own (fun _ o => o = own') -> (forall a, quiet rb (k a)) ->
  safe (world_evolves rb) tokens_ok (bind p k) own (fun _ o => o = own').
Proof. intros Hp Hk. eapply safe_bind; [exact Hp|]. intros a o ->. apply Hk. Qed.

Lemma quiet_push_reaper id secs :
  quiet rb (modify (fun w : World => set_reapers (w_reapers w ++ [(id, (w_now w + secs)%Z)]) w)).
Proof. apply quiet_act. by intros w. Qed.

Lemma quiet_register_sandbox handle secs : quiet rb (register_sandbox handle secs).
Proof.
  apply quiet_of_issue. intros n own Hn.
  apply safe_quiet_bind; [apply quiet_gets|]. intros now.
  apply safe_quiet_bind; [apply quiet_gets|]. intros ms.
  apply safe_bind_quiet; [by apply safe_store_record|]. intros _.
  apply quiet_bind; [apply quiet_push_reaper|]. intros _. apply quiet_ret.
Qed.
End Rules.

Create HintDb quiet discriminated.
#[local] Hint Resolve quiet_ret quiet_gets quiet_lift quiet_runtime_call quiet_audit
  quiet_transition quiet_remove_record quiet_remove_snapshot quiet_register_sandbox : quiet.

Ltac quiet_step :=
  first
    [ progress eauto 1 with quiet
    | apply quiet_bind | apply quiet_bind_ok | apply quiet_fmap | apply quiet_map_prog
    | progress intros
    | match goal with
      | |- quiet _ (if ?b then _ else _) => destruct b
      | |- quiet _ (match ?x with _ => _ end) => destruct x
      | |- quiet _ (throw _) => apply quiet_ret
      | |- quiet _ (ok _) => apply quiet_ret
      | |- quiet _ (of_result _) => apply quiet_ret
      end ].
Ltac quiet_solve := repeat quiet_step.

Lemma quiet_authorize rb id h : quiet rb (authorize id h).
Proof. unfold authorize. quiet_solve. Qed.
Lemma quiet_authorize_snapshot rb id h : quiet rb (authorize_snapshot id h).
Proof. unfold authorize_snapshot. quiet_solve. Qed.
#[local] Hint Resolve quiet_authorize quiet_authorize_snapshot : quiet.

Lemma quiet_authorize_running rb id h : quiet rb (authorize_running id h).
Proof. unfold authorize_running. quiet_solve. Qed.
Lemma quiet_delete_internal rb id reason : quiet rb (delete_internal id reason).
Proof. unfold delete_internal. quiet_solve. Qed.
#[local] Hint Resolve quiet_authorize_running quiet_delete_internal : quiet.

Lemma quiet_ttl_reaper rb id : quiet rb (ttl_reaper id).
Proof. unfold ttl_reaper. quiet_solve. Qed.

Lemma quiet_create_snapshot rb id h request : quiet rb (create_snapshot id h request).
Proof.
  unfold create_snapshot. repeat (apply quiet_bind_ok; [quiet_solve|intros ?]).
  apply quiet_of_issue. intros n own Hn.
  apply safe_bind_quiet; [by apply safe_store_snapshot|]. intros _. quiet_solve.
Qed.

Lemma quiet_clone_snapshot rb sid h request : quiet rb (clone_snapshot sid h request).
Proof. unfold clone_snapshot, register_clone. quiet_solve. Qed.

(** The rollback handler rewrites a record without consulting the state
    machine. *)
Lemma quiet_rollback_snapshot id sid h : quiet true (rollback_snapshot id sid h).
Proof.
  unfold rollback_snapshot. quiet_solve. apply (quiet_update_record true a). intros w.
  destruct (w_records w !! a) as [r|] eqn:Hr; [|by left].
  right. eexists r, _. split; [done|]. split; [done|]. split; [|done].
  right; right; right. eexists _, _. repeat split. by right.
Qed.
#[local] Hint Resolve quiet_create_snapshot quiet_clone_snapshot : quiet.

Lemma quiet_router rb request :
  (is_rollback request = true -> rb = true) -> quiet rb (router request).
Proof.
  intros Hrb. destruct request; try (unfold router, reply;
    first [apply quiet_fmap|apply quiet_ret]; [];
    unfold create_sandbox, get_sandbox, execute_command, write_file, read_file, list_directory,
      pause_sandbox, resume_sandbox, delete_sandbox, list_snapshots, get_snapshot,
      verify_snapshot, restore_snapshot, delete_snapshot; by quiet_solve).
  - apply quiet_ret.
  - rewrite (Hrb eq_refl). apply quiet_fmap, quiet_rollback_snapshot.
Qed.

(** ** Every execution *)

Lemma quiet_task rb {A} (p : prog World A) :
  quiet rb p -> safe (world_evolves rb) tokens_ok (task p) ∅ (fun _ _ => True).
Proof. intros Hp. eapply safe_mono; [|by apply quiet_fmap]. done. Qed.

Lemma arrive_safe rb w p w' held : tokens_ok w held -> api_arrives rb w p w' ->
  world_evolves rb w w' /\ tokens_ok w' held
  /\ safe (world_evolves rb) tokens_ok p ∅ (fun _ _ => True).
Proof.
  intros HI Ha. destruct Ha as [w0 r Hr|w0 id wake l1 l2 _ _].
  - split; [by apply same_tables_evolves|]. split; [done|]. by apply quiet_task, quiet_router.
  - assert (same_tables w0 (set_reapers (l1 ++ l2) w0)) as Hs by done.
    split; [by apply same_tables_evolves|]. split; [by eapply same_tables_ok|].
    eapply safe_mono; [|by apply quiet_ttl_reaper]. done.
Qed.

Lemma env_safe rb w w' held : tokens_ok w held -> api_env w w' ->
  world_evolves rb w w' /\ tokens_ok w' held.
Proof.
  intros HI Henv. assert (same_tables w w') as Hs by (by destruct Henv).
  split; [by apply same_tables_evolves|by eapply same_tables_ok].
Qed.

Definition all_safe (rb : bool) : @config World unit -> Prop :=
  pool_safe (world_evolves rb) tokens_ok (fun _ _ => True).

Lemma initial_safe rb x now ms : all_safe rb ([], initial_world x now ms).
Proof.
  exists []. split; [by constructor|]. split; [by intros i j a b _ Hi; rewrite lookup_nil in Hi|].
  split; [set_solver|]. exists ∅. split; [|by intros a b n Ha; rewrite lookup_empty in Ha].
  by intros [id|sid]; simpl; rewrite !lookup_empty.
Qed.

Lemma reachable_all_safe rb c : reachable rb c -> all_safe rb c.
Proof.
  intros (x&now&ms&Hr). eapply reachable_safe; [apply arrive_safe|apply env_safe| |exact Hr].
  apply initial_safe.
Qed.

Lemma step_evolves rb c c' :
  reachable rb c -> api_step rb c c' -> world_evolves rb c.2 c'.2.
Proof.
  intros Hr Hs. apply reachable_all_safe in Hr.
  by destruct (cstep_safe _ _ _ _ _ (arrive_safe rb) (env_safe rb) _ _ Hr Hs).
Qed.

Lemma reachable_tokens rb c : reachable rb c -> exists held, tokens_ok c.2 held.
Proof. intros (owns&_&_&HI)%reachable_all_safe. by eexists. Qed.

(** The bearer token [token] opens the resource [res]. *)
Definition opens (w : World) (token : string) (res : resource) : Prop :=
  exists t, token_at w res = Some t /\ token_matches t token = true.

Lemma token_matches_spec t s : token_matches t s = true <-> t = from_plaintext s.
Proof.
  unfold token_matches. rewrite ct_eq_spec. destruct t as [d]; unfold from_plaintext; simpl.
  naive_solver.
Qed.

(** C1. Bearer tokens are capabilities for exactly one resource, in every
    state that any interleaving of requests, TTL reapers, runtime activity and
    audit failures can reach: if one token opens two resources (sandboxes or
    snapshots), they are the same resource, or the digest of two different
    issued secrets collided. A token that opens something is moreover the
    preimage of the digest of an issued secret, so nothing is ever opened by
    guessing alone. *)
Theorem token_isolation rb c token a b :
  reachable rb c -> opens c.2 token a -> opens c.2 token b ->
  (exists n, n < w_rng c.2 /\ from_plaintext token = token_of n)
  /\ (a = b \/ exists n m, n <> m /\ n < w_rng c.2 /\ m < w_rng c.2 /\ token_of n = token_of m).
Proof.
  intros (held&_&num&Hnum&Hinj)%reachable_tokens (ta&Ha&Hta) (tb&Hb&Htb).
  apply token_matches_spec in Hta as ->, Htb as ->.
  pose proof (Hnum a) as Hna. rewrite Ha in Hna. destruct Hna as (n&Hn&Htn&Hlt&_).
  pose proof (Hnum b) as Hnb. rewrite Hb in Hnb. destruct Hnb as (m&Hm&Htm&Hlt'&_).
  split; [by exists n|]. destruct (decide (n = m)) as [->|Hne]; [left; eauto|].
  right. exists n, m. repeat split; [done|done|done|]. congruence.
Qed.

(** C2. Records only move along the state machine: in every interleaving
    without a rollback request, each atomic step leaves a sandbox's record
    alone, removes it, registers it afresh under a newly issued secret, or
    takes one transition that [can_transition_to] accepts; a record that
    exists on both sides of a step keeps its node and expiry unless it was
    registered afresh. *)
Theorem records_follow_state_machine c c' id r r' :
  reachable false c -> api_step false c c' ->
  w_records c.2 !! id = Some r -> w_records c'.2 !! id = Some r' ->
  r' = r
  \/ (transition_allowed (rec_state r) (rec_state r') /\ rec_token r' = rec_token r
      /\ rec_node_id r' = rec_node_id r /\ rec_expires_at r' = rec_expires_at r
      /\ rec_expires_at_unix_ms r' = rec_expires_at_unix_ms r)
  \/ (exists n m, rec_token r' = token_of n /\ rec_token r = token_of m /\ n <> m
      /\ n < w_rng c'.2).
Proof.
  intros Hr Hs H1 H2. destruct (step_evolves _ _ _ Hr Hs) as [Hev _].
  specialize (Hev id). rewrite H1, H2 in Hev. 
  destruct Hev as [Heq|[Heq|[(n&r''&Heq&Htok&Hlt&Hm)|(r1&r2&E1&E2&?&?&?&[[]|?])]]].
  - left. congruence.
  - done.
  - right; right. destruct (Hm r eq_refl) as (m&?&?). injection Heq as <-.
    exists n, m. repeat split; [done|done|congruence|done].
  - right; left. injection E1 as <-. injection E2 as <-. by repeat split.
  - done.
Qed.
End Safety.

(** ** Concrete executions *)

Definition example_request : CreateSandboxRequest :=
  MkCreateSandboxRequest "python" default_cpu default_memory default_ttl false.

(** Two creations, interleaved step by step. *)
Definition two_creations : @config (@World string_uuid Script) unit :=
  run_schedule (concat (replicate 12 [0; 1]))
    ([task (router (POST_sandboxes example_request)); task (router (POST_sandboxes example_request))],
     initial_world start 0 0).

Lemma reachable_schedule rb (requests : list Request) sch :
  Forall (fun r => is_rollback r = true -> rb = true) requests ->
  @reachable string_uuid plain_crypto Script scripted_runtime rb
    (run_schedule sch (map (fun r => task (router r)) requests, initial_world start 0 0)).
Proof.
  intros Hall. exists start, 0%Z, 0%Z.
  etrans; [|apply run_schedule_reachable].
  cut (forall done_, rtc (api_step rb) (done_, initial_world start 0 0)
         (done_ ++ map (fun r => task (router r)) requests, initial_world start 0 0)).
  { intros Hc. apply (Hc []). }
  induction Hall as [|r requests Hr _ IH]; intros done_; simpl; [by rewrite app_nil_r|].
  eapply rtc_l; [by apply cs_arrive, arrive_request|].
  specialize (IH (done_ ++ [task (router r)])). by rewrite <-app_assoc in IH.
Qed.

Lemma two_creations_reachable : reachable false two_creations.
Proof.
  apply (reachable_schedule false [POST_sandboxes example_request; POST_sandboxes example_request]).
  by repeat constructor.
Qed.

Lemma token_isolation_witness :
  opens two_creations.2 (plaintext_of 0) (inl (SandboxId_new 0))
  /\ exists n, n < w_rng two_creations.2 /\ from_plaintext (plaintext_of 0) = token_of n.
Proof.
  assert (opens two_creations.2 (plaintext_of 0) (inl (SandboxId_new 0))) as Ho.
  { exists (token_of 0). by vm_compute. }
  split; [exact Ho|].
  exact (proj1 (token_isolation false two_creations (plaintext_of 0) (inl (SandboxId_new 0))
    (inl (SandboxId_new 0)) two_creations_reachable Ho Ho)).
Defined.

(** A pause of the first sandbox, up to the step that moves its record. *)
Definition example_header : HeaderMap :=
  MkHeaderMap (Some (Some ("Bearer " +:+ plaintext_of 0))).

Definition pause_before : @config (@World string_uuid Script) unit :=
  run_schedule (replicate 12 0 ++ [1; 1])
    ([task (router (POST_sandboxes example_request)); task (router (POST_pause "0" example_header))],
     initial_world start 0 0).

Lemma records_follow_state_machine_witness :
  let id := SandboxId_new 0 in
  rec_state <$> (w_records pause_before.2 !! id) = Some Running
  /\ rec_state <$> (w_records (sched_step 1 pause_before).2 !! id) = Some Pausing
  /\ reachable false pause_before /\ api_step false pause_before (sched_step 1 pause_before)
  /\ exists r r', r' = r
    \/ (transition_allowed (rec_state r) (rec_state r') /\ rec_token r' = rec_token r
        /\ rec_node_id r' = rec_node_id r /\ rec_expires_at r' = rec_expires_at r
        /\ rec_expires_at_unix_ms r' = rec_expires_at_unix_ms r)
    \/ (exists n m, rec_token r' = token_of n /\ rec_token r = token_of m /\ n <> m
        /\ n < w_rng (sched_step 1 pause_before).2).
Proof.
  assert (reachable false pause_before) as Hr.
  { apply (reachable_schedule false
      [POST_sandboxes example_request; POST_pause "0" example_header]). by repeat constructor. }
  assert (api_step false pause_before (sched_step 1 pause_before)) as Hs.
  { apply sched_step_cstep. by vm_compute. }
  split; [by vm_compute|]. split; [by vm_compute|]. split; [exact Hr|]. split; [exact Hs|].
  eexists _, _. eapply (records_follow_state_machine _ _ (SandboxId_new 0) _ _ Hr Hs); by vm_compute.
Defined.

(** ** A rollback racing a deletion *)

(** A snapshot is taken, then a rollback to it runs while the sandbox is being
    deleted: the rollback's runtime call comes before the deletion's, its write
    to the record after. *)
Definition race_requests : list Request :=
  [POST_sandboxes example_request;
   POST_snapshots "0" example_header (MkCreateSnapshotRequest None);
   POST_rollback "0" "1" example_header;
   DELETE_sandbox "0" example_header].

Definition race_start : @config (@World string_uuid Script) unit :=
  (map (fun r => task (router r)) race_requests, initial_world start 0 0).

(** Both are under way, and the runtime has done what each asked of it. *)
Definition race_schedule : list nat :=
  replicate 12 0 ++ replicate 12 1 ++ replicate 4 2 ++ replicate 4 3.

(** C35. A rollback can resurrect the record of a deleted sandbox. A sandbox and a
    snapshot of it are created, with nothing deleted before; then a rollback to
    the snapshot and the deletion of the sandbox, all correctly authorised,
    interleave up to a state where the runtime has deleted the sandbox and its
    record is Deleting. There the deletion on its own would remove the record;
    but if the rest of the rollback runs first, it makes the record Running
    again, the deletion can no longer mark it Deleted, and both end with the
    control plane listing as Running a sandbox that the runtime has deleted. *)
Theorem rollback_resurrects_record :
  let id := SandboxId_new 0 in
  sc_deleted (w_runtime race_start.2) = [] /\
  race_requests !! 2 = Some (POST_rollback "0" "1" example_header) /\
  race_requests !! 3 = Some (DELETE_sandbox "0" example_header) /\
  exists c rollback deletion, rtc (api_step true) race_start c
    /\ c.1 !! 2 = Some rollback /\ c.1 !! 3 = Some deletion
    /\ id ∈ sc_deleted (w_runtime c.2) /\ rec_state <$> (w_records c.2 !! id) = Some Deleting
    /\ w_records (run deletion c.2).2 !! id = None
    /\ rec_state <$> (w_records (run rollback c.2).2 !! id) = Some Running
    /\ let w := (run deletion (run rollback c.2).2).2 in
       rec_state <$> (w_records w !! id) = Some Running /\ id ∈ sc_deleted (w_runtime w).
Proof.
  cbv zeta. split; [reflexivity|]. split; [reflexivity|]. split; [reflexivity|].
  set (c := run_schedule race_schedule race_start).
  assert (forall i, (if c.1 !! i then true else false) = true ->
    c.1 !! i = Some (default (Ret tt) (c.1 !! i))) as Hthread by (intros i; by destruct (c.1 !! i)).
  exists c, (default (Ret tt) (c.1 !! 2)), (default (Ret tt) (c.1 !! 3)).
  split; [apply run_schedule_reachable|]. split; [apply Hthread; by vm_compute|].
  split; [apply Hthread; by vm_compute|]. rewrite !list_elem_of_In.
  split; [vm_compute; by left|]. split; [by vm_compute|]. split; [by vm_compute|]. split; [by vm_compute|].
  split; [by vm_compute|]. vm_compute; by left.
Qed.
