(* ===== verification/ApiProps.v ===== *)
(** * Behaviour of the HTTP handlers

    What each handler of [Api] does when it runs by itself: authorisation,
    creation, expiry, teardown, snapshots and pagination, on every branch. The
    runtime behind the handlers is any instance of [SandboxRuntime]. *)
From S2P Require Import Prelude Conc Core Utf8 Api Instances ApiSafety.

Section Handlers.
Context `{U : UuidLib} `{C : CryptoLib} {R : Type} `{RT : @SandboxRuntime U R}.

Abbreviation World := (@World U R).

Lemma run_runtime_call {A} (p : prog R (result A RuntimeError)) (w : World) :
  run (runtime_call p) w =
  (map_err from_runtime (run p (w_runtime w)).1, set_runtime (run p (w_runtime w)).2 w).
Proof. unfold runtime_call. by rewrite run_map_err, run_lift. Qed.

Lemma run_lift_runtime {A} (p : prog R A) (w : World) :
  run (lift p) w = ((run p (w_runtime w)).1, set_runtime (run p (w_runtime w)).2 w).
Proof. exact (run_lift p w). Qed.

Lemma token_matches_iff t s : token_matches t s = true <-> t = from_plaintext s.
Proof.
  unfold token_matches. rewrite ct_eq_spec. destruct t as [d]; unfold from_plaintext; simpl.
  naive_solver.
Qed.

(** ** Authorisation *)

(** What [authorize] decides, as a function of the state. *)
Definition authorize_result (w : World) (id : SandboxId) (h : HeaderMap) :
  result SandboxRecord ApiError :=
  (let? token := bearer h in
   let? record := ok_or (not_found "sandbox does not exist") (w_records w !! id) in
   if (rec_expires_at record <=? w_now w)%Z
   then Err (MkApiError 410%N "sandbox_expired" "sandbox token has expired")
   else if token_matches (rec_token record) token then Ok record
   else Err (unauthorized "invalid bearer token"))%result.

Definition authorize_snapshot_result (w : World) (id : SnapshotId) (h : HeaderMap) :
  result SnapshotRecord ApiError :=
  (let? token := bearer h in
   let? record := ok_or (not_found "snapshot does not exist") (w_snapshots w !! id) in
   if token_matches (srec_token record) token then Ok record
   else Err (unauthorized "invalid snapshot bearer token"))%result.

Definition authorize_running_result (w : World) (id : SandboxId) (h : HeaderMap) :
  result SandboxRecord ApiError :=
  (let? record := authorize_result w id h in
   if bool_decide (rec_state record = Running) then Ok record
   else Err (conflict "sandbox is not running"))%result.

Lemma run_authorize w id h : run (authorize id h) w = (authorize_result w id h, w).
Proof.
  unfold authorize, authorize_result. autorewrite with prog.
  simpl. destruct (bearer h); simpl; [|done]. autorewrite with prog. simpl.
  destruct (w_records w !! id) as [r|]; simpl; [|done].
  destruct (rec_expires_at r <=? w_now w)%Z; simpl; [done|].
  by destruct (token_matches (rec_token r) a).
Qed.

Lemma run_authorize_snapshot w id h :
  run (authorize_snapshot id h) w = (authorize_snapshot_result w id h, w).
Proof.
  unfold authorize_snapshot, authorize_snapshot_result. autorewrite with prog.
  simpl. destruct (bearer h); simpl; [|done].
  destruct (w_snapshots w !! id) as [r|]; simpl; [|done].
  by destruct (token_matches (srec_token r) a).
Qed.

Lemma run_authorize_running w id h :
  run (authorize_running id h) w = (authorize_running_result w id h, w).
Proof.
  unfold authorize_running, authorize_running_result. autorewrite with prog.
  rewrite run_authorize; simpl. destruct (authorize_result w id h); simpl; [|done].
  by destruct (bool_decide _).
Qed.

(** A request that carries the right credential for a live sandbox. *)
Definition authorised (w : World) (id : SandboxId) (h : HeaderMap) (r : SandboxRecord) : Prop :=
  exists token, authorization h = Some (Some ("Bearer " +:+ token)) /\ token <> ""
    /\ w_records w !! id = Some r /\ (w_now w < rec_expires_at r)%Z
    /\ rec_token r = from_plaintext token.

Definition authorised_snapshot (w : World) (id : SnapshotId) (h : HeaderMap) (r : SnapshotRecord) :
  Prop :=
  exists token, authorization h = Some (Some ("Bearer " +:+ token)) /\ token <> ""
    /\ w_snapshots w !! id = Some r /\ srec_token r = from_plaintext token.

Lemma bearer_ok h token :
  bearer h = Ok token <-> authorization h = Some (Some ("Bearer " +:+ token)) /\ token <> "".
Proof.
  unfold bearer. rewrite ok_or_ok. destruct (authorization h) as [[v|]|]; [|naive_solver..].
  destruct (strip_prefix "Bearer " v) as [t|] eqn:E.
  - apply strip_prefix_Some in E as ->. destruct (is_empty t) eqn:Et.
    + apply is_empty_spec in Et as ->. split; [done|]. intros [[= Heq] Hne].
      by destruct token.
    + split.
      * intros [= ->]. split; [done|]. intros ->. done.
      * by intros [[= ->] _].
  - split; [done|]. intros [Hv _]. assert (v = "Bearer " +:+ token) as Hv' by congruence.
      apply strip_prefix_Some in Hv'. congruence.
Qed.

Lemma authorize_result_ok w id h r : authorize_result w id h = Ok r <-> authorised w id h r.
Proof.
  unfold authorize_result, authorised. split.
  - intros (t&Ht&H1)%result_bind_ok. apply result_bind_ok in H1 as (r'&Hr&H1).
    apply ok_or_ok in Hr. apply bearer_ok in Ht as [Ht Hne].
    destruct (Z.leb_spec (rec_expires_at r') (w_now w)); [done|].
    destruct (token_matches _ _) eqn:Hm; [|done]. apply token_matches_iff in Hm.
    injection H1 as ->. by exists t.
  - intros (t&Ht&Hne&Hr&Hexp&Htok). assert (bearer h = Ok t) as -> by (by apply bearer_ok).
    simpl. rewrite Hr. simpl. destruct (Z.leb_spec (rec_expires_at r) (w_now w)); [lia|].
    by rewrite (proj2 (token_matches_iff _ _) Htok).
Qed.

Lemma authorize_snapshot_result_ok w id h r :
  authorize_snapshot_result w id h = Ok r <-> authorised_snapshot w id h r.
Proof.
  unfold authorize_snapshot_result, authorised_snapshot. split.
  - intros (t&Ht&H1)%result_bind_ok. apply result_bind_ok in H1 as (r'&Hr&H1).
    apply ok_or_ok in Hr. apply bearer_ok in Ht as [Ht Hne].
    destruct (token_matches _ _) eqn:Hm; [|done]. apply token_matches_iff in Hm.
    injection H1 as ->. by exists t.
  - intros (t&Ht&Hne&Hr&Htok). assert (bearer h = Ok t) as -> by (by apply bearer_ok).
    simpl. rewrite Hr. simpl. by rewrite (proj2 (token_matches_iff _ _) Htok).
Qed.

(** What a request needs to have any effect. *)
Definition credential (w : World) (request : Request) : Prop :=
  let sandbox id h := exists i r, SandboxId_from_str id = Some i /\ authorised w i h r in
  let running id h := exists i r, SandboxId_from_str id = Some i /\ authorised w i h r
                             /\ rec_state r = Running in
  let snapshot id h := exists i r, SnapshotId_from_str id = Some i /\ authorised_snapshot w i h r in
  match request with
  | GET_healthz | POST_sandboxes _ => True
  | POST_commands id h _ | PUT_files id h _ | GET_files id h _ | GET_directories id h _
  | POST_pause id h => running id h
  | GET_sandbox id h | DELETE_sandbox id h | POST_resume id h | POST_snapshots id h _
  | GET_snapshots id h _ | POST_rollback id _ h => sandbox id h
  | GET_snapshot id h | DELETE_snapshot id h | POST_verify id h | POST_restore id h _
  | POST_clones id h _ => snapshot id h
  end.

Ltac run_simpl :=
  autorewrite with prog; rewrite ?run_authorize, ?run_authorize_running, ?run_authorize_snapshot;
  cbn [fst snd].

(** A program that answers with an error and changes nothing. *)
Definition inert {A} (p : prog World (result A ApiError)) (w : World) : Prop :=
  is_ok (run p w).1 = false /\ (run p w).2 = w.

Lemma inert_of_result {A B} (r : result A ApiError) (k : A -> prog World (result B ApiError)) w :
  (forall a, r = Ok a -> inert (k a) w) -> inert (bind_ok (of_result r) k) w.
Proof. intros Hk. unfold inert. run_simpl. destruct r; simpl; [by apply Hk|done]. Qed.

Lemma inert_authorize {A} id h (k : SandboxRecord -> prog World (result A ApiError)) w :
  (forall r, authorised w id h r -> inert (k r) w) -> inert (bind_ok (authorize id h) k) w.
Proof.
  intros Hk. unfold inert. run_simpl.
  destruct (authorize_result w id h) as [r|] eqn:Ha; [|done]. by apply Hk, authorize_result_ok.
Qed.

Lemma inert_authorize_running {A} id h (k : SandboxRecord -> prog World (result A ApiError)) w :
  (forall r, authorised w id h r -> rec_state r = Running -> inert (k r) w) ->
  inert (bind_ok (authorize_running id h) k) w.
Proof.
  intros Hk. unfold inert. run_simpl. unfold authorize_running_result.
  destruct (authorize_result w id h) as [r|] eqn:Ha; [|done]. simpl.
  case_bool_decide; [|done]. by apply Hk; [apply authorize_result_ok|].
Qed.

Lemma inert_authorize_snapshot {A} id h (k : SnapshotRecord -> prog World (result A ApiError)) w :
  (forall r, authorised_snapshot w id h r -> inert (k r) w) ->
  inert (bind_ok (authorize_snapshot id h) k) w.
Proof.
  intros Hk. unfold inert. run_simpl.
  destruct (authorize_snapshot_result w id h) as [r|] eqn:Ha; [|done].
  by apply Hk, authorize_snapshot_result_ok.
Qed.

Lemma inert_throw {A} e w : inert (throw (A:=A) e) w.
Proof. done. Qed.

Lemma inert_reply {A} (f : A -> Reply) p w : inert p w -> inert (reply f p) w.
Proof. unfold inert, reply. rewrite run_fmap. simpl. by destruct (run p w) as [[] ?]. Qed.

Lemma parse_id_ok s id : parse_id s = Ok id <-> SandboxId_from_str s = Some id.
Proof. apply ok_or_ok. Qed.
Lemma parse_snapshot_id_ok s id : parse_snapshot_id s = Ok id <-> SnapshotId_from_str s = Some id.
Proof. apply ok_or_ok. Qed.

Ltac inert_step :=
  match goal with
  | |- inert (bind_ok (of_result _) _) _ => apply inert_of_result; intros ? ?
  | |- inert (bind_ok (authorize _ _) _) _ => apply inert_authorize; intros ? ?
  | |- inert (bind_ok (authorize_running _ _) _) _ => apply inert_authorize_running; intros ? ? ?
  | |- inert (bind_ok (authorize_snapshot _ _) _) _ => apply inert_authorize_snapshot; intros ? ?
  | |- inert (if ?b then _ else _) _ => destruct b; [apply inert_throw|]
  | H : parse_id _ = Ok _ |- _ => apply parse_id_ok in H
  | H : parse_snapshot_id _ = Ok _ |- _ => apply parse_snapshot_id_ok in H
  end.

(** C3. Requests without the right credential are inert: unless a request
    names a sandbox (or snapshot) that exists, carries the bearer token whose
    digest is stored there, arrives before that sandbox expires, and, for
    commands, files and pause, finds it Running, the router answers with an
    error and the whole state (tables, audit log and runtime) is unchanged. *)
Theorem unauthorised_requests_inert w request :
  ~ credential w request ->
  is_ok (run (router request) w).1 = false /\ (run (router request) w).2 = w.
Proof.
  intros Hno. change (inert (router request) w).
  destruct request; simpl in Hno; try done; apply inert_reply;
    unfold get_sandbox, execute_command, write_file, read_file, list_directory, pause_sandbox,
      resume_sandbox, delete_sandbox, create_snapshot, list_snapshots, rollback_snapshot,
      get_snapshot, verify_snapshot, restore_snapshot, clone_snapshot, delete_snapshot;
    repeat inert_step; exfalso; naive_solver.
Qed.

(** ** Creation *)

(** The audit log accepts the next [n] writes. *)
Definition audit_works (w : World) (n : nat) : Prop := forallb negb (take n (w_audit_faults w)) = true.

(** The record, reaper and response that [register_sandbox] produces. *)
Definition registered (w : World) (handle : SandboxHandle) (secs : Z) : World :=
  set_reapers (w_reapers w ++ [(sh_sandbox_id handle, (w_now w + secs * 1000)%Z)])
    (set_records (<[sh_sandbox_id handle :=
       MkSandboxRecord (from_plaintext (plaintext_of (w_rng w))) (sh_state handle) (sh_node_id handle)
         (w_now w + secs * 1000)
         (saturating_add u128_max (w_unix_ms w) (saturating_mul u128_max secs 1000))]>
       (w_records w)) (set_rng (S (w_rng w)) w)).

Definition registration (w : World) (handle : SandboxHandle) (secs : Z) : CreateSandboxResponse :=
  MkCreateSandboxResponse (sh_sandbox_id handle) (sh_node_id handle) (sh_state handle)
    (plaintext_of (w_rng w))
    (saturating_add u128_max (w_unix_ms w) (saturating_mul u128_max secs 1000)).

Lemma run_register_sandbox handle secs w :
  run (register_sandbox handle secs) w = (registration w handle secs, registered w handle secs).
Proof. done. Qed.

(** The state after one audit write, successful or not. *)
Definition audited (w : World) (who : option string) (op outcome : string)
    (details : gmap string string) : World :=
  match w_audit_faults w with
  | true :: fs => set_audit (w_audit w) fs w
  | fs => set_audit (w_audit w ++ [MkAuditEvent (w_unix_ms w) who op outcome details]) (tail fs) w
  end.

Definition audit_result (w : World) : result unit ApiError :=
  match w_audit_faults w with true :: _ => Err internal | _ => Ok tt end.

Lemma run_audit who op outcome details w :
  run (AuditLog_record who op outcome details) w =
  (audit_result w, audited w who op outcome details).
Proof.
  unfold AuditLog_record, audit_result, audited. rewrite run_act.
  by destruct (w_audit_faults w) as [|[] fs].
Qed.

Lemma random_secret_nonempty n : plaintext_of n <> "".
Proof.
  apply base64_url_nonempty. intros Heq. pose proof (random_secret_length n) as Hl.
  by rewrite Heq in Hl.
Qed.

Definition bearer_header (token : string) : HeaderMap :=
  MkHeaderMap (Some (Some ("Bearer " +:+ token))).

Lemma bearer_header_ok token : token <> "" -> bearer (bearer_header token) = Ok token.
Proof. intros Hne. by apply bearer_ok. Qed.

(** The token of a fresh registration authorises until the lifetime is over. *)
Lemma registered_authorise w handle secs w' :
  w_records w' = w_records (registered w handle secs) ->
  is_ok (authorize_result w' (sh_sandbox_id handle) (bearer_header (plaintext_of (w_rng w))))
  = (w_now w' <? w_now w + secs * 1000)%Z.
Proof.
  intros Hrec. unfold authorize_result. rewrite bearer_header_ok by apply random_secret_nonempty.
  cbn [result_bind]. rewrite Hrec. simpl. rewrite lookup_insert_eq. simpl.
  rewrite (proj2 (token_matches_iff _ _)) by done.
  destruct (Z.leb_spec (w_now w + secs * 1000) (w_now w')), (Z.ltb_spec (w_now w') (w_now w + secs * 1000));
    (done || lia).
Qed.

Lemma audit_works_S w n : audit_works w (S n) ->
  audit_result w = Ok tt /\ forall who op outcome details, audit_works (audited w who op outcome details) n.
Proof.
  unfold audit_works, audit_result, audited.
  destruct (w_audit_faults w) as [|[] fs] eqn:Hf; simpl; intros Hf'; split; try done;
    intros; simpl; by rewrite ?take_nil.
Qed.

Lemma audited_frame w who op outcome details :
  let w' := audited w who op outcome details in
  w_runtime w' = w_runtime w /\ w_records w' = w_records w /\ w_snapshots w' = w_snapshots w
  /\ w_reapers w' = w_reapers w /\ w_rng w' = w_rng w /\ w_now w' = w_now w
  /\ w_unix_ms w' = w_unix_ms w.
Proof. unfold audited. by destruct (w_audit_faults w) as [|[] fs]. Qed.

(** The state after the first audit write of a creation. *)
Definition create_started (w : World) (request : CreateSandboxRequest) : World :=
  audited w None "create" "started" (create_details (create_spec request)).

Lemma run_create_sandbox w request :
  run (create_sandbox request) w =
  match SandboxSpec_validate (create_spec request), audit_result w with
  | Err e, _ => (Err (bad_request (ValidationError_to_string e)), w)
  | Ok _, Err e => (Err e, create_started w request)
  | Ok _, Ok _ =>
      let out := run (rt_create (create_spec request)) (w_runtime w) in
      let w1 := set_runtime out.2 (create_started w request) in
      match out.1 with
      | Err e =>
          (result_bind (audit_result w1) (fun _ => Err (from_runtime e)),
           audited w1 None "create" "failed" {["error" := re_message e]})
      | Ok handle =>
          let response := registration w1 handle (cr_timeout_seconds request) in
          let w2 := registered w1 handle (cr_timeout_seconds request) in
          (result_map (fun _ => (CREATED, response)) (audit_result w2),
           audited w2 (Some (SandboxId_to_string (sh_sandbox_id handle))) "create" "succeeded"
             (create_details (create_spec request)))
      end
  end.
Proof.
  unfold create_sandbox, validation. cbv zeta. rewrite run_bind_ok.
  destruct (SandboxSpec_validate (create_spec request)) as [[]|e]; [|done].
  cbn [of_result map_err run fst snd]. rewrite run_bind_ok, run_audit. cbn [fst snd].
  destruct (audit_result w) as [[]|e]; [|done]. rewrite run_bind, run_lift_runtime. cbn [fst snd].
  replace (w_runtime (audited w _ _ _ _)) with (w_runtime w)
    by (symmetry; apply (audited_frame w)).
  fold (create_started w request). cbv zeta.
  destruct (run (rt_create (create_spec request)) (w_runtime w)).1 as [handle|e].
  - rewrite run_bind, run_register_sandbox, run_bind_ok, run_audit. cbn [fst snd].
    by destruct (audit_result _).
  - rewrite run_bind_ok, run_audit. cbn [fst snd]. by destruct (audit_result _).
Qed.

(** A creation only depends on what the first audit write leaves alone. *)
Lemma registered_started w request handle secs x :
  let w1 := set_runtime x (create_started w request) in
  registration w1 handle secs = registration w handle secs
  /\ w_records (registered w1 handle secs) = w_records (registered w handle secs)
  /\ w_snapshots (registered w1 handle secs) = w_snapshots w
  /\ w_reapers (registered w1 handle secs) = w_reapers (registered w handle secs).
Proof.
  destruct (audited_frame w None "create" "started" (create_details (create_spec request)))
    as (Hrt&Hrec&Hsn&Hre&Hrng&Hnow&Hms). fold (create_started w request) in *.
  unfold registration, registered; simpl. by rewrite Hrec, Hsn, Hre, Hrng, Hnow, Hms.
Qed.

(** C33. Creating a sandbox, on every branch. An invalid specification is
    answered with 400 and nothing happens. Otherwise, with a working audit log,
    the outcome is that of the runtime's [create]: an error is mapped by
    [from_runtime] and leaves both tables as they were; a handle is answered
    with 201, recorded under a fresh secret with the requested lifetime, given
    a TTL reaper, and the returned token then authorises exactly as long as the
    lifetime lasts. *)
Theorem create_sandbox_behaviour w request :
  audit_works w 2 ->
  let spec := create_spec request in
  let secs := cr_timeout_seconds request in
  let '(answer, w') := run (create_sandbox request) w in
  match SandboxSpec_validate spec with
  | Err e => answer = Err (bad_request (ValidationError_to_string e)) /\ w' = w
  | Ok _ =>
      match run (rt_create spec) (w_runtime w) with
      | (Err e, x) =>
          answer = Err (from_runtime e) /\ w_runtime w' = x
          /\ w_records w' = w_records w /\ w_snapshots w' = w_snapshots w
          /\ w_reapers w' = w_reapers w
      | (Ok handle, x) =>
          answer = Ok (CREATED, registration w handle secs) /\ w_runtime w' = x
          /\ w_records w' = w_records (registered w handle secs)
          /\ w_snapshots w' = w_snapshots w
          /\ w_reapers w' = w_reapers w ++ [(sh_sandbox_id handle, (w_now w + secs * 1000)%Z)]
          /\ (forall later ms,
                is_ok (run (authorize (sh_sandbox_id handle)
                  (bearer_header (resp_token (registration w handle secs)))) (set_time later ms w')).1
                = (later <? w_now w + secs * 1000)%Z)
      end
  end.
Proof.
  intros Haudit. cbv zeta. rewrite run_create_sandbox.
  destruct (audit_works_S _ _ Haudit) as [-> H1].
  destruct (SandboxSpec_validate (create_spec request)) as [[]|e]; [|done].
  specialize (H1 None "create" "started" (create_details (create_spec request))).
  fold (create_started w request) in H1. apply audit_works_S in H1 as [Hok _].
  destruct (run (rt_create (create_spec request)) (w_runtime w)) as [[handle|e] x]; cbv zeta;
    cbn [fst snd].
  - destruct (registered_started w request handle (cr_timeout_seconds request) x) as (->&Hrec&Hsn&Hre).
    set (w1 := set_runtime x (create_started w request)) in *.
    assert (audit_result (registered w1 handle (cr_timeout_seconds request)) = Ok tt) as -> by done.
    destruct (audited_frame (registered w1 handle (cr_timeout_seconds request))
      (Some (SandboxId_to_string (sh_sandbox_id handle))) "create" "succeeded"
      (create_details (create_spec request))) as (Frt&Frec&Fsn&Fre&_).
    cbv zeta in *. rewrite Frt, Frec, Fsn, Fre. repeat split; [done..|].
    intros later ms. rewrite run_authorize. cbn [fst].
    change (resp_token (registration w handle (cr_timeout_seconds request)))
      with (plaintext_of (w_rng w)).
    rewrite (registered_authorise w handle (cr_timeout_seconds request)); [done|].
    cbn [set_time w_records]. by rewrite Frec.
  - change (audit_result (set_runtime x (create_started w request)))
      with (audit_result (create_started w request)). rewrite Hok.
    destruct (audited_frame w None "create" "started" (create_details (create_spec request)))
      as (_&Hrec&Hsn&Hre&_). fold (create_started w request) in *.
    destruct (audited_frame (set_runtime x (create_started w request)) None "create" "failed"
      {["error" := re_message e]}) as (Frt&Frec&Fsn&Fre&_). cbv zeta in *.
    by rewrite Frt, Frec, Fsn, Fre.
Qed.

(** ** Lifecycle *)

Definition with_state (r : SandboxRecord) (s : SandboxState) : SandboxRecord :=
  MkSandboxRecord (rec_token r) s (rec_node_id r) (rec_expires_at r) (rec_expires_at_unix_ms r).

Definition put_record (id : SandboxId) (r : SandboxRecord) (w : World) : World :=
  set_records (<[id := r]> (w_records w)) w.

Lemma run_transition w id next r :
  w_records w !! id = Some r ->
  run (transition id next) w =
  if can_transition_to (rec_state r) next then (Ok tt, put_record id (with_state r next) w)
  else (Err (conflict ("invalid state transition: " +:+ SandboxState_debug (rec_state r)
              +:+ " -> " +:+ SandboxState_debug next)), w).
Proof.
  intros Hr. unfold transition. rewrite run_act, Hr. by destruct (can_transition_to _ _).
Qed.

(** What a lifecycle call on the runtime does to the record and the answer:
    [during] while it runs, [after] when it succeeds, [Failed] when it fails. *)
Definition lifecycle_outcome (w : World) (id : SandboxId) (r : SandboxRecord)
    (during after : SandboxState) (call : prog R (result unit RuntimeError)) :
  result unit ApiError * World :=
  let out := run call (w_runtime w) in
  match out.1 with
  | Ok _ => (Ok tt, put_record id (with_state r after) (set_runtime out.2 w))
  | Err e => (Err (from_runtime e), put_record id (with_state r Failed) (set_runtime out.2 w))
  end.

Lemma put_record_twice id a b w : put_record id a (put_record id b w) = put_record id a w.
Proof. unfold put_record, set_records; simpl. by rewrite insert_insert_eq. Qed.

Lemma lifecycle_run {A} w id r during after call (k : unit -> prog World (result A ApiError)) :
  w_records w !! id = Some r -> can_transition_to (rec_state r) during = true ->
  can_transition_to during after = true -> can_transition_to during Failed = true ->
  run (bind_ok (transition id during) (fun _ =>
       bind (lift call) (fun out =>
       match out with
       | Err error => bind_ok (transition id Failed) (fun _ => throw (from_runtime error))
       | Ok _ => bind_ok (transition id after) k
       end))) w
  = match (lifecycle_outcome w id r during after call).1 with
    | Ok _ => run (k tt) (lifecycle_outcome w id r during after call).2
    | Err e => (Err e, (lifecycle_outcome w id r during after call).2)
    end.
Proof.
  intros Hr Hd Ha Hf. rewrite run_bind_ok, (run_transition w id during r Hr), Hd. cbn [fst snd].
  rewrite run_bind, run_lift_runtime. cbn [fst snd].
  change (w_runtime (put_record id (with_state r during) w)) with (w_runtime w).
  unfold lifecycle_outcome. cbv zeta. destruct (run call (w_runtime w)) as [[[]|e] x]; cbn [fst snd];
    rewrite run_bind_ok;
    rewrite (run_transition _ id _ (with_state r during)) by apply lookup_insert_eq;
    cbn [rec_state with_state]; rewrite ?Ha, ?Hf; cbn [fst snd];
    change (put_record id ?a (set_runtime ?x (put_record id ?b ?w)))
      with (put_record id a (put_record id b (set_runtime x w)));
    by rewrite put_record_twice.
Qed.

Lemma run_lifecycle_blocked {A} w id r during (k : unit -> prog World (result A ApiError)) :
  w_records w !! id = Some r -> can_transition_to (rec_state r) during = false ->
  exists m, run (bind_ok (transition id during) k) w = (Err (conflict m), w).
Proof.
  intros Hr Hd. rewrite run_bind_ok, (run_transition w id during r Hr), Hd. by eexists.
Qed.

(** Teardown of a recorded sandbox. *)
Lemma run_delete_internal w id r reason :
  w_records w !! id = Some r ->
  let '(answer, w') := run (delete_internal id reason) w in
  if can_transition_to (rec_state r) Deleting then
    let out := run (rt_delete id) (w_runtime w) in
    w_runtime w' = out.2 /\ w_snapshots w' = w_snapshots w /\
    match out.1 with
    | Ok _ => w_records w' = delete id (w_records w) /\ answer = audit_result w
        /\ (answer = Ok tt -> exists ms, w_audit w' = w_audit w ++
              [MkAuditEvent ms (Some (SandboxId_to_string id)) "delete" "succeeded"
                 {["reason" := reason]}])
    | Err e => w_records w' = <[id := with_state r Failed]> (w_records w)
        /\ answer = Err (from_runtime e) /\ w_audit w' = w_audit w
    end
  else w' = w /\ exists m, answer = Err (conflict m).
Proof.
  intros Hr. destruct (run (delete_internal id reason) w) as [answer w'] eqn:Hrun. revert Hrun.
  unfold delete_internal. destruct (can_transition_to (rec_state r) Deleting) eqn:Hd.
  - rewrite (lifecycle_run w id r Deleting Deleted (rt_delete id) _ Hr Hd) by done.
    unfold lifecycle_outcome. cbv zeta.
    destruct (run (rt_delete id) (w_runtime w)) as [[[]|e] x]; cbn [fst snd]; [|by intros [= <- <-]].
    rewrite run_bind, run_modify, run_audit. cbn [fst snd]. intros [= <- <-].
    set (w2 := set_records _ _). destruct (audited_frame w2 (Some (SandboxId_to_string id)) "delete"
      "succeeded" {["reason" := reason]}) as (Frt&Frec&Fsn&_). cbv zeta in *.
    rewrite Frt, Frec, Fsn. repeat split; [|].
    + simpl. apply delete_insert_eq.
    + unfold audited, audit_result. change (w_audit_faults w2) with (w_audit_faults w).
      intros Hok. exists (w_unix_ms w). destruct (w_audit_faults w) as [|[] fs]; done.
  - destruct (run_lifecycle_blocked w id r Deleting
      (fun _ => bind (lift (rt_delete id)) (fun deleted => match deleted with
       | Err error => bind_ok (transition id Failed) (fun _ => throw (from_runtime error))
       | Ok _ => bind_ok (transition id Deleted) (fun _ =>
           bind (modify (fun w => set_records (delete id (w_records w)) w)) (fun _ =>
           AuditLog_record (Some (SandboxId_to_string id)) "delete" "succeeded"
             {["reason" := reason]})) end)) Hr Hd) as [m ->].
    intros [= <- <-]. split; [done|]. by exists m.
Qed.

(** An authorised DELETE, on every branch. A sandbox already in Deleting or
    Deleted is answered with 409 and nothing changes. Otherwise the runtime's
    [delete] decides: on success the record is gone, every other record is
    untouched, the deletion is audited once and the answer is 204; on failure
    the error is reported and the record stays, in Failed. *)
Theorem delete_sandbox_behaviour w s id h r :
  SandboxId_from_str s = Some id -> authorised w id h r -> audit_works w 1 ->
  let '(answer, w') := run (delete_sandbox s h) w in
  if can_transition_to (rec_state r) Deleting then
    let out := run (rt_delete id) (w_runtime w) in
    w_runtime w' = out.2 /\ w_snapshots w' = w_snapshots w /\
    match out.1 with
    | Ok _ => answer = Ok NO_CONTENT /\ w_records w' = delete id (w_records w)
        /\ exists ms, w_audit w' = w_audit w ++
              [MkAuditEvent ms (Some (SandboxId_to_string id)) "delete" "succeeded"
                 {["reason" := "user"]}]
    | Err e => answer = Err (from_runtime e)
        /\ w_records w' = <[id := with_state r Failed]> (w_records w) /\ w_audit w' = w_audit w
    end
  else w' = w /\ exists m, answer = Err (conflict m).
Proof.
  intros Hid Hauth Haudit. destruct (run (delete_sandbox s h) w) as [answer w'] eqn:Hrun.
  revert Hrun. unfold delete_sandbox. rewrite run_bind_ok. unfold parse_id. rewrite Hid.
  cbn [ok_or of_result run fst snd]. rewrite run_bind_ok, run_authorize.
  rewrite (proj2 (authorize_result_ok _ _ _ _) Hauth). cbn [fst snd]. rewrite run_bind_ok.
  destruct Hauth as (token&_&_&Hr&_). pose proof (run_delete_internal w id r "user" Hr) as Hdel.
  destruct (run (delete_internal id "user") w) as [a x]. cbn [fst snd].
  destruct (can_transition_to (rec_state r) Deleting).
  - cbv zeta in *. destruct Hdel as (Hrt&Hsn&Hout).
    destruct (run (rt_delete id) (w_runtime w)).1 as [[]|e].
    + destruct Hout as (Hrec&->&Hev). destruct (audit_works_S _ _ Haudit) as [Hok _].
      rewrite Hok in *. intros [= <- <-]. repeat split; [done|done|done|]. by apply Hev.
    + destruct Hout as (Hrec&->&Hev). by intros [= <- <-].
  - destruct Hdel as (->&m&->). intros [= <- <-]. split; [done|]. by exists m.
Qed.

(** C40. The TTL reaper never deletes early and always tries once the lifetime
    is over: when its sandbox is unknown or still has lifetime left, nothing at
    all changes; when the lifetime is over, a sandbox that the state machine
    lets go is removed if the runtime's [delete] succeeds and is left in Failed
    if it does not. *)
Theorem ttl_reaper_behaviour w id :
  let w' := (run (ttl_reaper id) w).2 in
  match w_records w !! id with
  | None => w' = w
  | Some r =>
      if (w_now w <? rec_expires_at r)%Z || negb (can_transition_to (rec_state r) Deleting)
      then w' = w
      else let out := run (rt_delete id) (w_runtime w) in
           w_runtime w' = out.2 /\ w_snapshots w' = w_snapshots w
           /\ w_records w' = match out.1 with
                             | Ok _ => delete id (w_records w)
                             | Err _ => <[id := with_state r Failed]> (w_records w)
                             end
  end.
Proof.
  cbv zeta. unfold ttl_reaper. rewrite run_bind, run_gets. cbn [fst snd].
  destruct (w_records w !! id) as [r|] eqn:Hr; [|done].
  destruct (Z.leb_spec (rec_expires_at r) (w_now w)), (Z.ltb_spec (w_now w) (rec_expires_at r));
    try lia; [|done]. cbn [orb]. rewrite run_fmap. cbn [snd].
  pose proof (run_delete_internal w id r "ttl" Hr) as Hdel.
  destruct (run (delete_internal id "ttl") w) as [a x]. cbn [fst snd].
  destruct (can_transition_to (rec_state r) Deleting); cbn [negb]; [|by destruct Hdel as [-> _]].
  cbv zeta in *. destruct Hdel as (Hrt&Hsn&Hout). split; [done|]. split; [done|].
  by destruct (run (rt_delete id) (w_runtime w)).1 as [[]|e], Hout as (->&_).
Qed.

(** Pause and resume, on every branch. With the right credential, [pause]
    needs a Running sandbox and [resume] a Paused one (otherwise 409 and no
    change); then the runtime decides: success leaves the record Paused
    (Running), failure reports the error and leaves the record in Failed. No
    other record, snapshot or audit line changes. *)
Theorem pause_resume_behaviour w s id h r :
  SandboxId_from_str s = Some id -> authorised w id h r ->
  run (pause_sandbox s h) w =
    (if bool_decide (rec_state r = Running) then
       let out := lifecycle_outcome w id r Pausing Paused (rt_pause id) in
       (result_map (fun _ => NO_CONTENT) out.1, out.2)
     else (Err (conflict "sandbox is not running"), w))
  /\ run (resume_sandbox s h) w =
    (if bool_decide (rec_state r = Paused) then
       let out := lifecycle_outcome w id r Resuming Running (rt_resume id) in
       (result_map (fun _ => NO_CONTENT) out.1, out.2)
     else (Err (conflict "sandbox is not paused"), w)).
Proof.
  intros Hid Hauth. pose proof (proj2 (authorize_result_ok _ _ _ _) Hauth) as Hok.
  destruct Hauth as (token&_&_&Hr&_).
  unfold pause_sandbox, resume_sandbox, parse_id. rewrite !run_bind_ok, Hid.
  cbn [ok_or of_result run fst snd].
  rewrite !run_bind_ok, run_authorize_running, run_authorize. unfold authorize_running_result.
  rewrite Hok. cbn [fst snd result_bind].
  split; case_bool_decide as Hst; cbn [negb fst snd]; [|done| |done].
  - rewrite <-run_bind_ok. rewrite (lifecycle_run w id r Pausing Paused (rt_pause id) (fun _ => ok NO_CONTENT) Hr)
      by (done || by rewrite Hst).
    cbv zeta. by destruct (lifecycle_outcome _ _ _ _ _ _) as [[[]|e] x].
  - rewrite (lifecycle_run w id r Resuming Running (rt_resume id) (fun _ => ok NO_CONTENT) Hr)
      by (done || by rewrite Hst).
    cbv zeta. by destruct (lifecycle_outcome _ _ _ _ _ _) as [[[]|e] x].
Qed.

(** ** Pagination *)

(** A client that starts without a cursor and follows [next_cursor]. [None]
    when it is refused, or has not finished within [fuel] requests. *)
Fixpoint follow_pages (fuel limit : nat) (cursor : option string) (l : list SnapshotHandle) :
  option (list (list SnapshotHandle)) :=
  match fuel with
  | O => None
  | S fuel' =>
      match snapshot_page l (MkListSnapshotsQuery limit cursor) with
      | Err _ => None
      | Ok page =>
          match ls_next_cursor page with
          | None => Some [ls_snapshots page]
          | Some c => cons (ls_snapshots page) <$> follow_pages fuel' limit (Some c) l
          end
      end
  end.

Definition distinct_ids (l : list SnapshotHandle) : Prop := NoDup (sn_snapshot_id <$> l).

Lemma snapshot_position_lookup l k s :
  distinct_ids l -> l !! k = Some s -> snapshot_position (sn_snapshot_id s) l = Some k.
Proof.
  intros Hnd Hk. unfold snapshot_position.
  rewrite (proj2 (list_find_Some _ l k s)); [done|]. split; [done|]. split; [done|].
  intros j y Hj Hlt Heq. assert (j = k); [|lia].
  eapply (NoDup_lookup _ j k (sn_snapshot_id s)); [exact Hnd| |].
  - by rewrite list_lookup_fmap, Hj; simpl; rewrite Heq.
  - by rewrite list_lookup_fmap, Hk.
Qed.

(** The cursor that stands for having seen the first [start] snapshots. *)
Definition cursor_at (l : list SnapshotHandle) (start : nat) : option string :=
  match start with
  | O => None
  | S k => (fun s => SnapshotId_to_string (sn_snapshot_id s)) <$> l !! k
  end.

Lemma snapshot_page_at l limit start :
  distinct_ids l -> start <= length l -> 1 <= limit ->
  snapshot_page l (MkListSnapshotsQuery limit (cursor_at l start)) =
  Ok (MkListSnapshotsResponse (take limit (drop start l))
        (if start + limit <? length l then cursor_at l (start + limit) else None)).
Proof.
  intros Hnd Hstart Hlimit. unfold snapshot_page. cbn [lq_cursor lq_limit].
  assert ((match cursor_at l start with
           | Some c => result_bind (parse_snapshot_id c) (fun cursor =>
               ok_or (bad_request "cursor does not belong to this sandbox")
                 (S <$> snapshot_position cursor l))
           | None => Ok 0 end) = Ok start) as ->.
  { destruct start as [|k]; [done|]. simpl.
    destruct (lookup_lt_is_Some_2 l k) as [s Hs]; [lia|]. rewrite Hs. simpl.
    unfold parse_snapshot_id. rewrite SnapshotId_roundtrip. simpl.
    by rewrite (snapshot_position_lookup l k s). }
  cbn [result_bind]. cbv zeta. f_equal.
  destruct (Nat.ltb_spec (start + limit) (length l)) as [Hlt|Hge].
  - rewrite Nat.min_l by lia. destruct (Nat.ltb_spec (start + limit) (length l)); [|lia].
    f_equal; [f_equal; lia|]. destruct (start + limit) as [|k] eqn:E; [lia|]. simpl.
    by rewrite Nat.sub_0_r.
  - rewrite Nat.min_r by lia. rewrite Nat.ltb_irrefl. f_equal.
    rewrite !take_ge; [done|rewrite length_drop; lia|rewrite length_drop; lia].
Qed.

Lemma follow_pages_from l limit start fuel :
  distinct_ids l -> start <= length l -> 1 <= limit -> length l - start < fuel ->
  exists pages, follow_pages fuel limit (cursor_at l start) l = Some pages
    /\ concat pages = drop start l /\ Forall (fun p => length p <= limit) pages.
Proof.
  intros Hnd. revert start. induction fuel as [|fuel IH]; intros start Hs Hl Hf; [lia|].
  cbn [follow_pages]. rewrite snapshot_page_at by done. cbn [ls_next_cursor ls_snapshots].
  destruct (Nat.ltb_spec (start + limit) (length l)) as [Hlt|Hge].
  - destruct (IH (start + limit)) as (pages&Hp&Hc&Hall); [lia|done|lia|].
    assert (exists c, cursor_at l (start + limit) = Some c) as [c Hcur].
    { destruct (start + limit) as [|k] eqn:E; [lia|]. simpl.
      destruct (lookup_lt_is_Some_2 l k) as [s Hk]; [lia|]. rewrite Hk. by eexists. }
    rewrite Hcur in *. rewrite Hp. eexists. split; [done|]. split.
    + simpl. rewrite Hc, <-drop_drop. apply take_drop.
    + constructor; [rewrite length_take; lia|done].
  - eexists. split; [done|]. split.
    + simpl. rewrite app_nil_r. apply take_ge. rewrite length_drop. lia.
    + repeat constructor. rewrite length_take. lia.
Qed.

(** C34. Listing snapshots page by page is complete: whatever the page size, a
    client that follows [next_cursor] from the first page is never refused,
    finishes after at most one request more than there are snapshots, gets no
    page longer than it asked for, and the pages put together are exactly the
    snapshots, in order and each once. *)
Theorem pagination_complete l limit :
  distinct_ids l -> 1 <= limit ->
  exists pages, follow_pages (S (length l)) limit None l = Some pages
    /\ concat pages = l /\ Forall (fun p => length p <= limit) pages.
Proof.
  intros Hnd Hl. by apply (follow_pages_from l limit 0 (S (length l)) Hnd); [lia|done|lia].
Qed.

(** ** Errors *)

(** Runtime errors are reported faithfully and internal ones reveal
    nothing: the status determines the kind of the runtime error and the
    message is the runtime's, except for Internal, whose answer is the same
    constant whatever the runtime's message says; no runtime error is ever
    answered with a success status. *)
Theorem runtime_error_mapping e1 e2 :
  (ae_status (from_runtime e1) = ae_status (from_runtime e2) -> re_kind e1 = re_kind e2)
  /\ (re_kind e1 <> Internal -> ae_message (from_runtime e1) = re_message e1)
  /\ (re_kind e1 = Internal -> from_runtime e1 = MkApiError 500%N "internal" "internal server error")
  /\ (400 <= ae_status (from_runtime e1) < 600)%N.
Proof.
  destruct e1 as [k1 m1], e2 as [k2 m2]. unfold from_runtime; cbn [re_kind re_message].
  split; [by destruct k1, k2|]. split; [by destruct k1|]. split; [by intros ->|].
  by destruct k1.
Qed.

(** ** Commands *)

(** A command's answer loses no output: with the right credential, a
    Running sandbox, a valid working directory and a working audit log, the
    runtime receives exactly the requested arguments, environment and limits,
    the base64 fields decode to the bytes it returned, the text fields are
    those bytes whenever they are valid UTF-8, and the execution is audited under the sandbox's name. *)
Theorem execute_command_behaviour w s id h r request dir res :
  SandboxId_from_str s = Some id -> authorised w id h r -> rec_state r = Running ->
  SandboxPath_new (ec_cwd request) = Ok dir -> audit_works w 1 ->
  (run (rt_execute id (MkExecRequest (ec_argv request) dir (ec_environment request)
     (ec_timeout_seconds request) (ec_max_output_bytes request))) (w_runtime w)).1 = Ok res ->
  let '(answer, w') := run (execute_command s h request) w in
  w_records w' = w_records w /\
  (exists ms, w_audit w' = w_audit w ++ [MkAuditEvent ms (Some (SandboxId_to_string id)) "execute"
      "succeeded" {["process_id" := process_str (er_process_id res)]}]) /\
  exists response, answer = Ok response
    /\ xr_termination response = er_termination res
    /\ base64_decode (xr_stdout_base64 response) = Some (er_stdout res)
    /\ base64_decode (xr_stderr_base64 response) = Some (er_stderr res)
    /\ (utf8_valid (er_stdout res) -> xr_stdout response = String.string_of_list_byte (er_stdout res))
    /\ (utf8_valid (er_stderr res) -> xr_stderr response = String.string_of_list_byte (er_stderr res)).
Proof.
  intros Hid Hauth Hst Hdir Haudit Hres.
  pose proof (proj2 (authorize_result_ok _ _ _ _) Hauth) as Hok.
  unfold execute_command, parse_id. rewrite run_bind_ok, Hid. cbn [ok_or of_result run fst snd].
  rewrite run_bind_ok, run_authorize_running. unfold authorize_running_result. rewrite Hok.
  cbn [result_bind]. rewrite bool_decide_eq_true_2 by done. cbn [fst snd].
  rewrite run_bind_ok. unfold validation. rewrite Hdir. cbn [of_result map_err run fst snd].
  cbv zeta. rewrite run_bind_ok, run_runtime_call. cbn [fst snd]. rewrite Hres. cbn [map_err].
  rewrite run_bind_ok, run_audit. cbn [fst snd].
  set (w1 := set_runtime _ w). destruct (audit_works_S w 0 Haudit) as [Ha _].
  change (audit_result w1) with (audit_result w). rewrite Ha. cbn [ok run].
  pose proof (audited_frame w1 (Some (SandboxId_to_string id)) "execute" "succeeded"
    {["process_id" := process_str (er_process_id res)]}) as (_&->&_). split; [done|]. split.
  - exists (w_unix_ms w). revert Ha. unfold audited, audit_result.
    change (w_audit_faults w1) with (w_audit_faults w). by destruct (w_audit_faults w) as [|[] fs].
  - eexists. split; [done|]. cbn. rewrite !base64_roundtrip.
    repeat split; apply from_utf8_lossy_valid.
Qed.

(** ** Rollback and clones *)

(** Rollback rewrites the record outside the state machine. With the right
    credential and a snapshot of the same sandbox, a rollback that the runtime
    performs keeps the token and the expiry and overwrites state and node with
    what the runtime reports, whatever the state was before: a Paused sandbox
    becomes Running in one step, which [can_transition_to] does not allow. *)
Theorem rollback_behaviour w s sid id snap h r sr handle x :
  SandboxId_from_str s = Some id -> SnapshotId_from_str sid = Some snap ->
  authorised w id h r -> w_snapshots w !! snap = Some sr -> audit_works w 1 ->
  run (rt_rollback_snapshot id snap) (w_runtime w) = (Ok handle, x) ->
  let '(answer, w') := run (rollback_snapshot s sid h) w in
  if bool_decide (srec_source_sandbox_id sr = id) then
    answer = Ok (MkSandboxResponse id (sh_node_id handle) (sh_state handle)
                   (rec_expires_at_unix_ms r))
    /\ w_runtime w' = x /\ w_snapshots w' = w_snapshots w
    /\ w_records w' = <[id := MkSandboxRecord (rec_token r) (sh_state handle) (sh_node_id handle)
                         (rec_expires_at r) (rec_expires_at_unix_ms r)]> (w_records w)
  else answer = Err (conflict "snapshot belongs to another sandbox") /\ w' = w.
Proof.
  intros Hid Hsid Hauth Hsn Haudit Hrt.
  pose proof (proj2 (authorize_result_ok _ _ _ _) Hauth) as Hok. destruct Hauth as (token&_&_&Hr&_).
  unfold rollback_snapshot, parse_id, parse_snapshot_id.
  rewrite run_bind_ok, Hid. cbn [ok_or of_result run fst snd].
  rewrite run_bind_ok, Hsid. cbn [ok_or of_result run fst snd].
  rewrite run_bind_ok, run_authorize, Hok. cbn [fst snd].
  rewrite run_bind_ok, run_gets, Hsn. cbn [ok_or fst snd].
  case_bool_decide as Hsrc; cbn [negb]; [|done].
  rewrite run_bind_ok, run_runtime_call, Hrt. cbn [map_err fst snd].
  rewrite run_bind_ok, run_act. cbn [set_runtime w_records]. rewrite Hr. cbn [fst snd].
  rewrite run_bind_ok, run_audit. cbn [fst snd].
  destruct (audit_works_S w 0 Haudit) as [Ha _].
  set (w1 := set_records _ _). change (audit_result w1) with (audit_result w). rewrite Ha.
  destruct (audited_frame w1 (Some (SandboxId_to_string id)) "snapshot_rollback" "succeeded"
    (snapshot_detail snap)) as (Hf1&Hf2&Hf3&_). cbv zeta in *. cbn [ok run].
  by rewrite Hf1, Hf2, Hf3.
Qed.

Lemma run_register_clone snap secs handle w :
  let w1 := registered w handle secs in
  run (register_clone snap secs handle) w =
  (result_map (fun _ => registration w handle secs) (audit_result w1),
   audited w1 (Some (SandboxId_to_string (sh_sandbox_id handle))) "snapshot_clone" "succeeded"
     (snapshot_detail snap)).
Proof.
  unfold register_clone. rewrite run_bind, run_register_sandbox, run_bind_ok, run_audit.
  cbn [fst snd resp_sandbox_id registration]. cbv zeta. by destruct (audit_result _).
Qed.

(** An audit failure during a clone abandons sandboxes: when the runtime
    returns several clones and the audit write for the first one fails, the
    caller gets a 500 without any token, the first clone is registered, and no
    other clone is: it gets neither a record nor a TTL reaper, so nothing in
    the control plane will ever delete it. *)
Theorem clone_audit_failure_abandons w s snap h sr request first rest x fs :
  SnapshotId_from_str s = Some snap -> authorised_snapshot w snap h sr ->
  in_range 1 MAX_TIMEOUT_SECONDS (cs_timeout_seconds request) = true ->
  in_range 1 32 (cs_count request) = true ->
  w_audit_faults w = true :: fs ->
  run (rt_clone_snapshot snap (cs_count request)) (w_runtime w) = (Ok (first :: rest), x) ->
  let '(answer, w') := run (clone_snapshot s h request) w in
  answer = Err internal /\ w_runtime w' = x
  /\ (forall c, c ∈ rest -> sh_sandbox_id c <> sh_sandbox_id first ->
         w_records w' !! sh_sandbox_id c = w_records w !! sh_sandbox_id c)
  /\ exists wake, w_reapers w' = w_reapers w ++ [(sh_sandbox_id first, wake)].
Proof.
  intros Hid Hauth Httl Hcount Hfault Hrt.
  pose proof (proj2 (authorize_snapshot_result_ok _ _ _ _) Hauth) as Hok.
  unfold clone_snapshot, validate_ttl, parse_snapshot_id. rewrite run_bind_ok, Httl.
  cbn [negb of_result run fst snd]. rewrite Hcount. cbn [negb].
  rewrite run_bind_ok, Hid. cbn [ok_or of_result run fst snd].
  rewrite run_bind_ok, run_authorize_snapshot, Hok. cbn [fst snd].
  rewrite run_bind_ok, run_runtime_call, Hrt. cbn [map_err fst snd].
  rewrite run_bind_ok. cbn [map_prog]. rewrite run_bind_ok, run_register_clone.
  unfold audit_result, audited. cbv zeta.
  change (w_audit_faults (registered _ _ _)) with (w_audit_faults w). rewrite Hfault.
  cbn [fst snd result_map]. split; [done|]. split; [done|]. split.
  - intros c Hc Hne. simpl. by rewrite lookup_insert_ne.
  - by eexists.
Qed.
End Handlers.

(** ** The theorems at concrete inputs *)

(** One sandbox, created over the scripted runtime whose next calls fail as
    [failures] says. *)
Definition example_world (failures : list bool) : @World string_uuid Script :=
  let w := (run (router (POST_sandboxes example_request)) (initial_world start 0 0)).2 in
  set_runtime (MkScript 1 [] failures []) w.

Definition example_id : SandboxId := SandboxId_new 0.
Definition example_record : SandboxRecord :=
  MkSandboxRecord (token_of 0) Running "node" 300000 300000.

Lemma example_authorised failures : authorised (example_world failures) example_id example_header example_record.
Proof. exists (plaintext_of 0). by repeat split. Qed.

Lemma unauthorised_requests_inert_witness :
  is_ok (run (router (GET_sandbox "0" (MkHeaderMap None))) (example_world [])).1 = false
  /\ (run (router (GET_sandbox "0" (MkHeaderMap None))) (example_world [])).2 = example_world [].
Proof.
  apply (unauthorised_requests_inert (example_world []) (GET_sandbox "0" (MkHeaderMap None))).
  by intros (i&r&_&t&[=]&_).
Defined.

Lemma create_sandbox_behaviour_witness :
  exists token, (run (create_sandbox example_request) (example_world [])).1
    = Ok (CREATED, MkCreateSandboxResponse (SandboxId_new 1) "node" Running token 300000).
Proof.
  pose proof (create_sandbox_behaviour (example_world []) example_request eq_refl) as H.
  destruct (run (create_sandbox example_request) (example_world [])) as [answer w'].
  cbv zeta in H. destruct H as [H _]. eexists. exact H.
Defined.

Lemma delete_sandbox_behaviour_witness :
  (run (delete_sandbox "0" example_header) (example_world [])).1 = Ok NO_CONTENT
  /\ (run (delete_sandbox "0" example_header) (example_world [true])).1
     = Err (MkApiError 500%N "internal" "internal server error").
Proof.
  pose proof (delete_sandbox_behaviour (example_world []) "0" example_id example_header
    example_record eq_refl (example_authorised []) eq_refl) as H1.
  pose proof (delete_sandbox_behaviour (example_world [true]) "0" example_id example_header
    example_record eq_refl (example_authorised [true]) eq_refl) as H2.
  destruct (run (delete_sandbox "0" example_header) (example_world [])) as [a1 w1].
  destruct (run (delete_sandbox "0" example_header) (example_world [true])) as [a2 w2].
  destruct H1 as (_&_&H1&_). destruct H2 as (_&_&H2&_). split; [exact H1|exact H2].
Defined.

Lemma pause_resume_behaviour_witness :
  (run (pause_sandbox "0" example_header) (example_world [])).1 = Ok NO_CONTENT
  /\ (run (resume_sandbox "0" example_header) (example_world [])).1
     = Err (conflict "sandbox is not paused").
Proof.
  destruct (pause_resume_behaviour (example_world []) "0" example_id example_header example_record
    eq_refl (example_authorised [])) as [-> ->]. by split; vm_compute.
Defined.

Definition example_snapshots : list SnapshotHandle := map (scripted_snapshot example_id) [3; 4; 5].

Lemma pagination_complete_witness :
  exists pages, follow_pages 4 2 None example_snapshots = Some pages
    /\ concat pages = example_snapshots.
Proof.
  destruct (pagination_complete example_snapshots 2) as (pages&H1&H2&_).
  - apply (bool_decide_unpack _). by vm_compute.
  - lia.
  - by exists pages.
Defined.

Definition example_command : ExecuteCommandRequest :=
  MkExecuteCommandRequest ["ls"] "/home/sandbox" ∅ 30 1024.

Lemma execute_command_behaviour_witness :
  exists response, (run (execute_command "0" example_header example_command) (example_world [])).1
      = Ok response
    /\ base64_decode (xr_stdout_base64 response) = Some [Byte.x68; Byte.x69].
Proof.
  pose proof (execute_command_behaviour (example_world []) "0" example_id example_header
    example_record example_command SandboxPath_workspace
    (MkExecResult (MkProcessId "p") (Exited 0) [Byte.x68; Byte.x69] [] OutputTruncation_default)
    eq_refl (example_authorised []) eq_refl eq_refl eq_refl eq_refl) as H.
  destruct (run (execute_command "0" example_header example_command) (example_world [])) as [a w'].
  destruct H as (_&_&response&->&_&H&_). by exists response.
Defined.

(** The sandbox with one snapshot of its own. *)
Definition example_snapshot_world (faults : list bool) : @World string_uuid Script :=
  set_snapshots {[SnapshotId_new 7 := MkSnapshotRecord (token_of 0) example_id]}
    (set_audit [] faults (example_world [])).

Lemma rollback_behaviour_witness :
  (run (rollback_snapshot "0" "7" example_header) (example_snapshot_world [])).1
  = Ok (MkSandboxResponse example_id "node" Running 300000).
Proof.
  assert (authorised (example_snapshot_world []) example_id example_header example_record) as Hauth
    by (exists (plaintext_of 0); by repeat split).
  pose proof (rollback_behaviour (example_snapshot_world []) "0" "7" example_id (SnapshotId_new 7)
    example_header example_record (MkSnapshotRecord (token_of 0) example_id)
    (MkSandboxHandle example_id "node" Running) (MkScript 1 [] [] [])
    eq_refl eq_refl Hauth eq_refl eq_refl eq_refl) as H.
  destruct (run (rollback_snapshot "0" "7" example_header) (example_snapshot_world [])) as [a w'].
  rewrite bool_decide_eq_true_2 in H by done. destruct H as [H _]. exact H.
Defined.

Lemma clone_audit_failure_abandons_witness :
  (run (clone_snapshot "7" example_header (MkCloneSnapshotRequest 2 300))
     (example_snapshot_world [true])).1 = Err internal
  /\ w_records (run (clone_snapshot "7" example_header (MkCloneSnapshotRequest 2 300))
     (example_snapshot_world [true])).2 !! SandboxId_new 2 = None.
Proof.
  assert (authorised_snapshot (example_snapshot_world [true]) (SnapshotId_new 7) example_header
    (MkSnapshotRecord (token_of 0) example_id)) as Hauth
    by (exists (plaintext_of 0); by repeat split).
  pose proof (clone_audit_failure_abandons (example_snapshot_world [true]) "7" (SnapshotId_new 7)
    example_header (MkSnapshotRecord (token_of 0) example_id) (MkCloneSnapshotRequest 2 300)
    (scripted_handle 1) [scripted_handle 2] (MkScript 3 [] [] []) []
    eq_refl Hauth eq_refl eq_refl eq_refl eq_refl) as H.
  destruct (run (clone_snapshot "7" example_header (MkCloneSnapshotRequest 2 300))
     (example_snapshot_world [true])) as [a w'].
  destruct H as (H1&_&H2&_). split; [exact H1|].
  change (w_records w' !! sh_sandbox_id (scripted_handle 2) = None).
  by rewrite H2; [|set_solver|].
Defined.
