(* ===== verification/Fs.v ===== *)
(** * Paths and the file system

    [std::path] and the calls of [std::fs] (and [tokio::fs], which forwards to
    it) that the sources make, over a tree of files, directories and symbolic
    links. The kernel's path resolution is modelled as it happens, symbolic
    links included, so that confinement can be stated about what a path really
    reaches and not about its text. Any call may be made to fail by the fault
    oracle in the state. *)
From S2P Require Import Prelude Conc.

(** ** Paths

    A path is its text split at the separators: [p_root] when it starts with
    one, and the pieces between separators, empty ones included. *)
Record Path := MkPath { p_root : bool; p_pieces : list string }.

#[export] Instance Path_eq_dec : EqDecision Path.
Proof. solve_decision. Defined.

Definition Path_of_string (s : string) : Path :=
  match s with
  | String c s' => if Ascii.eqb c slash then MkPath true (split_on slash s')
                   else MkPath false (split_on slash s)
  | EmptyString => MkPath false [""]
  end.

Inductive Component := RootDir | CurDir | ParentDir | Normal (name : string).

#[export] Instance Component_eq_dec : EqDecision Component.
Proof. solve_decision. Defined.

Definition piece_components (piece : string) : list Component :=
  if String.eqb piece "" || String.eqb piece "." then []
  else if String.eqb piece ".." then [ParentDir] else [Normal piece].

(** [Path::components] *)
Definition components (p : Path) : list Component :=
  (if p_root p then [RootDir]
   else match p_pieces p with
        | first :: _ => if String.eqb first "." then [CurDir] else []
        | [] => []
        end)
  ++ flat_map piece_components (p_pieces p).

Definition as_os_str (c : Component) : string :=
  match c with RootDir => "/" | CurDir => "." | ParentDir => ".." | Normal name => name end.

(** [PathBuf::push]; [Path::join] is [push] on a copy. *)
Definition push (p q : Path) : Path :=
  if p_root q then q
  else MkPath (p_root p)
    (match last (p_pieces p) with
     | Some "" => removelast (p_pieces p) ++ p_pieces q
     | _ => p_pieces p ++ p_pieces q
     end).

Definition join (p : Path) (s : string) : Path := push p (Path_of_string s).

(** Drops the trailing pieces that [components] skips. *)
Definition trivial_piece (s : string) : bool := String.eqb s "" || String.eqb s ".".
Fixpoint drop_trivial (l : list string) : list string :=
  match l with
  | [] => []
  | x :: l' => if trivial_piece x then drop_trivial l' else l
  end.
Definition trim_pieces (l : list string) : list string := rev (drop_trivial (rev l)).

(** [Path::parent] *)
Definition parent (p : Path) : option Path :=
  match rev (trim_pieces (p_pieces p)) with
  | [] => if p_root p then None
          else match components p with [] => None | _ => Some (MkPath false [""]) end
  | _ :: front =>
      let l := trim_pieces (rev front) in
      Some (MkPath (p_root p)
        (match l with
         | [] => if negb (p_root p) && bool_decide (head (p_pieces p) = Some ".")
                 then ["."] else [""]
         | _ => l
         end))
  end.

(** [Path::starts_with] and equality of paths compare components. *)
Fixpoint list_starts_with (l prefix : list Component) : bool :=
  match prefix, l with
  | [], _ => true
  | c :: prefix', d :: l' => bool_decide (c = d) && list_starts_with l' prefix'
  | _ :: _, [] => false
  end.
Definition path_starts_with (p prefix : Path) : bool :=
  list_starts_with (components p) (components prefix).
Definition path_eq (p q : Path) : bool := bool_decide (components p = components q).

(** ** Errors *)

Inductive IoErrorKind :=
| IoNotFound | IoAlreadyExists | IoNotADirectory | IoIsADirectory | IoFilesystemLoop
| IoInvalidInput | IoPermissionDenied | IoOther.

#[export] Instance IoErrorKind_eq_dec : EqDecision IoErrorKind.
Proof. solve_decision. Defined.

(** [io::Error]: its kind and its [Display] text. *)
Record IoError := MkIoError { io_kind : IoErrorKind; io_text : string }.

Definition ENOENT : IoError := MkIoError IoNotFound "No such file or directory (os error 2)".
Definition EEXIST : IoError := MkIoError IoAlreadyExists "File exists (os error 17)".
Definition ENOTDIR : IoError := MkIoError IoNotADirectory "Not a directory (os error 20)".
Definition EISDIR : IoError := MkIoError IoIsADirectory "Is a directory (os error 21)".
Definition EINVAL : IoError := MkIoError IoInvalidInput "Invalid argument (os error 22)".
Definition ELOOP : IoError :=
  MkIoError IoFilesystemLoop "Too many levels of symbolic links (os error 40)".

(** ** The tree *)

Inductive NodeKind :=
| File (data : list Byte.byte)
| Dir
| Symlink (target : string)
| Special.

Record Node := MkNode { n_kind : NodeKind; n_mode : Z; n_mtime_ns : Z }.

(** A location is the list of names from the root of the tree; the root itself
    is a directory that always exists. A fault makes the next call fail for a
    reason that the tree does not show (permissions, or a device); a write that
    fails may have written [fault_partial] bytes first. *)
Abbreviation loc := (list string).
Record Fault := MkFault { fault_denied : bool; fault_text : string; fault_partial : nat }.
Definition fault_error (f : Fault) : IoError :=
  MkIoError (if fault_denied f then IoPermissionDenied else IoOther) (fault_text f).

Record Fs := MkFs {
  fs_nodes : gmap loc Node;
  fs_cwd : loc;
  fs_clock_ns : Z;
  fs_faults : list (option Fault);
}.

Definition set_nodes (m : gmap loc Node) (fs : Fs) : Fs :=
  MkFs m (fs_cwd fs) (fs_clock_ns fs) (fs_faults fs).
Definition set_faults (l : list (option Fault)) (fs : Fs) : Fs :=
  MkFs (fs_nodes fs) (fs_cwd fs) (fs_clock_ns fs) l.

Definition root_node : Node := MkNode Dir 16877 0.

Definition node_at (m : gmap loc Node) (l : loc) : option Node :=
  match l with [] => Some root_node | _ => m !! l end.

(** ** Resolution

    What a path leads to: an existing node, a name missing from an existing
    directory ([trailing] when the path goes on with a separator), or an
    error. [links] bounds the symbolic links followed, as the kernel does. *)
Inductive walk_result :=
| Found (at_ : loc) (links : nat)
| Missing (dir : loc) (name : string) (trailing : bool)
| Fails (e : IoError).

Definition is_dir_at (m : gmap loc Node) (l : loc) : bool :=
  match node_at m l with Some n => match n_kind n with Dir => true | _ => false end | None => false end.

Fixpoint walk (m : gmap loc Node) (follow : bool) (links : nat) (cur : loc) (pieces : list string) :
  walk_result :=
  (fix go (cur : loc) (pieces : list string) : walk_result :=
     match pieces with
     | [] => Found cur links
     | piece :: rest =>
         if negb (is_dir_at m cur) then Fails ENOTDIR
         else if trivial_piece piece then go cur rest
         else if String.eqb piece ".." then go (removelast cur) rest
         else
           let next := cur ++ [piece] in
           match m !! next with
           | None =>
               if forallb (String.eqb "") rest
               then Missing cur piece (negb (bool_decide (rest = [])))
               else Fails ENOENT
           | Some n =>
               match n_kind n with
               | Symlink target =>
                   if bool_decide (rest = []) && negb follow then Found next links
                   else match links with
                        | O => Fails ELOOP
                        | S links' =>
                            let t := Path_of_string target in
                            walk m follow links' (if p_root t then [] else cur) (p_pieces t ++ rest)
                        end
               | _ => go next rest
               end
           end
     end) cur pieces.

Definition max_links : nat := 40.

Definition resolve (fs : Fs) (follow : bool) (p : Path) : walk_result :=
  match p_root p, p_pieces p with
  | false, ([] | [""]) => Fails ENOENT
  | _, _ => walk (fs_nodes fs) follow max_links (if p_root p then [] else fs_cwd fs) (p_pieces p)
  end.

Definition lookup_path (fs : Fs) (follow : bool) (p : Path) : result (loc * Node) IoError :=
  match resolve fs follow p with
  | Found l _ => match node_at (fs_nodes fs) l with Some n => Ok (l, n) | None => Err ENOENT end
  | Missing _ _ _ => Err ENOENT
  | Fails e => Err e
  end.

(** ** Calls *)

(** One call: it fails when the oracle says so, and is [f] otherwise. *)
Definition syscall {A} (f : Fs -> result A IoError * Fs) (on_fault : nat -> Fs -> Fs) :
  prog Fs (result A IoError) :=
  act (fun fs =>
    match fs_faults fs with
    | Some e :: rest => (Err (fault_error e), on_fault (fault_partial e) (set_faults rest fs))
    | None :: rest => f (set_faults rest fs)
    | [] => f fs
    end).

Definition no_effect (_ : nat) (fs : Fs) : Fs := fs.
Definition query {A} (f : Fs -> result A IoError) : prog Fs (result A IoError) :=
  syscall (fun fs => (f fs, fs)) no_effect.

(** [symlink_metadata] and [metadata] *)
Definition symlink_metadata (p : Path) : prog Fs (result Node IoError) :=
  query (fun fs => result_map snd (lookup_path fs false p)).
Definition metadata (p : Path) : prog Fs (result Node IoError) :=
  query (fun fs => result_map snd (lookup_path fs true p)).

Definition is_symlink (n : Node) : bool := match n_kind n with Symlink _ => true | _ => false end.
Definition is_file (n : Node) : bool := match n_kind n with File _ => true | _ => false end.
Definition is_dir (n : Node) : bool := match n_kind n with Dir => true | _ => false end.
Definition file_data (n : Node) : list Byte.byte :=
  match n_kind n with File d => d | _ => [] end.
(** [Metadata::len]; directories report a page. *)
Definition metadata_len (n : Node) : Z :=
  match n_kind n with
  | File d => Z.of_nat (length d)
  | Dir => 4096
  | Symlink t => slen t
  | Special => 0
  end.

Definition new_file (fs : Fs) (d : list Byte.byte) : Node := MkNode (File d) 33188 (fs_clock_ns fs).
Definition new_dir (fs : Fs) : Node := MkNode Dir 16877 (fs_clock_ns fs).

(** [mkdir]; the last name may be followed by separators. *)
Definition mkdir (p : Path) : prog Fs (result unit IoError) :=
  syscall (fun fs =>
    match resolve fs false p with
    | Found _ _ => (Err EEXIST, fs)
    | Missing dir name _ => (Ok tt, set_nodes (<[dir ++ [name] := new_dir fs]> (fs_nodes fs)) fs)
    | Fails e => (Err e, fs)
    end) no_effect.

(** [Path::is_dir] *)
Definition path_is_dir (p : Path) : prog Fs bool :=
  fmap_prog (fun r => match r with Ok n => is_dir n | Err _ => false end) (metadata p).

(** [fs::create_dir_all]; [fuel] bounds the ancestors. *)
Fixpoint create_dir_all_fuel (fuel : nat) (p : Path) : prog Fs (result unit IoError) :=
  (if path_eq p (MkPath false [""]) then ok tt else
   do made <- mkdir p ;;
   match made with
   | Ok _ => ok tt
   | Err e =>
       if bool_decide (io_kind e = IoNotFound) then
         match parent p, fuel with
         | Some up, S fuel' =>
             do? _ <- create_dir_all_fuel fuel' up ;;
             do again <- mkdir p ;;
             match again with
             | Ok _ => ok tt
             | Err e => do exists_ <- path_is_dir p ;;
                        if exists_ : bool then ok tt else throw e
             end
         | _, _ => throw (MkIoError IoOther "failed to create whole tree")
         end
       else
         do exists_ <- path_is_dir p ;;
         if exists_ : bool then ok tt else throw e
   end)%prog.
Definition create_dir_all (p : Path) : prog Fs (result unit IoError) :=
  create_dir_all_fuel (length (p_pieces p)) p.

(** [OpenOptions] with the fields the sources set; [open] gives the location
    as the handle. *)
Record OpenOptions := MkOpenOptions {
  oo_write : bool; oo_create : bool; oo_truncate : bool; oo_create_new : bool }.

Definition open (o : OpenOptions) (p : Path) : prog Fs (result loc IoError) :=
  syscall (fun fs =>
    if oo_create_new o then
      match resolve fs false p with
      | Found _ _ => (Err EEXIST, fs)
      | Missing dir name false =>
          (Ok (dir ++ [name]), set_nodes (<[dir ++ [name] := new_file fs []]> (fs_nodes fs)) fs)
      | Missing _ _ true => (Err EISDIR, fs)
      | Fails e => (Err e, fs)
      end
    else
      match resolve fs true p with
      | Found l _ =>
          match node_at (fs_nodes fs) l with
          | Some n =>
              match n_kind n with
              | Dir => if oo_write o then (Err EISDIR, fs) else (Ok l, fs)
              | File _ => (Ok l, if oo_truncate o
                                then set_nodes (<[l := MkNode (File []) (n_mode n) (fs_clock_ns fs)]>
                                       (fs_nodes fs)) fs
                                else fs)
              | _ => (Ok l, fs)
              end
          | None => (Err ENOENT, fs)
          end
      | Missing dir name trailing =>
          if oo_create o then
            if trailing then (Err EISDIR, fs)
            else (Ok (dir ++ [name]),
                  set_nodes (<[dir ++ [name] := new_file fs []]> (fs_nodes fs)) fs)
          else (Err ENOENT, fs)
      | Fails e => (Err e, fs)
      end) no_effect.

Definition write_options (overwrite : bool) : OpenOptions :=
  MkOpenOptions true true overwrite (negb overwrite).
Definition read_options : OpenOptions := MkOpenOptions false false false false.

(** Writing at the start of a file: the new bytes replace the old ones they
    cover. *)
Definition overlay (new old : list Byte.byte) : list Byte.byte := new ++ drop (length new) old.
Definition write_at (l : loc) (data : list Byte.byte) (fs : Fs) : Fs :=
  match fs_nodes fs !! l with
  | Some n => match n_kind n with
              | File old => set_nodes (<[l := MkNode (File (overlay data old)) (n_mode n)
                                            (fs_clock_ns fs)]> (fs_nodes fs)) fs
              | _ => fs
              end
  | None => fs
  end.

(** [write_all] from the start of a freshly opened file, and [flush]. *)
Definition write_all (l : loc) (data : list Byte.byte) : prog Fs (result unit IoError) :=
  syscall (fun fs => (Ok tt, write_at l data fs)) (fun n fs => write_at l (take n data) fs).
Definition flush : prog Fs (result unit IoError) := query (fun _ => Ok tt).

(** [fs::write]: opens with truncation and writes. *)
Definition fs_write (p : Path) (text : string) : prog Fs (result unit IoError) :=
  bind_ok (open (write_options true) p) (fun file => write_all file (String.list_byte_of_string text)).

(** [seek] to an absolute offset: the kernel takes a signed 64-bit offset. *)
Definition seek (offset : Z) : prog Fs (result unit IoError) :=
  query (fun _ => if (offset <? 2 ^ 63)%Z then Ok tt else Err EINVAL).

(** [&data[offset..]] and at most [max] bytes of it, for offsets of any size. *)
Definition slice (offset max : Z) (data : list Byte.byte) : list Byte.byte :=
  if (Z.of_nat (length data) <=? offset)%Z then []
  else take (Z.to_nat (Z.min max (Z.of_nat (length data)))) (drop (Z.to_nat offset) data).

(** [take(max).read_to_end] on an open file. *)
Definition read_from (l : loc) (offset max : Z) : prog Fs (result (list Byte.byte) IoError) :=
  query (fun fs =>
    match node_at (fs_nodes fs) l with
    | Some n => match n_kind n with
                | File d => Ok (slice offset max d)
                | Dir => Err EISDIR
                | _ => Ok []
                end
    | None => Ok []
    end).

(** The names in a directory, in the order the kernel returns them. *)
Definition child_name (dir : loc) (l : loc) : option string :=
  match rev l with
  | name :: front => if bool_decide (rev front = dir) then Some name else None
  | [] => None
  end.
Definition children (m : gmap loc Node) (dir : loc) : list (string * Node) :=
  omap (fun '(l, n) => (fun name => (name, n)) <$> child_name dir l) (map_to_list m).

(** [read_dir]: the directory and the names its stream will produce. *)
Definition read_dir (p : Path) : prog Fs (result (loc * list string) IoError) :=
  query (fun fs =>
    let? (l, n) := lookup_path fs true p in
    if is_dir n then Ok (l, map fst (children (fs_nodes fs) l)) else Err ENOTDIR)%result.

(** [next_entry] on that stream, and [DirEntry::metadata] of the entry. *)
Definition next_entry : prog Fs (result unit IoError) := query (fun _ => Ok tt).
Definition entry_metadata (dir : loc) (name : string) : prog Fs (result Node IoError) :=
  query (fun fs => ok_or ENOENT (fs_nodes fs !! (dir ++ [name]))).

Definition under (l : loc) (k : loc) : bool := bool_decide (take (length l) k = l).

(** [remove_dir_all]: a symbolic link is unlinked, not followed. *)
Definition remove_dir_all (p : Path) : prog Fs (result unit IoError) :=
  syscall (fun fs =>
    match lookup_path fs false p with
    | Ok (l, n) =>
        match n_kind n with
        | Dir => (Ok tt, set_nodes (filter (fun kv => under l kv.1 = false) (fs_nodes fs)) fs)
        | Symlink _ => (Ok tt, set_nodes (delete l (fs_nodes fs)) fs)
        | _ => (Err ENOTDIR, fs)
        end
    | Err e => (Err e, fs)
    end) no_effect.

(** ** Components *)

Lemma removelast_snoc {A} (l : list A) x : removelast (l ++ [x]) = l.
Proof. rewrite removelast_app by done. by rewrite app_nil_r. Qed.

Lemma piece_components_trivial x : trivial_piece x = true -> piece_components x = [].
Proof. unfold trivial_piece, piece_components. by intros ->. Qed.

Lemma piece_components_real x : trivial_piece x = false -> exists c, piece_components x = [c].
Proof.
  unfold trivial_piece, piece_components. intros ->. by destruct (String.eqb x ".."); eexists.
Qed.

Lemma drop_trivial_spec l :
  exists q, l = q ++ drop_trivial l /\ Forall (fun x => trivial_piece x = true) q.
Proof.
  induction l as [|x l (q&Heq&Hall)]; simpl; [by exists []|].
  destruct (trivial_piece x) eqn:E; [|by exists []].
  exists (x :: q). split; [by simpl; f_equal|by constructor].
Qed.

Lemma drop_trivial_head l x l' : drop_trivial l = x :: l' -> trivial_piece x = false.
Proof. induction l as [|y l IH]; simpl; [done|]. destruct (trivial_piece y) eqn:E; naive_solver. Qed.

Lemma trim_pieces_spec l :
  exists q, l = trim_pieces l ++ q /\ Forall (fun x => trivial_piece x = true) q.
Proof.
  destruct (drop_trivial_spec (rev l)) as (q&Heq&Hall). exists (rev q). split.
  - unfold trim_pieces. by rewrite <-rev_app_distr, <-Heq, rev_involutive.
  - rewrite Forall_forall in *. intros x Hx%list_elem_of_In%in_rev%list_elem_of_In. auto.
Qed.

Lemma flat_map_trivial q :
  Forall (fun x => trivial_piece x = true) q -> flat_map piece_components q = [].
Proof. induction 1 as [|x q Hx _ IH]; simpl; [done|]. by rewrite piece_components_trivial. Qed.

Lemma flat_map_trim l : flat_map piece_components (trim_pieces l) = flat_map piece_components l.
Proof.
  destruct (trim_pieces_spec l) as (q&Heq&Hall). rewrite Heq at 2.
  by rewrite flat_map_app, (flat_map_trivial q Hall), app_nil_r.
Qed.

(** The component in front of the pieces. *)
Definition front_component (p : Path) : list Component :=
  if p_root p then [RootDir]
  else match p_pieces p with
       | first :: _ => if String.eqb first "." then [CurDir] else []
       | [] => []
       end.

Lemma components_eq p : components p = front_component p ++ flat_map piece_components (p_pieces p).
Proof. done. Qed.

Lemma parent_components p p' : parent p = Some p' -> components p' = removelast (components p).
Proof.
  unfold parent. destruct (trim_pieces_spec (p_pieces p)) as (q&Hq&Hall).
  destruct (rev (trim_pieces (p_pieces p))) as [|x rfront] eqn:Hr.
  - destruct (p_root p) eqn:Hroot; [done|]. assert (trim_pieces (p_pieces p) = []) as Ht.
    { by rewrite <-(rev_involutive (trim_pieces _)), Hr. }
    rewrite components_eq, <-flat_map_trim, Ht. simpl. rewrite app_nil_r.
    destruct (front_component p) as [|c l] eqn:Hc; [done|]. intros [= <-].
    unfold front_component in Hc. rewrite Hroot in Hc.
    destruct (p_pieces p) as [|f t]; [done|]. destruct (String.eqb f "."); [|done].
    by injection Hc as <- <-.
  - intros [= <-].
    assert (trim_pieces (p_pieces p) = rev rfront ++ [x]) as Ht.
    { by rewrite <-(rev_involutive (trim_pieces _)), Hr. }
    assert (trivial_piece x = false) as Hx.
    { unfold trim_pieces in Hr. rewrite rev_involutive in Hr. by eapply drop_trivial_head. }
    destruct (piece_components_real x Hx) as [c Hc].
    rewrite (components_eq p), <-flat_map_trim, Ht, flat_map_app. simpl. rewrite Hc. simpl.
    rewrite app_assoc, removelast_snoc, components_eq. cbn [p_pieces p_root].
    rewrite Ht in Hq. destruct (trim_pieces_spec (rev rfront)) as (q2&Hq2&Hall2).
    unfold front_component; cbn [p_pieces p_root].
    destruct (trim_pieces (rev rfront)) as [|y l] eqn:Htt.
    + simpl in Hq2. rewrite <-Hq2 in Hall2. rewrite (flat_map_trivial _ Hall2), app_nil_r.
      destruct (p_root p) eqn:Hroot; [done|]. cbn [negb andb].
      case_bool_decide as Hh; rewrite Hq in *; destruct (rev rfront) as [|z t]; simpl in *.
      * injection Hh as ->. done.
      * injection Hh as ->. done.
      * destruct (String.eqb_spec x "."); [by subst|done].
      * destruct (String.eqb_spec z "."); [by subst|done].
    + rewrite <-(flat_map_trim (rev rfront)), Htt. f_equal. destruct (p_root p); [done|].
      by rewrite Hq, Hq2.
Qed.

Lemma parent_Some p x l : components p = l ++ [Normal x] -> exists p', parent p = Some p'.
Proof.
  intros Hc. unfold parent. destruct (rev (trim_pieces (p_pieces p))) eqn:Hr; [|by eexists].
  exfalso. assert (trim_pieces (p_pieces p) = []) as Ht.
  { by rewrite <-(rev_involutive (trim_pieces _)), Hr. }
  rewrite components_eq, <-flat_map_trim, Ht, app_nil_r in Hc.
  unfold front_component in Hc. destruct (p_root p).
  - by destruct l as [|? []].
  - destruct (p_pieces p) as [|f t]; [by destruct l|].
    destruct (String.eqb f "."); [by destruct l as [|? []]|by destruct l].
Qed.

(** Pushing a name adds one component. *)
Lemma components_push_name p name :
  trivial_piece name = false -> name <> ".." -> p_pieces p <> [] ->
  components (push p (MkPath false [name])) = components p ++ [Normal name].
Proof.
  intros Htriv Hdd Hne. rewrite !components_eq. unfold push; cbn [p_root p_pieces].
  assert (piece_components name = [Normal name]) as Hpc.
  { unfold piece_components, trivial_piece in *. rewrite Htriv.
    by destruct (String.eqb_spec name ".."). }
  assert (String.eqb name "." = false) as Hdot.
  { unfold trivial_piece in Htriv. by apply orb_false_iff in Htriv as [_ ?]. }
  destruct (last (p_pieces p)) as [x|] eqn:Hl; [|by apply last_None in Hl].
  apply last_Some in Hl as [front Hl]. unfold front_component. cbn [p_root p_pieces].
  destruct x as [|a x'].
  - rewrite Hl, removelast_snoc, !flat_map_app. simpl. rewrite Hpc, !app_nil_r, app_assoc. f_equal. f_equal.
    destruct (p_root p); [done|]. destruct front; [|done]. simpl. by rewrite Hdot.
  - rewrite !flat_map_app. simpl. rewrite Hpc, app_nil_r, app_assoc. f_equal. f_equal.
    destruct (p_root p); [done|]. by rewrite Hl; destruct front.
Qed.

(** ** Resolution *)

Lemma walk_nil m follow links cur : walk m follow links cur [] = Found cur links.
Proof. by destruct links. Qed.

Lemma walk_cons m follow links cur piece rest :
  walk m follow links cur (piece :: rest) =
  if negb (is_dir_at m cur) then Fails ENOTDIR
  else if trivial_piece piece then walk m follow links cur rest
  else if String.eqb piece ".." then walk m follow links (removelast cur) rest
  else
    match m !! (cur ++ [piece]) with
    | None =>
        if forallb (String.eqb "") rest
        then Missing cur piece (negb (bool_decide (rest = [])))
        else Fails ENOENT
    | Some n =>
        match n_kind n with
        | Symlink target =>
            if bool_decide (rest = []) && negb follow then Found (cur ++ [piece]) links
            else match links with
                 | O => Fails ELOOP
                 | S links' =>
                     let t := Path_of_string target in
                     walk m follow links' (if p_root t then [] else cur) (p_pieces t ++ rest)
                 end
        | _ => walk m follow links (cur ++ [piece]) rest
        end
    end.
Proof. by destruct links. Qed.

(** Resolving a longer path goes on from where its front leads. *)
Lemma walk_app m follow links cur ps qs :
  qs <> [] ->
  walk m follow links cur (ps ++ qs) =
  match walk m true links cur ps with
  | Found l k => walk m follow k l qs
  | Missing d n _ => if forallb (String.eqb "") qs then Missing d n true else Fails ENOENT
  | Fails e => Fails e
  end.
Proof.
  intros Hqs. revert cur ps. induction links as [|links IH]; intros cur ps; revert cur;
    induction ps as [|p ps IHps]; intros cur; rewrite ?walk_nil; try done;
    rewrite <-app_comm_cons, !walk_cons;
    (destruct (is_dir_at m cur); [|done]); cbn [negb];
    (destruct (trivial_piece p); [apply IHps|]);
    (destruct (String.eqb p ".."); [apply IHps|]);
    (destruct (m !! (cur ++ [p])) as [n|];
      [|rewrite forallb_app; destruct (forallb _ ps); [|done]; cbn [andb];
        destruct (forallb _ qs); [|done]; f_equal;
        rewrite bool_decide_eq_false_2; [done|by destruct ps; destruct qs]]);
    (destruct (n_kind n) as [d| |t|]; try apply IHps);
    rewrite (bool_decide_eq_false_2 (ps ++ qs = [])) by (by destruct ps; destruct qs);
    rewrite andb_false_r; cbn [andb]; [done|].
  cbv zeta. by rewrite app_assoc, IH.
Qed.

(** Where [resolve] starts. *)
Definition start_loc (fs : Fs) (p : Path) : loc := if p_root p then [] else fs_cwd fs.

Lemma resolve_found fs follow p l k :
  resolve fs follow p = Found l k ->
  walk (fs_nodes fs) follow max_links (start_loc fs p) (p_pieces p) = Found l k
  /\ (p_root p = true \/ (p_pieces p <> [] /\ p_pieces p <> [""])).
Proof.
  unfold resolve, start_loc. destruct (p_root p); [by auto|].
  destruct (p_pieces p) as [|[|a x] [|y t]]; try done; intros ?; (split; [done|by right]).
Qed.

Lemma resolve_walk fs follow p :
  p_root p = true \/ (p_pieces p <> [] /\ p_pieces p <> [""]) ->
  resolve fs follow p = walk (fs_nodes fs) follow max_links (start_loc fs p) (p_pieces p).
Proof.
  unfold resolve, start_loc. destruct (p_root p); [done|].
  destruct (p_pieces p) as [|[|a x] [|y t]]; naive_solver.
Qed.

(** Only a relative path of one empty piece is not walked. *)
Lemma proper_app {A} (a b : list A) (P : Prop) (x : A) :
  a <> [] -> b <> [] -> P \/ (a ++ b <> [] /\ a ++ b <> [x]).
Proof. intros Ha Hb. right. destruct a as [|? []], b; naive_solver. Qed.

Lemma resolve_push fs p ps l k follow :
  resolve fs true p = Found l k -> ps <> [] ->
  resolve fs follow (push p (MkPath false ps)) = walk (fs_nodes fs) follow k l ps.
Proof.
  intros [Hw Hp]%resolve_found Hps. unfold push; cbn [p_root p_pieces].
  assert (forall front, (p_root p = true \/ front <> []) ->
    walk (fs_nodes fs) true max_links (start_loc fs p) front = Found l k ->
    resolve fs follow (MkPath (p_root p) (front ++ ps)) = walk (fs_nodes fs) follow k l ps) as Hmain.
  { intros front Hor Hf. rewrite resolve_walk.
    2: { destruct Hor as [?|?]; [by left|]. by apply proper_app. }
    change (start_loc fs (MkPath (p_root p) _)) with (start_loc fs p). cbn [p_pieces].
    by rewrite walk_app, Hf. }
  destruct (last (p_pieces p)) as [[|a x]|] eqn:Hl.
  - apply last_Some in Hl as [front Hl]. rewrite Hl, removelast_snoc in *. apply Hmain.
    { destruct Hp as [?|[_ Hne]]; [by left|right]. by intros ->. }
    rewrite walk_app in Hw by done.
    destruct (walk (fs_nodes fs) true max_links (start_loc fs p) front) as [l2 k2|? ? ?|?]; [|done..].
    rewrite walk_cons in Hw. destruct (is_dir_at _ _); [|done]. cbn in Hw. rewrite walk_nil in Hw.
    by injection Hw as -> ->.
  - apply Hmain; [|done]. right. intros Heq. by rewrite Heq in Hl.
  - apply Hmain; [|done]. apply last_None in Hl. destruct Hp as [?|[? _]]; [by left|done].
Qed.

(** Pieces that go neither up nor through a link stay below. *)
Definition real_names (ps : list string) : list string := filter (fun x => trivial_piece x = false) ps.

(** ** Paths inside a directory

    [reaches m dir names allow]: the names lead from the directory [dir]
    through directories that are not links to a node that is not a link, or,
    when [allow] is set, to a name missing from the last directory. *)
Fixpoint reaches (m : gmap loc Node) (dir : loc) (names : list string) (allow : bool) : bool :=
  match names with
  | [] => true
  | x :: rest =>
      is_dir_at m dir &&
      match m !! (dir ++ [x]) with
      | Some n => negb (is_symlink n) && reaches m (dir ++ [x]) rest allow
      | None => allow && bool_decide (rest = [])
      end
  end.

(** The pieces after the last name. *)
Fixpoint trail (ps : list string) : list string :=
  match ps with
  | [] => []
  | p :: rest => if bool_decide (real_names rest = []) then
                   if trivial_piece p then p :: rest else rest
                 else trail rest
  end.

Lemma real_names_nil ps : real_names ps = [] -> Forall (fun x => trivial_piece x = true) ps.
Proof.
  unfold real_names. induction ps as [|p ps IH]; [by constructor|]. rewrite filter_cons.
  destruct (trivial_piece p) eqn:E; [|by rewrite decide_True].
  rewrite decide_False by done. constructor; auto.
Qed.

Lemma real_names_trivial p ps : trivial_piece p = true -> real_names (p :: ps) = real_names ps.
Proof. intros Hp. unfold real_names. by rewrite filter_cons, decide_False by (by rewrite Hp). Qed.
Lemma real_names_real p ps : trivial_piece p = false -> real_names (p :: ps) = p :: real_names ps.
Proof. intros Hp. unfold real_names. by rewrite filter_cons, decide_True. Qed.

Lemma walk_trivial m follow k dir ps :
  Forall (fun x => trivial_piece x = true) ps ->
  walk m follow k dir ps =
  if bool_decide (ps = []) || is_dir_at m dir then Found dir k else Fails ENOTDIR.
Proof.
  induction 1 as [|p ps Hp _ IH]; [apply walk_nil|]. rewrite walk_cons, Hp, IH.
  rewrite (bool_decide_eq_false_2 (p :: ps = [])) by done. cbn [orb].
  destruct (is_dir_at m dir); [|done]. by rewrite orb_true_r.
Qed.

Lemma node_at_snoc m dir x : node_at m (dir ++ [x]) = m !! (dir ++ [x]).
Proof. by destruct dir. Qed.

Lemma is_dir_at_snoc m dir x :
  is_dir_at m (dir ++ [x]) = match m !! (dir ++ [x]) with Some n => is_dir n | None => false end.
Proof. unfold is_dir_at. by rewrite node_at_snoc. Qed.

(** Resolution of a path whose names reach their end without links. *)
Lemma walk_reaches m follow k dir ps allow :
  ".." ∉ ps -> real_names ps <> [] -> reaches m dir (real_names ps) allow = true ->
  walk m follow k dir ps =
  match m !! (dir ++ real_names ps) with
  | Some n => if bool_decide (trail ps = []) || is_dir n then Found (dir ++ real_names ps) k
              else Fails ENOTDIR
  | None => match last (real_names ps) with
            | Some x => if forallb (String.eqb "") (trail ps)
                        then Missing (dir ++ removelast (real_names ps)) x
                               (negb (bool_decide (trail ps = [])))
                        else Fails ENOENT
            | None => Fails ENOENT
            end
  end.
Proof.
  revert dir. induction ps as [|p ps IH]; intros dir Hdd Hne Hr; [done|].
  rewrite walk_cons. cbn [trail]. destruct (trivial_piece p) eqn:Hp.
  - rewrite real_names_trivial in * by done. rewrite (bool_decide_eq_false_2 _ Hne).
    rewrite IH by (done || set_solver).
    destruct (real_names ps) as [|x names] eqn:Hn; [done|]. cbn [reaches] in Hr.
    by destruct (is_dir_at m dir).
  - rewrite real_names_real in * by done. cbn [reaches] in Hr.
    destruct (is_dir_at m dir) eqn:Hd; [|done]. cbn [negb andb] in *.
    destruct (String.eqb_spec p "..") as [->|_]; [set_solver|].
    destruct (decide (real_names ps = [])) as [Hnil|Hne'].
    + rewrite (bool_decide_eq_true_2 _ Hnil). rewrite Hnil. pose proof (real_names_nil _ Hnil) as Htr.
      destruct (m !! (dir ++ [p])) as [n|] eqn:Hn.
      * rewrite (walk_trivial m follow k (dir ++ [p]) ps Htr).
        assert (is_dir_at m (dir ++ [p]) = is_dir n) as ->.
        { by rewrite is_dir_at_snoc, Hn. }
        destruct (bool_decide (ps = []) || is_dir n) eqn:E;
          unfold is_symlink, is_dir in *; destruct (n_kind n); done.
      * simpl. rewrite app_nil_r. by destruct (forallb _ ps).
    + rewrite (bool_decide_eq_false_2 _ Hne'). destruct (m !! (dir ++ [p])) as [n|] eqn:Hn.
      * apply andb_true_iff in Hr as [Hns Hr]. apply negb_true_iff in Hns.
        assert (forall f, match n_kind n with Symlink t => f t | _ => walk m follow k (dir ++ [p]) ps end
          = walk m follow k (dir ++ [p]) ps) as Hk.
        { intros f. unfold is_symlink in Hns. by destruct (n_kind n). }
        rewrite Hk, IH by (done || set_solver).
        replace ((dir ++ [p]) ++ real_names ps) with (dir ++ p :: real_names ps) by by rewrite <-app_assoc.
        replace ((dir ++ [p]) ++ removelast (real_names ps))
          with (dir ++ removelast (p :: real_names ps)).
        { destruct (real_names ps) as [|y names]; done. }
        rewrite <-app_assoc. by destruct (real_names ps).
      * apply andb_true_iff in Hr as [_ Hr]. by apply bool_decide_eq_true in Hr.
Qed.

(** ** What calls leave alone *)

(** The tree grows by directories only. *)
Definition extends (m m' : gmap loc Node) : Prop :=
  m ⊆ m' /\ forall l n, m !! l = None -> m' !! l = Some n -> is_dir n = true.

#[export] Instance extends_preorder : PreOrder extends.
Proof.
  split.
  - intros m. split; [done|]. congruence.
  - intros m1 m2 m3 [H12 N12] [H23 N23]. split; [by etrans|]. intros l n H1 H3.
    destruct (m2 !! l) as [n2|] eqn:H2; [|by eapply N23].
    assert (m3 !! l = Some n2) by (by eapply lookup_weaken). simplify_eq. by eapply N12.
Qed.

(** A state in which the tree has grown by directories; faults are only used up. *)
Definition fs_extends (fs fs' : Fs) : Prop :=
  extends (fs_nodes fs) (fs_nodes fs') /\ fs_cwd fs' = fs_cwd fs
  /\ (fs_faults fs = [] -> fs_faults fs' = []).

#[export] Instance fs_extends_preorder : PreOrder fs_extends.
Proof.
  split.
  - intros fs. split; [reflexivity|]. done.
  - intros a b c (H1&H2&H3) (H4&H5&H6). split; [by etrans|]. split; [congruence|]. auto.
Qed.

(** A state with the same tree. *)
Definition fs_same (fs fs' : Fs) : Prop :=
  fs_nodes fs' = fs_nodes fs /\ fs_cwd fs' = fs_cwd fs /\ fs_clock_ns fs' = fs_clock_ns fs
  /\ (fs_faults fs = [] -> fs_faults fs' = []).

#[export] Instance fs_same_preorder : PreOrder fs_same.
Proof. split; [by intros fs|]. intros a b c (?&?&?&?) (?&?&?&?). unfold fs_same. intuition congruence. Qed.

Lemma query_same {A} (f : Fs -> result A IoError) : preserves fs_same (query f).
Proof.
  apply preserves_act. intros fs. unfold no_effect.
  by destruct (fs_faults fs) as [|[e|] rest] eqn:Hf; unfold fs_same; simpl; rewrite ?Hf.
Qed.

Lemma same_extends fs fs' : fs_same fs fs' -> fs_extends fs fs'.
Proof. intros (Hn&Hc&_&Hf). unfold fs_extends. rewrite Hn. split; [reflexivity|done]. Qed.

Lemma query_extends {A} (f : Fs -> result A IoError) : preserves fs_extends (query f).
Proof. intros fs. apply same_extends, query_same. Qed.

Lemma run_query {A} (f : Fs -> result A IoError) fs :
  fs_faults fs = [] -> run (query f) fs = (f fs, fs).
Proof. intros Hf. unfold query, syscall. rewrite run_act, Hf. done. Qed.

(** A query that succeeds was not disturbed by a fault. *)
Lemma run_query_ok {A} (f : Fs -> result A IoError) fs a :
  (run (query f) fs).1 = Ok a -> f fs = Ok a \/ f (set_faults (tail (fs_faults fs)) fs) = Ok a.
Proof.
  unfold query, syscall. rewrite run_act. destruct (fs_faults fs) as [|[e|] rest]; simpl; auto. done.
Qed.

Lemma extends_insert_dir m l n :
  m !! l = None -> is_dir n = true -> extends m (<[l := n]> m).
Proof.
  intros Hl Hn. split; [by apply insert_subseteq|]. intros k n' Hk.
  destruct (decide (l = k)) as [<-|Hne]; [rewrite lookup_insert_eq; naive_solver|].
  rewrite lookup_insert_ne by done. congruence.
Qed.

(** A missing name is missing from the tree. *)
Lemma walk_missing m follow k cur ps d x t :
  walk m follow k cur ps = Missing d x t -> m !! (d ++ [x]) = None.
Proof.
  revert cur ps. induction k as [|k IH]; intros cur ps; revert cur;
    induction ps as [|p ps IHps]; intros cur; rewrite ?walk_nil; try done; rewrite walk_cons;
    (destruct (is_dir_at m cur); [|done]); cbn [negb];
    (destruct (trivial_piece p); [apply IHps|]);
    (destruct (String.eqb p ".."); [apply IHps|]);
    (destruct (m !! (cur ++ [p])) as [n|] eqn:Hn; [|by destruct (forallb _ ps); [intros [= <- <- _]|]]);
    (destruct (n_kind n); try apply IHps);
    destruct (bool_decide (ps = []) && negb follow); try done. cbv zeta. apply IH.
Qed.

Lemma resolve_missing fs follow p d x t :
  resolve fs follow p = Missing d x t -> fs_nodes fs !! (d ++ [x]) = None.
Proof.
  unfold resolve. destruct (p_root p); [apply walk_missing|].
  destruct (p_pieces p) as [|[|a s] [|y l]]; try done; apply walk_missing.
Qed.

Lemma mkdir_extends p : preserves fs_extends (mkdir p).
Proof.
  apply preserves_act. intros fs. unfold no_effect.
  assert (forall fs, fs_extends fs (match resolve fs false p with
    | Found _ _ => (Err EEXIST, fs)
    | Missing dir name _ => (Ok tt, set_nodes (<[dir ++ [name] := new_dir fs]> (fs_nodes fs)) fs)
    | Fails e => (Err e, fs) end).2) as Hstep.
  { clear fs. intros fs. destruct (resolve fs false p) as [l k|d x t|e] eqn:Hr; [reflexivity| |reflexivity].
    split; [|done]. simpl. apply extends_insert_dir; [by eapply resolve_missing|done]. }
  destruct (fs_faults fs) as [|[e|] rest] eqn:Hf; [apply Hstep| |].
  - apply same_extends. unfold fs_same; simpl. by rewrite Hf.
  - etrans; [|apply Hstep]. apply same_extends. unfold fs_same; simpl. by rewrite Hf.
Qed.

Lemma path_is_dir_extends p : preserves fs_extends (path_is_dir p).
Proof. apply preserves_fmap; [apply _|]. apply query_extends. Qed.

Lemma create_dir_all_extends p : preserves fs_extends (create_dir_all p).
Proof.
  unfold create_dir_all. generalize (length (p_pieces p)) as fuel. intros fuel. revert p.
  induction fuel as [|fuel IH]; intros p; cbn [create_dir_all_fuel];
    repeat first [apply mkdir_extends | apply path_is_dir_extends | apply IH | preserves_step].
Qed.

(** [refines m m']: everything in [m] is in [m'], up to the contents, mode and
    time of files; [grows]: moreover nothing new is a link. *)
Definition shape (k : NodeKind) : NodeKind := match k with File _ => File [] | _ => k end.

Definition refines (m m' : gmap loc Node) : Prop :=
  forall l a, m !! l = Some a -> exists b, m' !! l = Some b /\ shape (n_kind a) = shape (n_kind b).

Definition grows (m m' : gmap loc Node) : Prop :=
  refines m m' /\ forall l b, m !! l = None -> m' !! l = Some b -> is_symlink b = false.

#[export] Instance grows_preorder : PreOrder grows.
Proof.
  split.
  - intros m. split; [|congruence]. intros l a Ha. by exists a.
  - intros m1 m2 m3 [H12 N12] [H23 N23]. split.
    + intros l a (b&Hb&Hab)%H12. apply H23 in Hb as (c&Hc&Hbc). exists c. split; [done|congruence].
    + intros l c H1 H3. destruct (m2 !! l) as [b|] eqn:H2; [|by eapply N23].
      pose proof (N12 _ _ H1 H2) as Hb. apply H23 in H2 as (c'&Hc&Hbc). simplify_eq.
      unfold is_symlink in *. by destruct (n_kind b), (n_kind c).
Qed.

Lemma extends_grows m m' : extends m m' -> grows m m'.
Proof.
  intros [Hm Hnew]. split.
  - intros l a Ha. exists a. split; [by eapply lookup_weaken|done].
  - intros l b H1 H2. pose proof (Hnew _ _ H1 H2) as Hd. unfold is_dir, is_symlink in *.
    by destruct (n_kind b).
Qed.

Lemma insert_file_grows m l n :
  is_file n = true -> (match m !! l with Some a => is_file a | None => true end) = true ->
  grows m (<[l := n]> m).
Proof.
  intros Hn Hl. split.
  - intros k a Ha. destruct (decide (l = k)) as [<-|Hne].
    + rewrite lookup_insert_eq. rewrite Ha in Hl. exists n. split; [done|].
      unfold is_file in *. by destruct (n_kind a), (n_kind n).
    + rewrite lookup_insert_ne by done. by exists a.
  - intros k b Hk. destruct (decide (l = k)) as [<-|Hne].
    + rewrite lookup_insert_eq. intros [= <-]. unfold is_file, is_symlink in *. by destruct (n_kind n).
    + rewrite lookup_insert_ne by done. congruence.
Qed.

Lemma refines_dir m m' c : refines m m' -> is_dir_at m c = true -> is_dir_at m' c = true.
Proof.
  intros Hm. unfold is_dir_at, node_at. destruct c as [|x c]; [done|].
  destruct (m !! (x :: c)) as [a|] eqn:Ha; [|done]. apply Hm in Ha as (b&->&Hab).
  by destruct (n_kind a), (n_kind b).
Qed.

(** Resolution of what exists is not disturbed by such changes. *)
Lemma walk_refines m m' follow k cur ps l k' :
  refines m m' -> walk m follow k cur ps = Found l k' -> walk m' follow k cur ps = Found l k'.
Proof.
  intros Hm. revert cur ps. induction k as [|k IH]; intros cur ps; revert cur;
    induction ps as [|p ps IHps]; intros cur; rewrite ?walk_nil; try done; rewrite !walk_cons;
    (destruct (is_dir_at m cur) eqn:Hd; [|done]); rewrite (refines_dir _ _ _ Hm Hd); cbn [negb];
    (destruct (trivial_piece p); [apply IHps|]);
    (destruct (String.eqb p ".."); [apply IHps|]);
    (destruct (m !! (cur ++ [p])) as [n|] eqn:Hn; [|by destruct (forallb _ ps)]);
    apply Hm in Hn as (n'&->&Hk);
    (destruct (n_kind n), (n_kind n'); try discriminate Hk; try apply IHps);
    injection Hk as <-;
    destruct (bool_decide (ps = []) && negb follow); try done. cbv zeta. apply IH.
Qed.

Lemma resolve_refines fs fs' follow p l k :
  refines (fs_nodes fs) (fs_nodes fs') -> fs_cwd fs' = fs_cwd fs ->
  resolve fs follow p = Found l k -> resolve fs' follow p = Found l k.
Proof.
  intros Hm Hc [Hw Hp]%resolve_found. rewrite resolve_walk by done. unfold start_loc.
  rewrite Hc. by eapply walk_refines.
Qed.

Lemma reaches_grows m m' dir names :
  grows m m' -> reaches m dir names true = true -> reaches m' dir names true = true.
Proof.
  intros [Hm Hnew]. revert dir. induction names as [|x names IH]; intros dir; [done|]. cbn [reaches].
  intros [Hd Hx]%andb_true_iff. rewrite (refines_dir _ _ _ Hm Hd).
  destruct (m !! (dir ++ [x])) as [n|] eqn:Hn.
  - apply andb_true_iff in Hx as [Hns Hx]. apply Hm in Hn as (n'&->&Hk).
    assert (is_symlink n' = is_symlink n) as ->
      by (unfold is_symlink; by destruct (n_kind n), (n_kind n')).
    rewrite Hns. by apply IH.
  - destruct (m' !! (dir ++ [x])) as [n|] eqn:Hn'; [|done].
    apply bool_decide_eq_true in Hx as ->. by rewrite (Hnew _ _ Hn Hn').
Qed.

(** A path that reaches something that exists needs no leniency. *)
Lemma reaches_exact m dir names n :
  reaches m dir names true = true -> m !! (dir ++ names) = Some n -> names <> [] ->
  reaches m dir names false = true.
Proof.
  revert dir. induction names as [|x names IH]; intros dir; [done|]. cbn [reaches].
  intros [Hd Hx]%andb_true_iff Hn _. rewrite Hd. destruct (m !! (dir ++ [x])) as [a|] eqn:Ha.
  - apply andb_true_iff in Hx as [-> Hx]. cbn [andb].
    destruct names as [|y names]; [done|]. apply IH; [done| |done]. by rewrite <-app_assoc.
  - apply bool_decide_eq_true in Hx as ->. congruence.
Qed.

Lemma reaches_exists m dir names :
  names <> [] -> reaches m dir names false = true -> exists n, m !! (dir ++ names) = Some n.
Proof.
  revert dir. induction names as [|x names IH]; intros dir; [done|]. cbn [reaches].
  intros _ [_ Hx]%andb_true_iff. destruct (m !! (dir ++ [x])) as [n|] eqn:Hn; [|done].
  apply andb_true_iff in Hx as [_ Hx]. destruct names as [|y names]; [by exists n|].
  replace (dir ++ x :: y :: names) with ((dir ++ [x]) ++ y :: names) by by rewrite <-app_assoc.
  by apply IH.
Qed.

Lemma reaches_not_link m dir names n :
  names <> [] -> reaches m dir names false = true -> m !! (dir ++ names) = Some n ->
  is_symlink n = false.
Proof.
  revert dir. induction names as [|x names IH]; intros dir; [done|]. cbn [reaches].
  intros _ [_ Hx]%andb_true_iff Hn. destruct names as [|y names].
  - rewrite Hn in Hx. by apply andb_true_iff in Hx as [Hx%negb_true_iff _].
  - destruct (m !! (dir ++ [x])) as [a|]; [|done]. apply andb_true_iff in Hx as [_ Hx].
    apply (IH (dir ++ [x])); [done|done|]. by rewrite <-app_assoc.
Qed.

(** ** Slices *)

Lemma slice_nonneg offset size d : (0 <= offset)%Z -> (0 <= size)%Z ->
  slice offset size d = take (Z.to_nat size) (drop (Z.to_nat offset) d).
Proof.
  intros Ho Hs. unfold slice. destruct (Z.leb_spec (Z.of_nat (length d)) offset).
  - rewrite (drop_ge d) by lia. by rewrite take_nil.
  - destruct (decide (size <= Z.of_nat (length d))%Z); [by rewrite Z.min_l by lia|].
    rewrite Z.min_r by lia. rewrite !take_ge; [done|rewrite length_drop; lia..].
Qed.

(** ** Names *)

(** A name the kernel can look up. *)
Definition plain_name (n : string) : Prop :=
  trivial_piece n = false /\ n <> ".." /\ string_contains slash n = false.

Lemma plain_name_path n : plain_name n -> Path_of_string n = MkPath false [n].
Proof.
  intros (Htriv&_&Hs). destruct n as [|c n]; [done|]. unfold Path_of_string.
  rewrite string_contains_cons, orb_false_iff in Hs. destruct Hs as [Hc Hs].
  rewrite Ascii.eqb_sym, Hc. f_equal. rewrite split_on_no_sep; [done|].
  by rewrite string_contains_cons, Hc.
Qed.

Lemma list_starts_with_app l r : list_starts_with (l ++ r) l = true.
Proof. induction l as [|c l IH]; simpl; [by destruct r|]. by rewrite bool_decide_eq_true_2. Qed.

(** A guard of the sources: the path is below its base, and is not the base. *)
Lemma child_guard base name : plain_name name -> p_pieces base <> [] ->
  negb (path_starts_with (join base name) base) || path_eq (join base name) base = false.
Proof.
  intros Hn Hne. unfold join. rewrite (plain_name_path _ Hn). destruct Hn as (Ht&Hdd&_). unfold path_starts_with, path_eq.
  rewrite components_push_name by done. rewrite list_starts_with_app. cbn [negb orb].
  apply bool_decide_eq_false_2. intros Heq. apply (f_equal length) in Heq. rewrite length_app in Heq. simpl in Heq. lia.
Qed.
