(* ===== verification/FsOps.v ===== *)
(** * More of the file system

    The calls of [std::fs] that the template catalog, the snapshot store and the
    microVM runtime add to those of [Fs]: whole-file reads, copies, removal,
    renaming, permissions, canonical paths. *)
From S2P Require Import Prelude Conc Fs Utf8.

Definition EXDEV : IoError := MkIoError IoOther "Invalid cross-device link (os error 18)".
Definition ENOTEMPTY : IoError := MkIoError IoOther "Directory not empty (os error 39)".

(** [Path::display] *)
Definition Path_to_string (p : Path) : string :=
  (if p_root p then "/" else "") +:+ String.concat "/" (p_pieces p).

(** What an open handle yields in all; a directory yields an error. *)
Definition open_contents (fs : Fs) (l : loc) : option (list Byte.byte) :=
  match node_at (fs_nodes fs) l with
  | Some n => match n_kind n with File d => Some d | Dir => None | _ => Some [] end
  | None => Some []
  end.

(** [read_to_end] on an open file, and [fs::read]. *)
Definition read_to_end (l : loc) : prog Fs (result (list Byte.byte) IoError) :=
  query (fun fs => ok_or EISDIR (open_contents fs l)).
Definition fs_read (p : Path) : prog Fs (result (list Byte.byte) IoError) :=
  bind_ok (open read_options p) read_to_end.

(** [fs::read_to_string] *)
Definition INVALID_UTF8 : IoError := MkIoError IoOther "stream did not contain valid UTF-8".
Definition fs_read_to_string (p : Path) : prog Fs (result string IoError) :=
  bind_ok (fs_read p) (fun data => of_result (ok_or INVALID_UTF8 (from_utf8 data))).

(** [Path::is_file] and [Path::exists] *)
Definition path_is_file (p : Path) : prog Fs bool :=
  fmap_prog (fun r => match r with Ok n => is_file n | Err _ => false end) (metadata p).
Definition path_exists (p : Path) : prog Fs bool := fmap_prog is_ok (metadata p).

(** [fs::canonicalize]: the location itself is the canonical path. *)
Definition path_of_loc (l : loc) : Path := MkPath true (match l with [] => [""] | _ => l end).
Definition canonicalize (p : Path) : prog Fs (result Path IoError) :=
  query (fun fs => result_map (fun r => path_of_loc r.1) (lookup_path fs true p)).

(** [File::create] *)
Definition create_options : OpenOptions := MkOpenOptions true true true false.
Definition file_create (p : Path) : prog Fs (result loc IoError) := open create_options p.

(** [sync_all] on an open file or directory. *)
Definition sync_all (l : loc) : prog Fs (result unit IoError) := query (fun _ => Ok tt).

(** [fs::remove_file]: a symbolic link is removed itself. *)
Definition remove_file (p : Path) : prog Fs (result unit IoError) :=
  syscall (fun fs =>
    match lookup_path fs false p with
    | Ok (l, n) => if is_dir n then (Err EISDIR, fs)
                   else (Ok tt, set_nodes (delete l (fs_nodes fs)) fs)
    | Err e => (Err e, fs)
    end) no_effect.

(** [fs::remove_dir] *)
Definition remove_dir (p : Path) : prog Fs (result unit IoError) :=
  syscall (fun fs =>
    match lookup_path fs false p with
    | Ok (l, n) =>
        if negb (is_dir n) then (Err ENOTDIR, fs)
        else match children (fs_nodes fs) l with
             | [] => (Ok tt, set_nodes (delete l (fs_nodes fs)) fs)
             | _ => (Err ENOTEMPTY, fs)
             end
    | Err e => (Err e, fs)
    end) no_effect.

(** [fs::create_dir] *)
Definition create_dir (p : Path) : prog Fs (result unit IoError) := mkdir p.

(** Moves what is at and below [from] to [to]. *)
Definition moved (from to l : loc) : loc := if under from l then to ++ drop (length from) l else l.
Definition move_tree (from to : loc) (m : gmap loc Node) : gmap loc Node :=
  list_to_map (map (fun '(l, n) => (moved from to l, n))
    (map_to_list (filter (fun kv => under from kv.1 = true \/ under to kv.1 = false) m))).

(** [fs::rename]: onto a missing name, a file onto a file, a directory onto an
    empty directory; never into itself. *)
Definition rename (p q : Path) : prog Fs (result unit IoError) :=
  syscall (fun fs =>
    match lookup_path fs false p, resolve fs false q with
    | Err e, _ => (Err e, fs)
    | Ok _, Fails e => (Err e, fs)
    | Ok (from, n), Missing dir name trailing =>
        let to := dir ++ [name] in
        if trailing && negb (is_dir n) then (Err ENOTDIR, fs)
        else if under from to then (Err EINVAL, fs)
        else (Ok tt, set_nodes (move_tree from to (fs_nodes fs)) fs)
    | Ok (from, n), Found to _ =>
        if bool_decide (from = to) then (Ok tt, fs)
        else if under from to then (Err EINVAL, fs)
        else
        match node_at (fs_nodes fs) to with
        | None => (Err ENOENT, fs)
        | Some old =>
            if is_dir n && negb (is_dir old) then (Err ENOTDIR, fs)
            else if negb (is_dir n) && is_dir old then (Err EISDIR, fs)
            else if is_dir old && negb (bool_decide (children (fs_nodes fs) to = []))
            then (Err ENOTEMPTY, fs)
            else (Ok tt, set_nodes (move_tree from to (fs_nodes fs)) fs)
        end
    end) no_effect.

(** [fs::hard_link]: the new name is a copy of the node, which no code below
    writes through either name. *)
Definition EPERM : IoError := MkIoError IoPermissionDenied "Operation not permitted (os error 1)".
Definition hard_link (p q : Path) : prog Fs (result unit IoError) :=
  syscall (fun fs =>
    match lookup_path fs false p, resolve fs false q with
    | Err e, _ => (Err e, fs)
    | Ok _, Fails e => (Err e, fs)
    | Ok _, Found _ _ => (Err EEXIST, fs)
    | Ok (_, n), Missing dir name trailing =>
        if trailing then (Err ENOENT, fs)
        else if is_dir n then (Err EPERM, fs)
        else (Ok tt, set_nodes (<[dir ++ [name] := n]> (fs_nodes fs)) fs)
    end) no_effect.

(** [fs::set_permissions] *)
Definition set_permissions (p : Path) (mode : Z) : prog Fs (result unit IoError) :=
  syscall (fun fs =>
    match lookup_path fs true p with
    | Ok ([], _) => (Ok tt, fs)
    | Ok (l, n) => (Ok tt, set_nodes (<[l := MkNode (n_kind n) mode (n_mtime_ns n)]> (fs_nodes fs)) fs)
    | Err e => (Err e, fs)
    end) no_effect.

(** [fs::copy]: the contents and the permission bits; only regular files. *)
Definition fs_copy (p q : Path) : prog Fs (result Z IoError) :=
  (do? source <- open read_options p ;;
   do? found <- query (fun fs => ok_or ENOENT (node_at (fs_nodes fs) source)) ;;
   if negb (is_file found)
   then throw (MkIoError IoInvalidInput "the source path is neither a regular file nor a symlink to a regular file")
   else
   do? target <- file_create q ;;
   do? _ <- set_permissions q (n_mode found) ;;
   do? data <- read_to_end source ;;
   do? _ <- write_all target data ;;
   ok (Z.of_nat (length data)))%prog.

(** The loop that reads an open file to its end, a mebibyte at a time, as the
    digests of the sources do; [acc] is what was read so far. *)
Definition HASH_BUFFER : Z := 1024 * 1024.
Definition hash_turn (l : loc) (acc : list Byte.byte) :
  prog Fs (list Byte.byte + result (list Byte.byte) IoError) :=
  (do r <- read_from l (Z.of_nat (length acc)) HASH_BUFFER ;;
   match r with
   | Err e => Ret (inr (Err e))
   | Ok data => if bool_decide (data = []) then Ret (inr (Ok acc)) else Ret (inl (acc ++ data))
   end)%prog.

(** Enough for every file whose size is a 64-bit number. *)
Definition HASH_TURNS : nat := 64.
Definition OUT_OF_TURNS : IoError := MkIoError IoOther "out of turns".
Definition read_whole (l : loc) : prog Fs (result (list Byte.byte) IoError) :=
  fmap_prog (fun r => match r with inr d => d | inl _ => Err OUT_OF_TURNS end)
    (loop HASH_TURNS (hash_turn l) []).

(** Opening a path and reading it to the end, with the errors of the two told
    apart by the caller. *)
Definition read_file_whole {E} (on_open on_read : IoError -> E) (p : Path) :
  prog Fs (result (list Byte.byte) E) :=
  (do? file <- prog_map_err on_open (open read_options p) ;;
   prog_map_err on_read (read_whole file))%prog.

(** ** Lemmas *)

(** Chains of calls that leave the tree alone. *)
Ltac same_trans :=
  match goal with
  | |- fs_same ?a ?a => reflexivity
  | H : fs_same ?a ?b |- fs_same ?a ?b => exact H
  | H : fs_same ?a ?b |- fs_same ?a _ => transitivity b; [exact H|solve [same_trans]]
  end.

Lemma run_of_result {A E} (r : result A E) (s : Fs) : run (of_result r) s = (r, s).
Proof. done. Qed.

Lemma run_path_is_file_same p : preserves fs_same (path_is_file p).
Proof. apply preserves_fmap; [apply _|]. apply query_same. Qed.

Lemma run_path_exists_same p : preserves fs_same (path_exists p).
Proof. apply preserves_fmap; [apply _|]. apply query_same. Qed.

(** Opening a file to read it changes nothing. *)
Lemma open_read_same p : preserves fs_same (open read_options p).
Proof.
  intros fs. unfold open, syscall, no_effect, fs_same. rewrite run_act.
  cbn [oo_create_new oo_write oo_truncate oo_create read_options].
  destruct (fs_faults fs) as [|[e|] rest] eqn:Hf; cbn [snd]; [|done|].
  - destruct (resolve fs true p) as [l k|d x t|e]; cbn [snd]; rewrite ?Hf; try done.
    destruct (node_at _ _) as [n|]; [|cbn; by rewrite Hf]. destruct (n_kind n); cbn; by rewrite Hf.
  - destruct (resolve (set_faults rest fs) true p) as [l k|d x t|e]; cbn; try done.
    destruct (node_at _ _) as [n|]; [|done]. by destruct (n_kind n).
Qed.

Lemma fs_read_same p : preserves fs_same (fs_read p).
Proof. apply preserves_bind_ok; [apply _|apply open_read_same|]. intros l. apply query_same. Qed.

(** What reading a file gives when nothing fails. *)
Definition file_at (fs : Fs) (p : Path) : option (list Byte.byte) :=
  match lookup_path fs true p with
  | Ok (_, n) => match n_kind n with File d => Some d | _ => None end
  | Err _ => None
  end.

(** ** Reading to the end *)

Lemma same_open_contents fs fs' l : fs_same fs fs' -> open_contents fs' l = open_contents fs l.
Proof. intros (Hn&_). unfold open_contents. by rewrite Hn. Qed.

Lemma read_from_same l offset max : preserves fs_same (read_from l offset max).
Proof. apply query_same. Qed.

(** A read, whatever the faults: an error, or the next bytes. *)
Lemma run_read_next fs l k : (0 <= k)%Z ->
  match (run (read_from l k HASH_BUFFER) fs).1 with
  | Ok data => exists d, open_contents fs l = Some d
      /\ data = take (Z.to_nat HASH_BUFFER) (drop (Z.to_nat k) d)
  | Err _ => fs_faults fs = [] -> open_contents fs l = None
  end.
Proof.
  intros Hk. unfold read_from, query, syscall, open_contents. rewrite run_act.
  assert (forall d, slice k HASH_BUFFER d = take (Z.to_nat HASH_BUFFER) (drop (Z.to_nat k) d)) as Hs
    by (intros d; apply slice_nonneg; [done|unfold HASH_BUFFER; lia]).
  assert (forall d : list Byte.byte, d = [] -> [] = take (Z.to_nat HASH_BUFFER) (drop (Z.to_nat k) d)) as Hnil
    by (intros ? ->; by rewrite drop_nil, take_nil).
  destruct (fs_faults fs) as [|[e|] rest] eqn:Hf; cbn [fst]; [|done|];
    [|cbn [set_faults fs_nodes]];
    (destruct (node_at (fs_nodes fs) l) as [n|]; [|exists []; split; [done|by apply Hnil]]);
    (destruct (n_kind n) as [d| | |]; [exists d; by rewrite Hs|done| |]);
    exists []; (split; [done|by apply Hnil]).
Qed.

Lemma take_length_take {A} n (l : list A) : take (length (take n l)) l = take n l.
Proof.
  rewrite length_take. destruct (decide (n <= length l)); [by rewrite Nat.min_l|].
  rewrite Nat.min_r, !take_ge by lia. done.
Qed.

Definition reading_inv (fs0 : Fs) (l : loc) (acc : list Byte.byte) (fs : Fs) : Prop :=
  fs_same fs0 fs /\ forall d, open_contents fs0 l = Some d -> acc = take (length acc) d.

Lemma hash_turn_step fs0 l acc fs : reading_inv fs0 l acc fs ->
  match run (hash_turn l acc) fs with
  | (inl acc', fs') => reading_inv fs0 l acc' fs' /\ length acc < length acc'
      /\ exists d, open_contents fs0 l = Some d /\ length acc' <= length d
  | (inr (Ok d), fs') => fs_same fs0 fs' /\ open_contents fs0 l = Some d
  | (inr (Err _), fs') => fs_same fs0 fs' /\ (fs_faults fs0 = [] -> open_contents fs0 l = None)
  end.
Proof.
  intros [Hsame Hacc]. unfold hash_turn. rewrite run_bind.
  pose proof (run_read_next fs l (Z.of_nat (length acc)) ltac:(lia)) as Hr.
  pose proof (read_from_same l (Z.of_nat (length acc)) HASH_BUFFER fs) as Hs2.
  destruct (run (read_from _ _ _) fs) as [[data|e] fs']; cbn [fst snd] in *;
    rewrite (same_open_contents _ _ _ Hsame) in Hr.
  2: { split; [by etrans|]. intros Hf. apply Hr. by apply Hsame. }
  destruct Hr as (d&Hd&Hdata). rewrite Nat2Z.id in Hdata. specialize (Hacc d Hd).
  case_bool_decide as Hnil; cbn [run].
  - split; [by etrans|]. rewrite Hd. f_equal. rewrite Hnil in Hdata. symmetry in Hdata.
    apply (f_equal length) in Hdata. rewrite length_take, length_drop in Hdata. cbn in Hdata.
    assert (length d <= length acc) by (unfold HASH_BUFFER in Hdata; lia).
    rewrite Hacc. by rewrite take_ge.
  - assert (length acc <= length d) as Hle.
    { rewrite Hacc, length_take. lia. }
    assert (acc ++ data = take (length (acc ++ data)) d) as Heq.
    { rewrite length_app. rewrite <-(take_drop (length acc) d). rewrite <-Hacc, take_app_add. f_equal.
      rewrite Hdata. symmetry. apply take_length_take. }
    split; [|split].
    + split; [by etrans|]. intros d' Hd'. rewrite Hd in Hd'. by injection Hd' as <-.
    + rewrite length_app. destruct data; [done|]. cbn. lia.
    + exists d. split; [done|]. rewrite Heq, length_take. lia.
Qed.

Lemma run_hash_loop n fs l :
  match run (loop n (hash_turn l) []) fs with
  | (inl acc, fs') => fs_same fs fs' /\ forall d, open_contents fs l = Some d ->
      (2 ^ Z.of_nat n <= Z.of_nat (length d))%Z
  | (inr (Ok d), fs') => fs_same fs fs' /\ open_contents fs l = Some d
  | (inr (Err _), fs') => fs_same fs fs' /\ (fs_faults fs = [] -> open_contents fs l = None)
  end.
Proof.
  pose proof (run_loop_some (hash_turn l) (fun acc => match open_contents fs l with
      | Some d => (Z.of_nat (length d) - Z.of_nat (length acc))%Z | None => 0%Z end)
    (reading_inv fs l)
    (fun r fs' => match r with
       | Ok d => fs_same fs fs' /\ open_contents fs l = Some d
       | Err _ => fs_same fs fs' /\ (fs_faults fs = [] -> open_contents fs l = None) end)) as Hloop.
  assert (reading_inv fs l [] fs) as H0 by (split; [done|]; by intros d _).
  specialize (Hloop (fun acc fs1 H1 => ltac:(
    pose proof (hash_turn_step fs l acc fs1 H1) as Hs;
    destruct (run (hash_turn l acc) fs1) as [[acc'|[d|e]] fs2];
    [destruct Hs as (Hi&Hlt&d&Hd&_); rewrite Hd; split; [exact Hi|lia]|exact Hs|exact Hs])) n [] fs H0).
  destruct (run (loop n (hash_turn l) []) fs) as [[acc|[d|e]] fs']; [|exact Hloop|exact Hloop].
  destruct Hloop as [[Hs Ha] Hmu]. split; [done|]. intros d Hd. rewrite Hd in Hmu. cbn [length] in Hmu.
  specialize (Ha d Hd). apply (f_equal length) in Ha. rewrite length_take in Ha. lia.
Qed.

Lemma run_read_whole fs l :
  fs_same fs (run (read_whole l) fs).2 /\
  match (run (read_whole l) fs).1 with
  | Ok d => open_contents fs l = Some d
  | Err _ => fs_faults fs = [] -> forall d, open_contents fs l = Some d -> (2 ^ 64 <= Z.of_nat (length d))%Z
  end.
Proof.
  unfold read_whole. rewrite run_fmap. generalize (run_hash_loop HASH_TURNS fs l).
  change (2 ^ 64)%Z with (2 ^ Z.of_nat HASH_TURNS)%Z.
  generalize (run (loop HASH_TURNS (hash_turn l) []) fs). intros [[acc|[d|e]] fs']; cbn [fst snd]; [|done|].
  - intros [Hs Hd]. split; [exact Hs|]. intros _. exact Hd.
  - intros [Hs He]. split; [exact Hs|]. intros Hf d Hd. rewrite He in Hd by exact Hf. discriminate.
Qed.

(** ** Reading what a path leads to *)

Lemma same_lookup fs fs' follow p : fs_same fs fs' -> lookup_path fs' follow p = lookup_path fs follow p.
Proof. intros (Hn&Hc&_). unfold lookup_path, resolve. by rewrite Hn, Hc. Qed.

(** All the bytes that reading the path yields. *)
Definition contents_at (fs : Fs) (p : Path) : option (list Byte.byte) :=
  match lookup_path fs true p with Ok (l, _) => open_contents fs l | Err _ => None end.

Lemma same_contents_at fs fs' p : fs_same fs fs' -> contents_at fs' p = contents_at fs p.
Proof.
  intros Hs. unfold contents_at. rewrite (same_lookup _ _ _ _ Hs).
  destruct (lookup_path fs true p) as [[l n]|]; [|done]. by apply same_open_contents.
Qed.

Lemma contents_of_lookup fs p l n : lookup_path fs true p = Ok (l, n) ->
  contents_at fs p = match n_kind n with File d => Some d | Dir => None | _ => Some [] end.
Proof.
  intros Hl. unfold contents_at, open_contents. rewrite Hl. unfold lookup_path in Hl.
  destruct (resolve fs true p) as [l' k| |]; [|done|done].
  destruct (node_at (fs_nodes fs) l') as [n'|] eqn:Hn; [|done]. injection Hl as -> ->. by rewrite Hn.
Qed.

Lemma file_at_contents fs p d : file_at fs p = Some d -> contents_at fs p = Some d.
Proof.
  unfold file_at. destruct (lookup_path fs true p) as [[l n]|] eqn:Hl; [|done].
  rewrite (contents_of_lookup _ _ _ _ Hl). by destruct (n_kind n).
Qed.

(** A query of the tree, faults or not. *)
Lemma run_query_tree {A} (f : Fs -> result A IoError) fs :
  (forall l, f (set_faults l fs) = f fs) ->
  match (run (query f) fs).1 with
  | Ok a => f fs = Ok a
  | Err _ => fs_faults fs = [] -> exists e, f fs = Err e
  end.
Proof.
  intros Hf. unfold query, syscall. rewrite run_act.
  destruct (fs_faults fs) as [|[e|] rest]; cbn [fst]; [destruct (f fs); eauto|intros [=]|].
  rewrite Hf. destruct (f fs); [done|intros [=]].
Qed.

Lemma run_metadata fs p :
  fs_same fs (run (metadata p) fs).2 /\
  match (run (metadata p) fs).1 with
  | Ok n => exists l, lookup_path fs true p = Ok (l, n)
  | Err _ => fs_faults fs = [] -> exists e, lookup_path fs true p = Err e
  end.
Proof.
  split; [apply query_same|].
  pose proof (run_query_tree (fun fs => result_map snd (lookup_path fs true p)) fs (fun _ => eq_refl)) as Hq.
  fold (metadata p) in Hq. destruct (run (metadata p) fs) as [[n|e] fs']; cbn [fst] in *.
  - destruct (lookup_path fs true p) as [[l n']|]; [|done]. injection Hq as ->. by exists l.
  - intros Hf. destruct (Hq Hf) as [e' He]. destruct (lookup_path fs true p) as [[l n]|]; [done|]. by eauto.
Qed.

Lemma run_open_read fs p :
  match (run (open read_options p) fs).1 with
  | Ok l => exists n, lookup_path fs true p = Ok (l, n)
  | Err _ => fs_faults fs = [] -> exists e, lookup_path fs true p = Err e
  end.
Proof.
  unfold open, syscall, lookup_path. rewrite run_act. cbn [oo_create_new oo_write oo_truncate oo_create read_options].
  assert (forall r, resolve (set_faults r fs) true p = resolve fs true p) as Hres by done.
  destruct (fs_faults fs) as [|[e|] rest]; cbn [fst]; [|intros [=]|rewrite Hres; cbn [set_faults fs_nodes]];
    (destruct (resolve fs true p) as [l k|d x t|e]; cbn [fst]; [|by eauto|by eauto]);
    (destruct (node_at (fs_nodes fs) l) as [n|]; cbn [fst]; [|by eauto]); destruct (n_kind n); cbn [fst]; eauto.
Qed.

(** An error of the two calls is one of the caller's two. *)
Lemma run_open_then_error {E} (q : loc -> prog Fs (result (list Byte.byte) IoError)) (e1 e2 : IoError -> E) fs p :
  match (run (bind_ok (prog_map_err e1 (open read_options p)) (fun l => prog_map_err e2 (q l))) fs).1 with
  | Ok _ => True
  | Err e => exists io, e = e1 io \/ e = e2 io
  end.
Proof.
  rewrite run_bind_ok, run_map_err. cbn [fst snd].
  destruct (run (open read_options p) fs) as [[l|e] fs1]; cbn [fst snd map_err]; [|by eauto].
  rewrite run_map_err. cbn [fst]. destruct (run (q l) fs1) as [[d|e] fs2]; cbn; by eauto.
Qed.

Lemma run_read_file_whole_error {E} (e1 e2 : IoError -> E) fs p :
  match (run (read_file_whole e1 e2 p) fs).1 with
  | Ok _ => True
  | Err e => exists io, e = e1 io \/ e = e2 io
  end.
Proof. exact (run_open_then_error read_whole e1 e2 fs p). Qed.

(** The same for any reader of open files. *)
Lemma run_open_then {E} (q : loc -> prog Fs (result (list Byte.byte) IoError)) (e1 e2 : IoError -> E) fs p :
  (forall fs1 l, fs_same fs1 (run (q l) fs1).2 /\
    match (run (q l) fs1).1 with
    | Ok d => open_contents fs1 l = Some d
    | Err _ => fs_faults fs1 = [] -> forall d, open_contents fs1 l = Some d -> (2 ^ 64 <= Z.of_nat (length d))%Z
    end) ->
  let r := run (bind_ok (prog_map_err e1 (open read_options p)) (fun l => prog_map_err e2 (q l))) fs in
  fs_same fs r.2 /\
  match r.1 with
  | Ok d => contents_at fs p = Some d
  | Err _ => fs_faults fs = [] -> forall d, contents_at fs p = Some d -> (2 ^ 64 <= Z.of_nat (length d))%Z
  end.
Proof.
  intros Hq r. subst r. unfold contents_at. rewrite run_bind_ok, run_map_err. cbn [fst snd].
  pose proof (run_open_read fs p) as Ho. pose proof (open_read_same p fs) as Hs.
  destruct (run (open read_options p) fs) as [[l|e] fs1]; cbn [fst snd map_err] in *.
  - destruct Ho as [n ->]. rewrite run_map_err. cbn [fst snd].
    destruct (Hq fs1 l) as [Hs2 Hr]. rewrite (same_open_contents _ _ _ Hs) in Hr.
    split; [by etrans|]. destruct (run (q l) fs1) as [[d|e] fs2]; cbn [fst snd map_err] in *; [done|].
    intros Hf. apply Hr. by apply Hs.
  - split; [done|]. intros Hf d. destruct (Ho Hf) as [e' ->]. done.
Qed.

Lemma run_read_file_whole {E} (e1 e2 : IoError -> E) fs p :
  fs_same fs (run (read_file_whole e1 e2 p) fs).2 /\
  match (run (read_file_whole e1 e2 p) fs).1 with
  | Ok d => contents_at fs p = Some d
  | Err _ => fs_faults fs = [] -> forall d, contents_at fs p = Some d -> (2 ^ 64 <= Z.of_nat (length d))%Z
  end.
Proof. exact (run_open_then read_whole e1 e2 fs p run_read_whole). Qed.

Lemma run_fs_read fs p :
  fs_same fs (run (fs_read p) fs).2 /\
  match (run (fs_read p) fs).1 with
  | Ok d => contents_at fs p = Some d
  | Err _ => fs_faults fs = [] -> contents_at fs p = None
  end.
Proof.
  split; [apply fs_read_same|]. unfold fs_read, contents_at. rewrite run_bind_ok.
  pose proof (run_open_read fs p) as Ho. pose proof (open_read_same p fs) as Hs.
  destruct (run (open read_options p) fs) as [[l|e] fs1]; cbn [fst snd] in *.
  - destruct Ho as [n ->]. rewrite <-(same_open_contents _ _ _ Hs). destruct Hs as (_&_&_&Hs).
    unfold read_to_end, query, syscall. rewrite run_act.
    destruct (fs_faults fs1) as [|[e|] rest] eqn:Hf; cbn [fst];
      [|intros Hf0; discriminate (Hs Hf0)|change (open_contents (set_faults rest fs1) l) with (open_contents fs1 l)];
      by destruct (open_contents fs1 l).
  - intros Hf. by destruct (Ho Hf) as [e' ->].
Qed.

(** Directories and links stay. *)
Definition keeps_dirs (m m' : gmap loc Node) : Prop :=
  forall l a, m !! l = Some a -> is_dir a = true \/ is_symlink a = true -> m' !! l = Some a.

Lemma is_dir_at_keeps m m' c : keeps_dirs m m' -> is_dir_at m c = true -> is_dir_at m' c = true.
Proof.
  unfold is_dir_at, node_at. destruct c as [|x c]; [done|]. intros Hk.
  destruct (m !! (x :: c)) as [a|] eqn:Ha; [|done]. intros Hd. rewrite (Hk _ _ Ha); [done|]. left.
  unfold is_dir. by destruct (n_kind a).
Qed.

Lemma walk_from_file m follow k cur ps d x t :
  is_dir_at m cur = false -> walk m follow k cur ps <> Missing d x t.
Proof. intros Hc. destruct ps; [by rewrite walk_nil|]. by rewrite walk_cons, Hc. Qed.

(** A name that was missing is reached once a file is there. *)
Lemma walk_missing_insert m m' follow k cur ps d x n :
  keeps_dirs m m' -> m' !! (d ++ [x]) = Some n -> is_file n = true ->
  walk m follow k cur ps = Missing d x false -> exists k', walk m' true k cur ps = Found (d ++ [x]) k'.
Proof.
  intros Hkeep Hx Hn. revert cur ps. induction k as [|k IH]; intros cur ps; revert cur;
    induction ps as [|p ps IHps]; intros cur; rewrite ?walk_nil; try done; rewrite !walk_cons;
    (destruct (is_dir_at m cur) eqn:Hd; [|done]); rewrite (is_dir_at_keeps _ _ _ Hkeep Hd); cbn [negb];
    (destruct (trivial_piece p); [apply IHps|]);
    (destruct (String.eqb p ".."); [apply IHps|]);
    (destruct (m !! (cur ++ [p])) as [a|] eqn:Ha;
      [assert (is_dir_at m (cur ++ [p]) = is_dir a) as Hda by (by rewrite is_dir_at_snoc, Ha);
       pose proof (Hkeep _ _ Ha) as Hka; unfold is_dir, is_symlink in Hka, Hda;
       destruct (n_kind a) eqn:Hkind;
       try (intros Hw; by apply walk_from_file in Hw);
       rewrite (Hka ltac:(auto)), Hkind; try apply IHps|]).
  1,3: rewrite andb_false_r; destruct (bool_decide (ps = []) && negb follow); [intros [=]|]; cbv zeta;
    first [apply IH | intros [=]].
  all: destruct (forallb _ ps); [|done]; intros [= <- <- Hps]; apply negb_false_iff, bool_decide_eq_true in Hps as ->;
    rewrite Hx; unfold is_file in Hn; destruct (n_kind n); try done; rewrite walk_nil; eauto.
Qed.

Lemma resolve_missing_insert fs follow p d x n fs' :
  keeps_dirs (fs_nodes fs) (fs_nodes fs') -> fs_nodes fs' !! (d ++ [x]) = Some n -> is_file n = true ->
  resolve fs follow p = Missing d x false -> fs_cwd fs' = fs_cwd fs ->
  lookup_path fs' true p = Ok (d ++ [x], n).
Proof.
  intros Hk Hx Hn Hr Hc. unfold lookup_path.
  assert (exists k', resolve fs' true p = Found (d ++ [x]) k') as [k' ->].
  { unfold resolve in *. rewrite Hc. destruct (p_root p); [by eapply walk_missing_insert|].
    destruct (p_pieces p) as [|[|a s] [|y l]]; try done; by eapply walk_missing_insert. }
  by rewrite node_at_snoc, Hx.
Qed.

Lemma resolve_subseteq fs fs' follow p l k :
  fs_nodes fs ⊆ fs_nodes fs' -> fs_cwd fs' = fs_cwd fs ->
  resolve fs follow p = Found l k -> resolve fs' follow p = Found l k.
Proof.
  intros Hm. apply resolve_refines. intros l' a Ha. exists a. split; [by eapply lookup_weaken|done].
Qed.

Lemma node_at_subseteq (m m' : gmap loc Node) l n : m ⊆ m' -> node_at m l = Some n -> node_at m' l = Some n.
Proof. intros Hm. destruct l; [done|]. cbn. intros Hn. by eapply lookup_weaken. Qed.

(** What was read stays what it was while the tree only gains nodes. *)
Lemma contents_at_subseteq fs fs' p d :
  fs_nodes fs ⊆ fs_nodes fs' -> fs_cwd fs' = fs_cwd fs ->
  contents_at fs p = Some d -> contents_at fs' p = Some d.
Proof.
  intros Hm Hc. unfold contents_at, lookup_path.
  destruct (resolve fs true p) as [l k| |] eqn:Hr; [|done|done].
  rewrite (resolve_subseteq _ _ _ _ _ _ Hm Hc Hr). unfold open_contents.
  destruct (node_at (fs_nodes fs) l) as [n|] eqn:Hn; [|done]. rewrite Hn.
  rewrite (node_at_subseteq _ _ _ _ Hm Hn). by rewrite (node_at_subseteq _ _ _ _ Hm Hn).
Qed.

Lemma file_at_subseteq fs fs' p d :
  fs_nodes fs ⊆ fs_nodes fs' -> fs_cwd fs' = fs_cwd fs -> file_at fs p = Some d -> file_at fs' p = Some d.
Proof.
  intros Hm Hc. unfold file_at, lookup_path.
  destruct (resolve fs true p) as [l k| |] eqn:Hr; [|done|done].
  rewrite (resolve_subseteq _ _ _ _ _ _ Hm Hc Hr).
  destruct (node_at (fs_nodes fs) l) as [n|] eqn:Hn; [|done].
  by rewrite (node_at_subseteq _ _ _ _ Hm Hn).
Qed.
