(* ===== verification/Commands.v ===== *)
(** * Commands

    [std::process] as the components share it: how a finished command reports
    its status. What a command does is decided by the program that runs, so it
    is a parameter wherever a component starts one. *)
From S2P Require Import Prelude Fs.

(** [ExitStatus::code] and [ExitStatusExt::signal]. *)
Record ExitStatus := MkExitStatus { status_code : option Z; status_signal : option Z }.

(** [ExitStatus::success] *)
Definition status_success (status : ExitStatus) : bool := bool_decide (status_code status = Some 0%Z).

(** [std::process::Output] *)
Record Output := MkOutput {
  out_status : ExitStatus; out_stdout : list Byte.byte; out_stderr : list Byte.byte }.

(** [Command::output] on a program and its arguments: it may change the files. *)
Class HostPrograms := {
  command_output : string -> list string -> Fs -> result Output IoError * Fs;
}.

(** [Command::status]: the same run, of which only the status is kept. *)
Definition command_status `{HostPrograms} (program : string) (arguments : list string) (fs : Fs) :
  result ExitStatus IoError * Fs :=
  let '(output, fs') := command_output program arguments fs in (result_map out_status output, fs').
