(* ===== verification/ProcessRuntime.v ===== *)
(** * The development runtime

    Models [crates/ferrobox-node/src/process_runtime.rs] and the node's
    [audit.rs]: the backend that runs commands directly on the host, as an
    instance of [SandboxRuntime] over the file system of [Fs]. *)
From S2P Require Import Prelude Conc Core Utf8 Fs Commands.

(** ** Audit sink *)

Inductive AuditAction :=
| A_Create | A_Execute | A_Signal | A_WriteFile | A_ReadFile | A_ListDirectory
| A_Pause | A_Resume | A_Delete.

Inductive AuditOutcome := O_Started | O_Succeeded | O_Failed.

Record AuditEvent := MkAuditEvent {
  ae_sandbox_id : string;
  ae_action : AuditAction;
  ae_outcome : AuditOutcome;
  ae_occurred_at : Z;
  ae_detail : option string;
}.

(** ** Commands on the host

    What [Command::output] under [timeout] may do: the program decides. *)
Inductive CommandOutcome :=
| CommandElapsed
| CommandNotStarted (error : IoError)
| CommandOutput (stdout stderr : list Byte.byte) (status : ExitStatus).

Class HostCommands := {
  host_command : list string -> Path -> gmap string string -> Z -> Fs -> (CommandOutcome * Z) * Fs;
}.

Definition exit_signal (status : ExitStatus) : Z :=
  match status_signal status with Some s => s | None => 0 end.

Definition file_mode (n : Node) : option Z := Some (n_mode n).

(** [modified()], as whole milliseconds since the epoch when they fit. *)
Definition modified_unix_millis (n : Node) : option Z :=
  if (n_mtime_ns n <? 0)%Z then None
  else let ms := (n_mtime_ns n / 1000000)%Z in
       if (ms <=? u64_max)%Z then Some ms else None.

Definition snapshot_unsupported : RuntimeError :=
  MkRuntimeError Unsupported "snapshots require the Firecracker runtime".

Section Process.
Context `{U : UuidLib} `{H : HostCommands}.

Record ProcessSandbox := MkProcessSandbox { ps_workspace : Path; ps_state : SandboxState }.

(** The runtime with the host it runs on: [pr_ids] and [pr_uuids] count the
    identifiers drawn, [pr_clock] is the system clock. *)
Record ProcessRuntime := MkProcessRuntime {
  pr_root : Path;
  pr_node_id : string;
  pr_sandboxes : gmap SandboxId ProcessSandbox;
  pr_audit : list AuditEvent;
  pr_fs : Fs;
  pr_ids : nat;
  pr_uuids : nat;
  pr_clock : Z;
}.

Definition set_sandboxes (m : gmap SandboxId ProcessSandbox) (s : ProcessRuntime) : ProcessRuntime :=
  MkProcessRuntime (pr_root s) (pr_node_id s) m (pr_audit s) (pr_fs s) (pr_ids s) (pr_uuids s) (pr_clock s).
Definition set_events (l : list AuditEvent) (s : ProcessRuntime) : ProcessRuntime :=
  MkProcessRuntime (pr_root s) (pr_node_id s) (pr_sandboxes s) l (pr_fs s) (pr_ids s) (pr_uuids s) (pr_clock s).
Definition set_fs (fs : Fs) (s : ProcessRuntime) : ProcessRuntime :=
  MkProcessRuntime (pr_root s) (pr_node_id s) (pr_sandboxes s) (pr_audit s) fs (pr_ids s) (pr_uuids s) (pr_clock s).
Definition set_ids (n : nat) (s : ProcessRuntime) : ProcessRuntime :=
  MkProcessRuntime (pr_root s) (pr_node_id s) (pr_sandboxes s) (pr_audit s) (pr_fs s) n (pr_uuids s) (pr_clock s).
Definition set_uuids (n : nat) (s : ProcessRuntime) : ProcessRuntime :=
  MkProcessRuntime (pr_root s) (pr_node_id s) (pr_sandboxes s) (pr_audit s) (pr_fs s) (pr_ids s) n (pr_clock s).

#[export] Instance process_fs : Lens ProcessRuntime Fs.
Proof. by refine {| view := pr_fs; put := set_fs |}; intros; destruct s. Defined.

(** [ProcessRuntime::new] on a host. *)
Definition ProcessRuntime_new (root : string) (fs : Fs) (clock : Z) :
  result ProcessRuntime RuntimeError :=
  let root := Path_of_string root in
  match run (create_dir_all root) fs with
  | (Err error, _) => Err (RuntimeError_internal ("create process root: " +:+ io_text error))
  | (Ok _, fs') => Ok (MkProcessRuntime root "process-dev" ∅ [] fs' 0 0 clock)
  end.

Definition sandbox (id : SandboxId) : prog ProcessRuntime (result ProcessSandbox RuntimeError) :=
  gets (fun s => ok_or (RuntimeError_not_found "sandbox does not exist") (pr_sandboxes s !! id)).

Definition record (id : SandboxId) (action : AuditAction) (outcome : AuditOutcome)
    (detail : option string) : prog ProcessRuntime unit :=
  modify (fun s => set_events (pr_audit s ++
    [MkAuditEvent (SandboxId_to_string id) action outcome (pr_clock s) detail]) s).

(** ** Path confinement *)

Definition forbidden_component (c : Component) : bool :=
  match c with ParentDir | RootDir => true | _ => false end.

(** The loop of [safe_path] over the remaining components. *)
Fixpoint inspect (current : Path) (cs : list Component) (allow_missing_leaf : bool) :
  prog Fs (result unit RuntimeError) :=
  match cs with
  | [] => ok tt
  | component :: rest =>
      let current := push current (Path_of_string (as_os_str component)) in
      (do found <- symlink_metadata current ;;
       match found with
       | Ok metadata =>
           if is_symlink metadata
           then throw (RuntimeError_invalid "symbolic links are not allowed")
           else inspect current rest allow_missing_leaf
       | Err error =>
           if bool_decide (io_kind error = IoNotFound) && allow_missing_leaf && bool_decide (rest = [])
           then inspect current rest allow_missing_leaf
           else if bool_decide (io_kind error = IoNotFound)
           then throw (RuntimeError_not_found "path does not exist")
           else throw (RuntimeError_internal ("inspect sandbox path: " +:+ io_text error))
       end)%prog
  end.

Definition safe_path (workspace : Path) (path : SandboxPath) (allow_missing_leaf : bool) :
  prog Fs (result Path RuntimeError) :=
  (let relative := Path_of_string (SandboxPath_relative path) in
   if existsb forbidden_component (components relative)
   then throw (RuntimeError_invalid "path escapes sandbox workspace")
   else
     let target := push workspace relative in
     do? _ <- inspect workspace (components relative) allow_missing_leaf ;;
     ok target)%prog.

(** ** Operations *)

Definition invalid_request (e : ValidationError) : RuntimeError :=
  RuntimeError_invalid (ValidationError_to_string e).

Definition io_internal {A} (what : string) (r : result A IoError) : result A RuntimeError :=
  map_err (fun error => RuntimeError_internal (what +:+ ": " +:+ io_text error)) r.
Definition io_not_found {A} (what : string) (r : result A IoError) : result A RuntimeError :=
  map_err (fun error => RuntimeError_not_found (what +:+ ": " +:+ io_text error)) r.

(** A host call within an operation, with its error mapped. *)
Definition host {A B E} (f : result A E -> result B RuntimeError) (p : prog Fs (result A E)) :
  prog ProcessRuntime (result B RuntimeError) := fmap_prog f (lift p).

Definition workspace_path (root : Path) (id : SandboxId) : Path :=
  join (join (join root (SandboxId_to_string id)) "home") "sandbox".

Definition create (spec : SandboxSpec) : prog ProcessRuntime (result SandboxHandle RuntimeError) :=
  (do? _ <- of_result (map_err invalid_request (SandboxSpec_validate spec)) ;;
   do id <- act (fun s => (SandboxId_new (pr_ids s), set_ids (S (pr_ids s)) s)) ;;
   do root <- gets pr_root ;;
   let workspace := workspace_path root id in
   do? _ <- host (io_internal "create sandbox") (create_dir_all workspace) ;;
   do _ <- modify (fun s => set_sandboxes
     (<[id := MkProcessSandbox workspace Running]> (pr_sandboxes s)) s) ;;
   do _ <- record id A_Create O_Succeeded None ;;
   do node <- gets pr_node_id ;;
   ok (MkSandboxHandle id node Running))%prog.

(** The truncation of the collected output and the reported termination. *)
Definition limit_output (process_id : ProcessId) (limit : Z) (stdout stderr : list Byte.byte)
    (status : ExitStatus) : ExecResult :=
  let stdout_truncated := (limit <? Z.of_nat (length stdout))%Z in
  let stdout := if stdout_truncated then take (Z.to_nat limit) stdout else stdout in
  let remaining := saturating_sub limit (Z.of_nat (length stdout)) in
  let stderr_truncated := (remaining <? Z.of_nat (length stderr))%Z in
  let stderr := if stderr_truncated then take (Z.to_nat remaining) stderr else stderr in
  let termination :=
    if stdout_truncated || stderr_truncated then OutputLimitExceeded
    else match status_code status with
         | Some code => Exited code
         | None => Signaled (exit_signal status)
         end in
  MkExecResult process_id termination stdout stderr
    (MkOutputTruncation stdout_truncated stderr_truncated).

Definition conflict_error (m : string) : RuntimeError := MkRuntimeError Conflict m.

Definition execute (sandbox_id : SandboxId) (request : ExecRequest) :
  prog ProcessRuntime (result ExecResult RuntimeError) :=
  (do? _ <- of_result (map_err invalid_request (ExecRequest_validate request)) ;;
   do? sb <- sandbox sandbox_id ;;
   if negb (bool_decide (ps_state sb = Running)) then throw (conflict_error "sandbox is not running")
   else
   do? dir <- lift (safe_path (ps_workspace sb) (cwd request) false) ;;
   do uuid <- act (fun s => (new_v4 (pr_uuids s), set_uuids (S (pr_uuids s)) s)) ;;
   do? process_id <- of_result (map_err (fun e => RuntimeError_internal (ValidationError_to_string e))
     (ProcessId_new (uuid_to_string uuid))) ;;
   do _ <- record sandbox_id A_Execute O_Started (Some (process_str process_id)) ;;
   do (output, elapsed) <- act (fun s =>
     let '(out, fs') := host_command (argv request) dir (environment request)
       (exec_timeout_seconds request) (pr_fs s) in (out, set_fs fs' s)) ;;
   do? result <- match output with
     | CommandElapsed => ok (MkExecResult process_id TimedOut [] [] OutputTruncation_default)
     | CommandNotStarted error =>
         do _ <- record sandbox_id A_Execute O_Failed (Some (io_text error)) ;;
         throw (MkRuntimeError Unavailable ("start command: " +:+ io_text error))
     | CommandOutput stdout stderr status =>
         ok (limit_output process_id (max_output_bytes request) stdout stderr status)
     end ;;
   do _ <- record sandbox_id A_Execute O_Succeeded (Some ("elapsed_ms=" +:+ pretty elapsed)) ;;
   ok result)%prog.

Definition signal (sandbox_id : SandboxId) (_ : SignalRequest) :
  prog ProcessRuntime (result SignalResult RuntimeError) :=
  (do? _ <- sandbox sandbox_id ;;
   throw (MkRuntimeError Unsupported "process runtime does not retain completed process handles"))%prog.

Definition open_error (error : IoError) : RuntimeError :=
  MkRuntimeError (if bool_decide (io_kind error = IoAlreadyExists) then Conflict else Internal)
    ("open file: " +:+ io_text error).

Definition write (sandbox_id : SandboxId) (request : WriteFileRequest) :
  prog ProcessRuntime (result WriteFileResult RuntimeError) :=
  (let bytes := Z.of_nat (length (wf_data request)) in
   if (MAX_FILE_BYTES <? bytes)%Z
   then throw (MkRuntimeError ResourceExhausted "file exceeds upload limit")
   else
   do? sb <- sandbox sandbox_id ;;
   do? target <- lift (safe_path (ps_workspace sb) (wf_path request) true) ;;
   do? up <- of_result (ok_or (RuntimeError_invalid "file has no parent") (parent target)) ;;
   do? _ <- host (io_internal "create parent") (create_dir_all up) ;;
   do? file <- host (map_err open_error) (open (write_options (wf_overwrite request)) target) ;;
   do? _ <- host (io_internal "write file") (write_all file (wf_data request)) ;;
   do? _ <- host (io_internal "flush file") flush ;;
   do _ <- record sandbox_id A_WriteFile O_Succeeded (Some ("bytes=" +:+ pretty bytes)) ;;
   ok (MkWriteFileResult bytes))%prog.

Definition read (sandbox_id : SandboxId) (request : ReadFileRequest) :
  prog ProcessRuntime (result ReadFileResult RuntimeError) :=
  (do? sb <- sandbox sandbox_id ;;
   do? target <- lift (safe_path (ps_workspace sb) (rf_path request) false) ;;
   do? found <- host (io_not_found "read metadata") (metadata target) ;;
   if negb (is_file found) then throw (RuntimeError_invalid "path is not a regular file")
   else
   let maximum := Z.min (rf_max_bytes request) MAX_FILE_BYTES in
   do? file <- host (io_not_found "open file") (open read_options target) ;;
   do? _ <- host (io_internal "seek file") (seek (rf_offset request)) ;;
   do? data <- host (io_internal "read file") (read_from file (rf_offset request) maximum) ;;
   let eof := (metadata_len found <=?
     saturating_add u64_max (rf_offset request) (Z.of_nat (length data)))%Z in
   do _ <- record sandbox_id A_ReadFile O_Succeeded
     (Some ("bytes=" +:+ pretty (Z.of_nat (length data)))) ;;
   ok (MkReadFileResult data eof))%prog.

(** The entry that [list] reports for a name, [None] when it is skipped. *)
Definition directory_entry (base : SandboxPath) (name : string) (n : Node) :
  result (option DirectoryEntry) RuntimeError :=
  let kind := if is_file n then Some FK_File else if is_dir n then Some FK_Directory else None in
  match kind with
  | None => Ok None
  | Some kind =>
      let name := from_utf8_lossy (String.list_byte_of_string name) in
      (let? path := map_err (fun e => RuntimeError_internal (ValidationError_to_string e))
         (SandboxPath_new (child_path (path_str base) name)) in
       Ok (Some (MkDirectoryEntry name path kind (metadata_len n) (modified_unix_millis n)
         (file_mode n))))%result
  end.

Definition LIST_LIMIT : nat := 4096.

Fixpoint list_entries (base : SandboxPath) (dir : loc) (names : list string)
    (entries : list DirectoryEntry) : prog ProcessRuntime (result (list DirectoryEntry) RuntimeError) :=
  (do? _ <- host (io_internal "read directory") next_entry ;;
   match names with
   | [] => ok entries
   | name :: rest =>
       if LIST_LIMIT <=? length entries
       then throw (MkRuntimeError ResourceExhausted "directory entry limit exceeded")
       else
         do? found <- host (io_internal "read metadata") (entry_metadata dir name) ;;
         do? entry <- of_result (directory_entry base name found) ;;
         list_entries base dir rest
           (match entry with Some e => entries ++ [e] | None => entries end)
   end)%prog.

Definition entry_le (a b : DirectoryEntry) : Prop := String.leb (de_name a) (de_name b) = true.
#[export] Instance entry_le_dec : RelDecision entry_le.
Proof. intros a b. unfold entry_le. apply _. Defined.

Definition list_ (sandbox_id : SandboxId) (request : ListDirectoryRequest) :
  prog ProcessRuntime (result ListDirectoryResult RuntimeError) :=
  (do? sb <- sandbox sandbox_id ;;
   do? target <- lift (safe_path (ps_workspace sb) (ld_path request) false) ;;
   do? (dir, names) <- host (io_not_found "open directory") (read_dir target) ;;
   do? entries <- list_entries (ld_path request) dir names [] ;;
   ok (MkListDirectoryResult (merge_sort entry_le entries)))%prog.

(** [pause] and [resume] hold the table's lock throughout. *)
Definition switch (sandbox_id : SandboxId) (expected next : SandboxState) (complaint : string) :
  prog ProcessRuntime (result unit RuntimeError) :=
  act (fun s =>
    match pr_sandboxes s !! sandbox_id with
    | None => (Err (RuntimeError_not_found "sandbox does not exist"), s)
    | Some sb =>
        if negb (bool_decide (ps_state sb = expected)) then (Err (conflict_error complaint), s)
        else (Ok tt, set_sandboxes (<[sandbox_id := MkProcessSandbox (ps_workspace sb) next]>
               (pr_sandboxes s)) s)
    end).

Definition pause (sandbox_id : SandboxId) := switch sandbox_id Running Paused "sandbox is not running".
Definition resume (sandbox_id : SandboxId) := switch sandbox_id Paused Running "sandbox is not paused".

Definition unsupported_for {A} (sandbox_id : SandboxId) : prog ProcessRuntime (result A RuntimeError) :=
  (do? _ <- sandbox sandbox_id ;; throw snapshot_unsupported)%prog.

Definition delete_ (sandbox_id : SandboxId) : prog ProcessRuntime (result unit RuntimeError) :=
  (do? sb <- act (fun s =>
     (ok_or (RuntimeError_not_found "sandbox does not exist") (pr_sandboxes s !! sandbox_id),
      set_sandboxes (delete sandbox_id (pr_sandboxes s)) s)) ;;
   do root <- gets pr_root ;;
   do? sandbox_root <- of_result (ok_or (RuntimeError_internal "invalid sandbox root")
     (parent (ps_workspace sb) ≫= parent)) ;;
   if negb (path_starts_with sandbox_root root) || path_eq sandbox_root root
   then throw (RuntimeError_internal "refusing unsafe cleanup target")
   else
   do? _ <- host (io_internal "remove sandbox") (remove_dir_all sandbox_root) ;;
   do _ <- record sandbox_id A_Delete O_Succeeded None ;;
   ok tt)%prog.

#[export] Instance process_runtime : SandboxRuntime ProcessRuntime := {|
  rt_create := create;
  rt_execute := execute;
  rt_signal := signal;
  rt_write := write;
  rt_read := read;
  rt_list := list_;
  rt_pause := pause;
  rt_resume := resume;
  rt_create_snapshot id _ := unsupported_for id;
  rt_list_snapshots := unsupported_for;
  rt_get_snapshot _ := throw snapshot_unsupported;
  rt_verify_snapshot _ := throw snapshot_unsupported;
  rt_restore_snapshot _ := throw snapshot_unsupported;
  rt_clone_snapshot _ _ := throw snapshot_unsupported;
  rt_rollback_snapshot id _ := unsupported_for id;
  rt_delete_snapshot _ := throw snapshot_unsupported;
  rt_delete := delete_;
|}.
End Process.
