(* ===== verification/ProcessProps.v ===== *)
(** * Behaviour of the development runtime

    Confinement of paths (with symbolic links resolved as the kernel does),
    the round trip of writing and reading a file, the bound on collected output,
    the safety of deletion, and the relation between the lifecycle of the
    runtime and that of the control plane. *)
From S2P Require Import Prelude Conc Core Utf8 Api Instances Fs Commands ProcessRuntime.

(** ** Relative paths *)

Lemma pieces_no_slash s x : x ∈ p_pieces (Path_of_string s) -> string_contains slash x = false.
Proof.
  intros Hx. assert (exists t, x ∈ split_on slash t) as [t Ht].
  { destruct s as [|c s]; [by exists ""|]. unfold Path_of_string in Hx.
    destruct (Ascii.eqb c slash); [by exists s|by exists (String c s)]. }
  pose proof (split_on_pieces slash t) as Hall. rewrite Forall_forall in Hall. by apply Hall.
Qed.

Lemma pieces_components ps :
  existsb forbidden_component (flat_map piece_components ps) = false ->
  ".." ∉ ps /\ flat_map piece_components ps = map Normal (real_names ps).
Proof.
  induction ps as [|p ps IH]; [set_solver|]. cbn [flat_map]. rewrite existsb_app, orb_false_iff.
  intros [Hp [Hdd Heq]%IH]. destruct (trivial_piece p) eqn:Ht.
  - rewrite piece_components_trivial, real_names_trivial by done. split; [|done].
    intros [Hin|?]%elem_of_cons; [|done]. by subst p.
  - rewrite real_names_real by done. unfold piece_components in *. unfold trivial_piece in Ht.
    rewrite Ht in *. destruct (String.eqb_spec p ".."); [done|]. split; [set_solver|].
    simpl. by f_equal.
Qed.

Lemma relative_path s :
  let p := Path_of_string s in
  existsb forbidden_component (components p) = false ->
  p_root p = false /\ ".." ∉ p_pieces p
  /\ (components p = map Normal (real_names (p_pieces p))
      \/ components p = CurDir :: map Normal (real_names (p_pieces p)))
  /\ Forall plain_name (real_names (p_pieces p)) /\ p_pieces p <> [].
Proof.
  intros p Hf. rewrite components_eq, existsb_app, orb_false_iff in Hf. destruct Hf as [Hfront Hf].
  apply pieces_components in Hf as [Hdd Heq]. rewrite components_eq, Heq.
  assert (p_root p = false) as Hroot.
  { unfold front_component in Hfront. by destruct (p_root p). }
  split; [done|]. split; [done|]. split.
  { unfold front_component. rewrite Hroot. destruct (p_pieces p) as [|f t]; [by left|].
    destruct (String.eqb f "."); [by right|by left]. }
  split.
  - unfold real_names. rewrite Forall_forall. intros x [Hx Hin]%list_elem_of_filter.
    split; [done|]. split; [by intros ->|]. by apply (pieces_no_slash s).
  - unfold p, Path_of_string. destruct s as [|c s]; [done|].
    destruct (Ascii.eqb c slash); apply split_on_not_nil.
Qed.

(** ** The inspection loop *)

Lemma inspect_same cs allow current : preserves fs_same (inspect current cs allow).
Proof.
  revert current. induction cs as [|c cs IH]; intros current; cbn [inspect]; cbv zeta;
    repeat first [apply query_same | apply IH | preserves_step].
Qed.

(** A look-up, whatever faults there are. *)
Lemma run_symlink_metadata p fs :
  let r := result_map snd (lookup_path fs false p) in
  (run (symlink_metadata p) fs).1 = r
  \/ exists e, (run (symlink_metadata p) fs).1 = Err e /\ io_kind e <> IoNotFound.
Proof.
  unfold symlink_metadata, query, syscall. rewrite run_act.
  destruct (fs_faults fs) as [|[f|] rest]; simpl; [by left| |by left].
  right. eexists. split; [done|]. unfold fault_error; simpl. by destruct (fault_denied f).
Qed.

(** What looking up one more name finds. *)
Lemma lookup_push_name fs current l k n :
  resolve fs true current = Found l k -> plain_name n ->
  lookup_path fs false (push current (Path_of_string n)) =
  if is_dir_at (fs_nodes fs) l
  then match fs_nodes fs !! (l ++ [n]) with Some x => Ok (l ++ [n], x) | None => Err ENOENT end
  else Err ENOTDIR.
Proof.
  intros Hr Hn. rewrite plain_name_path by done. unfold lookup_path.
  rewrite (resolve_push fs current [n] l k false Hr) by done. rewrite walk_cons.
  destruct (is_dir_at _ l); [|done]. destruct Hn as (->&Hdd&_). cbn [negb].
  destruct (String.eqb_spec n ".."); [done|].
  destruct (fs_nodes fs !! (l ++ [n])) as [x|] eqn:Hx; [|done].
  destruct (n_kind x); rewrite ?walk_nil; simpl; by rewrite node_at_snoc, Hx.
Qed.

Lemma resolve_push_name fs current l k n x :
  resolve fs true current = Found l k -> plain_name n -> is_dir_at (fs_nodes fs) l = true ->
  fs_nodes fs !! (l ++ [n]) = Some x -> is_symlink x = false ->
  resolve fs true (push current (Path_of_string n)) = Found (l ++ [n]) k.
Proof.
  intros Hr Hn Hd Hx Hs. rewrite plain_name_path by done.
  rewrite (resolve_push fs current [n] l k true Hr) by done. rewrite walk_cons, Hd.
  destruct Hn as (->&Hdd&_). cbn [negb]. destruct (String.eqb_spec n ".."); [done|]. rewrite Hx.
  unfold is_symlink in Hs. destruct (n_kind x); by rewrite ?walk_nil.
Qed.

Lemma same_resolve fs fs' follow p : fs_same fs fs' -> resolve fs' follow p = resolve fs follow p.
Proof. intros (Hn&Hc&_). unfold resolve. by rewrite Hn, Hc. Qed.

Lemma inspect_names_ok names allow : forall current fs l k,
  Forall plain_name names -> resolve fs true current = Found l k ->
  (run (inspect current (map Normal names) allow) fs).1 = Ok tt ->
  reaches (fs_nodes fs) l names allow = true.
Proof.
  induction names as [|n names IH]; intros current fs l k Hall Hr; [done|].
  inversion_clear Hall as [|?? Hn Hns]. cbn [map inspect as_os_str]. cbv zeta. rewrite run_bind.
  pose proof (query_same (fun fs => result_map snd (lookup_path fs false
    (push current (Path_of_string n)))) fs) as Hsame.
  change (query _) with (symlink_metadata (push current (Path_of_string n))) in Hsame.
  destruct (run_symlink_metadata (push current (Path_of_string n)) fs) as [Heq|(e&Heq&He)];
    cbv zeta in Heq; rewrite Heq; clear Heq.
  - set (fs' := (run (symlink_metadata (push current (Path_of_string n))) fs).2) in *.
    rewrite (lookup_push_name fs current l k n Hr Hn). cbn [reaches].
    destruct (is_dir_at (fs_nodes fs) l) eqn:Hd; [|done].
    destruct (fs_nodes fs !! (l ++ [n])) as [x|] eqn:Hx; cbn [result_map snd].
    + destruct (is_symlink x) eqn:Hs; [done|]. intros Hrun. cbn [negb andb].
      pose proof Hsame as (Hnodes&_). rewrite <-Hnodes.
      eapply IH; [done| |exact Hrun]. rewrite (same_resolve _ _ _ _ Hsame).
      by eapply resolve_push_name.
    + destruct allow; [|done]. destruct names as [|n' names]; done.
  - intros Hrun. exfalso. destruct e as [ke te]. cbn [io_kind] in *.
    rewrite (bool_decide_eq_false_2 (ke = IoNotFound)) in Hrun by done. done.
Qed.

Lemma inspect_names_complete names allow : forall current fs l k,
  Forall plain_name names -> resolve fs true current = Found l k -> fs_faults fs = [] ->
  reaches (fs_nodes fs) l names allow = true ->
  run (inspect current (map Normal names) allow) fs = (Ok tt, fs).
Proof.
  induction names as [|n names IH]; intros current fs l k Hall Hr Hf; [done|].
  inversion_clear Hall as [|?? Hn Hns]. cbn [map inspect as_os_str reaches]. cbv zeta.
  intros [Hd Hx]%andb_true_iff. rewrite run_bind. unfold symlink_metadata. rewrite run_query by done.
  cbn [fst snd]. rewrite (lookup_push_name fs current l k n Hr Hn), Hd.
  destruct (fs_nodes fs !! (l ++ [n])) as [x|] eqn:Hlook; cbn [result_map snd].
  - apply andb_true_iff in Hx as [Hs%negb_true_iff Hx]. rewrite Hs.
    eapply IH; [done| |done|exact Hx]. by eapply resolve_push_name.
  - apply andb_true_iff in Hx as [-> Hnil%bool_decide_eq_true]. by subst names.
Qed.

(** ** Confinement *)

Definition relative_pieces (path : SandboxPath) : list string :=
  p_pieces (Path_of_string (SandboxPath_relative path)).
Definition path_names (path : SandboxPath) : list string := real_names (relative_pieces path).

(** The facts that an accepted path comes with. *)
Record accepted (m : gmap loc Node) (dir : loc) (path : SandboxPath) (allow : bool) : Prop := {
  acc_relative : p_root (Path_of_string (SandboxPath_relative path)) = false;
  acc_no_parent : ".." ∉ relative_pieces path;
  acc_pieces : relative_pieces path <> [];
  acc_plain : Forall plain_name (path_names path);
  acc_reaches : reaches m dir (path_names path) allow = true;
}.

Definition target_path (workspace : Path) (path : SandboxPath) : Path :=
  push workspace (Path_of_string (SandboxPath_relative path)).

Lemma target_path_eq workspace path m dir allow :
  accepted m dir path allow -> target_path workspace path = push workspace (MkPath false (relative_pieces path)).
Proof.
  intros [Hr _ _ _ _]. unfold target_path, relative_pieces.
  destruct (Path_of_string (SandboxPath_relative path)); simpl in *. by subst.
Qed.

Lemma push_curdir fs current l k follow :
  resolve fs true current = Found l k -> is_dir_at (fs_nodes fs) l = true ->
  resolve fs follow (push current (Path_of_string ".")) = Found l k.
Proof.
  intros Hr Hd. change (Path_of_string ".") with (MkPath false ["."]).
  rewrite (resolve_push fs current ["."] l k follow Hr) by done. rewrite walk_cons, Hd.
  cbn. apply walk_nil.
Qed.

Lemma node_at_dir m l : is_dir_at m l = true -> exists n, node_at m l = Some n /\ is_symlink n = false.
Proof.
  unfold is_dir_at. destruct (node_at m l) as [n|]; [|done]. intros Hd. exists n.
  split; [done|]. unfold is_symlink. by destruct (n_kind n).
Qed.

Lemma inspect_curdir rest allow current fs l k :
  resolve fs true current = Found l k -> is_dir_at (fs_nodes fs) l = true ->
  exists fs', fs_same fs fs' /\ (fs_faults fs = [] -> fs' = fs) /\
  let next := push current (Path_of_string ".") in
  (run (inspect current (CurDir :: rest) allow) fs = run (inspect next rest allow) fs'
   \/ exists e, (run (inspect current (CurDir :: rest) allow) fs).1 = Err e /\ fs_faults fs <> []).
Proof.
  intros Hr Hd. cbn [inspect as_os_str]. cbv zeta. rewrite run_bind.
  set (next := push current (Path_of_string ".")).
  assert (lookup_path fs false next = match node_at (fs_nodes fs) l with
    Some n => Ok (l, n) | None => Err ENOENT end) as Hlook.
  { unfold lookup_path, next. by rewrite (push_curdir fs current l k false Hr Hd). }
  destruct (node_at_dir _ _ Hd) as (n&Hn&Hs). rewrite Hn in Hlook.
  exists (run (symlink_metadata next) fs).2. split; [apply query_same|]. split.
  { intros Hf. unfold symlink_metadata. by rewrite run_query. }
  destruct (fs_faults fs) as [|f rest'] eqn:Hf.
  - left. unfold symlink_metadata. rewrite run_query by done. cbn [fst snd].
    rewrite Hlook. cbn [result_map snd]. by rewrite Hs.
  - destruct (run_symlink_metadata next fs) as [Heq|(e&Heq&He)]; cbv zeta in Heq; rewrite Heq.
    + left. rewrite Hlook. cbn [result_map snd]. by rewrite Hs.
    + right. destruct e as [ke te]. cbn [io_kind] in *.
      rewrite (bool_decide_eq_false_2 (ke = IoNotFound)) by done. cbn [andb].
      by eexists.
Qed.

Lemma safe_path_accepts fs workspace path allow dir k target fs' :
  resolve fs true workspace = Found dir k -> is_dir_at (fs_nodes fs) dir = true ->
  run (safe_path workspace path allow) fs = (Ok target, fs') ->
  target = target_path workspace path /\ fs_same fs fs' /\ accepted (fs_nodes fs) dir path allow.
Proof.
  intros Hr Hd. unfold safe_path.
  destruct (existsb forbidden_component (components _)) eqn:Hforb; [done|].
  destruct (relative_path _ Hforb) as (Hroot&Hdd&Hcomp&Hplain&Hne). cbv zeta.
  rewrite run_bind_ok. intros Hrun.
  destruct (run (inspect workspace (components (Path_of_string (SandboxPath_relative path))) allow) fs)
    as [res fs1] eqn:Hi. cbn [fst snd] in Hrun. destruct res as [[]|e]; [|done].
  injection Hrun as <- <-. split; [done|]. split.
  { pose proof (inspect_same (components (Path_of_string (SandboxPath_relative path))) allow
      workspace fs) as Hs. by rewrite Hi in Hs. }
  split; [done..|]. destruct Hcomp as [Hc|Hc]; rewrite Hc in Hi.
  - eapply inspect_names_ok; [done|exact Hr|].
    unfold path_names, relative_pieces. by rewrite Hi.
  - destruct (inspect_curdir (map Normal (path_names path)) allow workspace fs dir k Hr Hd)
      as (fs2&Hsame&_&[Heq|(e&Heq&_)]).
    + unfold path_names, relative_pieces in Heq. rewrite Hi in Heq.
      pose proof Hsame as (Hnodes&_). rewrite <-Hnodes.
      eapply inspect_names_ok; [done| |].
      { rewrite (same_resolve _ _ _ _ Hsame). by apply push_curdir. }
      unfold path_names, relative_pieces. by rewrite <-Heq.
    + unfold path_names, relative_pieces in Heq. by rewrite Hi in Heq.
Qed.

Lemma safe_path_complete fs workspace path allow dir k :
  resolve fs true workspace = Found dir k -> is_dir_at (fs_nodes fs) dir = true ->
  fs_faults fs = [] -> accepted (fs_nodes fs) dir path allow ->
  run (safe_path workspace path allow) fs = (Ok (target_path workspace path), fs).
Proof.
  intros Hr Hd Hf [Hroot Hdd Hne Hplain Hreach]. unfold safe_path.
  assert (existsb forbidden_component (components (Path_of_string (SandboxPath_relative path))) = false)
    as Hforb.
  { rewrite components_eq, existsb_app, orb_false_iff. split.
    - unfold front_component. rewrite Hroot. destruct (p_pieces _) as [|f ?]; [done|].
      by destruct (String.eqb f ".").
    - fold (relative_pieces path). apply not_true_iff_false. intros (c&Hin&Hc)%existsb_exists.
      apply in_flat_map in Hin as (x&Hx&Hcx). apply list_elem_of_In in Hx.
      unfold piece_components in Hcx. destruct (_ || _); [done|].
      destruct (String.eqb_spec x ".."); [by subst|]. destruct Hcx as [<-|[]]. done. }
  rewrite Hforb. destruct (relative_path _ Hforb) as (_&_&Hcomp&_&_). cbv zeta.
  rewrite run_bind_ok. fold (path_names path) in Hplain.
  assert (run (inspect workspace (components (Path_of_string (SandboxPath_relative path))) allow) fs
    = (Ok tt, fs)) as ->; [|done].
  destruct Hcomp as [Hc|Hc]; rewrite Hc.
  - by eapply inspect_names_complete.
  - destruct (inspect_curdir (map Normal (path_names path)) allow workspace fs dir k Hr Hd)
      as (fs2&_&Heq2&[Heq|(e&_&Heq)]); [|done].
    unfold path_names, relative_pieces in Heq. rewrite Heq, (Heq2 Hf).
    eapply inspect_names_complete; [done| |done|done]. by apply push_curdir.
Qed.

(** Where an accepted path leads, with any number of links allowed. *)
Lemma accepted_resolve fs workspace path allow dir k follow :
  resolve fs true workspace = Found dir k -> accepted (fs_nodes fs) dir path allow ->
  match resolve fs follow (target_path workspace path) with
  | Found l _ => l = dir ++ path_names path
  | Missing d x _ => d ++ [x] = dir ++ path_names path /\ allow = true
  | Fails _ => True
  end.
Proof.
  intros Hr Hacc. rewrite (target_path_eq _ _ _ _ _ Hacc). destruct Hacc as [_ Hdd Hne Hplain Hreach].
  rewrite (resolve_push fs workspace _ dir k follow Hr) by done.
  destruct (decide (path_names path = [])) as [Hnil|Hnn].
  - rewrite walk_trivial by by apply real_names_nil. rewrite Hnil, app_nil_r.
    by destruct (bool_decide _ || _).
  - rewrite (walk_reaches _ follow k dir _ allow Hdd Hnn Hreach). fold (path_names path).
    destruct (fs_nodes fs !! (dir ++ path_names path)) as [n|] eqn:Hn.
    + by destruct (bool_decide _ || _).
    + destruct (last (path_names path)) as [x|] eqn:Hl; [|done].
      apply last_Some in Hl as [front Hl]. destruct (forallb _ _); [|done].
      rewrite Hl, removelast_snoc, <-app_assoc. split; [done|].
      destruct allow; [done|].
      destruct (reaches_exists _ _ _ Hnn Hreach) as [n' Hn']. unfold path_names in *. congruence.
Qed.

(** C4. Accepted paths stay in the workspace as the kernel sees it: when the
    workspace resolves to a directory and [safe_path] accepts a path, then
    resolving the target, following every symbolic link, leads to a location
    below the workspace's (or to a missing name there, only if a missing leaf
    was allowed, or fails). The location is reached by plain names, none of
    them [..], and no directory on the way is a symbolic link. Checking changes
    nothing in the tree. *)
Theorem safe_path_confined fs workspace path allow dir k target fs' :
  resolve fs true workspace = Found dir k -> is_dir_at (fs_nodes fs) dir = true ->
  run (safe_path workspace path allow) fs = (Ok target, fs') ->
  fs_nodes fs' = fs_nodes fs /\ exists names,
    Forall plain_name names /\ reaches (fs_nodes fs') dir names allow = true /\
    forall follow, match resolve fs' follow target with
             | Found l _ => l = dir ++ names
             | Missing d x _ => d ++ [x] = dir ++ names /\ allow = true
             | Fails _ => True
             end.
Proof.
  intros Hr Hd Hrun. destruct (safe_path_accepts _ _ _ _ _ _ _ _ Hr Hd Hrun) as (->&Hsame&Hacc).
  pose proof Hsame as (Hnodes&_). split; [done|]. exists (path_names path).
  split; [by eapply acc_plain|]. rewrite Hnodes. split; [by eapply acc_reaches|].
  intros follow. rewrite (same_resolve _ _ _ _ Hsame). by eapply accepted_resolve.
Qed.

(** ** Files *)

Section Files.
Context `{U : UuidLib} `{HC : HostCommands}.

Lemma run_host {A B E} (f : result A E -> result B RuntimeError) (p : prog Fs (result A E)) s :
  run (host f p) s = (f (run p (pr_fs s)).1, set_fs (run p (pr_fs s)).2 s).
Proof. unfold host. rewrite run_fmap, run_lift. done. Qed.

Lemma run_sandbox id s :
  run (sandbox id) s = (ok_or (RuntimeError_not_found "sandbox does not exist") (pr_sandboxes s !! id), s).
Proof. done. Qed.

Lemma run_lift_fs {A} (p : prog Fs A) (s : ProcessRuntime) :
  run (lift p) s = ((run p (pr_fs s)).1, set_fs (run p (pr_fs s)).2 s).
Proof. exact (run_lift p s). Qed.

(** The part of [write] that happens on the host. *)
Definition write_host (workspace : Path) (request : WriteFileRequest) :
  prog Fs (result unit RuntimeError) :=
  (do? target <- safe_path workspace (wf_path request) true ;;
   do? up <- of_result (ok_or (RuntimeError_invalid "file has no parent") (parent target)) ;;
   do? _ <- fmap_prog (io_internal "create parent") (create_dir_all up) ;;
   do? file <- fmap_prog (map_err open_error) (open (write_options (wf_overwrite request)) target) ;;
   do? _ <- fmap_prog (io_internal "write file") (write_all file (wf_data request)) ;;
   do? _ <- fmap_prog (io_internal "flush file") flush ;;
   ok tt)%prog.

Lemma run_write_host s id sb request :
  pr_sandboxes s !! id = Some sb -> (Z.of_nat (length (wf_data request)) <= MAX_FILE_BYTES)%Z ->
  let out := run (write_host (ps_workspace sb) request) (pr_fs s) in
  (run (write id request) s).1 =
    result_map (fun _ => MkWriteFileResult (Z.of_nat (length (wf_data request)))) out.1
  /\ pr_fs (run (write id request) s).2 = out.2
  /\ pr_sandboxes (run (write id request) s).2 = pr_sandboxes s.
Proof.
  intros Hid Hlen. unfold write, write_host. cbv zeta.
  destruct (Z.ltb_spec MAX_FILE_BYTES (Z.of_nat (length (wf_data request)))); [lia|].
  rewrite ?run_bind_ok, ?run_sandbox, Hid. cbn [ok_or fst snd].
  rewrite ?run_bind_ok, ?run_lift_fs. cbn [fst snd].
  destruct (run (safe_path (ps_workspace sb) (wf_path request) true) (pr_fs s)) as [[target|e] fs1];
    cbn [fst snd]; [|done].
  rewrite ?run_bind_ok. cbn [of_result run fst snd].
  destruct (ok_or (RuntimeError_invalid "file has no parent") (parent target)) as [up|e];
    cbn [fst snd]; [|done].
  rewrite ?run_bind_ok, ?run_host, ?run_fmap. cbn [set_fs pr_fs fst snd].
  destruct (run (create_dir_all up) fs1) as [[[]|e] fs2]; cbn [fst snd io_internal map_err]; [|done].
  rewrite ?run_bind_ok, ?run_host, ?run_fmap. cbn [set_fs pr_fs fst snd].
  destruct (run (open (write_options (wf_overwrite request)) target) fs2) as [[file|e] fs3];
    cbn [fst snd io_internal map_err]; [|done].
  rewrite ?run_bind_ok, ?run_host, ?run_fmap. cbn [set_fs pr_fs fst snd].
  destruct (run (write_all file (wf_data request)) fs3) as [[[]|e] fs4];
    cbn [fst snd io_internal map_err]; [|done].
  rewrite ?run_bind_ok, ?run_host, ?run_fmap. cbn [set_fs pr_fs fst snd].
  destruct (run flush fs4) as [[[]|e] fs5]; cbn [fst snd io_internal map_err]; done.
Qed.

(** No node of the tree is a device or a pipe. *)
Definition regular (m : gmap loc Node) : Prop := forall l n, m !! l = Some n -> n_kind n <> Special.

Lemma extends_regular m m' : extends m m' -> regular m -> regular m'.
Proof.
  intros [Hm Hnew] Hreg l n Hn. destruct (m !! l) as [a|] eqn:Ha.
  - pose proof (lookup_weaken m m' _ _ Ha Hm). simplify_eq. by eapply Hreg.
  - pose proof (Hnew _ _ Ha Hn) as Hd. unfold is_dir in Hd. by destruct (n_kind n).
Qed.

(** What opening an accepted target for writing does, without faults. *)
Lemma open_write fs workspace path dir k overwrite l fs' :
  resolve fs true workspace = Found dir k -> accepted (fs_nodes fs) dir path true ->
  is_dir_at (fs_nodes fs) dir = true -> regular (fs_nodes fs) -> fs_faults fs = [] ->
  run (open (write_options overwrite) (target_path workspace path)) fs = (Ok l, fs') ->
  l = dir ++ path_names path /\ path_names path <> [] /\ trail (relative_pieces path) = []
  /\ fs_faults fs' = [] /\ fs_cwd fs' = fs_cwd fs /\ fs_clock_ns fs' = fs_clock_ns fs
  /\ (match fs_nodes fs !! l with Some a => is_file a | None => true end) = true
  /\ exists mode t, fs_nodes fs' = <[l := MkNode (File []) mode t]> (fs_nodes fs).
Proof.
  intros Hr Hacc Hd Hreg Hf. unfold open, syscall. rewrite run_act, Hf.
  rewrite (target_path_eq _ _ _ _ _ Hacc). destruct Hacc as [_ Hdd Hne Hplain Hreach].
  rewrite !(resolve_push fs workspace _ dir k _ Hr) by done. fold (path_names path) in *.
  destruct (decide (path_names path = [])) as [Hnil|Hnn].
  { rewrite !walk_trivial by by apply real_names_nil.
    rewrite Hd, orb_true_r. destruct overwrite; cbn [write_options oo_create_new negb]; [|done].
    unfold is_dir_at in Hd. destruct (node_at (fs_nodes fs) dir) as [n|]; [|done].
    cbn [oo_write]. by destruct (n_kind n). }
  rewrite !(walk_reaches _ _ k dir _ true Hdd Hnn Hreach). fold (path_names path).
  destruct (fs_nodes fs !! (dir ++ path_names path)) as [n|] eqn:Hn.
  - destruct (bool_decide (trail (relative_pieces path) = []) || is_dir n) eqn:Hor;
      [|by destruct overwrite].
    destruct overwrite; cbn [write_options oo_create_new negb]; [|done].
    assert (node_at (fs_nodes fs) (dir ++ path_names path) = Some n) as ->.
    { unfold node_at. destruct (dir ++ path_names path) eqn:E; [|by rewrite <-E in *].
      by apply app_eq_nil in E as [_ ?]. }
    pose proof (Hreg _ _ Hn) as Hns. cbn [oo_write oo_truncate write_options].
    destruct (n_kind n) as [data| |t|] eqn:Hk; [|done| |done].
    + intros [= <- <-]. rewrite Hn. unfold is_file. rewrite Hk.
      apply orb_true_iff in Hor as [Hor|Hor]; [|unfold is_dir in Hor; by rewrite Hk in Hor].
      apply bool_decide_eq_true in Hor. repeat (split; [done|]). by eexists _, _.
    + exfalso. assert (reaches (fs_nodes fs) dir (path_names path) false = true) as He
        by (by eapply reaches_exact).
      pose proof (reaches_not_link _ _ _ _ Hnn He Hn) as Hl. unfold is_symlink in Hl.
      by rewrite Hk in Hl.
  - destruct (last (path_names path)) as [x|] eqn:Hl; [|by apply last_None in Hl].
    pose proof Hl as [front Hfr]%last_Some. destruct (forallb _ _) eqn:Hall; [|by destruct overwrite].
    assert ((dir ++ removelast (path_names path)) ++ [x] = dir ++ path_names path) as Heq.
    { by rewrite Hfr, removelast_snoc, <-app_assoc. }
    destruct (decide (trail (relative_pieces path) = [])) as [Ht|Ht].
    + rewrite (bool_decide_eq_true_2 _ Ht). cbn [negb]. rewrite Heq.
      destruct overwrite; cbn [write_options oo_create_new oo_create negb]; intros [= <- <-];
        rewrite Hn; repeat (split; [done|]); by eexists _, _.
    + rewrite (bool_decide_eq_false_2 _ Ht). cbn [negb]. by destruct overwrite.
Qed.

Lemma accepted_grows m m' dir path :
  grows m m' -> accepted m dir path true -> accepted m' dir path true.
Proof. intros Hg [? ? ? ? ?]. split; [done..|]. by eapply reaches_grows. Qed.

Lemma accepted_exact m dir path n :
  accepted m dir path true -> m !! (dir ++ path_names path) = Some n -> path_names path <> [] ->
  accepted m dir path false.
Proof. intros [? ? ? ? ?] Hn Hne. split; [done..|]. by eapply reaches_exact. Qed.

Lemma run_unfaulted {A} (f : Fs -> result A IoError * Fs) g fs :
  fs_faults fs = [] -> run (syscall f g) fs = f fs.
Proof. intros Hf. unfold syscall. by rewrite run_act, Hf. Qed.

(** A successful write: the target is now a file with exactly the given data,
    and everything else that existed is as it was. *)
Lemma write_host_ok fs workspace request dir k fs' :
  resolve fs true workspace = Found dir k -> is_dir_at (fs_nodes fs) dir = true ->
  regular (fs_nodes fs) -> fs_faults fs = [] ->
  run (write_host workspace request) fs = (Ok tt, fs') ->
  let l := dir ++ path_names (wf_path request) in
  grows (fs_nodes fs) (fs_nodes fs') /\ fs_faults fs' = [] /\ fs_cwd fs' = fs_cwd fs
  /\ path_names (wf_path request) <> [] /\ trail (relative_pieces (wf_path request)) = []
  /\ accepted (fs_nodes fs) dir (wf_path request) true
  /\ (exists n, fs_nodes fs' !! l = Some n /\ n_kind n = File (wf_data request))
  /\ (wf_overwrite request = false -> fs_nodes fs !! l = None)
  /\ (forall l' a, l' <> l -> fs_nodes fs !! l' = Some a -> fs_nodes fs' !! l' = Some a).
Proof.
  intros Hr Hd Hreg Hf. unfold write_host. rewrite run_bind_ok.
  destruct (run (safe_path workspace (wf_path request) true) fs) as [[target|e] fs1] eqn:Hsp;
    cbn [fst snd]; [|done].
  destruct (safe_path_accepts _ _ _ _ _ _ _ _ Hr Hd Hsp) as (->&Hsame&Hacc).
  rewrite (safe_path_complete _ _ _ _ _ _ Hr Hd Hf Hacc) in Hsp. injection Hsp as <-. clear Hsame.
  rewrite run_bind_ok. cbn [of_result run fst snd].
  destruct (parent (target_path workspace (wf_path request))) as [up|]; cbn [ok_or]; [|done].
  rewrite run_bind_ok, run_fmap. pose proof (create_dir_all_extends up fs) as (Hext&Hcwd&Hfa).
  destruct (run (create_dir_all up) fs) as [[[]|e] fs2]; cbn [fst snd io_internal map_err] in *; [|done].
  specialize (Hfa Hf). rewrite run_bind_ok, run_fmap.
  destruct (run (open (write_options (wf_overwrite request)) (target_path workspace (wf_path request))) fs2)
    as [[l|e] fs3] eqn:Hopen; cbn [fst snd map_err]; [|done].
  assert (resolve fs2 true workspace = Found dir k) as Hr2.
  { eapply resolve_refines; [by apply extends_grows|done|exact Hr]. }
  destruct (open_write fs2 workspace (wf_path request) dir k (wf_overwrite request) l fs3) as
    (Hl&Hne&Htr&Hf3&Hc3&_&Hwas&mode&t&Hn3);
    [done|by eapply accepted_grows; [apply extends_grows|]| | |done|done|].
  { eapply refines_dir; [by apply extends_grows|done]. }
  { by eapply extends_regular. }
  rewrite run_bind_ok, run_fmap. unfold write_all. rewrite run_unfaulted by done.
  cbn [fst snd io_internal map_err]. rewrite run_bind_ok, run_fmap. unfold flush.
  assert (fs_nodes (write_at l (wf_data request) fs3)
    = <[l := MkNode (File (wf_data request)) mode (fs_clock_ns fs3)]> (fs_nodes fs3)
    /\ fs_faults (write_at l (wf_data request) fs3) = []
    /\ fs_cwd (write_at l (wf_data request) fs3) = fs_cwd fs3) as (Hn4&Hf4&Hc4).
  { unfold write_at. rewrite Hn3, lookup_insert_eq. cbn [n_kind n_mode set_nodes fs_nodes fs_faults fs_cwd].
    unfold overlay. by rewrite drop_nil, app_nil_r. }
  rewrite run_query by done. cbn [fst snd map_err io_internal ok run]. intros [= <-].
  rewrite Hn4, Hc4, Hf4, Hn3, insert_insert_eq. rewrite <-Hl.
  assert (grows (fs_nodes fs2) (<[l := MkNode (File (wf_data request)) mode (fs_clock_ns fs3)]> (fs_nodes fs2)))
    as Hg by (by apply insert_file_grows).
  split; [by etrans; [apply extends_grows|]|]. split; [done|]. split; [congruence|].
  split; [done|]. split; [done|]. split; [done|]. split; [eexists; by rewrite lookup_insert_eq|].
  destruct Hext as [Hsub Hnew]. split.
  - intros Hov. rewrite Hov in Hopen.
    destruct (fs_nodes fs !! l) as [a|] eqn:Ha; [|done]. exfalso.
    pose proof (lookup_weaken _ _ _ _ Ha Hsub) as Ha2.
    unfold open in Hopen. rewrite run_unfaulted in Hopen by done. cbn [write_options oo_create_new negb] in Hopen.
    destruct (resolve fs2 false (target_path workspace (wf_path request))) as [?|d x []|?] eqn:Hres; try done.
    injection Hopen as Hloc _. apply resolve_missing in Hres. rewrite Hloc in Hres. congruence.
  - intros l' a Hne' Ha. rewrite lookup_insert_ne by done. by eapply lookup_weaken.
Qed.

Lemma node_at_names m dir names n :
  names <> [] -> m !! (dir ++ names) = Some n -> node_at m (dir ++ names) = Some n.
Proof.
  intros Hne Hn. unfold node_at. destruct (dir ++ names) eqn:E; [|done].
  by apply app_eq_nil in E as [_ ?].
Qed.

(** Reading a file, without faults. *)
Lemma run_read s id sb request dir k n data :
  pr_sandboxes s !! id = Some sb -> resolve (pr_fs s) true (ps_workspace sb) = Found dir k ->
  is_dir_at (fs_nodes (pr_fs s)) dir = true -> fs_faults (pr_fs s) = [] ->
  accepted (fs_nodes (pr_fs s)) dir (rf_path request) false ->
  path_names (rf_path request) <> [] -> trail (relative_pieces (rf_path request)) = [] ->
  fs_nodes (pr_fs s) !! (dir ++ path_names (rf_path request)) = Some n -> n_kind n = File data ->
  (rf_offset request < 2 ^ 63)%Z ->
  let chunk := slice (rf_offset request) (Z.min (rf_max_bytes request) MAX_FILE_BYTES) data in
  (run (read id request) s).1 = Ok (MkReadFileResult chunk
    (Z.of_nat (length data) <=?
       saturating_add u64_max (rf_offset request) (Z.of_nat (length chunk)))%Z).
Proof.
  intros Hid Hr Hd Hf Hacc Hne Htr Hn Hk Hoff. cbv zeta.
  assert (forall follow, resolve (pr_fs s) follow (target_path (ps_workspace sb) (rf_path request))
    = Found (dir ++ path_names (rf_path request)) k) as Hres.
  { intros follow. rewrite (target_path_eq _ _ _ _ _ Hacc). destruct Hacc as [_ Hdd Hnp _ Hreach].
    rewrite (resolve_push _ _ _ dir k follow Hr) by done.
    rewrite (walk_reaches _ follow k dir _ false Hdd Hne Hreach).
    fold (path_names (rf_path request)). rewrite Hn, Htr. done. }
  pose proof (node_at_names _ _ _ _ Hne Hn) as Hnode.
  unfold read. rewrite run_bind_ok, run_sandbox, Hid. cbn [ok_or fst snd].
  rewrite run_bind_ok, run_lift_fs, (safe_path_complete _ _ _ _ _ _ Hr Hd Hf Hacc). cbn [fst snd].
  rewrite run_bind_ok, run_host. cbn [set_fs pr_fs fst snd]. unfold metadata.
  rewrite run_query by done. unfold lookup_path. rewrite Hres, Hnode.
  cbn [fst snd result_map io_not_found map_err]. unfold is_file at 1. rewrite Hk. cbn [negb].
  rewrite run_bind_ok, run_host. cbn [set_fs pr_fs fst snd]. unfold open.
  rewrite run_unfaulted by done. cbn [read_options oo_create_new oo_write oo_truncate].
  rewrite Hres, Hnode, Hk. cbn [fst snd io_not_found map_err].
  rewrite run_bind_ok, run_host. cbn [set_fs pr_fs fst snd]. unfold seek.
  rewrite run_query by done. destruct (Z.ltb_spec (rf_offset request) (2 ^ 63)); [|lia].
  cbn [fst snd io_internal map_err].
  rewrite run_bind_ok, run_host. cbn [set_fs pr_fs fst snd]. unfold read_from.
  rewrite run_query by done. rewrite Hnode, Hk. cbn [fst snd io_internal map_err].
  rewrite run_bind. unfold record. rewrite run_modify. cbn [fst snd ok run].
  unfold metadata_len. by rewrite Hk.
Qed.

(** A successful write, and what reads see after it. *)
Lemma write_then_read s id sb dir k wreq r :
  pr_sandboxes s !! id = Some sb -> resolve (pr_fs s) true (ps_workspace sb) = Found dir k ->
  is_dir_at (fs_nodes (pr_fs s)) dir = true -> regular (fs_nodes (pr_fs s)) ->
  fs_faults (pr_fs s) = [] ->
  (run (write id wreq) s).1 = Ok r ->
  let s' := (run (write id wreq) s).2 in
  bytes_written r = Z.of_nat (length (wf_data wreq))
  /\ (forall offset max, (0 <= offset < 2 ^ 63)%Z ->
        let chunk := slice offset (Z.min max MAX_FILE_BYTES) (wf_data wreq) in
        (run (read id (MkReadFileRequest (wf_path wreq) offset max)) s').1 =
        Ok (MkReadFileResult chunk
              (Z.of_nat (length (wf_data wreq)) <=? offset + Z.of_nat (length chunk))%Z))
  /\ (forall l a, l <> dir ++ path_names (wf_path wreq) ->
        fs_nodes (pr_fs s) !! l = Some a -> fs_nodes (pr_fs s') !! l = Some a)
  /\ (wf_overwrite wreq = false -> fs_nodes (pr_fs s) !! (dir ++ path_names (wf_path wreq)) = None).
Proof.
  intros Hid Hr Hd Hreg Hf Hw. cbv zeta.
  destruct (Z.leb_spec (Z.of_nat (length (wf_data wreq))) MAX_FILE_BYTES) as [Hlen|Hlen].
  2: { unfold write in Hw. destruct (Z.ltb_spec MAX_FILE_BYTES (Z.of_nat (length (wf_data wreq)))); [done|lia]. }
  destruct (run_write_host s id sb wreq Hid Hlen) as (Hres&Hfs&Hsb). rewrite Hres in Hw.
  destruct (run (write_host (ps_workspace sb) wreq) (pr_fs s)) as [[[]|e] fs'] eqn:Hrun;
    cbn [fst snd result_map] in *; [|done]. injection Hw as <-.
  destruct (write_host_ok _ _ _ _ _ _ Hr Hd Hreg Hf Hrun)
    as (Hg&Hf'&Hc&Hne&Htr&Hacc&(n&Hn&Hk)&Hnew&Hother).
  revert Hfs Hsb. generalize (run (write id wreq) s).2. intros s' Hfs Hsb.
  split; [done|]. rewrite Hfs.
  split; [|by split].
  intros offset max Hoff. cbv zeta.
  rewrite <-Hsb in Hid. rewrite <-Hfs in Hg, Hf', Hc, Hn.
  pose proof (run_read s' id sb (MkReadFileRequest (wf_path wreq) offset max) dir k n (wf_data wreq)
    Hid) as Hread. cbn [rf_path rf_offset rf_max_bytes] in Hread. cbv zeta in Hread.
  rewrite Hread; clear Hread; [|..].
  - f_equal. f_equal. unfold saturating_add. rewrite Z.min_r; [done|].
    assert (Z.of_nat (length (slice offset (Z.min max MAX_FILE_BYTES) (wf_data wreq))) <= MAX_FILE_BYTES)%Z.
    { unfold slice. destruct (_ <=? offset)%Z; [done|]. rewrite length_take, length_drop. lia. }
    unfold u64_max, MAX_FILE_BYTES in *. lia.
  - eapply resolve_refines; [apply Hg|exact Hc|exact Hr].
  - eapply refines_dir; [apply Hg|exact Hd].
  - exact Hf'.
  - eapply accepted_exact; [eapply accepted_grows; [exact Hg|exact Hacc]|exact Hn|exact Hne].
  - exact Hne.
  - exact Htr.
  - exact Hn.
  - exact Hk.
  - apply Hoff.
Qed.

(** C5. What is written is what is read: on a tree without devices and without
    I/O faults, after a successful [write], a [read] of the same path at any
    offset returns exactly the bytes of the written data from that offset, as
    many as requested (at most 64 MiB), and reports the end of the file exactly
    when they reach it. Every other existing file is unchanged, and without
    [overwrite] the path did not exist before. *)
Theorem write_read_roundtrip s id sb dir k wreq r :
  pr_sandboxes s !! id = Some sb -> resolve (pr_fs s) true (ps_workspace sb) = Found dir k ->
  is_dir_at (fs_nodes (pr_fs s)) dir = true -> regular (fs_nodes (pr_fs s)) ->
  fs_faults (pr_fs s) = [] ->
  (run (write id wreq) s).1 = Ok r ->
  let s' := (run (write id wreq) s).2 in
  bytes_written r = Z.of_nat (length (wf_data wreq))
  /\ (forall offset max, (0 <= offset < 2 ^ 63)%Z ->
        let chunk := slice offset (Z.min max MAX_FILE_BYTES) (wf_data wreq) in
        (run (read id (MkReadFileRequest (wf_path wreq) offset max)) s').1 =
        Ok (MkReadFileResult chunk
              (Z.of_nat (length (wf_data wreq)) <=? offset + Z.of_nat (length chunk))%Z))
  /\ (forall l a, l <> dir ++ path_names (wf_path wreq) ->
        fs_nodes (pr_fs s) !! l = Some a -> fs_nodes (pr_fs s') !! l = Some a)
  /\ (wf_overwrite wreq = false -> fs_nodes (pr_fs s) !! (dir ++ path_names (wf_path wreq)) = None).
Proof. apply write_then_read. Qed.
End Files.

(** ** Output limit *)

(** Collected output respects the limit and says so truthfully: the two
    streams together never exceed it, each is a prefix of what the command
    wrote, stdout takes precedence, the truncation flags tell exactly which
    stream lost bytes, and the termination is OutputLimitExceeded exactly when
    the command wrote more than the limit in total; otherwise it is the
    command's own exit code or signal and nothing is lost. *)
Theorem limit_output_bounds pid limit out err status :
  (0 <= limit)%Z ->
  let r := limit_output pid limit out err status in
  let total := Z.of_nat (length out + length err) in
  (Z.of_nat (length (er_stdout r) + length (er_stderr r)) = Z.min limit total)%Z
  /\ er_stdout r `prefix_of` out /\ er_stderr r `prefix_of` err
  /\ (trunc_stdout (er_truncation r) = true <-> er_stdout r <> out)
  /\ (trunc_stderr (er_truncation r) = true <-> er_stderr r <> err)
  /\ (er_stdout r <> out -> er_stderr r = [])
  /\ (er_termination r = OutputLimitExceeded <-> (limit < total)%Z).
Proof.
  intros Hl. unfold limit_output. cbv zeta. cbn [er_stdout er_stderr er_truncation er_termination
    trunc_stdout trunc_stderr].
  assert (forall (n : nat) (l : list Byte.byte), n < length l -> take n l <> l) as Htake.
  { intros n l Hn Heq. apply (f_equal length) in Heq. rewrite length_take in Heq. lia. }
  assert (forall (n : nat) (l : list Byte.byte), take n l `prefix_of` l) as Hpre
    by (intros; apply prefix_take).
  destruct (Z.ltb_spec limit (Z.of_nat (length out))) as [Ho|Ho].
  - rewrite length_take. unfold saturating_sub.
    replace (Z.max 0 (limit - Z.of_nat (Z.to_nat limit `min` length out))) with 0%Z by lia.
    destruct (Z.ltb_spec 0 (Z.of_nat (length err))) as [He|He].
    + cbn [orb]. rewrite length_take. split; [lia|]. split; [done|]. split; [apply prefix_nil|].
      split; [split; [intros _; apply Htake; lia|done]|].
      split; [split; [intros _; apply Htake; lia|done]|]. split; [done|]. split; [lia|done].
    + cbn [orb]. destruct err as [|b err]; [|simpl in He; lia]. split; [simpl; lia|].
      split; [done|]. split; [apply prefix_nil|].
      split; [split; [intros _; apply Htake; lia|done]|]. split; [done|]. split; [done|]. split; [simpl; lia|done].
  - unfold saturating_sub. rewrite Z.max_r by lia.
    destruct (Z.ltb_spec (limit - Z.of_nat (length out)) (Z.of_nat (length err))) as [He|He]; cbn [orb].
    + rewrite length_take. split; [lia|]. split; [done|]. split; [done|]. split; [done|].
      split; [split; [intros _; apply Htake; lia|done]|]. split; [done|]. split; [lia|done].
    + split; [lia|]. split; [done|]. split; [done|]. split; [done|]. split; [done|].
      split; [done|]. split; [|lia]. by destruct (status_code status).
Qed.

Lemma limit_output_bounds_witness :
  let r := limit_output (MkProcessId "p") 3 [Byte.x61; Byte.x62] [Byte.x63; Byte.x64]
             (MkExitStatus (Some 0%Z) None) in
  Z.of_nat (length (er_stdout r) + length (er_stderr r)) = 3%Z.
Proof.
  exact (proj1 (limit_output_bounds (MkProcessId "p") 3 [Byte.x61; Byte.x62] [Byte.x63; Byte.x64]
    (MkExitStatus (Some 0%Z) None) ltac:(lia))).
Defined.

(** ** Deletion *)

Lemma trim_pieces_real l n : trivial_piece n = false -> trim_pieces (l ++ [n]) = l ++ [n].
Proof.
  intros Hn. unfold trim_pieces. rewrite rev_app_distr. simpl. rewrite Hn. simpl.
  by rewrite rev_involutive.
Qed.

Lemma push_real p m : plain_name m ->
  exists front, push p (MkPath false [m]) = MkPath (p_root p) (front ++ [m]).
Proof.
  intros _. unfold push; cbn [p_root p_pieces].
  destruct (last (p_pieces p)) as [[|a x]|]; by eexists.
Qed.

Lemma parent_push p m n : plain_name m -> plain_name n ->
  parent (push (push p (MkPath false [m])) (MkPath false [n])) = Some (push p (MkPath false [m])).
Proof.
  intros Hm (Hn&_). destruct (push_real p m Hm) as [front ->]. destruct Hm as (Hm&_).
  unfold push; cbn [p_root p_pieces]. rewrite last_snoc.
  assert (match m with "" => removelast (front ++ [m]) ++ [n] | _ => (front ++ [m]) ++ [n] end
    = (front ++ [m]) ++ [n]) as -> by by destruct m.
  unfold parent; cbn [p_root p_pieces]. rewrite trim_pieces_real by done.
  rewrite rev_app_distr. cbn [rev app]. rewrite rev_involutive, trim_pieces_real by done.
  by destruct (front ++ [m]) eqn:E; [destruct front|].
Qed.

Section Deletion.
Context `{U : UuidLib} `{HC : HostCommands}.

Definition sandbox_dir (root : Path) (id : SandboxId) : Path :=
  push root (MkPath false [SandboxId_to_string id]).

Lemma workspace_path_eq root id : plain_name (SandboxId_to_string id) ->
  workspace_path root id =
  push (push (sandbox_dir root id) (MkPath false ["home"])) (MkPath false ["sandbox"]).
Proof. intros Hid. unfold workspace_path, join, sandbox_dir. by rewrite (plain_name_path _ Hid). Qed.

Lemma workspace_parents root id : plain_name (SandboxId_to_string id) ->
  parent (workspace_path root id) ≫= parent = Some (sandbox_dir root id).
Proof.
  intros Hid. rewrite workspace_path_eq by done.
  rewrite (parent_push _ "home" "sandbox") by done. simpl. unfold sandbox_dir.
  by rewrite (parent_push root _ "home").
Qed.

Lemma sandbox_dir_components root id : plain_name (SandboxId_to_string id) -> p_pieces root <> [] ->
  components (sandbox_dir root id) = components root ++ [Normal (SandboxId_to_string id)].
Proof. intros (Ht&Hdd&_) Hne. by apply components_push_name. Qed.

(** The guard of [delete] accepts a sandbox's own directory. *)
Lemma delete_guard root id : plain_name (SandboxId_to_string id) -> p_pieces root <> [] ->
  negb (path_starts_with (sandbox_dir root id) root) || path_eq (sandbox_dir root id) root = false.
Proof.
  intros Hid Hne. pose proof (child_guard root _ Hid Hne) as Hg. unfold join in Hg.
  by rewrite (plain_name_path _ Hid) in Hg.
Qed.

(** The location that deletion removes. *)
Lemma remove_dir_all_below fs root id dir k :
  resolve fs true root = Found dir k -> plain_name (SandboxId_to_string id) ->
  let out := run (remove_dir_all (sandbox_dir root id)) fs in
  let l := dir ++ [SandboxId_to_string id] in
  (forall l', under l l' = false -> fs_nodes out.2 !! l' = fs_nodes fs !! l')
  /\ (out.1 = Ok tt -> fs_nodes out.2 !! l = None
       /\ (forall n, fs_nodes fs !! l = Some n -> is_dir n = true ->
             forall l', under l l' = true -> fs_nodes out.2 !! l' = None)).
Proof.
  intros Hr Hid. cbv zeta. set (l := dir ++ [SandboxId_to_string id]).
  assert (under l l = true) as Hself.
  { unfold under. by rewrite bool_decide_eq_true_2 by by rewrite firstn_all. }
  assert (forall fs1, fs_nodes fs1 = fs_nodes fs -> fs_cwd fs1 = fs_cwd fs ->
    lookup_path fs1 false (sandbox_dir root id) = Err ENOTDIR
    \/ lookup_path fs1 false (sandbox_dir root id) = Err ENOENT
    \/ exists n, fs_nodes fs !! l = Some n /\ lookup_path fs1 false (sandbox_dir root id) = Ok (l, n))
    as Hlook.
  { intros fs1 Hn1 Hc1. unfold sandbox_dir. rewrite <-(plain_name_path _ Hid).
    rewrite (lookup_push_name fs1 root dir k); [|by unfold resolve; rewrite Hn1, Hc1|done].
    rewrite Hn1. destruct (is_dir_at (fs_nodes fs) dir); [|by left]. fold l.
    destruct (fs_nodes fs !! l) as [n|]; [|by right; left]. right; right. by exists n. }
  unfold remove_dir_all, syscall. rewrite run_act.
  assert (forall fs1, fs_nodes fs1 = fs_nodes fs -> fs_cwd fs1 = fs_cwd fs ->
    let out := match lookup_path fs1 false (sandbox_dir root id) with
      | Ok (l, n) => match n_kind n with
          | Dir => (Ok tt, set_nodes (filter (fun kv => under l kv.1 = false) (fs_nodes fs1)) fs1)
          | Symlink _ => (Ok tt, set_nodes (delete l (fs_nodes fs1)) fs1)
          | _ => (Err ENOTDIR, fs1) end
      | Err e => (Err e, fs1) end in
    (forall l', under l l' = false -> fs_nodes out.2 !! l' = fs_nodes fs !! l')
    /\ (out.1 = Ok tt -> fs_nodes out.2 !! l = None
       /\ (forall n, fs_nodes fs !! l = Some n -> is_dir n = true ->
             forall l', under l l' = true -> fs_nodes out.2 !! l' = None))) as Hcase.
  { intros fs1 Hn1 Hc1. cbv zeta.
    destruct (Hlook fs1 Hn1 Hc1) as [->|[->|(n&Hn&->)]];
      [by split; [intros; cbn; by rewrite Hn1|]|by split; [intros; cbn; by rewrite Hn1|]|].
    destruct (n_kind n) as [d| |t|] eqn:Hk; cbn [fst snd set_nodes fs_nodes].
    - by split; [intros; by rewrite Hn1|].
    - split.
      + intros l' Hl'. rewrite Hn1. destruct (fs_nodes fs !! l') as [a|] eqn:Ha.
        * by apply map_lookup_filter_Some.
        * apply map_lookup_filter_None. by left.
      + intros _. assert (forall l', under l l' = true ->
          filter (fun kv : loc * Node => under l kv.1 = false) (fs_nodes fs1) !! l' = None) as Hgone.
        { intros l' Hl'. apply map_lookup_filter_None. right. intros a _ Hf. simpl in Hf. congruence. }
        split; [by apply Hgone|]. intros n' _ _. apply Hgone.
    - split.
      + intros l' Hl'. rewrite Hn1, lookup_delete_ne; [done|]. intros <-. congruence.
      + intros _. split; [apply lookup_delete_eq|]. intros n' Hn' Hd. simplify_eq.
        unfold is_dir in Hd. by rewrite Hk in Hd.
    - by split; [intros; by rewrite Hn1|]. }
  destruct (fs_faults fs) as [|[f|] rest] eqn:Hf; [by apply Hcase| |].
  - cbn [fst snd]. split; [done|]. done.
  - by apply (Hcase (set_faults rest fs)).
Qed.

(** C32. Deleting a sandbox deletes nothing else: for a sandbox created by this
    runtime, whatever happened to its directory since (a command may even have
    replaced it by a symbolic link), [delete] leaves every node outside of
    [root/id] alone; when it succeeds, nothing is left at [root/id], nor below
    it when it was a directory; and in every case the runtime forgets the
    sandbox and only it. *)
Theorem delete_confined s id sb dir k :
  pr_sandboxes s !! id = Some sb -> ps_workspace sb = workspace_path (pr_root s) id ->
  plain_name (SandboxId_to_string id) -> p_pieces (pr_root s) <> [] ->
  resolve (pr_fs s) true (pr_root s) = Found dir k ->
  let out := run (delete_ id) s in
  let l := dir ++ [SandboxId_to_string id] in
  pr_sandboxes out.2 = delete id (pr_sandboxes s)
  /\ (forall l', under l l' = false -> fs_nodes (pr_fs out.2) !! l' = fs_nodes (pr_fs s) !! l')
  /\ (out.1 = Ok tt -> fs_nodes (pr_fs out.2) !! l = None
       /\ (forall n, fs_nodes (pr_fs s) !! l = Some n -> is_dir n = true ->
             forall l', under l l' = true -> fs_nodes (pr_fs out.2) !! l' = None)).
Proof.
  intros Hid Hws Hplain Hne Hr. cbv zeta. unfold delete_.
  rewrite run_bind_ok, run_act, Hid. cbn [ok_or fst snd].
  rewrite run_bind, run_gets. cbn [fst snd set_sandboxes pr_root].
  rewrite run_bind_ok, Hws, workspace_parents by done. cbn [ok_or of_result run fst snd].
  rewrite delete_guard by done. rewrite run_bind_ok, run_host. cbn [fst snd pr_fs set_sandboxes].
  pose proof (remove_dir_all_below (pr_fs s) (pr_root s) id dir k Hr Hplain) as Hrm. cbv zeta in Hrm.
  destruct (run (remove_dir_all (sandbox_dir (pr_root s) id)) (pr_fs s)) as [[[]|e] fs'];
    cbn [fst snd io_internal map_err] in *.
  - rewrite run_bind. unfold record. rewrite run_modify. cbn. destruct Hrm as [H1 H2].
    split; [done|]. split; [exact H1|]. intros _. by apply H2.
  - split; [done|]. cbn. by destruct Hrm.
Qed.
End Deletion.

(** ** Directory listings *)

Section Listing.
Context `{U : UuidLib} `{HC : HostCommands}.

Lemma list_entries_ok base dir names acc s r s' :
  run (list_entries base dir names acc) s = (Ok r, s') ->
  exists new, r = acc ++ new
    /\ Forall (fun e => exists name n, name ∈ names /\ directory_entry base name n = Ok (Some e)) new.
Proof.
  revert acc s r s'. induction names as [|name names IH]; intros acc s r s'; cbn [list_entries];
    rewrite run_bind_ok, run_host;
    destruct (run next_entry (pr_fs s)) as [[[]|e] fs1]; cbn [fst snd io_internal map_err]; try done.
  - intros [= <- _]. exists []. by rewrite app_nil_r.
  - destruct (LIST_LIMIT <=? length acc); [done|]. rewrite run_bind_ok, run_host. cbn [fst snd].
    destruct (run (entry_metadata dir name) _) as [[n|e] fs2]; cbn [fst snd io_internal map_err]; [|done].
    rewrite run_bind_ok. cbn [of_result run fst snd].
    destruct (directory_entry base name n) as [entry|e] eqn:He; [|done].
    intros (new&->&Hall)%IH.
    assert (Forall (fun e => exists name' n, name' ∈ name :: names
      /\ directory_entry base name' n = Ok (Some e)) new) as Hall'.
    { eapply Forall_impl; [exact Hall|]. intros x (name'&n'&Hin&Hx). exists name', n'. set_solver. }
    destruct entry as [x|].
    + exists (x :: new). split; [by rewrite <-app_assoc|]. constructor; [|done].
      exists name, n. set_solver.
    + by exists new.
Qed.

#[local] Instance entry_le_total : Total entry_le.
Proof. intros a b. unfold entry_le, String.leb. rewrite String.compare_antisym.
  destruct (String.compare (de_name b) (de_name a)); simpl; auto. Qed.

(** A listing is sorted and every entry is usable: the entries come in
    byte order of their names, and each one's path is exactly what
    [SandboxPath::new] makes of the requested path, a separator and the name,
    so that it can be passed back to [read], [write] and [list]; its kind is
    File or Directory according to the node it describes. *)
Theorem listing_usable s id request r :
  (run (list_ id request) s).1 = Ok r ->
  Sorted entry_le (entries r)
  /\ Forall (fun e => SandboxPath_new (child_path (path_str (ld_path request)) (de_name e)) = Ok (de_path e)
       /\ exists n, de_size_bytes e = metadata_len n
            /\ match de_kind e with FK_File => is_file n | FK_Directory => is_dir n end = true)
     (entries r).
Proof.
  unfold list_. rewrite run_bind_ok, run_sandbox.
  destruct (pr_sandboxes s !! id) as [sb|]; cbn [ok_or fst snd]; [|done].
  rewrite run_bind_ok, run_lift_fs.
  destruct (run (safe_path _ _ _) _) as [[target|e] fs1]; cbn [fst snd]; [|done].
  rewrite run_bind_ok, run_host.
  destruct (run (read_dir target) _) as [[[dir names]|e] fs2]; cbn [fst snd io_not_found map_err]; [|done].
  rewrite run_bind_ok. destruct (run (list_entries _ _ _ _) _) as [[l|e] s'] eqn:Hl; cbn [fst snd]; [|done].
  intros [= <-]. apply list_entries_ok in Hl as (new&->&Hall). cbn [entries app].
  split; [apply Sorted_merge_sort; apply _|]. rewrite merge_sort_Permutation.
  eapply Forall_impl; [exact Hall|]. intros e (name&n&_&He). unfold directory_entry in He.
  destruct (is_file n) eqn:Hf; [|destruct (is_dir n) eqn:Hd; [|done]];
    (destruct (SandboxPath_new _) as [p|] eqn:Hp; [|done]); injection He as <-; cbn; eauto.
Qed.

(** Which entries can be reported: for a valid requested path and a file or
    directory whose (lossily decoded) name is a proper entry name, the entry is
    reported exactly when the requested path is not empty. The empty path is a
    valid [SandboxPath] for the workspace itself, but listing it fails with an
    internal error as soon as the workspace has an entry. *)
Theorem entry_reported_iff base name n :
  let shown := from_utf8_lossy (String.list_byte_of_string name) in
  SandboxPath_new (path_str base) = Ok base -> entry_name shown -> is_file n || is_dir n = true ->
  is_ok (directory_entry base name n) = negb (is_empty (path_str base))
  /\ (path_str base = "" -> exists m, directory_entry base name n = Err (RuntimeError_internal m)).
Proof.
  cbv zeta. intros Hb Hname Hkind. pose proof (child_path_spec base _ Hb Hname) as Hc.
  unfold directory_entry. destruct (is_file n); [|destruct (is_dir n); [|done]];
    (destruct (SandboxPath_new (child_path (path_str base) _)) as [p|e]; cbn [map_err result_bind is_ok] in *;
      (split; [done|]); intros Hnil; rewrite Hnil in Hc; [done|by eexists]).
Qed.
End Listing.

(** ** The theorems at concrete inputs

    A host with the directory [/srv] and commands that print nothing, the
    runtime rooted there, and its first sandbox. *)
#[export] Instance silent_host : HostCommands := {|
  host_command _ _ _ _ fs := ((CommandOutput [] [] (MkExitStatus (Some 0%Z) None), 0%Z), fs);
|}.

Definition example_fs : Fs := MkFs {[ ["srv"] := MkNode Dir 16877 0 ]} [] 0 [].
Definition example_process : @ProcessRuntime string_uuid :=
  match ProcessRuntime_new "/srv" example_fs 0 with
  | Ok s => (run (create scripted_spec) s).2
  | Err _ => MkProcessRuntime (Path_of_string "") "" ∅ [] example_fs 0 0 0
  end.
Definition example_sandbox : SandboxId := SandboxId_new 0.
Definition example_workspace : Path := workspace_path (Path_of_string "/srv") example_sandbox.
Definition example_dir : list string := ["srv"; "0"; "home"; "sandbox"].
Definition example_file : SandboxPath := MkSandboxPath "/home/sandbox/notes".

Lemma example_process_sandbox :
  pr_sandboxes example_process !! example_sandbox = Some (MkProcessSandbox example_workspace Running).
Proof. by vm_compute. Qed.

Lemma example_regular : regular (fs_nodes (pr_fs example_process)).
Proof.
  assert (Forall (fun kv => n_kind kv.2 <> Special) (map_to_list (fs_nodes (pr_fs example_process))))
    as Hall by (vm_compute; repeat constructor; discriminate).
  intros l n Hn%elem_of_map_to_list. rewrite Forall_forall in Hall. by apply (Hall (l, n)).
Qed.

Lemma safe_path_confined_witness :
  run (safe_path example_workspace example_file true) (pr_fs example_process)
    = (Ok (target_path example_workspace example_file), pr_fs example_process)
  /\ exists names, reaches (fs_nodes (pr_fs example_process)) example_dir names true = true.
Proof.
  assert (run (safe_path example_workspace example_file true) (pr_fs example_process)
    = (Ok (target_path example_workspace example_file), pr_fs example_process)) as Hrun by by vm_compute.
  split; [exact Hrun|].
  destruct (safe_path_confined (pr_fs example_process) example_workspace example_file true example_dir 40
    (target_path example_workspace example_file) (pr_fs example_process)
    ltac:(by vm_compute) ltac:(by vm_compute) Hrun) as (_&names&_&H&_).
  by exists names.
Defined.

Definition example_write : WriteFileRequest :=
  MkWriteFileRequest example_file [Byte.x68; Byte.x69] false None.

Lemma write_read_roundtrip_witness :
  (run (write example_sandbox example_write) example_process).1 = Ok (MkWriteFileResult 2)
  /\ (run (read example_sandbox (MkReadFileRequest example_file 1 10))
       (run (write example_sandbox example_write) example_process).2).1
     = Ok (MkReadFileResult [Byte.x69] true).
Proof.
  assert ((run (write example_sandbox example_write) example_process).1 = Ok (MkWriteFileResult 2))
    as Hw by by vm_compute.
  split; [exact Hw|].
  destruct (write_read_roundtrip example_process example_sandbox
    (MkProcessSandbox example_workspace Running) example_dir 40 example_write (MkWriteFileResult 2)
    example_process_sandbox ltac:(by vm_compute) ltac:(by vm_compute) example_regular
    ltac:(by vm_compute) Hw) as (_&Hread&_).
  exact (Hread 1%Z 10%Z ltac:(lia)).
Defined.

Lemma delete_confined_witness :
  (run (delete_ example_sandbox) example_process).1 = Ok tt
  /\ fs_nodes (pr_fs (run (delete_ example_sandbox) example_process).2) !! ["srv"; "0"] = None
  /\ fs_nodes (pr_fs (run (delete_ example_sandbox) example_process).2) !! ["srv"]
     = fs_nodes (pr_fs example_process) !! ["srv"].
Proof.
  destruct (delete_confined example_process example_sandbox (MkProcessSandbox example_workspace Running)
    ["srv"] 40 example_process_sandbox ltac:(by vm_compute) ltac:(by repeat split) ltac:(by vm_compute)
    ltac:(by vm_compute)) as (_&Hother&Hgone).
  assert ((run (delete_ example_sandbox) example_process).1 = Ok tt) as Hok by by vm_compute.
  split; [exact Hok|]. split; [exact (proj1 (Hgone Hok))|]. exact (Hother ["srv"] eq_refl).
Defined.

Definition example_listing : result ListDirectoryResult RuntimeError :=
  (run (list_ example_sandbox (MkListDirectoryRequest SandboxPath_workspace))
    (run (write example_sandbox example_write) example_process).2).1.

Lemma listing_usable_witness :
  result_map (fun r => map de_name (entries r)) example_listing = Ok ["notes"]
  /\ exists r, example_listing = Ok r /\ Sorted entry_le (entries r).
Proof.
  split; [by vm_compute|].
  assert (exists r, example_listing = Ok r) as [r Hr].
  { assert (is_ok example_listing = true) as Hok by by vm_compute.
    destruct example_listing as [r|e]; [by exists r|done]. }
  exists r. split; [exact Hr|].
  exact (proj1 (listing_usable (run (write example_sandbox example_write) example_process).2
    example_sandbox (MkListDirectoryRequest SandboxPath_workspace) r Hr)).
Defined.

Lemma entry_reported_iff_witness :
  is_ok (directory_entry (MkSandboxPath "") "notes" (MkNode (File []) 33188 0)) = false.
Proof.
  apply (entry_reported_iff (MkSandboxPath "") "notes" (MkNode (File []) 33188 0)); by vm_compute.
Defined.
