(* ===== verification/ProcessApi.v ===== *)
(** * The control plane over the development runtime

    The handlers of [Api] run over the runtime of [ProcessRuntime]. The table
    of the control plane and the table of the runtime describe the same
    sandboxes: the file proves which agreement every request keeps, and what a
    failed deletion leaves behind. *)
From S2P Require Import Prelude Conc Core Utf8 Api Instances ApiSafety ApiProps.
From S2P Require Import Fs Commands ProcessRuntime ProcessProps.

Section Agreement.
Context `{U : UuidLib} `{C : CryptoLib} `{HC : HostCommands}.

Abbreviation World := (@World U ProcessRuntime).

(** ** Agreement of the two tables

    A record in a state that promises something about the runtime (Running,
    Paused) is backed by a sandbox in that state; identifiers not yet drawn are
    in neither table. *)
Definition backed (w : World) (id : SandboxId) (r : SandboxRecord) : Prop :=
  rec_state r = Running \/ rec_state r = Paused ->
  exists sb, pr_sandboxes (w_runtime w) !! id = Some sb /\ ps_state sb = rec_state r.

Definition agree (w : World) : Prop :=
  (forall id r, w_records w !! id = Some r -> backed w id r)
  /\ (forall n, pr_ids (w_runtime w) <= n ->
        w_records w !! SandboxId_new n = None /\ pr_sandboxes (w_runtime w) !! SandboxId_new n = None).

(** Steps that leave both tables alone. *)
Definition tables_same (w w' : World) : Prop :=
  w_records w' = w_records w /\ pr_sandboxes (w_runtime w') = pr_sandboxes (w_runtime w)
  /\ pr_ids (w_runtime w') = pr_ids (w_runtime w).

#[export] Instance tables_same_preorder : PreOrder tables_same.
Proof. split; [by intros w|]. intros a b c (?&?&?) (?&?&?). unfold tables_same. intuition congruence. Qed.

Lemma tables_same_agree w w' : tables_same w w' -> agree w -> agree w'.
Proof.
  intros (Hr&Hs&Hi) [H1 H2]. split.
  - intros id r. unfold backed. rewrite Hr, Hs. apply H1.
  - rewrite Hr, Hs, Hi. apply H2.
Qed.

(** The runtime operations that touch neither its table nor its counter. *)
Definition runtime_same (s s' : ProcessRuntime) : Prop :=
  pr_sandboxes s' = pr_sandboxes s /\ pr_ids s' = pr_ids s.

#[export] Instance runtime_same_preorder : PreOrder runtime_same.
Proof. split; [by intros w|]. intros a b c (?&?) (?&?). unfold runtime_same. intuition congruence. Qed.

Lemma same_lift {A} (p : prog Fs A) : preserves runtime_same (lift p : prog ProcessRuntime A).
Proof. intros s. rewrite run_lift_fs. done. Qed.
Lemma same_host {A B E} (f : result A E -> result B RuntimeError) (p : prog Fs (result A E)) :
  preserves runtime_same (host f p).
Proof. apply preserves_fmap; [apply _|]. apply same_lift. Qed.
Lemma same_sandbox id : preserves runtime_same (sandbox id).
Proof. by apply preserves_act. Qed.
Lemma same_record id a o d : preserves runtime_same (record id a o d).
Proof. by apply preserves_act. Qed.

Ltac same_solve :=
  repeat first [apply same_lift | apply same_host | apply same_sandbox | apply same_record | preserves_step].

Lemma same_execute id request : preserves runtime_same (execute id request).
Proof.
  unfold execute. same_solve; apply preserves_act; intros s; [done|]. by destruct (host_command _ _ _ _ _).
Qed.
Lemma same_write id request : preserves runtime_same (write id request).
Proof. unfold write. same_solve. Qed.
Lemma same_read id request : preserves runtime_same (read id request).
Proof. unfold read. same_solve. Qed.
Lemma same_list_entries base dir names acc : preserves runtime_same (list_entries base dir names acc).
Proof. revert acc. induction names as [|x names IH]; intros acc; cbn [list_entries]; same_solve; apply IH. Qed.
Lemma same_list id request : preserves runtime_same (list_ id request).
Proof. unfold list_. same_solve. apply same_list_entries. Qed.
Lemma same_unsupported {A} id : preserves runtime_same (unsupported_for (A:=A) id).
Proof. unfold unsupported_for. same_solve. Qed.

(** Handlers. *)
Lemma tables_lift {A} (p : prog ProcessRuntime A) :
  preserves runtime_same p -> preserves tables_same (lift p : prog World A).
Proof.
  intros Hp w. rewrite run_lift_runtime. destruct (Hp (w_runtime w)) as [H1 H2].
  unfold tables_same. simpl. by rewrite H1, H2.
Qed.
Lemma tables_runtime {A} (p : prog ProcessRuntime (result A RuntimeError)) :
  preserves runtime_same p -> preserves tables_same (runtime_call p).
Proof. intros Hp. apply preserves_fmap; [apply _|]. by apply tables_lift. Qed.
Lemma tables_audit who op o d : preserves tables_same (AuditLog_record who op o d).
Proof. apply preserves_act. intros w. by destruct (w_audit_faults w) as [|[] ?]. Qed.
Lemma tables_authorize id h : preserves tables_same (authorize id h).
Proof. intros w. by rewrite run_authorize. Qed.
Lemma tables_authorize_running id h : preserves tables_same (authorize_running id h).
Proof. intros w. by rewrite run_authorize_running. Qed.
Lemma tables_authorize_snapshot id h : preserves tables_same (authorize_snapshot id h).
Proof. intros w. by rewrite run_authorize_snapshot. Qed.

(** ** Every request keeps the agreement *)

Definition agree_step (w w' : World) : Prop := agree w -> agree w'.

#[export] Instance agree_step_preorder : PreOrder agree_step.
Proof. split; [intros w Hw; exact Hw|]. intros a b c Hab Hbc Ha. by apply Hbc, Hab. Qed.

Lemma tables_agree {A} (p : prog World A) : preserves tables_same p -> preserves agree_step p.
Proof. intros Hp w Hag. by apply (tables_same_agree w). Qed.

(** A program that always fails never runs what comes after it. *)
Lemma preserves_fails {A B} (p : prog World (result A ApiError)) (k : A -> prog World (result B ApiError)) :
  preserves agree_step p -> (forall w, is_ok (run p w).1 = false) -> preserves agree_step (bind_ok p k).
Proof.
  intros Hp Hf w. rewrite run_bind_ok. specialize (Hf w). specialize (Hp w).
  destruct (run p w) as [[a|e] w']; done.
Qed.

(** A runtime call about one sandbox leaves the others alone. *)
Definition touches_only (id : SandboxId) (s s' : ProcessRuntime) : Prop :=
  (forall i, i <> id -> pr_sandboxes s' !! i = pr_sandboxes s !! i) /\ pr_ids s' = pr_ids s
  /\ (pr_sandboxes s !! id = None -> pr_sandboxes s' !! id = None).

Lemma put_record_agree w id r st x :
  w_records w !! id = Some r -> touches_only id (w_runtime w) x -> agree w ->
  (st = Running \/ st = Paused -> exists sb, pr_sandboxes x !! id = Some sb /\ ps_state sb = st) ->
  agree (put_record id (with_state r st) (set_runtime x w)).
Proof.
  intros Hr (Hother&Hids&Hnone) [H1 H2] Hst. split.
  - intros i r'. unfold backed; cbn [put_record set_records set_runtime w_records w_runtime].
    destruct (decide (id = i)) as [<-|Hne].
    + rewrite lookup_insert_eq. intros [= <-]. exact Hst.
    + rewrite lookup_insert_ne by done. intros Hr'. rewrite Hother by done. by apply H1.
  - intros n Hn. cbn [put_record set_records set_runtime w_records w_runtime] in *.
    rewrite Hids in Hn. destruct (H2 n Hn) as [Ha Hb].
    assert (SandboxId_new n <> id) as Hne by (intros <-; congruence).
    rewrite lookup_insert_ne, Hother by done. done.
Qed.

Lemma run_transition_none (w : World) id next :
  w_records w !! id = None ->
  run (transition id next) w = (Err (not_found "sandbox does not exist"), w).
Proof. intros Hr. unfold transition. by rewrite run_act, Hr. Qed.

Lemma lifecycle_agree {A} id during after call (k : unit -> prog World (result A ApiError)) :
  can_transition_to during after = true -> can_transition_to during Failed = true ->
  (forall s, touches_only id s (run call s).2
     /\ ((run call s).1 = Ok tt -> after = Running \/ after = Paused ->
         exists sb, pr_sandboxes (run call s).2 !! id = Some sb /\ ps_state sb = after)) ->
  preserves agree_step (k tt) ->
  preserves agree_step (bind_ok (transition id during) (fun _ => bind (lift call) (fun out =>
    match out with
    | Err error => bind_ok (transition id Failed) (fun _ => throw (from_runtime error))
    | Ok _ => bind_ok (transition id after) k
    end))).
Proof.
  intros Ha Hf Hcall Hk w Hag.
  destruct (w_records w !! id) as [r|] eqn:Hr.
  2: { rewrite run_bind_ok, (run_transition_none w id during Hr). done. }
  destruct (can_transition_to (rec_state r) during) eqn:Hd.
  2: { rewrite run_bind_ok, (run_transition w id during r Hr), Hd. done. }
  rewrite (lifecycle_run w id r during after call k Hr Hd Ha Hf). unfold lifecycle_outcome. cbv zeta.
  destruct (Hcall (w_runtime w)) as [Ht Hst].
  destruct (run call (w_runtime w)) as [[[]|e] x]; cbn [fst snd] in *.
  - apply Hk. apply put_record_agree; auto.
  - apply put_record_agree; try done. by intros [|].
Qed.

Lemma switch_lifecycle id expected next m s :
  touches_only id s (run (switch id expected next m) s).2
  /\ ((run (switch id expected next m) s).1 = Ok tt -> next = Running \/ next = Paused ->
      exists sb, pr_sandboxes (run (switch id expected next m) s).2 !! id = Some sb /\ ps_state sb = next).
Proof.
  unfold switch. rewrite run_act. destruct (pr_sandboxes s !! id) as [sb|] eqn:Hs; [|done].
  destruct (bool_decide (ps_state sb = expected)); [|done]. cbn [negb fst snd]. split.
  - split; [|split; [done|congruence]]. intros i Hne. cbn. by rewrite lookup_insert_ne.
  - intros _ _. cbn. rewrite lookup_insert_eq. by eexists.
Qed.

(** [delete] forgets the sandbox before it touches the disk. *)
Lemma delete_table s id :
  pr_sandboxes (run (delete_ id) s).2 = delete id (pr_sandboxes s)
  /\ pr_ids (run (delete_ id) s).2 = pr_ids s
  /\ (pr_sandboxes s !! id = None ->
       (run (delete_ id) s).1 = Err (RuntimeError_not_found "sandbox does not exist")).
Proof.
  unfold delete_. rewrite run_bind_ok, run_act.
  destruct (pr_sandboxes s !! id) as [sb|] eqn:Hs; cbn [ok_or fst snd]; [|by rewrite delete_id].
  match goal with |- context [run ?p (set_sandboxes ?m s)] =>
    assert (runtime_same (set_sandboxes m s) (run p (set_sandboxes m s)).2) as [H1 H2] end.
  { match goal with |- runtime_same ?s' (run ?p ?s').2 => cut (preserves runtime_same p) end;
      [by intros Hp; apply Hp|].
    apply preserves_bind; [apply _|by apply preserves_act|]. intros root.
    same_solve. }
  rewrite H1, H2. done.
Qed.

Lemma delete_lifecycle id s :
  touches_only id s (run (delete_ id) s).2
  /\ ((run (delete_ id) s).1 = Ok tt -> Deleted = Running \/ Deleted = Paused ->
      exists sb, pr_sandboxes (run (delete_ id) s).2 !! id = Some sb /\ ps_state sb = Deleted).
Proof.
  destruct (delete_table s id) as (H1&H2&_). split; [|by intros _ [|]].
  split; [|split; [done|]].
  - intros i Hne. by rewrite H1, lookup_delete_ne.
  - intros _. by rewrite H1, lookup_delete_eq.
Qed.

Lemma create_table spec s :
  match run (create spec) s with
  | (Ok handle, s') => sh_sandbox_id handle = SandboxId_new (pr_ids s) /\ sh_state handle = Running
      /\ pr_ids s' = S (pr_ids s)
      /\ exists workspace, pr_sandboxes s' = <[SandboxId_new (pr_ids s) := MkProcessSandbox workspace Running]>
           (pr_sandboxes s)
  | (Err _, s') => pr_sandboxes s' = pr_sandboxes s /\ pr_ids s <= pr_ids s'
  end.
Proof.
  unfold create. rewrite run_bind_ok.
  destruct (map_err invalid_request (SandboxSpec_validate spec)) as [[]|e]; cbn [of_result run fst snd];
    [|done].
  rewrite run_bind, run_act. cbn [fst snd]. rewrite run_bind, run_gets. cbn [fst snd].
  rewrite run_bind_ok, run_host. cbn [fst snd].
  destruct (run (create_dir_all _) _) as [[[]|e] fs']; cbn [fst snd io_internal map_err];
    [|by split; [|simpl; lia]].
  rewrite run_bind, run_modify. cbn [fst snd]. rewrite run_bind. unfold record. rewrite run_modify.
  cbn. repeat split. by eexists.
Qed.

Lemma create_agree request : preserves agree_step (create_sandbox request).
Proof.
  intros w [H1 H2]. rewrite run_create_sandbox.
  destruct (SandboxSpec_validate (create_spec request)); [|done].
  destruct (audited_frame w None "create" "started" (create_details (create_spec request)))
    as (Hrt&Hrec&_). fold (create_started w request) in *.
  destruct (audit_result w); cbn [snd].
  2: { apply (tables_same_agree w); [|done]. unfold tables_same. by rewrite Hrt, Hrec. }
  pose proof (create_table (create_spec request) (w_runtime w)) as Hc. cbn [rt_create process_runtime].
  cbv zeta. destruct (run (create (create_spec request)) (w_runtime w)) as [[handle|e] x]; cbn [fst snd].
  - destruct Hc as (Hid&Hst&Hids&workspace&Hx).
    set (w1 := registered _ _ _).
    destruct (audited_frame w1 (Some (SandboxId_to_string (sh_sandbox_id handle))) "create" "succeeded"
      (create_details (create_spec request))) as (Frt&Frec&_). cbv zeta in *.
    unfold agree, backed. rewrite Frt, Frec. unfold w1.
    cbn [registered set_reapers set_records set_rng set_runtime w_records w_runtime]. rewrite Hrec, Hx, Hids, Hid.
    split.
    + intros id r. destruct (decide (SandboxId_new (pr_ids (w_runtime w)) = id)) as [<-|Hne].
      * rewrite !lookup_insert_eq. intros [= <-]. cbn [rec_state]. rewrite Hst. intros _. by eexists.
      * rewrite !lookup_insert_ne by done. apply H1.
    + intros n Hn. assert (SandboxId_new (pr_ids (w_runtime w)) <> SandboxId_new n)
        by (intros ?%SandboxId_new_inj; lia).
      rewrite !lookup_insert_ne by done. apply H2. lia.
  - destruct Hc as [Hx Hids].
    destruct (audited_frame (set_runtime x (create_started w request)) None "create" "failed"
      {["error" := re_message e]}) as (Frt&Frec&_). cbv zeta in *.
    unfold agree, backed. rewrite Frt, Frec. cbn [set_runtime w_records w_runtime]. rewrite Hrec, Hx.
    split; [exact H1|]. intros n Hn. apply H2. lia.
Qed.

Ltac tables_solve :=
  repeat first [apply tables_authorize | apply tables_authorize_running | apply tables_authorize_snapshot
    | apply tables_audit | preserves_step].

Lemma runtime_fails {A} (p : prog ProcessRuntime (result A RuntimeError)) :
  preserves runtime_same p -> (forall s, is_ok (run p s).1 = false) ->
  preserves agree_step (runtime_call p : prog World _)
  /\ forall w : World, is_ok (run (runtime_call p) w).1 = false.
Proof.
  intros Hp Hf. split; [by apply tables_agree, tables_runtime|].
  intros w. rewrite run_runtime_call. specialize (Hf (w_runtime w)).
  by destruct (run p (w_runtime w)) as [[] ?].
Qed.

Lemma unsupported_fails {A} id s : is_ok (run (unsupported_for (A:=A) id) s).1 = false.
Proof.
  unfold unsupported_for. rewrite run_bind_ok, run_sandbox. by destruct (pr_sandboxes s !! id).
Qed.

Lemma after_failure {A B} (p : prog ProcessRuntime (result A RuntimeError))
    (k : A -> prog World (result B ApiError)) :
  preserves runtime_same p -> (forall s, is_ok (run p s).1 = false) ->
  preserves agree_step (bind_ok (runtime_call p) k).
Proof. intros Hp Hf. destruct (runtime_fails p Hp Hf). by apply preserves_fails. Qed.

Lemma throw_same {A} (e : RuntimeError) : preserves runtime_same (throw (A:=A) e).
Proof. apply preserves_ret, _. Qed.

Ltac gate :=
  repeat match goal with
  | |- preserves agree_step (bind_ok (of_result _) _) => apply preserves_bind_ok; [apply _|apply preserves_ret, _|intros ?]
  | |- preserves agree_step (bind_ok (authorize _ _) _) =>
      apply preserves_bind_ok; [apply _|apply tables_agree, tables_authorize|intros ?]
  | |- preserves agree_step (bind_ok (authorize_running _ _) _) =>
      apply preserves_bind_ok; [apply _|apply tables_agree, tables_authorize_running|intros ?]
  | |- preserves agree_step (bind_ok (authorize_snapshot _ _) _) =>
      apply preserves_bind_ok; [apply _|apply tables_agree, tables_authorize_snapshot|intros ?]
  | |- preserves agree_step (bind_ok (gets _) _) =>
      apply preserves_bind_ok; [apply _|by apply tables_agree, preserves_act|intros ?]
  | |- preserves agree_step (if ?b then _ else _) => destruct b; [apply preserves_ret, _|]
  end.

Lemma delete_internal_agree id reason : preserves agree_step (delete_internal id reason).
Proof.
  unfold delete_internal. apply lifecycle_agree; [done|done|apply delete_lifecycle|].
  apply preserves_bind; [apply _| |intros _; apply tables_agree, tables_audit].
  apply preserves_act. intros w [H1 H2]. split; cbn.
  - intros i r [_ Hr]%lookup_delete_Some. exact (H1 _ _ Hr).
  - intros n Hn. destruct (H2 n Hn) as [Ha Hb]. split; [|done]. apply lookup_delete_None. by right.
Qed.

Lemma router_agree request : preserves agree_step (router request).
Proof.
  destruct request; unfold router, reply; try (apply preserves_fmap; [apply _|]); cbn [rt_create].
  - apply preserves_ret, _.
  - apply create_agree.
  - apply tables_agree. unfold get_sandbox. tables_solve.
  - unfold delete_sandbox. gate. apply preserves_bind_ok; [apply _|apply delete_internal_agree|].
    intros ?. apply preserves_ret, _.
  - apply tables_agree. unfold execute_command. tables_solve. apply tables_lift, same_execute.
  - apply tables_agree. unfold write_file. tables_solve. apply tables_lift, same_write.
  - apply tables_agree. unfold read_file. tables_solve. apply tables_lift, same_read.
  - apply tables_agree. unfold list_directory. tables_solve. apply tables_lift, same_list.
  - unfold pause_sandbox. gate. apply lifecycle_agree; [done|done|apply switch_lifecycle|].
    apply preserves_ret, _.
  - unfold resume_sandbox. gate. apply lifecycle_agree; [done|done|apply switch_lifecycle|].
    apply preserves_ret, _.
  - unfold create_snapshot. gate. apply after_failure; [apply same_unsupported|apply unsupported_fails].
  - unfold list_snapshots. gate. apply after_failure; [apply same_unsupported|apply unsupported_fails].
  - unfold rollback_snapshot. gate. apply after_failure; [apply same_unsupported|apply unsupported_fails].
  - apply tables_agree. unfold get_snapshot. tables_solve.
  - unfold delete_snapshot. gate. apply after_failure; [apply throw_same|done].
  - apply tables_agree. unfold verify_snapshot. tables_solve.
  - unfold restore_snapshot. gate. apply after_failure; [apply throw_same|done].
  - unfold clone_snapshot. gate. apply after_failure; [apply throw_same|done].
Qed.

(** Requests and reapers run one after the other, time passing in between. *)
Inductive served : World -> World -> Prop :=
| served_request w request : served w (run (router request) w).2
| served_reaper w id : served w (run (ttl_reaper id) w).2
| served_time w now ms : served w (set_time now ms w).

(** C6. The control plane refines the runtime's lifecycle: starting from empty
    tables, after any sequence of requests and TTL reapers, each run to its
    end, with any audit failures and I/O faults, every record that says Running
    or Paused is backed by a sandbox of the runtime in that very state. *)
Theorem lifecycle_refinement w w' id r :
  w_records w = ∅ -> pr_sandboxes (w_runtime w) = ∅ -> rtc served w w' ->
  w_records w' !! id = Some r -> rec_state r = Running \/ rec_state r = Paused ->
  exists sb, pr_sandboxes (w_runtime w') !! id = Some sb /\ ps_state sb = rec_state r.
Proof.
  intros He1 He2 Hr Hid Hst. assert (agree w) as Hag.
  { split; [intros i r'; by rewrite He1, lookup_empty|]. intros n _. by rewrite He1, He2, !lookup_empty. }
  assert (agree w') as [H1 _]; [|by eapply H1].
  clear He1 He2 Hid Hst. induction Hr as [w|w w1 w2 Hs _ IH]; [done|]. apply IH.
  destruct Hs as [w request|w i|w now ms].
  - by apply router_agree.
  - unfold ttl_reaper. rewrite run_bind, run_gets. cbn [fst snd].
    destruct (w_records w !! i) as [rec|]; [|done].
    destruct (rec_expires_at rec <=? w_now w)%Z; [|done]. rewrite run_fmap. cbn [snd].
    by apply delete_internal_agree.
  - by apply (tables_same_agree w).
Qed.

(** A failed deletion can never be repaired: once a deletion has failed
    because the runtime could not remove the directory, the record is Failed
    and the runtime has already forgotten the sandbox, so every further
    authorised DELETE and the TTL reaper are answered by the runtime with "not
    found", the record returns to Failed, and it is never removed. *)
Theorem failed_deletion_is_final w id r reason1 reason2 e :
  w_records w !! id = Some r -> can_transition_to (rec_state r) Deleting = true ->
  (run (delete_ id) (w_runtime w)).1 = Err e ->
  let w1 := (run (delete_internal id reason1) w).2 in
  let '(answer, w2) := run (delete_internal id reason2) w1 in
  w_records w1 !! id = Some (with_state r Failed)
  /\ answer = Err (MkApiError 404%N "not_found" "sandbox does not exist")
  /\ w_records w2 = w_records w1.
Proof.
  intros Hr Hd He. cbv zeta.
  pose proof (run_delete_internal w id r reason1 Hr) as H1.
  destruct (run (delete_internal id reason1) w) as [a1 w1]. cbn [fst snd]. rewrite Hd in H1.
  cbn [rt_delete process_runtime] in H1. cbv zeta in H1. rewrite He in H1.
  destruct H1 as (Hrt1&_&Hrec1&_&_).
  assert (w_records w1 !! id = Some (with_state r Failed)) as Hr1.
  { rewrite Hrec1. apply lookup_insert_eq. }
  pose proof (run_delete_internal w1 id _ reason2 Hr1) as H2.
  destruct (run (delete_internal id reason2) w1) as [a2 w2]. cbn [with_state rec_state] in H2.
  change (can_transition_to Failed Deleting) with true in H2. cbv iota in H2.
  cbn [rt_delete process_runtime] in H2. cbv zeta in H2.
  destruct (delete_table (w_runtime w) id) as (Htab&_&_). rewrite <-Hrt1 in Htab.
  destruct (delete_table (w_runtime w1) id) as (_&_&Hnf).
  rewrite Hnf in H2 by (by rewrite Htab, lookup_delete_eq). destruct H2 as (_&_&Hrec2&->&_).
  split; [done|]. split; [done|]. rewrite Hrec2. rewrite insert_id; [done|]. exact Hr1.
Qed.
End Agreement.

(** ** The theorems at concrete inputs *)

(** The control plane in front of an empty development runtime. *)
Definition empty_process : @ProcessRuntime string_uuid :=
  MkProcessRuntime (Path_of_string "/srv") "process-dev" ∅ [] example_fs 0 0 0.

Example empty_process_new : ProcessRuntime_new "/srv" example_fs 0 = Ok empty_process.
Proof. vm_compute. reflexivity. Qed.

Definition process_start : @World string_uuid ProcessRuntime := initial_world empty_process 0 0.
Definition process_created : @World string_uuid ProcessRuntime :=
  (run (router (POST_sandboxes example_request)) process_start).2.

Lemma lifecycle_refinement_witness :
  exists r sb, w_records process_created !! example_sandbox = Some r /\ rec_state r = Running
    /\ pr_sandboxes (w_runtime process_created) !! example_sandbox = Some sb /\ ps_state sb = rec_state r.
Proof.
  assert (rec_state <$> (w_records process_created !! example_sandbox) = Some Running) as Hsome
    by by vm_compute.
  destruct (w_records process_created !! example_sandbox) as [r|] eqn:Hr; [|done].
  injection Hsome as Hst. destruct (lifecycle_refinement process_start process_created example_sandbox r) as (sb&H1&H2).
  - reflexivity.
  - reflexivity.
  - apply rtc_once. exact (served_request process_start (POST_sandboxes example_request)).
  - exact Hr.
  - left. exact Hst.
  - exists r, sb. split; [reflexivity|]. split; [exact Hst|]. split; [exact H1|exact H2].
Defined.

(** The same sandbox on a disk that fails. *)
Definition process_broken : @World string_uuid ProcessRuntime :=
  let x := w_runtime process_created in
  set_runtime (set_fs (set_faults [Some (MkFault true "denied" 0)] (pr_fs x)) x) process_created.

Lemma failed_deletion_is_final_witness :
  exists r w1, w1 = (run (delete_internal example_sandbox "user") process_broken).2
    /\ w_records w1 !! example_sandbox = Some (with_state r Failed)
    /\ (run (delete_internal example_sandbox "ttl") w1).1
       = Err (MkApiError 404%N "not_found" "sandbox does not exist").
Proof.
  assert (rec_state <$> (w_records process_broken !! example_sandbox) = Some Running) as Hsome
    by (vm_compute; reflexivity).
  assert (is_ok (run (delete_ example_sandbox) (w_runtime process_broken)).1 = false) as Herr
    by (vm_compute; reflexivity).
  destruct (w_records process_broken !! example_sandbox) as [r|] eqn:Hr; [|discriminate Hsome].
  injection Hsome as Hst. exists r. eexists. split; [reflexivity|].
  destruct (run (delete_ example_sandbox) (w_runtime process_broken)).1 as [u|e] eqn:He;
    [discriminate Herr|].
  assert (can_transition_to (rec_state r) Deleting = true) as Hd by (rewrite Hst; reflexivity).
  pose proof (failed_deletion_is_final process_broken example_sandbox r "user" "ttl" e Hr Hd He) as H.
  cbv zeta in H. revert H. generalize (run (delete_internal example_sandbox "user") process_broken).2.
  intros w1. destruct (run (delete_internal example_sandbox "ttl") w1) as [a w2].
  intros (H1&H2&_). split; [exact H1|exact H2].
Defined.
