(* ===== verification/Inet.v ===== *)
(** * Internet addresses and lines of text

    [std::net::Ipv4Addr] with its parser and its [Display], and the string
    functions with which the sources read configuration files. *)
From S2P Require Import Prelude.

Record Ipv4Addr := MkIpv4 { ip_a : Z; ip_b : Z; ip_c : Z; ip_d : Z }.

#[export] Instance Ipv4Addr_eq_dec : EqDecision Ipv4Addr.
Proof. solve_decision. Defined.

Definition octets (a : Ipv4Addr) : list Z := [ip_a a; ip_b a; ip_c a; ip_d a].
Definition valid_ipv4 (a : Ipv4Addr) : bool := forallb (in_range 0 255) (octets a).

Definition dot : ascii := "."%char.

(** [Display] *)
Definition Ipv4Addr_to_string (a : Ipv4Addr) : string :=
  pretty (ip_a a) +:+ "." +:+ pretty (ip_b a) +:+ "." +:+ pretty (ip_c a) +:+ "." +:+ pretty (ip_d a).

Fixpoint digits_value (s : string) (acc : Z) : Z :=
  match s with
  | EmptyString => acc
  | String c s' => digits_value s' (acc * 10 + (Z.of_N (byte_code c) - 48))
  end.

(** [str::parse] for an unsigned integer of at most [max]. *)
Definition parse_uint (max : Z) (s : string) : option Z :=
  let digits := match strip_prefix "+" s with Some d => d | None => s end in
  if negb (is_empty digits) && string_all is_ascii_digit digits && (digits_value digits 0 <=? max)%Z
  then Some (digits_value digits 0) else None.

(** One group: one to three digits, without a leading zero, in eight bits. *)
Definition parse_octet (s : string) : option Z :=
  if (1 <=? slen s)%Z && (slen s <=? 3)%Z && string_all is_ascii_digit s
     && (negb (starts_with "0" s) || String.eqb s "0") && (digits_value s 0 <=? 255)%Z
  then Some (digits_value s 0) else None.

(** [str::parse::<Ipv4Addr>] *)
Definition parse_ipv4 (s : string) : option Ipv4Addr :=
  match split_on dot s with
  | [a; b; c; d] =>
      a ← parse_octet a; b ← parse_octet b; c ← parse_octet c; d ← parse_octet d;
      Some (MkIpv4 a b c d)
  | _ => None
  end.

(** [is_unspecified], [is_multicast] and [Ipv4Addr::BROADCAST]. *)
Definition is_unspecified (a : Ipv4Addr) : bool := bool_decide (a = MkIpv4 0 0 0 0).
Definition is_multicast (a : Ipv4Addr) : bool := in_range 224 239 (ip_a a).
Definition BROADCAST : Ipv4Addr := MkIpv4 255 255 255 255.

(** ** Lines and words *)

Definition newline : ascii := "010"%char.
Definition carriage_return : ascii := "013"%char.

Definition strip_cr (s : string) : string :=
  match srev s with
  | String c r => if Ascii.eqb c carriage_return then srev r else s
  | EmptyString => s
  end.

(** [str::lines]: a final line end does not start another line, and a carriage
    return belongs to the line end only in front of a line feed. *)
Definition lines (s : string) : list string :=
  let pieces := split_on newline s in
  map strip_cr (removelast pieces) ++
  match last pieces with Some "" | None => [] | Some line => [line] end.

(** [str::split_whitespace]: [word] is the word being read. *)
Fixpoint words (fuel : nat) (word : string) (s : string) : list string :=
  match fuel with
  | O => []
  | S fuel' =>
      let out := if is_empty word then [] else [word] in
      match s with
      | EmptyString => out
      | String c s' =>
          match strip_first whitespace_encodings s with
          | Some rest => out ++ words fuel' "" rest
          | None => words fuel' (word +:+ String c "") s'
          end
      end
  end.
Definition split_whitespace (s : string) : list string := words (S (String.length s)) "" s.

(** ** The text of an address *)

Definition octet_text_ok (o : Z) : bool :=
  bool_decide (parse_octet (pretty o) = Some o) && negb (string_contains dot (pretty o)).

Lemma all_octets_ok : forallb octet_text_ok (map Z.of_nat (seq 0 256)) = true.
Proof. by vm_compute. Qed.

Lemma octet_ok o : in_range 0 255 o = true ->
  parse_octet (pretty o) = Some o /\ string_contains dot (pretty o) = false.
Proof.
  intros Ho%in_range_spec. pose proof all_octets_ok as Hall. rewrite forallb_forall in Hall.
  assert (In o (map Z.of_nat (seq 0 256))) as Hin.
  { apply in_map_iff. exists (Z.to_nat o). rewrite in_seq. lia. }
  apply Hall in Hin. unfold octet_text_ok in Hin.
  apply andb_true_iff in Hin as [Hp%bool_decide_eq_true Hd%negb_true_iff]. done.
Qed.

Lemma parse_ipv4_to_string a : valid_ipv4 a = true -> parse_ipv4 (Ipv4Addr_to_string a) = Some a.
Proof.
  destruct a as [a b c d]. unfold valid_ipv4; cbn [octets forallb ip_a ip_b ip_c ip_d].
  rewrite !andb_true_iff. intros ([Ha Hda]%octet_ok&[Hb Hdb]%octet_ok&[Hc Hdc]%octet_ok&[Hd Hdd]%octet_ok&_).
  unfold parse_ipv4, Ipv4Addr_to_string; cbn [ip_a ip_b ip_c ip_d].
  unfold dot in *. cbn [String.append]. rewrite !split_on_app_sep, !split_on_no_sep by done.
  cbn [app]. rewrite Ha; simpl. rewrite Hb; simpl. rewrite Hc; simpl. by rewrite Hd.
Qed.

Lemma parse_octet_range s o : parse_octet s = Some o -> in_range 0 255 o = true.
Proof.
  unfold parse_octet. destruct (_ && _) eqn:Hc; [|done]. intros [= <-].
  rewrite !andb_true_iff in Hc. destruct Hc as [[[_ Hd] _] Hv]. apply in_range_spec.
  split; [|lia]. assert (forall acc, (0 <= acc)%Z -> (0 <= digits_value s acc)%Z) as Hpos; [|by apply Hpos].
  clear Hv. induction s as [|c s IH]; intros acc Hacc; [done|].
  simpl in Hd. apply andb_true_iff in Hd as [Hc Hd]. apply (IH Hd). unfold is_ascii_digit in Hc.
  apply andb_true_iff in Hc as [Hc%N.leb_le _]. lia.
Qed.

Lemma parse_ipv4_valid s a : parse_ipv4 s = Some a -> valid_ipv4 a = true.
Proof.
  unfold parse_ipv4. destruct (split_on dot s) as [|p1 [|p2 [|p3 [|p4 [|]]]]]; try done.
  destruct (parse_octet p1) eqn:H1; [|done]. destruct (parse_octet p2) eqn:H2; [|done].
  destruct (parse_octet p3) eqn:H3; [|done]. destruct (parse_octet p4) eqn:H4; [|done].
  intros [= <-]. unfold valid_ipv4; simpl. by rewrite !(parse_octet_range _ _) by done.
Qed.

Example parse_ipv4_examples :
  (parse_ipv4 "10.200.32.2", parse_ipv4 "10.200.032.2", parse_ipv4 "1.2.3", parse_ipv4 "1.2.3.256")
  = (Some (MkIpv4 10 200 32 2), None, None, None).
Proof. reflexivity. Qed.

Example words_example :
  (split_whitespace (String "009" "nameserver  10.0.0.2 "), lines "a
b
") = (["nameserver"; "10.0.0.2"], ["a"; "b"]).
Proof. reflexivity. Qed.
