(* ===== verification/GuestOutput.v ===== *)
(** * Collecting the output of a guest process

    Models [read_output] of [crates/ferrobox-guest/src/service.rs]: two tasks
    forward the two output pipes of one process and share the count of bytes
    used and the flag that the limit was hit. The tasks interleave freely; the
    file proves what the client can and cannot receive. *)
From S2P Require Import Prelude Conc Fs Commands.

(** A pipe is what the process will have written to it, cut into the pieces
    that successive reads return; a read error ends it like the end of file. *)
Inductive PipeRead := PipeData (data : list Byte.byte) | PipeError.

(** [ProcessEvent] of the guest protocol. *)
Record ProcessExit := MkProcessExit {
  px_exit_code : option Z;
  px_signal : option Z;
  px_timed_out : bool;
  px_output_limit_exceeded : bool;
  px_stdout_truncated : bool;
  px_stderr_truncated : bool;
}.

Inductive Event :=
| Stdout (data : list Byte.byte)
| Stderr (data : list Byte.byte)
| Exit (exit : ProcessExit)
| EError (code message : string).

Record ProcessEvent := MkProcessEvent { pe_process_id : string; pe_event : Event }.

Definition event_data (e : ProcessEvent) : list Byte.byte :=
  match pe_event e with Stdout d | Stderr d => d | _ => [] end.

(** The state that the two tasks share: [AtomicU64] and [AtomicBool] of the
    sources, the event channel with whether its receiver is still there, and
    the signals sent to the process. *)
Record OutputState := MkOutputState {
  os_stdout : list PipeRead;
  os_stderr : list PipeRead;
  os_used : Z;
  os_limit_hit : bool;
  os_events : list ProcessEvent;
  os_receiver : bool;
  os_kills : nat;
}.

Definition set_pipe (stdout : bool) (l : list PipeRead) (s : OutputState) : OutputState :=
  if stdout
  then MkOutputState l (os_stderr s) (os_used s) (os_limit_hit s) (os_events s) (os_receiver s) (os_kills s)
  else MkOutputState (os_stdout s) l (os_used s) (os_limit_hit s) (os_events s) (os_receiver s) (os_kills s).
Definition set_used (n : Z) (s : OutputState) : OutputState :=
  MkOutputState (os_stdout s) (os_stderr s) n (os_limit_hit s) (os_events s) (os_receiver s) (os_kills s).
Definition set_limit_hit (s : OutputState) : OutputState :=
  MkOutputState (os_stdout s) (os_stderr s) (os_used s) true (os_events s) (os_receiver s) (os_kills s).
Definition push_event (e : ProcessEvent) (s : OutputState) : OutputState :=
  MkOutputState (os_stdout s) (os_stderr s) (os_used s) (os_limit_hit s) (os_events s ++ [e])
    (os_receiver s) (os_kills s).
Definition drop_receiver (s : OutputState) : OutputState :=
  MkOutputState (os_stdout s) (os_stderr s) (os_used s) (os_limit_hit s) (os_events s) false (os_kills s).

Definition pipe_of (stdout : bool) (s : OutputState) : list PipeRead :=
  if stdout then os_stdout s else os_stderr s.

(** [stream.read(&mut buffer)]: at most a buffer, [None] at the end of the pipe
    or on an error. *)
Definition BUFFER : nat := 16 * 1024.
Definition read_pipe (stdout : bool) : prog OutputState (option (list Byte.byte)) :=
  act (fun s =>
    match pipe_of stdout s with
    | PipeData data :: rest =>
        (if bool_decide (data = []) then None else Some (take BUFFER data),
         set_pipe stdout (if BUFFER <? length data then PipeData (drop BUFFER data) :: rest else rest) s)
    | PipeError :: rest => (None, set_pipe stdout rest s)
    | [] => (None, s)
    end).

(** [used.fetch_add]: wraps at the width of the counter. *)
Definition fetch_add (n : Z) : prog OutputState Z :=
  act (fun s => (os_used s, set_used ((os_used s + n) mod 2 ^ 64)%Z s)).

Definition store_limit_hit : prog OutputState unit := modify set_limit_hit.
Definition kill_process : prog OutputState unit :=
  modify (fun s => MkOutputState (os_stdout s) (os_stderr s) (os_used s) (os_limit_hit s) (os_events s)
    (os_receiver s) (S (os_kills s))).

(** [sender.send]: fails when the receiver is gone. *)
Definition send_event (e : ProcessEvent) : prog OutputState bool :=
  act (fun s => if os_receiver s then (true, push_event e s) else (false, s)).

(** One turn of the loop; [None] when it breaks. *)
Definition read_turn (stdout : bool) (process_id : string) (maximum : Z) : prog OutputState (option unit) :=
  (do chunk <- read_pipe stdout ;;
   match chunk with
   | None => Ret None
   | Some data =>
       let read := Z.of_nat (length data) in
       do previous <- fetch_add read ;;
       if (maximum <=? previous)%Z then
         do _ <- store_limit_hit ;;
         do _ <- kill_process ;;
         Ret None
       else
         let allowed := Z.min (maximum - previous) read in
         do _ <- (if (allowed <? read)%Z
                  then do _ <- store_limit_hit ;; kill_process
                  else Ret tt) ;;
         let data := take (Z.to_nat allowed) data in
         let event := if stdout then Stdout data else Stderr data in
         do sent <- send_event (MkProcessEvent process_id event) ;;
         if negb sent then do _ <- kill_process ;; Ret None
         else if (allowed <? read)%Z then Ret None
         else Ret (Some tt)
   end)%prog.

(** The loop, for at most [turns] turns; [true] when it ended by itself. *)
Fixpoint read_output (turns : nat) (stdout : bool) (process_id : string) (maximum : Z) : prog OutputState bool :=
  match turns with
  | O => Ret false
  | S turns' =>
      (do continues <- read_turn stdout process_id maximum ;;
       match continues with
       | None => Ret true
       | Some _ => read_output turns' stdout process_id maximum
       end)%prog
  end.

(** ** Accounting

    A task that has drawn [read] bytes from the counter holds the positions
    [previous, previous + read). Those below the maximum will be sent, those
    above stand for the obligation to set the flag. Each task also holds a
    token, a negative number, which it gives up when it takes the counter
    beyond the maximum: it then draws no more, so the counter cannot wrap. *)
Definition interval (a n : Z) : gset Z := list_to_set (seqZ a n).

Lemma elem_of_interval a n x : x ∈ interval a n <-> (a <= x < a + n)%Z.
Proof. unfold interval. rewrite elem_of_list_to_set, elem_of_seqZ. lia. Qed.

Lemma size_interval a n : (0 <= n)%Z -> Z.of_nat (size (interval a n)) = n.
Proof.
  intros Hn. unfold interval. rewrite size_list_to_set by apply NoDup_seqZ. rewrite length_seqZ. lia.
Qed.

Definition event_bytes (events : list ProcessEvent) : Z :=
  Z.of_nat (length (concat (map event_data events))).

Lemma event_bytes_app events e :
  event_bytes (events ++ [e]) = (event_bytes events + Z.of_nat (length (event_data e)))%Z.
Proof. unfold event_bytes. rewrite map_app, concat_app, length_app. simpl. rewrite app_nil_r. lia. Qed.

Definition buffer : Z := 16384.
Lemma BUFFER_eq : Z.of_nat BUFFER = buffer.
Proof. reflexivity. Qed.

Definition token (stdout : bool) : Z := if stdout then -1 else -2.

(** How far the counter may be beyond the maximum. *)
Definition overshoot (held : gset Z) : Z :=
  (if decide (token true ∈ held) then 0 else buffer) + (if decide (token false ∈ held) then 0 else buffer).

Lemma overshoot_nonneg held : (0 <= overshoot held)%Z.
Proof. unfold overshoot, buffer. repeat destruct (decide _); lia. Qed.

Lemma overshoot_step a b stdout :
  token stdout ∈ a -> token stdout ∉ b -> (token (negb stdout) ∈ b -> token (negb stdout) ∈ a) ->
  (overshoot a + buffer <= overshoot b)%Z.
Proof.
  intros Ha Hb Ho. unfold overshoot, buffer. destruct stdout; cbn [negb] in *;
    repeat destruct (decide _); try lia; tauto.
Qed.

Section Accounting.
Context (maximum : Z).
Hypothesis maximum_fits : (0 <= maximum /\ maximum + 2 * buffer < 2 ^ 64)%Z.

(** The positions that will be sent. *)
Definition below (held : gset Z) : gset Z := filter (fun x => (0 <= x < maximum)%Z) held.

(** The invariant: no position is beyond the counter; what was sent and what
    is about to be sent never exceed the counter or the maximum, and are all of
    it as long as the receiver is there; the flag is set only beyond the
    maximum, and beyond it a task holds the obligation until it is. *)
Record output_ok (s : OutputState) (held : gset Z) : Prop := {
  ok_used : (0 <= os_used s <= maximum + overshoot held)%Z;
  ok_held x : x ∈ held -> (x < os_used s)%Z;
  ok_sent : (event_bytes (os_events s) + Z.of_nat (size (below held)) <= Z.min (os_used s) maximum)%Z;
  ok_all : os_receiver s = true ->
    (event_bytes (os_events s) + Z.of_nat (size (below held)) = Z.min (os_used s) maximum)%Z;
  ok_flag : os_limit_hit s = true -> (maximum < os_used s)%Z;
  ok_over : (maximum < os_used s)%Z -> os_limit_hit s = true \/ exists x, x ∈ held /\ (maximum <= x)%Z;
}.

(** Every step is allowed: the invariant says it all. *)
Definition any_step (_ _ : OutputState) : Prop := True.

(** A step that touches only pipes and signals, and may set the flag. *)
Lemma output_ok_same s s' held :
  os_events s' = os_events s -> os_used s' = os_used s -> os_receiver s' = os_receiver s ->
  os_limit_hit s' = os_limit_hit s -> output_ok s held -> output_ok s' held.
Proof. intros He Hu Hr Hl [H1 H2 H3 H4 H5 H6]. split; rewrite ?He, ?Hu, ?Hr, ?Hl; auto. Qed.

Definition safe_here {B} (p : prog OutputState B) (own : gset Z) (Q : B -> gset Z -> Prop) : Prop :=
  safe any_step output_ok p own Q.

Lemma safe_pipe stdout own :
  safe_here (read_pipe stdout) own (fun r o => o = own
    /\ match r with Some d => (0 < Z.of_nat (length d) <= buffer)%Z | None => True end).
Proof.
  intros s rest Hd HI. split; [done|]. exists own. split; [done|].
  unfold pipe_of. destruct stdout; [destruct (os_stdout s) as [|[d|] l]|destruct (os_stderr s) as [|[d|] l]];
    simpl; (split; [by apply (output_ok_same s)|]); (split; [done|]); try done;
    (case_bool_decide as Hnil; [done|]); rewrite length_take; pose proof BUFFER_eq;
    (destruct d; [done|]); cbn [length]; unfold buffer in *; lia.
Qed.

Lemma safe_kill own : safe_here kill_process own (fun _ o => o = own).
Proof.
  intros s rest Hd HI. split; [done|]. exists own. split; [done|]. split; [by apply (output_ok_same s)|done].
Qed.

(** The positions drawn by one addition, and what is given up for them. *)
Lemma safe_fetch_add own n stdout :
  own = {[token stdout]} -> (0 < n <= buffer)%Z ->
  safe_here (fetch_add n) own (fun previous o => (0 <= previous)%Z /\
    o = (if decide (maximum < previous + n)%Z then ∅ else {[token stdout]}) ∪ interval previous n).
Proof.
  intros -> Hn s rest Hd [H1 H2 H3 H4 H5 H6]. simpl. split; [done|].
  set (u := os_used s) in *.
  assert (token stdout ∉ rest) as Htok by set_solver.
  assert (forall x, x ∈ rest -> (x < u)%Z) as Hrest by (intros; apply H2; set_solver).
  assert (overshoot ({[token stdout]} ∪ rest) <= buffer)%Z as Hov.
  { unfold overshoot, buffer. assert (token stdout ∈ ({[token stdout]} ∪ rest : gset Z)) by set_solver.
    destruct stdout; repeat destruct (decide _); try lia; tauto. }
  assert ((u + n) mod 2 ^ 64 = u + n)%Z as Hmod by (apply Z.mod_small; lia).
  rewrite Hmod. clear Hmod.
  set (keep := if decide (maximum < u + n)%Z then (∅ : gset Z) else {[token stdout]}).
  assert (token stdout < 0)%Z as Hneg by (by destruct stdout).
  assert (keep ⊆ {[token stdout]}) as Hkeep by (unfold keep; destruct (decide _); set_solver).
  exists (keep ∪ interval u n). split.
  { intros x [Hx|Hx]%elem_of_union Hr; [set_solver|]. apply elem_of_interval in Hx.
    specialize (Hrest x Hr). lia. }
  assert (below ((keep ∪ interval u n) ∪ rest)
    = interval u (Z.max 0 (Z.min n (maximum - u))) ∪ below ({[token stdout]} ∪ rest)) as Hbelow.
  { apply set_eq. intros x. unfold below. rewrite elem_of_filter, !elem_of_union, !elem_of_interval,
      elem_of_filter, elem_of_union, elem_of_singleton.
    split.
    - intros [Hx [[Hk|Hi]|Hr]]; [|left; lia|right; auto].
      apply Hkeep, elem_of_singleton in Hk. lia.
    - intros [Hi|[Hx [Hk|Hr]]]; [split; [lia|left; right; lia]|lia|auto]. }
  assert (interval u (Z.max 0 (Z.min n (maximum - u))) ## below ({[token stdout]} ∪ rest)) as Hdis.
  { intros x Hx%elem_of_interval Hb. unfold below in Hb. apply elem_of_filter in Hb as [? Hb].
    apply elem_of_union in Hb as [Hb%elem_of_singleton|Hb]; [lia|]. specialize (Hrest x Hb). lia. }
  assert (Z.of_nat (size (below ((keep ∪ interval u n) ∪ rest)))
    = Z.max 0 (Z.min n (maximum - u)) + Z.of_nat (size (below ({[token stdout]} ∪ rest))))%Z as Hsize.
  { rewrite Hbelow, (size_union _ _ Hdis), Nat2Z.inj_add. rewrite size_interval by lia. reflexivity. }
  split; [|split; [lia|done]]. split; simpl; fold u.
  - split; [lia|]. pose proof (overshoot_nonneg ((keep ∪ interval u n) ∪ rest)).
    unfold keep in *. destruct (decide (maximum < u + n)%Z); [|lia].
    pose proof (overshoot_step ({[token stdout]} ∪ rest) ((∅ ∪ interval u n) ∪ rest) stdout) as Hstep.
    rewrite !elem_of_union, !elem_of_singleton, !elem_of_interval in Hstep.
    assert (overshoot ({[token stdout]} ∪ rest) + buffer <= overshoot ((∅ ∪ interval u n) ∪ rest))%Z;
      [|lia].
    apply Hstep; [by left| |].
    + intros [[?|?]|?]; [set_solver|lia|done].
    + intros [[?|Hi]|Hr]; [set_solver|by destruct stdout; simpl in Hi; lia|by right].
  - intros x [[Hx|Hx]%elem_of_union|Hx]%elem_of_union.
    + assert (x = token stdout) by set_solver. lia.
    + apply elem_of_interval in Hx. lia.
    + specialize (Hrest x Hx). lia.
  - rewrite Hsize. lia.
  - intros Hr. rewrite Hsize. specialize (H4 Hr). lia.
  - intros Hl. specialize (H5 Hl). lia.
  - intros Ho. right. exists (u + n - 1)%Z. split; [|lia].
    rewrite !elem_of_union, elem_of_interval. left; right. lia.
Qed.

Lemma overshoot_ext a b :
  (forall x, (x < 0)%Z -> x ∈ a <-> x ∈ b) -> overshoot a = overshoot b.
Proof.
  intros Hab. unfold overshoot.
  destruct (Hab (token true) ltac:(done)), (Hab (token false) ltac:(done)).
  repeat destruct (decide _); tauto.
Qed.

(** Setting the flag settles the obligations. *)
Lemma safe_limit own :
  (exists x, x ∈ own /\ (maximum <= x)%Z) ->
  safe_here store_limit_hit own (fun _ o => o = filter (fun x => (x < maximum)%Z) own).
Proof.
  intros (x&Hx&Hmax) s rest Hd [H1 H2 H3 H4 H5 H6]. split; [done|].
  assert (maximum < os_used s)%Z as Hover by (specialize (H2 x); set_solver by lia).
  set (own' := filter _ own). assert (own' ⊆ own) as Hsub by (unfold own'; set_solver).
  assert (below (own' ∪ rest) = below (own ∪ rest)) as Hb.
  { apply set_eq. intros y. unfold below, own'. rewrite !elem_of_filter, !elem_of_union, elem_of_filter.
    split; [intros [? [[? ?]|?]]; auto|intros [? [?|?]]; [|by auto]].
    split; [done|left; split; [lia|done]]. }
  exists own'. split; [set_solver|]. split; [|done].
  split; simpl; rewrite ?Hb; try done; try tauto.
  - rewrite (overshoot_ext (own' ∪ rest) (own ∪ rest)); [done|]. intros y Hy.
    unfold own'. rewrite !elem_of_union, elem_of_filter. split; [intros [[? ?]|?]; auto|].
    intros [?|?]; [left; split; [lia|done]|by right].
  - intros y Hy. apply H2. set_solver.
Qed.

(** Sending settles the positions sent. *)
Lemma safe_send own k previous n e :
  (forall x, x ∈ k -> (x < 0)%Z) -> (0 <= previous)%Z -> (0 <= n)%Z -> (previous + n <= maximum)%Z ->
  own = k ∪ interval previous n -> Z.of_nat (length (event_data e)) = n ->
  safe_here (send_event e) own (fun _ o => o = k).
Proof.
  intros Hk Hp Hn Hmax -> Hlen s rest Hd [H1 H2 H3 H4 H5 H6]. split; [done|].
  assert (below ((k ∪ interval previous n) ∪ rest) = interval previous n ∪ below (k ∪ rest)) as Hb.
  { apply set_eq. intros x. unfold below.
    rewrite elem_of_filter, !elem_of_union, elem_of_filter, elem_of_union, elem_of_interval.
    split; [intros [? [[?|?]|?]]; auto|intros [?|[? [?|?]]]; auto].
    split; [lia|left; right; lia]. }
  assert (interval previous n ## below (k ∪ rest)) as Hdis.
  { intros x Hx Hin. unfold below in Hin. apply elem_of_filter in Hin as [? [Hin|Hin]%elem_of_union].
    - specialize (Hk x Hin). lia.
    - apply (Hd x); [|done]. apply elem_of_union. by right. }
  assert (Z.of_nat (size (below ((k ∪ interval previous n) ∪ rest)))
    = n + Z.of_nat (size (below (k ∪ rest))))%Z as Hsize.
  { rewrite Hb, (size_union _ _ Hdis), Nat2Z.inj_add. rewrite size_interval by lia. reflexivity. }
  rewrite Hsize in *.
  assert (forall s', os_used s' = os_used s -> os_limit_hit s' = os_limit_hit s ->
    (os_receiver s' = true -> os_receiver s = true /\
       event_bytes (os_events s') = event_bytes (os_events s) + n)%Z ->
    (event_bytes (os_events s') <= event_bytes (os_events s) + n)%Z ->
    output_ok s' (k ∪ rest)) as Hok.
  { intros s' Hu Hl Hr He. split; rewrite ?Hu, ?Hl; try done.
    - rewrite (overshoot_ext (k ∪ rest) ((k ∪ interval previous n) ∪ rest)); [done|].
      intros x Hx. rewrite !elem_of_union, elem_of_interval. intuition lia.
    - intros x Hx. apply H2. set_solver.
    - lia.
    - intros Hr'. destruct (Hr Hr') as [Hr0 He']. specialize (H4 Hr0). lia.
    - intros Ho. destruct (H6 Ho) as [?|(x&Hx&Hxm)]; [by left|right]. exists x. split; [|done].
      rewrite !elem_of_union, elem_of_interval in Hx. rewrite elem_of_union. intuition lia. }
  exists k. split; [set_solver|]. unfold send_event. simpl.
  destruct (os_receiver s) eqn:Hrec; (split; [|done]); apply Hok; simpl; try done.
  - intros _. split; [done|]. rewrite event_bytes_app. simpl. lia.
  - rewrite event_bytes_app. simpl. lia.
  - by rewrite Hrec.
  - lia.
Qed.

(** Between turns a task holds its token only, and at its end at most that. *)
Lemma safe_read_turn stdout process_id :
  safe_here (read_turn stdout process_id maximum) {[token stdout]} (fun r o =>
    match r with Some _ => o = {[token stdout]} | None => forall x, x ∈ o -> (x < 0)%Z end).
Proof.
  assert (token stdout < 0)%Z as Hneg by (by destruct stdout).
  unfold read_turn. eapply safe_bind; [apply safe_pipe|]. intros [data|] o [-> Hdata].
  2: { intros x ->%elem_of_singleton. lia. }
  set (n := Z.of_nat (length data)) in *.
  eapply safe_bind; [apply (safe_fetch_add _ n stdout); done|]. intros previous o [Hp ->].
  destruct (Z.leb_spec maximum previous) as [Hle|Hlt].
  - rewrite decide_True by lia.
    eapply safe_bind; [apply safe_limit|].
    { exists previous. rewrite elem_of_union, elem_of_interval. split; [right|]; lia. }
    intros _ o ->. eapply safe_bind; [apply safe_kill|]. intros _ o ->. simpl.
    intros x. rewrite elem_of_filter, elem_of_union, elem_of_interval. set_solver by lia.
  - set (allowed := Z.min (maximum - previous) n).
    assert (Z.of_nat (length (take (Z.to_nat allowed) data)) = allowed) as Hlen.
    { rewrite length_take. unfold allowed. lia. }
    destruct (Z.ltb_spec allowed n) as [Ha|Ha].
    + rewrite decide_True by lia. eapply safe_bind with (Q := fun _ o => o = ∅ ∪ interval previous allowed).
      { eapply safe_bind; [apply safe_limit|].
        - exists maximum. rewrite elem_of_union, elem_of_interval. split; [right|]; lia.
        - intros _ o ->. eapply safe_mono; [|apply safe_kill]. simpl. intros _ o ->.
          apply set_eq. intros x. rewrite elem_of_filter, !elem_of_union, !elem_of_interval.
          split; [intros [? [?|?]]|intros [?|?]]; try set_solver; [right; lia|].
          split; [lia|right; lia]. }
      intros _ o ->. eapply safe_bind.
      { apply (safe_send _ ∅ previous allowed); [set_solver|lia|lia|lia|done|by destruct stdout]. }
      intros [] o ->; [by intros x|]. eapply safe_bind; [apply safe_kill|]. intros _ o ->. by intros x.
    + assert (previous + n <= maximum)%Z by (unfold allowed in *; lia).
      assert (allowed = n) as Heq by (unfold allowed in *; lia). clearbody allowed. subst allowed.
      rewrite decide_False by lia. cbn [bind].
      eapply safe_bind.
      { apply (safe_send _ {[token stdout]} previous n); [|lia|lia|lia|done|destruct stdout; exact Hlen].
        intros x ->%elem_of_singleton. lia. }
      intros [] o ->; [done|]. eapply safe_bind; [apply safe_kill|]. intros _ o ->.
      intros x ->%elem_of_singleton. lia.
Qed.

Lemma safe_read_output turns stdout process_id :
  safe_here (read_output turns stdout process_id maximum) {[token stdout]} (fun _ o => forall x, x ∈ o -> (x < 0)%Z).
Proof.
  assert (token stdout < 0)%Z as Hneg by (by destruct stdout).
  induction turns as [|turns IH]; cbn [read_output].
  - intros x ->%elem_of_singleton. lia.
  - unfold safe_here in *. eapply safe_bind; [apply safe_read_turn|].
    intros [[]|] o Ho; [by rewrite Ho|done].
Qed.
End Accounting.

(** ** Both tasks together *)

Definition readers (turns1 turns2 : nat) (process_id : string) (maximum : Z) : list (prog OutputState bool) :=
  [read_output turns1 true process_id maximum; read_output turns2 false process_id maximum].

Definition output_start (stdout stderr : list PipeRead) : OutputState :=
  MkOutputState stdout stderr 0 false [] true 0.

(** Meanwhile the process writes what it likes, the client may go away and the
    task of the process may send events that carry no output. *)
Definition outside (s s' : OutputState) : Prop :=
  os_used s' = os_used s /\ os_limit_hit s' = os_limit_hit s
  /\ event_bytes (os_events s') = event_bytes (os_events s)
  /\ (os_receiver s' = true -> os_receiver s = true).

Definition no_arrivals (_ : OutputState) (_ : prog OutputState bool) (_ : OutputState) : Prop := False.

Definition finished (p : prog OutputState bool) : bool :=
  match p with Ret _ => true | Act _ _ => false end.

(** What a process starts with. *)
Definition nothing_sent (s : OutputState) : Prop :=
  os_used s = 0%Z /\ os_limit_hit s = false /\ event_bytes (os_events s) = 0%Z.

Lemma readers_pool_safe n1 n2 process_id maximum s :
  (0 <= maximum /\ maximum + 2 * buffer < 2 ^ 64)%Z -> nothing_sent s ->
  pool_safe any_step (output_ok maximum) (fun _ o => forall x, x ∈ o -> (x < 0)%Z)
    (readers n1 n2 process_id maximum, s).
Proof.
  intros Hm (Hu&Hl&He). exists [{[token true]}; {[token false]}]. split; [|split].
  - repeat constructor; by apply safe_read_output.
  - intros [|[|i]] [|[|j]] a b Hij Ha Hb; simplify_eq/=; set_solver.
  - assert (below maximum (⋃ [{[token true]}; {[token false]}]) = ∅) as Hb.
    { apply set_eq. intros x. unfold below. cbn. rewrite elem_of_filter. set_solver by lia. }
    split; cbn [snd]; rewrite ?Hb, ?Hu, ?He, ?Hl, ?size_empty; try lia; try done.
    + pose proof (overshoot_nonneg (⋃ [{[token true]}; {[token false]}])). lia.
    + intros x Hx. assert (x = token true \/ x = token false) as [->| ->] by set_solver; done.
Qed.

Lemma readers_limited n1 n2 process_id maximum s0 ts s :
  (0 <= maximum)%Z -> (maximum + 2 * buffer < 2 ^ 64)%Z -> nothing_sent s0 ->
  rtc (cstep no_arrivals outside) (readers n1 n2 process_id maximum, s0) (ts, s) ->
  (event_bytes (os_events s) <= maximum)%Z
  /\ (forallb finished ts = true ->
      (os_limit_hit s = true <-> (maximum < os_used s)%Z)
      /\ (os_receiver s = true -> event_bytes (os_events s) = Z.min (os_used s) maximum)).
Proof.
  intros H0 Hm Hs0 Hr.
  destruct (reachable_safe no_arrivals outside any_step (output_ok maximum)
    (fun _ o => forall x, x ∈ o -> (x < 0)%Z)) with (3 := readers_pool_safe n1 n2 process_id maximum s0 (conj H0 Hm) Hs0)
    (4 := Hr) as (owns&Hts&_&[H1 H2 H3 H4 H5 H6]); [done| |].
  { intros s1 s2 held [A1 A2 A3 A4 A5 A6] (E1&E2&E3&E4). split; [done|].
    split; rewrite ?E1, ?E2, ?E3; auto. }
  simpl in Hts, H1, H2, H3, H4, H5, H6. split; [lia|]. intros Hfin.
  assert (forall x, x ∈ ⋃ owns -> (x < 0)%Z) as Hneg.
  { intros x (o&[j Hj]%list_elem_of_lookup&Hx)%elem_of_union_list.
    destruct (Forall2_lookup_r _ _ _ _ _ Hts Hj) as (p&Hp&Hsafe).
    rewrite forallb_forall in Hfin. specialize (Hfin p).
    destruct p; [|exfalso; by apply list_elem_of_lookup_2, list_elem_of_In, Hfin in Hp].
    by apply Hsafe. }
  assert (below maximum (⋃ owns) = ∅) as Hb.
  { apply set_eq. intros x. unfold below. rewrite elem_of_filter. split; [|set_solver].
    intros [? Hx]. specialize (Hneg x Hx). lia. }
  rewrite Hb, size_empty in H4. split; [|intros Hrec; specialize (H4 Hrec); lia].
  split; [done|]. intros [?|(x&Hx&?)]%H6; [done|]. specialize (Hneg x Hx). lia.
Qed.

(** C30. Whatever the process writes, however the two tasks that forward its
    output are interleaved and whenever the client goes away: the client is
    never sent more than [max_output_bytes] bytes in all; once both tasks are
    finished, the exit event reports [output_limit_exceeded] exactly when more
    than that was read, and a client that stayed was sent all the bytes that
    were read up to the limit. *)
Theorem guest_output_limited n1 n2 process_id maximum stdout stderr ts s :
  (0 <= maximum)%Z -> (maximum + 2 * buffer < 2 ^ 64)%Z ->
  rtc (cstep no_arrivals outside) (readers n1 n2 process_id maximum, output_start stdout stderr) (ts, s) ->
  (event_bytes (os_events s) <= maximum)%Z
  /\ (forallb finished ts = true ->
      (os_limit_hit s = true <-> (maximum < os_used s)%Z)
      /\ (os_receiver s = true -> event_bytes (os_events s) = Z.min (os_used s) maximum)).
Proof. intros H0 Hm. by apply readers_limited. Qed.

(** Two pipes of five bytes and a limit of seven, run in turns to the end. *)
Definition example_pipes : list PipeRead := [PipeData (replicate 5 Byte.x61)].
Definition example_run : list (prog OutputState bool) * OutputState :=
  run_schedule [0; 1; 0; 1; 0; 1; 0; 1; 0; 1; 0; 1; 0; 1]
    (readers 3 3 "p" 7, output_start example_pipes example_pipes).

Lemma guest_output_limited_witness :
  (forallb finished example_run.1 = true /\ os_limit_hit example_run.2 = true
   /\ event_bytes (os_events example_run.2) = 7%Z)
  /\ (event_bytes (os_events example_run.2) <= 7)%Z.
Proof.
  split; [vm_compute; auto|].
  apply (guest_output_limited 3 3 "p" 7 example_pipes example_pipes example_run.1 example_run.2);
    [lia|unfold buffer; lia|].
  rewrite <-surjective_pairing. apply run_schedule_reachable.
Defined.

(** ** What the tasks send

    [forwards p]: whatever the others do, [p] only adds output events to the
    channel. *)
Definition is_output (e : ProcessEvent) : bool :=
  match pe_event e with Stdout _ | Stderr _ => true | _ => false end.

Definition adds_output (s s' : OutputState) : Prop :=
  exists out, os_events s' = os_events s ++ out /\ forallb is_output out = true.

#[export] Instance adds_output_preorder : PreOrder adds_output.
Proof.
  split; [intros s; exists []; by rewrite app_nil_r|].
  intros s1 s2 s3 (o1&He1&Ho1) (o2&He2&Ho2). exists (o1 ++ o2).
  by rewrite He2, He1, app_assoc, forallb_app, Ho1, Ho2.
Qed.

Fixpoint forwards {A} (p : prog OutputState A) : Prop :=
  match p with
  | Ret _ => True
  | Act f k => forall s, adds_output s (f s).2 /\ os_receiver (f s).2 = os_receiver s /\ forwards (k (f s).1)
  end.

Lemma forwards_bind {A B} (p : prog OutputState A) (k : A -> prog OutputState B) :
  forwards p -> (forall a, forwards (k a)) -> forwards (bind p k).
Proof.
  intros Hp Hk. induction p as [a|C f k' IH]; simpl in *; [auto|].
  intros s. destruct (Hp s) as (?&?&?). auto.
Qed.

Lemma forwards_same {A} (f : OutputState -> A * OutputState) :
  (forall s, os_events (f s).2 = os_events s /\ os_receiver (f s).2 = os_receiver s) -> forwards (act f).
Proof. intros Hf s. destruct (Hf s) as [He Hr]. split; [exists []; by rewrite app_nil_r|done]. Qed.

Lemma send_event_forwards e : is_output e = true -> forwards (send_event e).
Proof.
  intros He s. unfold send_event. destruct (os_receiver s) eqn:Hr; simpl; (split; [|done]).
  - exists [e]. simpl. by rewrite He.
  - exists []. by rewrite app_nil_r.
Qed.

Lemma read_output_forwards turns stdout process_id maximum :
  forwards (read_output turns stdout process_id maximum).
Proof.
  induction turns as [|turns IH]; cbn [read_output]; [done|]. apply forwards_bind; [|by intros [[]|]].
  unfold read_turn. apply forwards_bind.
  { apply forwards_same. intros s. destruct (pipe_of stdout s) as [|[d|] l]; by destruct stdout. }
  intros [data|]; [|done]. cbv zeta. apply forwards_bind; [by apply forwards_same|]. intros previous.
  destruct (_ <=? _)%Z.
  { apply forwards_bind; [by apply forwards_same|]. intros _.
    apply forwards_bind; [by apply forwards_same|]. done. }
  apply forwards_bind.
  { destruct (_ <? _)%Z; [|done]. apply forwards_bind; [|intros _]; by apply forwards_same. }
  intros _. apply forwards_bind; [apply send_event_forwards; by destruct stdout|].
  intros []; simpl; [by destruct (_ <? _)%Z|]. intros s. split; [exists []; by rewrite app_nil_r|done].
Qed.

(** ** The tasks end

    [prevails R p s Q]: [p] started in [s] ends in a result that satisfies
    [Q], when the others change the state by [R] before each of its steps. *)
Fixpoint prevails {A} (R : OutputState -> OutputState -> Prop) (p : prog OutputState A)
    (s : OutputState) (Q : A -> OutputState -> Prop) : Prop :=
  match p with
  | Ret a => Q a s
  | Act f k => forall s', R s s' -> prevails R (k (f s').1) (f s').2 Q
  end.

Lemma prevails_bind {A B} R (p : prog OutputState A) (k : A -> prog OutputState B) s Q :
  prevails R p s (fun a s' => prevails R (k a) s' Q) -> prevails R (bind p k) s Q.
Proof. revert s. induction p as [a|C f k' IH]; intros s; simpl; [done|]. intros Hp s' Hs. auto. Qed.

Lemma prevails_mono {A} R (p : prog OutputState A) s (Q Q' : A -> OutputState -> Prop) :
  (forall a s', Q a s' -> Q' a s') -> prevails R p s Q -> prevails R p s Q'.
Proof. intros HQ. revert s. induction p as [a|C f k' IH]; intros s; simpl; auto. Qed.

(** What the other tasks do to the counter, while it does not wrap. *)
Definition counter_grows (s s' : OutputState) : Prop :=
  (os_used s <= os_used s' < 2 ^ 64 - buffer)%Z.

Lemma read_turn_progress stdout process_id maximum s :
  (0 <= os_used s)%Z ->
  prevails counter_grows (read_turn stdout process_id maximum) s
    (fun r s' => match r with
                 | Some _ => (os_used s < os_used s')%Z /\ (os_used s < maximum)%Z
                 | None => True
                 end).
Proof.
  intros H0. unfold read_turn. intros s1 H1. unfold pipe_of.
  assert (forall data, (0 < Z.of_nat (length data) <= buffer)%Z -> forall s2,
    (os_used s <= os_used s2)%Z ->
    prevails counter_grows
      (do previous <- fetch_add (Z.of_nat (length data)) ;;
       if (maximum <=? previous)%Z then
         do _ <- store_limit_hit ;; do _ <- kill_process ;; Ret None
       else
         let allowed := Z.min (maximum - previous) (Z.of_nat (length data)) in
         do _ <- (if (allowed <? Z.of_nat (length data))%Z
                  then do _ <- store_limit_hit ;; kill_process else Ret tt) ;;
         let part := take (Z.to_nat allowed) data in
         let event := if stdout then Stdout part else Stderr part in
         do sent <- send_event (MkProcessEvent process_id event) ;;
         if negb sent then do _ <- kill_process ;; Ret None
         else if (allowed <? Z.of_nat (length data))%Z then Ret None else Ret (Some tt))%prog s2
      (fun r s' => match r with
                   | Some _ => (os_used s < os_used s')%Z /\ (os_used s < maximum)%Z
                   | None => True
                   end)) as Hrest.
  { intros data Hd s2 H2 s3 H3. unfold counter_grows in *. cbn [fst snd bind].
    destruct (Z.leb_spec maximum (os_used s3)) as [Hle|Hlt]; [by intros s4 _ s5 _|]. cbv zeta.
    assert ((os_used s3 + Z.of_nat (length data)) mod 2 ^ 64 = os_used s3 + Z.of_nat (length data))%Z
      as Hmod by (apply Z.mod_small; lia).
    destruct (Z.ltb_spec (Z.min (maximum - os_used s3) (Z.of_nat (length data))) (Z.of_nat (length data))).
    - intros s4 _ s5 _ s6 _. unfold send_event. simpl. destruct (os_receiver s6); simpl; [done|by intros s7 _].
    - cbn [bind]. intros s6 H6. simpl in H6. rewrite Hmod in H6. simpl.
      destruct (os_receiver s6); simpl; [lia|by intros s7 _]. }
  destruct stdout; [destruct (os_stdout s1) as [|[d|] l]|destruct (os_stderr s1) as [|[d|] l]];
    simpl; try done; (case_bool_decide as Hnil; [done|]);
    (apply (Hrest (take BUFFER d)); [|unfold counter_grows in H1; simpl; lia]);
    rewrite length_take; pose proof BUFFER_eq; (destruct d; [done|]); cbn [length]; unfold buffer in *; lia.
Qed.

(** A forwarding task ends by itself within [max_output_bytes + 1] turns of
    its loop, whatever the process writes and whatever the other task adds to
    the counter meanwhile. *)
Theorem guest_output_ends stdout process_id maximum turns s :
  (0 <= os_used s)%Z -> (0 <= maximum < Z.of_nat turns)%Z ->
  prevails counter_grows (read_output turns stdout process_id maximum) s (fun ended _ => ended = true).
Proof.
  intros H0 Hm. assert (maximum < os_used s + Z.of_nat turns)%Z as Hsum by lia.
  assert (turns <> 0) as Hpos by lia. clear Hm.
  revert s H0 Hsum. induction turns as [|turns IH]; [done|]. intros s H0 Hsum. cbn [read_output].
  apply prevails_bind. eapply prevails_mono; [|by apply read_turn_progress].
  intros [u|] s'; [|done]. intros [Hs Hlt]. apply IH; lia.
Qed.

Lemma guest_output_ends_witness :
  (run (read_output 8 true "p" 7) (output_start example_pipes [])).1 = true
  /\ prevails counter_grows (read_output 8 true "p" 7) (output_start example_pipes [])
       (fun ended _ => ended = true).
Proof. split; [by vm_compute|]. apply guest_output_ends; simpl; lia. Defined.
