(* ===== verification/Guest.v ===== *)
(** * The guest agent

    Models [crates/ferrobox-guest/src/service.rs]: the service that runs inside
    the virtual machine. Its output forwarding is in [GuestOutput]; here are its
    identity, its RPCs and the task that runs one process. Files are reached
    through the [cap-std] crate, whose calls are parameters over the file
    system of [Fs]. *)
From S2P Require Import Prelude Conc Core Utf8 Fs Commands Inet GuestOutput.

(** ** Code outside the repository *)

(** [cap_std::fs]: directories opened as capabilities, files with a position.
    A read returns at most what was asked for. *)
Class CapStd := {
  CapDir : Type;
  CapFile : Type;
  CapEntry : Type;
  cap_open_ambient_dir : Path -> prog Fs (result CapDir IoError);
  cap_symlink_metadata : CapDir -> Path -> prog Fs (result Node IoError);
  cap_metadata : CapDir -> Path -> prog Fs (result Node IoError);
  cap_create_dir_all : CapDir -> Path -> prog Fs (result unit IoError);
  cap_open_with : CapDir -> OpenOptions -> Path -> prog Fs (result CapFile IoError);
  cap_seek : CapFile -> Z -> prog Fs (result CapFile IoError);
  cap_read : CapFile -> Z -> prog Fs (result (list Byte.byte * CapFile) IoError);
  cap_write_all : CapFile -> list Byte.byte -> prog Fs (result unit IoError);
  cap_flush : CapFile -> prog Fs (result unit IoError);
  cap_read_dir : CapDir -> Path -> prog Fs (result (list (result CapEntry IoError)) IoError);
  cap_entry_metadata : CapEntry -> prog Fs (result Node IoError);
  cap_file_name : CapEntry -> string;
  cap_read_at_most f size fs data f' fs' : (0 <= size)%Z ->
    run (cap_read f size) fs = (Ok (data, f'), fs') -> (Z.of_nat (length data) <= size)%Z;
}.

Inductive Waited := WaitedOk (status : ExitStatus) | WaitedErr (error : IoError) | WaitElapsed.

(** [tokio::process] and [nix::sys::signal]: what a spawned command does is
    decided by that command. [child_wait] is [timeout(d, child.wait())] and
    [child_reap] is [child.wait()] after a kill. *)
Class GuestProcesses := {
  Child : Type;
  spawn : list string -> Path -> gmap string string -> Z -> Z -> Fs -> result Child IoError * Fs;
  child_id : Child -> option Z;
  child_stdout : Child -> list PipeRead;
  child_stderr : Child -> list PipeRead;
  child_wait : Child -> Z -> Fs -> Waited * Fs;
  child_reap : Child -> Fs -> result ExitStatus IoError * Fs;
  signal_try_from : Z -> option Z;
  kill : Z -> Z -> Fs -> result unit IoError;
}.

(** ** Messages *)

(** The [tonic::Status] codes the service uses. *)
Inductive Code :=
| FailedPrecondition | Unauthenticated | InvalidArgument | PermissionDenied | NotFound
| AlreadyExists | ResourceExhausted | Internal.

#[export] Instance Code_eq_dec : EqDecision Code.
Proof. solve_decision. Defined.

Record Status := MkStatus { st_code : Code; st_message : string }.

Record Auth := MkAuth { au_token : string }.

Record InitRequest := MkInitRequest {
  ir_sandbox_id : string;
  ir_token : string;
  ir_command_uid : Z;
  ir_command_gid : Z;
  ir_max_file_bytes : Z;
  ir_max_processes : Z;
  ir_guest_ipv4 : string;
  ir_guest_prefix_length : Z;
  ir_gateway_ipv4 : string;
  ir_dns_ipv4 : string;
}.

Record InitResponse := MkInitResponse { initialized : bool; replayed : bool }.

(** A rekey request carries the fields of an initialization. *)
Record RekeyRequest := MkRekeyRequest { rk_auth : option Auth; rk_init : InitRequest }.

Record HealthResponse := MkHealthResponse { ready : bool; version : string; health_sandbox_id : string }.

Record StartProcessRequest := MkStartProcessRequest {
  sp_auth : option Auth;
  sp_argv : list string;
  sp_cwd : string;
  sp_environment : gmap string string;
  sp_timeout_millis : Z;
  sp_max_output_bytes : Z;
}.

Record SignalProcessRequest := MkSignalProcessRequest {
  sg_auth : option Auth; sg_process_id : string; sg_signal : Z }.

Record GuestWriteRequest := MkGuestWriteRequest {
  gw_auth : option Auth; gw_path : string; gw_data : list Byte.byte; gw_overwrite : bool }.

Record GuestReadRequest := MkGuestReadRequest {
  gr_auth : option Auth; gr_path : string; gr_offset : Z; gr_max_bytes : Z }.

Record FileChunk := MkFileChunk { fc_data : list Byte.byte; fc_eof : bool }.

Record GuestListRequest := MkGuestListRequest { gl_auth : option Auth; gl_path : string }.

Inductive GuestFileKind := KindFile | KindDirectory.

Record GuestEntry := MkGuestEntry {
  ge_name : string;
  ge_path : string;
  ge_kind : GuestFileKind;
  ge_size_bytes : Z;
  ge_modified_unix_millis : option Z;
  ge_mode : option Z;
}.

(** ** State *)

Definition FILE_CHUNK_BYTES : Z := 1024 * 1024.

Record InitState := MkInitState {
  in_sandbox_id : string;
  token_digest : list Byte.byte;
  in_uid : Z;
  in_gid : Z;
  in_max_file_bytes : Z;
  guest_cgroup_available : bool;
}.

(** What [start_process] hands to the task it spawns. *)
Record ProcessTask := MkProcessTask {
  tk_request : StartProcessRequest;
  tk_cwd : Path;
  tk_process_id : string;
  tk_state : InitState;
}.

(** The service with the machine it runs on: the files, the identifiers drawn,
    the tasks spawned and the signals delivered, as process and signal. *)
Record GuestService := MkGuestService {
  gs_workspace : Path;
  gs_initialization : option InitState;
  gs_processes : gmap string Z;
  gs_fs : Fs;
  gs_uuids : nat;
  gs_tasks : list ProcessTask;
  gs_signals : list (Z * Z);
}.

Definition set_initialization (i : option InitState) (s : GuestService) : GuestService :=
  MkGuestService (gs_workspace s) i (gs_processes s) (gs_fs s) (gs_uuids s) (gs_tasks s) (gs_signals s).
Definition set_processes (m : gmap string Z) (s : GuestService) : GuestService :=
  MkGuestService (gs_workspace s) (gs_initialization s) m (gs_fs s) (gs_uuids s) (gs_tasks s) (gs_signals s).
Definition set_guest_fs (fs : Fs) (s : GuestService) : GuestService :=
  MkGuestService (gs_workspace s) (gs_initialization s) (gs_processes s) fs (gs_uuids s) (gs_tasks s) (gs_signals s).
Definition set_guest_uuids (n : nat) (s : GuestService) : GuestService :=
  MkGuestService (gs_workspace s) (gs_initialization s) (gs_processes s) (gs_fs s) n (gs_tasks s) (gs_signals s).
Definition set_tasks (l : list ProcessTask) (s : GuestService) : GuestService :=
  MkGuestService (gs_workspace s) (gs_initialization s) (gs_processes s) (gs_fs s) (gs_uuids s) l (gs_signals s).
Definition set_signals (l : list (Z * Z)) (s : GuestService) : GuestService :=
  MkGuestService (gs_workspace s) (gs_initialization s) (gs_processes s) (gs_fs s) (gs_uuids s) (gs_tasks s) l.

#[export] Instance guest_fs : Lens GuestService Fs.
Proof. by refine {| view := gs_fs; put := set_guest_fs |}; intros; destruct s. Defined.

(** [GuestService::new] *)
Definition GuestService_new (workspace : Path) (fs : Fs) : result GuestService IoError :=
  match run (create_dir_all workspace) fs with
  | (Err error, _) => Err error
  | (Ok _, fs') => Ok (MkGuestService workspace None ∅ fs' 0 [] [])
  end.

Section Guest.
Context `{U : UuidLib} `{C : CryptoLib} `{D : CapStd} `{P : GuestProcesses} `{H : HostPrograms}.

Definition internal {A} (r : result A IoError) : result A Status :=
  map_err (fun error => MkStatus Internal (io_text error)) r.

Definition map_file_error (error : IoError) : Status :=
  match io_kind error with
  | IoNotFound => MkStatus NotFound "path does not exist"
  | IoAlreadyExists => MkStatus AlreadyExists "path exists"
  | IoPermissionDenied => MkStatus PermissionDenied "path is forbidden"
  | _ => MkStatus Internal (io_text error)
  end.

Definition digest (token : string) : list Byte.byte := sha256 (String.list_byte_of_string token).

(** ** Identity *)

Definition authorized (auth : option Auth) : prog GuestService (result InitState Status) :=
  (do initialization <- gets gs_initialization ;;
   do? state <- of_result (ok_or (MkStatus FailedPrecondition "guest has not been initialized")
     initialization) ;;
   do? token <- of_result (ok_or (MkStatus Unauthenticated "missing token") (au_token <$> auth)) ;;
   if negb (ct_eq (token_digest state) (digest token))
   then throw (MkStatus Unauthenticated "invalid token")
   else ok state)%prog.

Definition run_guest_command (program : string) (arguments : list string) :
  prog GuestService (result unit Status) :=
  (do output <- act (fun s => let '(out, fs') := command_output program arguments (gs_fs s) in
     (out, set_guest_fs fs' s)) ;;
   match output with
   | Err error => throw (MkStatus Internal ("start " +:+ program +:+ ": " +:+ io_text error))
   | Ok output =>
       if status_success (out_status output) then ok tt
       else throw (MkStatus Internal
         (program +:+ " failed: " +:+ trim (from_utf8_lossy (out_stderr output))))
   end)%prog.

Definition parse_address (complaint text : string) : result Ipv4Addr Status :=
  ok_or (MkStatus InvalidArgument complaint) (parse_ipv4 text).

Definition configure_guest_network (address : string) (prefix_length : Z) (gateway dns : string) :
  prog GuestService (result unit Status) :=
  (if is_empty address then
     if negb (prefix_length =? 0)%Z || negb (is_empty gateway) || negb (is_empty dns)
     then throw (MkStatus InvalidArgument "incomplete guest network configuration")
     else ok tt
   else
   do? address <- of_result (parse_address "invalid guest IPv4 address" address) ;;
   do? gateway <- of_result (parse_address "invalid gateway IPv4 address" gateway) ;;
   do? dns <- of_result (parse_address "invalid DNS IPv4 address" dns) ;;
   if negb (in_range 1 32 prefix_length)
   then throw (MkStatus InvalidArgument "invalid guest prefix length")
   else
   let address_with_prefix := Ipv4Addr_to_string address +:+ "/" +:+ pretty prefix_length in
   let gateway := Ipv4Addr_to_string gateway in
   do? _ <- run_guest_command "ip" ["link"; "set"; "eth0"; "up"] ;;
   do? _ <- run_guest_command "ip" ["address"; "replace"; address_with_prefix; "dev"; "eth0"] ;;
   do? _ <- run_guest_command "ip" ["route"; "replace"; "default"; "via"; gateway] ;;
   prog_map_err (fun error => MkStatus Internal ("write resolv.conf: " +:+ io_text error))
     (lift (fs_write (Path_of_string "/etc/resolv.conf")
       ("nameserver " +:+ Ipv4Addr_to_string dns +:+ String newline ""))))%prog.

Definition cgroup_root : Path := Path_of_string "/sys/fs/cgroup/ferrobox-guest".

Definition configure_pids_limit (maximum : Z) : prog GuestService (result bool Status) :=
  (do created <- lift (create_dir_all cgroup_root) ;;
   if negb (is_ok created) then ok false
   else
   do? _ <- prog_map_err (fun error => MkStatus Internal ("set pids.max: " +:+ io_text error))
     (lift (fs_write (join cgroup_root "pids.max") (pretty maximum))) ;;
   ok true)%prog.

Definition assign_guest_cgroup (pid : Z) (available : bool) : prog GuestService (result unit Status) :=
  (if negb available then ok tt
   else prog_map_err (fun error => MkStatus Internal ("assign process cgroup: " +:+ io_text error))
     (lift (fs_write (Path_of_string "/sys/fs/cgroup/ferrobox-guest/cgroup.procs") (pretty pid))))%prog.

Definition CARGO_PKG_VERSION : string := "0.1.0".

Definition health : prog GuestService (result HealthResponse Status) :=
  (do initialization <- gets gs_initialization ;;
   ok (MkHealthResponse true CARGO_PKG_VERSION
     (match initialization with Some state => in_sandbox_id state | None => "" end)))%prog.

(** The conditions that [init] and [rekey] both put on the new identity. *)
Definition identity_malformed (request : InitRequest) : bool :=
  is_empty (ir_sandbox_id request) || (slen (ir_token request) <? 32)%Z
  || (ir_command_uid request =? 0)%Z || (ir_max_file_bytes request =? 0)%Z
  || (ir_max_processes request =? 0)%Z.

Definition candidate_of (request : InitRequest) (available : bool) : InitState :=
  MkInitState (ir_sandbox_id request) (digest (ir_token request)) (ir_command_uid request)
    (ir_command_gid request) (ir_max_file_bytes request) available.

Definition same_identity (existing candidate : InitState) : bool :=
  String.eqb (in_sandbox_id existing) (in_sandbox_id candidate)
  && ct_eq (token_digest existing) (token_digest candidate)
  && (in_uid existing =? in_uid candidate)%Z && (in_gid existing =? in_gid candidate)%Z.

(** The write lock is held from the comparison to the end. *)
Definition init (request : InitRequest) : prog GuestService (result InitResponse Status) :=
  (if identity_malformed request
   then throw (MkStatus InvalidArgument "invalid initialization")
   else
   do? available <- configure_pids_limit (ir_max_processes request) ;;
   let candidate := candidate_of request available in
   do state <- gets gs_initialization ;;
   match state with
   | Some existing =>
       if same_identity existing candidate
       then ok (MkInitResponse true true)
       else throw (MkStatus FailedPrecondition "guest already initialized with different identity")
   | None =>
       do? _ <- configure_guest_network (ir_guest_ipv4 request) (ir_guest_prefix_length request)
         (ir_gateway_ipv4 request) (ir_dns_ipv4 request) ;;
       do _ <- modify (set_initialization (Some candidate)) ;;
       ok (MkInitResponse true false)
   end)%prog.

Definition rekey (request : RekeyRequest) : prog GuestService (result unit Status) :=
  (do? _ <- authorized (rk_auth request) ;;
   let new := rk_init request in
   if identity_malformed new
   then throw (MkStatus InvalidArgument "invalid rekey request")
   else
   do? _ <- (if negb (is_empty (ir_guest_ipv4 new))
             then run_guest_command "ip" ["address"; "flush"; "dev"; "eth0"; "scope"; "global"]
             else ok tt) ;;
   do? _ <- configure_guest_network (ir_guest_ipv4 new) (ir_guest_prefix_length new)
     (ir_gateway_ipv4 new) (ir_dns_ipv4 new) ;;
   do? available <- configure_pids_limit (ir_max_processes new) ;;
   do _ <- modify (set_initialization (Some (candidate_of new available))) ;;
   ok tt)%prog.

(** ** Paths *)

Definition relative_path (path : string) : result Path Status :=
  match SandboxPath_new path with
  | Ok p => Ok (Path_of_string (SandboxPath_relative p))
  | Err error => Err (MkStatus InvalidArgument (ValidationError_to_string error))
  end.

(** The loop of [verify_components] over the remaining components. *)
Fixpoint verify_loop (directory : CapDir) (current : Path) (cs : list Component)
    (allow_missing_leaf : bool) : prog Fs (result unit Status) :=
  match cs with
  | [] => ok tt
  | component :: rest =>
      let current := push current (Path_of_string (as_os_str component)) in
      let leaf := bool_decide (rest = []) in
      (do found <- cap_symlink_metadata directory current ;;
       match found with
       | Ok metadata =>
           if is_symlink metadata
           then throw (MkStatus PermissionDenied "symbolic links are forbidden")
           else if negb leaf && negb (is_dir metadata)
           then throw (MkStatus InvalidArgument "parent is not a directory")
           else verify_loop directory current rest allow_missing_leaf
       | Err error =>
           if bool_decide (io_kind error = IoNotFound) && allow_missing_leaf && leaf
           then verify_loop directory current rest allow_missing_leaf
           else if bool_decide (io_kind error = IoNotFound)
           then throw (MkStatus NotFound "path does not exist")
           else throw (MkStatus Internal (io_text error))
       end)%prog
  end.

Definition verify_components (directory : CapDir) (relative : Path) (allow_missing_leaf : bool) :
  prog Fs (result unit Status) :=
  verify_loop directory (MkPath false [""]) (components relative) allow_missing_leaf.

Definition open_workspace (path : Path) : prog Fs (result CapDir Status) :=
  fmap_prog internal (cap_open_ambient_dir path).

Definition directory_relative_path (relative : Path) : Path :=
  if bool_decide (relative = MkPath false [""]) then Path_of_string "." else relative.

(** ** Processes *)

Definition has_nul (value : string) : bool := string_contains nul value.

(** The answer is the stream of the events that the spawned task sends. *)
Definition start_process (request : StartProcessRequest) : prog GuestService (result unit Status) :=
  (do? state <- authorized (sp_auth request) ;;
   if bool_decide (sp_argv request = []) || (256 <? length (sp_argv request))
      || existsb has_nul (sp_argv request) || (sp_timeout_millis request =? 0)%Z
      || (sp_max_output_bytes request =? 0)%Z
   then throw (MkStatus InvalidArgument "invalid process request")
   else
   do? relative_cwd <- of_result (relative_path (sp_cwd request)) ;;
   do root <- gets gs_workspace ;;
   do? workspace <- lift (open_workspace root) ;;
   do? _ <- lift (verify_components workspace relative_cwd false) ;;
   let cwd := push root relative_cwd in
   do process_id <- act (fun s => (uuid_to_string (new_v4 (gs_uuids s)),
     set_guest_uuids (S (gs_uuids s)) s)) ;;
   do _ <- modify (fun s => set_tasks (gs_tasks s ++ [MkProcessTask request cwd process_id state]) s) ;;
   ok tt)%prog.

(** A delivered signal is recorded. *)
Definition deliver (pid signal : Z) : prog GuestService (result unit IoError) :=
  act (fun s => (kill pid signal (gs_fs s), set_signals (gs_signals s ++ [(pid, signal)]) s)).

Definition signal_process (request : SignalProcessRequest) : prog GuestService (result unit Status) :=
  (do? _ <- authorized (sg_auth request) ;;
   do? pid <- gets (fun s => ok_or (MkStatus NotFound "process does not exist")
     (gs_processes s !! sg_process_id request)) ;;
   do? signal <- of_result (ok_or (MkStatus InvalidArgument "invalid signal")
     (signal_try_from (sg_signal request))) ;;
   fmap_prog internal (deliver pid signal))%prog.

(** ** Files *)

Definition write_file (request : GuestWriteRequest) : prog GuestService (result Z Status) :=
  (do? state <- authorized (gw_auth request) ;;
   if (in_max_file_bytes state <? Z.of_nat (length (gw_data request)))%Z
   then throw (MkStatus ResourceExhausted "file exceeds upload limit")
   else
   do? relative <- of_result (relative_path (gw_path request)) ;;
   do workspace_path <- gets gs_workspace ;;
   lift (
     do? directory <- open_workspace workspace_path ;;
     do? _ <- verify_components directory relative true ;;
     do? _ <- (match parent relative with
               | Some up => fmap_prog internal (cap_create_dir_all directory up)
               | None => ok tt
               end) ;;
     do? file <- prog_map_err map_file_error
       (cap_open_with directory (write_options (gw_overwrite request)) relative) ;;
     do? _ <- fmap_prog internal (cap_write_all file (gw_data request)) ;;
     do? _ <- fmap_prog internal (cap_flush file) ;;
     ok (Z.of_nat (length (gw_data request)))))%prog.

(** The state of the read loop: the bytes still wanted, the chunks read and the
    open file. *)
Record Reading := MkReading { rd_remaining : Z; rd_chunks : list FileChunk; rd_file : CapFile }.

(** One iteration. The sum of the offset and the count wraps at 64 bits. *)
Definition read_chunk (offset maximum len : Z) (r : Reading) :
  prog Fs (Reading + result (list FileChunk) Status) :=
  (if (rd_remaining r <=? 0)%Z then Ret (inr (Ok (rd_chunks r)))
   else
   let size := Z.min (rd_remaining r) FILE_CHUNK_BYTES in
   do read <- cap_read (rd_file r) size ;;
   match read with
   | Err error => Ret (inr (Err (MkStatus Internal (io_text error))))
   | Ok (data, file) =>
       let read := Z.of_nat (length data) in
       let remaining := saturating_sub (rd_remaining r) read in
       let eof := (read =? 0)%Z
         || (len <=? (offset + saturating_sub maximum remaining) mod 2 ^ 64)%Z in
       let chunks := rd_chunks r ++ [MkFileChunk data eof] in
       Ret (if eof then inr (Ok chunks) else inl (MkReading remaining chunks file))
   end)%prog.

(** Every iteration lowers the 64-bit count or is the last. *)
Definition READ_TURNS : nat := 64.

Definition read_chunks (offset maximum len : Z) (file : CapFile) :
  prog Fs (result (list FileChunk) Status) :=
  fmap_prog (fun ended => match ended with
                          | inr chunks => chunks
                          | inl _ => Err (MkStatus Internal "out of turns")
                          end)
    (loop READ_TURNS (read_chunk offset maximum len) (MkReading maximum [] file)).

Definition read_file (request : GuestReadRequest) : prog GuestService (result (list FileChunk) Status) :=
  (do? state <- authorized (gr_auth request) ;;
   do? relative <- of_result (relative_path (gr_path request)) ;;
   do workspace_path <- gets gs_workspace ;;
   let maximum := Z.min (gr_max_bytes request) (in_max_file_bytes state) in
   lift (
     do? directory <- open_workspace workspace_path ;;
     do? _ <- verify_components directory relative false ;;
     do? metadata <- prog_map_err map_file_error (cap_metadata directory relative) ;;
     if negb (is_file metadata)
     then throw (MkStatus InvalidArgument "path is not a regular file")
     else
     do? file <- prog_map_err map_file_error (cap_open_with directory read_options relative) ;;
     do? file <- fmap_prog internal (cap_seek file (gr_offset request)) ;;
     do? chunks <- read_chunks (gr_offset request) maximum (metadata_len metadata) file ;;
     ok (if bool_decide (chunks = []) then [MkFileChunk [] true] else chunks)))%prog.

Definition modified_millis (n : Node) : option Z :=
  if (n_mtime_ns n <? 0)%Z then None
  else let ms := (n_mtime_ns n / 1000000)%Z in if (ms <=? u64_max)%Z then Some ms else None.

(** The entry that [list_directory] reports, [None] when it is skipped. *)
Definition guest_entry (base name : string) (n : Node) : option GuestEntry :=
  let kind := if is_file n then Some KindFile else if is_dir n then Some KindDirectory else None in
  let name := from_utf8_lossy (String.list_byte_of_string name) in
  (fun kind => MkGuestEntry name (base +:+ "/" +:+ name) kind (metadata_len n) (modified_millis n) None)
    <$> kind.

Definition ENTRY_LIMIT : nat := 4096.

Fixpoint guest_entries (base : string) (entries : list (result CapEntry IoError))
    (output : list GuestEntry) : prog Fs (result (list GuestEntry) Status) :=
  match entries with
  | [] => ok output
  | entry :: rest =>
      (if ENTRY_LIMIT <=? length output
       then throw (MkStatus ResourceExhausted "directory entry limit exceeded")
       else
       do? entry <- of_result (map_err map_file_error entry) ;;
       do? metadata <- prog_map_err map_file_error (cap_entry_metadata entry) ;;
       guest_entries base rest
         (match guest_entry base (cap_file_name entry) metadata with
          | Some e => output ++ [e]
          | None => output
          end))%prog
  end.

Definition guest_entry_le (a b : GuestEntry) : Prop := String.leb (ge_name a) (ge_name b) = true.
#[export] Instance guest_entry_le_dec : RelDecision guest_entry_le.
Proof. intros a b. unfold guest_entry_le. apply _. Defined.

Definition list_directory (request : GuestListRequest) : prog GuestService (result (list GuestEntry) Status) :=
  (do? _ <- authorized (gl_auth request) ;;
   do? relative <- of_result (relative_path (gl_path request)) ;;
   do workspace_path <- gets gs_workspace ;;
   let base := trim_end_matches slash (gl_path request) in
   lift (
     do? directory <- open_workspace workspace_path ;;
     do? _ <- verify_components directory relative false ;;
     do? entries <- prog_map_err map_file_error
       (cap_read_dir directory (directory_relative_path relative)) ;;
     do? output <- guest_entries base entries [] ;;
     ok (merge_sort guest_entry_le output)))%prog.

(** ** The task of one process *)

Definition SIGKILL : Z := 9.

(** The service, the two forwarding tasks and what they share. *)
Record TaskState := MkTaskState {
  ts_guest : GuestService;
  ts_readers : list (prog OutputState bool);
  ts_output : OutputState;
}.

#[export] Instance task_guest : Lens TaskState GuestService.
Proof.
  by refine {| view := ts_guest; put := fun g s => MkTaskState g (ts_readers s) (ts_output s) |};
    intros; destruct s.
Defined.
#[export] Instance task_output : Lens TaskState OutputState.
Proof.
  by refine {| view := ts_output; put := fun o s => MkTaskState (ts_guest s) (ts_readers s) o |};
    intros; destruct s.
Defined.

(** A step that is not the task's own: one of a forwarding task, or the client
    going away. *)
Definition other_step (turn : option nat) (c : list (prog OutputState bool) * OutputState) :
  list (prog OutputState bool) * OutputState :=
  match turn with Some i => sched_step i c | None => (c.1, drop_receiver c.2) end.

Definition others (turns : list (option nat)) : prog TaskState unit :=
  modify (fun s =>
    let c := foldl (fun c turn => other_step turn c) (ts_readers s, ts_output s) turns in
    MkTaskState (ts_guest s) c.1 c.2).

Definition send_error (process_id code message : string) : prog TaskState unit :=
  fmap_prog (fun _ => tt) (lift (send_event (MkProcessEvent process_id (EError code message)))).

(** The counter, the flag and the pipes of a new process; the channel stays. *)
Definition fresh_output (stdout stderr : list PipeRead) (s : OutputState) : OutputState :=
  MkOutputState stdout stderr 0 false (os_events s) (os_receiver s) (os_kills s).

(** What the task makes of the wait: the status if there is one, and whether the
    time ran out; then the process is killed and waited for again. *)
Definition after_wait (process_id : string) (pid : Z) (child : Child) (waited : Waited) :
  prog TaskState (option ExitStatus * bool) :=
  (match waited with
   | WaitedOk status => Ret (Some status, false)
   | WaitedErr error =>
       do _ <- send_error process_id "wait" (io_text error) ;;
       Ret (None, false)
   | WaitElapsed =>
       do _ <- lift (deliver pid SIGKILL) ;;
       do status <- lift (act (fun s =>
         let '(r, fs') := child_reap child (gs_fs s) in (r, set_guest_fs fs' s))) ;;
       Ret (result_ok status, true)
   end)%prog.

(** The spawned task. The two forwarding tasks take the turns [before] until the
    wait returns and [after] until the task has awaited them. *)
Definition process_task (task : ProcessTask) (limit : nat) (before after : list (option nat)) :
  prog TaskState unit :=
  (let request := tk_request task in
   let state := tk_state task in
   let process_id := tk_process_id task in
   do spawned <- lift (act (fun s =>
     let '(child, fs') := spawn (sp_argv request) (tk_cwd task) (sp_environment request)
       (in_uid state) (in_gid state) (gs_fs s) in (child, set_guest_fs fs' s))) ;;
   match spawned with
   | Err error => send_error process_id "spawn" (io_text error)
   | Ok child =>
       match child_id child with
       | None => send_error process_id "spawn" "process has no pid"
       | Some pid =>
           do assigned <- lift (assign_guest_cgroup pid (guest_cgroup_available state)) ;;
           match assigned with
           | Err error =>
               do _ <- lift (deliver pid SIGKILL) ;;
               send_error process_id "cgroup" (st_message error)
           | Ok _ =>
               do _ <- lift (modify (fun s => set_processes (<[process_id := pid]> (gs_processes s)) s)) ;;
               do _ <- modify (fun s => MkTaskState (ts_guest s)
                 (readers limit limit process_id (sp_max_output_bytes request))
                 (fresh_output (child_stdout child) (child_stderr child) (ts_output s))) ;;
               do _ <- others before ;;
               do waited <- lift (act (fun s =>
                 let '(w, fs') := child_wait child (sp_timeout_millis request) (gs_fs s) in
                 (w, set_guest_fs fs' s))) ;;
               do (status, timed_out) <- after_wait process_id pid child waited ;;
               do _ <- others after ;;
               do _ <- lift (modify (fun s => set_processes (delete process_id (gs_processes s)) s)) ;;
               match status with
               | None => Ret tt
               | Some status =>
                   do exceeded <- gets (fun s => os_limit_hit (ts_output s)) ;;
                   fmap_prog (fun _ => tt) (lift (send_event (MkProcessEvent process_id (Exit
                     (MkProcessExit (status_code status) (status_signal status) timed_out
                       exceeded exceeded exceeded)))))
               end
           end
       end
   end)%prog.

(** ** The service *)

Inductive GuestRequest :=
| G_Health
| G_Init (request : InitRequest)
| G_Rekey (request : RekeyRequest)
| G_StartProcess (request : StartProcessRequest)
| G_SignalProcess (request : SignalProcessRequest)
| G_WriteFile (request : GuestWriteRequest)
| G_ReadFile (request : GuestReadRequest)
| G_ListDirectory (request : GuestListRequest).

Inductive GuestResponse :=
| R_Health (r : HealthResponse) | R_Init (r : InitResponse) | R_Rekey | R_StartProcess
| R_SignalProcess | R_WriteFile (bytes_written : Z) | R_ReadFile (chunks : list FileChunk)
| R_ListDirectory (entries : list GuestEntry).

Definition guest_service (request : GuestRequest) : prog GuestService (result GuestResponse Status) :=
  match request with
  | G_Health => fmap_prog (result_map R_Health) health
  | G_Init r => fmap_prog (result_map R_Init) (init r)
  | G_Rekey r => fmap_prog (result_map (fun _ => R_Rekey)) (rekey r)
  | G_StartProcess r => fmap_prog (result_map (fun _ => R_StartProcess)) (start_process r)
  | G_SignalProcess r => fmap_prog (result_map (fun _ => R_SignalProcess)) (signal_process r)
  | G_WriteFile r => fmap_prog (result_map R_WriteFile) (write_file r)
  | G_ReadFile r => fmap_prog (result_map R_ReadFile) (read_file r)
  | G_ListDirectory r => fmap_prog (result_map R_ListDirectory) (list_directory r)
  end.
End Guest.
