(* ===== verification/GuestProps.v ===== *)
(** * Behaviour of the guest agent

    Who may do what, how the identity of the guest changes, what its files
    calls return and what a client sees of a process. *)
From S2P Require Import Prelude Conc Core Utf8 Api Instances Fs Commands ProcessRuntime ProcessProps.
From S2P Require Import Inet GuestOutput Guest.

(** ** Instances for examples *)

Section HostCap.
(** Capabilities that are paths, files that are a location and a position. *)
Definition position_read (f : loc * Z) (size : Z) :
  prog Fs (result (list Byte.byte * (loc * Z)) IoError) :=
  fmap_prog (result_map (fun data => (data, (f.1, (Z.max 0 f.2 + Z.of_nat (length data))%Z))))
    (read_from f.1 (Z.max 0 f.2) size).

Lemma length_slice offset max data : (0 <= max)%Z -> (Z.of_nat (length (slice offset max data)) <= max)%Z.
Proof. intros Hm. unfold slice. destruct (_ <=? _)%Z; [done|]. rewrite length_take. lia. Qed.

Lemma position_read_at_most f size fs data f' fs' : (0 <= size)%Z ->
  run (position_read f size) fs = (Ok (data, f'), fs') -> (Z.of_nat (length data) <= size)%Z.
Proof.
  intros Hs. unfold position_read, read_from, query, syscall. rewrite run_fmap, run_act.
  assert (forall fs, match (match node_at (fs_nodes fs) f.1 with
    | Some n => match n_kind n with File d => Ok (slice (Z.max 0 f.2) size d) | Dir => Err EISDIR | _ => Ok [] end
    | None => Ok [] end) with Ok d => (Z.of_nat (length d) <= size)%Z | Err _ => True end) as Hd.
  { intros fs0. destruct (node_at _ _) as [n|]; [|done]. destruct (n_kind n); try done. by apply length_slice. }
  specialize (Hd (match fs_faults fs with None :: rest => set_faults rest fs | _ => fs end)).
  destruct (fs_faults fs) as [|[e|] rest]; simpl in *; [| done |];
    (destruct (match node_at _ _ with Some n => _ | None => _ end) as [d|e]; [|done]);
    by intros [= <- _ _].
Qed.

#[export] Instance host_cap : CapStd := {|
  CapDir := Path;
  CapFile := loc * Z;
  CapEntry := loc * string;
  cap_open_ambient_dir p := query (fun fs =>
    let? (_, n) := lookup_path fs true p in if is_dir n then Ok p else Err ENOTDIR)%result;
  cap_symlink_metadata d p := symlink_metadata (push d p);
  cap_metadata d p := metadata (push d p);
  cap_create_dir_all d p := create_dir_all (push d p);
  cap_open_with d o p := fmap_prog (result_map (fun l => (l, 0%Z))) (open o (push d p));
  cap_seek f offset := fmap_prog (result_map (fun _ => (f.1, offset))) (seek offset);
  cap_read := position_read;
  cap_write_all f data := write_all f.1 data;
  cap_flush _ := flush;
  cap_read_dir d p := fmap_prog (result_map (fun r => map (fun name => Ok (r.1, name)) r.2))
    (read_dir (push d p));
  cap_entry_metadata e := entry_metadata e.1 e.2;
  cap_file_name := snd;
  cap_read_at_most := position_read_at_most;
|}.
End HostCap.

(** Commands that succeed and print five bytes on each pipe. *)
#[export] Instance quiet_processes : GuestProcesses := {|
  Child := unit;
  spawn _ _ _ _ _ fs := (Ok tt, fs);
  child_id _ := Some 42%Z;
  child_stdout _ := example_pipes;
  child_stderr _ := example_pipes;
  child_wait _ _ fs := (WaitedOk (MkExitStatus (Some 0%Z) None), fs);
  child_reap _ fs := (Ok (MkExitStatus None (Some 9%Z)), fs);
  signal_try_from n := if in_range 1 31 n then Some n else None;
  kill _ _ _ := Ok tt;
|}.

#[export] Instance quiet_programs : HostPrograms := {|
  command_output _ _ fs := (Ok (MkOutput (MkExitStatus (Some 0%Z) None) [] []), fs);
|}.

Definition guest_tree : Fs :=
  MkFs (list_to_map
    [(["home"], root_node); (["home"; "sandbox"], root_node);
     (["home"; "sandbox"; "data"], MkNode (File (replicate 6 Byte.x64)) 33188 0);
     (["etc"], root_node); (["sys"], root_node); (["sys"; "fs"], root_node);
     (["sys"; "fs"; "cgroup"], root_node)]) [] 0 [].

Definition fresh_guest : GuestService :=
  MkGuestService (Path_of_string "/home/sandbox") None ∅ guest_tree 0 [] [].

Definition example_token : string := "0123456789abcdef0123456789abcdef".
Definition example_init : InitRequest :=
  MkInitRequest "sandbox" example_token 1000 1000 1024 64 "" 0 "" "".
Definition ready_guest : GuestService := (run (init example_init) fresh_guest).2.

Section Props.
Context `{U : UuidLib} `{C : CryptoLib} `{D : CapStd} `{P : GuestProcesses} `{H : HostPrograms}.

(** ** Authentication *)

(** The credentials that a request carries, when its method asks for any. *)
Definition request_auth (r : GuestRequest) : option (option Auth) :=
  match r with
  | G_Health | G_Init _ => None
  | G_Rekey q => Some (rk_auth q)
  | G_StartProcess q => Some (sp_auth q)
  | G_SignalProcess q => Some (sg_auth q)
  | G_WriteFile q => Some (gw_auth q)
  | G_ReadFile q => Some (gr_auth q)
  | G_ListDirectory q => Some (gl_auth q)
  end.

(** The current token is presented. *)
Definition holds_token (initialization : option InitState) (auth : option Auth) : bool :=
  match initialization, auth with
  | Some state, Some a => bool_decide (token_digest state = digest (au_token a))
  | _, _ => false
  end.

(** The answer to a request that does not present it. *)
Definition refusal (initialization : option InitState) (auth : option Auth) : Status :=
  match initialization, auth with
  | None, _ => MkStatus FailedPrecondition "guest has not been initialized"
  | _, None => MkStatus Unauthenticated "missing token"
  | _, _ => MkStatus Unauthenticated "invalid token"
  end.

Lemma run_authorized auth s :
  run (authorized auth) s =
  (match gs_initialization s with
   | Some state => if holds_token (Some state) auth then Ok state
                   else Err (refusal (Some state) auth)
   | None => Err (refusal None auth)
   end, s).
Proof.
  unfold authorized. rewrite run_bind. cbn [gets act run fst snd].
  destruct (gs_initialization s) as [state|]; [|done]. destruct auth as [a|]; [|done].
  cbn [of_result ok_or fmap option_fmap option_map bind_ok bind holds_token refusal].
  destruct (ct_eq (token_digest state) (digest (au_token a))) eqn:He; cbn [negb].
  - apply ct_eq_spec in He. by rewrite bool_decide_eq_true_2.
  - rewrite bool_decide_eq_false_2; [done|]. intros Heq. apply ct_eq_spec in Heq. congruence.
Qed.

Lemma authorized_refuses {A} auth s (k : InitState -> prog GuestService (result A Status)) :
  holds_token (gs_initialization s) auth = false ->
  run (bind_ok (authorized auth) k) s = (Err (refusal (gs_initialization s) auth), s).
Proof.
  intros Hno. rewrite run_bind_ok, run_authorized. cbn [fst snd].
  destruct (gs_initialization s) as [state|]; [|done]. by rewrite Hno.
Qed.

(** C27. Every method except [health] and [init] is closed to a caller that does
    not present the current token: it answers with the refusal (not
    initialized, missing token or invalid token) and changes nothing: no file,
    process, signal, task or identity. *)
Theorem guest_unauthorised_inert r auth s :
  request_auth r = Some auth -> holds_token (gs_initialization s) auth = false ->
  run (guest_service r) s = (Err (refusal (gs_initialization s) auth), s).
Proof.
  intros Hr Hno. destruct r as [|q|q|q|q|q|q|q]; try done; injection Hr as <-;
    unfold guest_service, rekey, start_process, signal_process, write_file, read_file, list_directory;
    by rewrite run_fmap, authorized_refuses.
Qed.

(** ** Identity *)

(** What leaves the identity alone. *)
Definition keeps_identity (s s' : GuestService) : Prop :=
  gs_initialization s' = gs_initialization s /\ gs_workspace s' = gs_workspace s.

#[export] Instance keeps_identity_preorder : PreOrder keeps_identity.
Proof. split; [done|]. unfold keeps_identity. intros s1 s2 s3 [] []. split; congruence. Qed.

Lemma lift_keeps_identity {A} (p : prog Fs A) : preserves keeps_identity (lift p).
Proof. intros s. by rewrite run_lift. Qed.

Lemma authorized_keeps_identity auth : preserves keeps_identity (authorized auth).
Proof. intros s. by rewrite run_authorized. Qed.

Ltac keeps := repeat first
  [ apply lift_keeps_identity | apply authorized_keeps_identity
  | apply (preserves_act keeps_identity); intros ?; split; reflexivity
  | preserves_step ].

Lemma run_guest_command_keeps program arguments :
  preserves keeps_identity (run_guest_command program arguments).
Proof.
  unfold run_guest_command. apply preserves_bind; [apply _| |keeps].
  apply preserves_act. intros s. by destruct (command_output program arguments (gs_fs s)).
Qed.

Lemma configure_guest_network_keeps a n g d :
  preserves keeps_identity (configure_guest_network a n g d).
Proof.
  unfold configure_guest_network, prog_map_err. cbv zeta.
  repeat first [apply run_guest_command_keeps | apply lift_keeps_identity | preserves_step].
Qed.

Lemma configure_pids_limit_keeps n : preserves keeps_identity (configure_pids_limit n).
Proof. unfold configure_pids_limit, prog_map_err. keeps. Qed.

Lemma other_methods_keep r :
  (match r with G_Init _ | G_Rekey _ => false | _ => true end) = true ->
  preserves keeps_identity (guest_service r).
Proof.
  destruct r as [|q|q|q|q|q|q|q]; intros Hr; try discriminate; unfold guest_service;
    (apply preserves_fmap; [apply _|]);
    unfold health, start_process, signal_process, deliver, write_file, read_file, list_directory;
    cbv zeta; keeps.
Qed.

(** The answer of [init] and the identity afterwards. *)
Definition init_outcome (q : InitRequest) (before after : option InitState)
    (answer : result GuestResponse Status) : Prop :=
  match before with
  | Some existing =>
      after = Some existing /\
      (answer = Ok (R_Init (MkInitResponse true true)) ->
         in_sandbox_id existing = ir_sandbox_id q /\ token_digest existing = digest (ir_token q))
      /\ answer <> Ok (R_Init (MkInitResponse true false))
  | None =>
      (identity_malformed q = false /\ answer = Ok (R_Init (MkInitResponse true false))
         /\ exists available, after = Some (candidate_of q available))
      \/ (is_ok answer = false /\ after = None)
  end.

Definition rekey_outcome (q : RekeyRequest) (before after : option InitState)
    (answer : result GuestResponse Status) : Prop :=
  (holds_token before (rk_auth q) = true /\ identity_malformed (rk_init q) = false
     /\ answer = Ok R_Rekey /\ exists available, after = Some (candidate_of (rk_init q) available))
  \/ (is_ok answer = false /\ after = before).

Lemma init_outcome_ok q s :
  init_outcome q (gs_initialization s) (gs_initialization (run (guest_service (G_Init q)) s).2)
    (run (guest_service (G_Init q)) s).1.
Proof.
  unfold guest_service, init. rewrite run_fmap. cbn [fst snd].
  destruct (identity_malformed q) eqn:Hm.
  { cbn. destruct (gs_initialization s); [done|by right]. }
  rewrite run_bind_ok. pose proof (configure_pids_limit_keeps (ir_max_processes q) s) as [Hk _].
  destruct (run (configure_pids_limit (ir_max_processes q)) s) as [[available|e] s1]; cbn [fst snd] in *.
  2: { rewrite Hk. destruct (gs_initialization s); [done|by right]. }
  rewrite run_bind. cbn [gets act run fst snd]. rewrite Hk.
  destruct (gs_initialization s) as [existing|] eqn:Hs; cbn [init_outcome].
  - destruct (same_identity existing (candidate_of q available)) eqn:Hsame; cbn; rewrite ?Hk;
      (split; [done|]); [|done]. split; [|done]. intros _. unfold same_identity in Hsame.
    rewrite !andb_true_iff in Hsame. destruct Hsame as [[[Hid%String.eqb_eq Ht%ct_eq_spec] _] _]. done.
  - rewrite run_bind_ok.
    pose proof (configure_guest_network_keeps (ir_guest_ipv4 q) (ir_guest_prefix_length q)
      (ir_gateway_ipv4 q) (ir_dns_ipv4 q) s1) as [Hn _].
    destruct (run (configure_guest_network _ _ _ _) s1) as [[u|e] s2]; cbn [fst snd] in *.
    + left. cbn. eauto.
    + right. cbn. split; [done|congruence].
Qed.

Lemma rekey_outcome_ok q s :
  rekey_outcome q (gs_initialization s) (gs_initialization (run (guest_service (G_Rekey q)) s).2)
    (run (guest_service (G_Rekey q)) s).1.
Proof.
  unfold guest_service, rekey. rewrite run_fmap. cbn [fst snd].
  destruct (holds_token (gs_initialization s) (rk_auth q)) eqn:Ht.
  2: { rewrite authorized_refuses by done. by right. }
  rewrite run_bind_ok, run_authorized. cbn [fst snd].
  destruct (gs_initialization s) as [state|] eqn:Hs; [|done]. rewrite Ht. cbv zeta.
  destruct (identity_malformed (rk_init q)) eqn:Hm; [by right|].
  rewrite run_bind_ok.
  assert (preserves keeps_identity (if negb (is_empty (ir_guest_ipv4 (rk_init q)))
    then run_guest_command "ip" ["address"; "flush"; "dev"; "eth0"; "scope"; "global"] else ok tt)) as Hf.
  { destruct (negb _); [apply run_guest_command_keeps|apply preserves_ret, _]. }
  destruct (Hf s) as [H1 _]. rewrite Hs in H1. clear Hf.
  destruct (run (if negb _ then _ else _) s) as [[u1|e] s1]; cbn [fst snd] in *; [|by right].
  rewrite run_bind_ok. pose proof (configure_guest_network_keeps (ir_guest_ipv4 (rk_init q))
    (ir_guest_prefix_length (rk_init q)) (ir_gateway_ipv4 (rk_init q)) (ir_dns_ipv4 (rk_init q)) s1) as [H2 _].
  destruct (run (configure_guest_network _ _ _ _) s1) as [[u2|e] s2]; cbn [fst snd] in *;
    [|right; split; [done|congruence]].
  rewrite run_bind_ok. pose proof (configure_pids_limit_keeps (ir_max_processes (rk_init q)) s2) as [H3 _].
  destruct (run (configure_pids_limit _) s2) as [[available|e] s3]; cbn [fst snd] in *;
    [|right; split; [done|congruence]].
  left. cbn. eauto 10.
Qed.

(** C28. The identity of the guest changes in two ways only: by the first
    successful [init], and by a [rekey] that presents the current token and is
    well formed; both store the identity the request asks for. An [init] of an
    initialized guest never changes the identity, and is acknowledged (as a
    replay) only if the sandbox and the token are those in force. A call that
    fails changes no identity. *)
Theorem guest_identity_transitions r s :
  let answer := (run (guest_service r) s).1 in
  let before := gs_initialization s in
  let after := gs_initialization (run (guest_service r) s).2 in
  match r with
  | G_Init q => init_outcome q before after answer
  | G_Rekey q => rekey_outcome q before after answer
  | _ => after = before
  end.
Proof.
  destruct r as [|q|q|q|q|q|q|q]; cbv zeta;
    first [ apply init_outcome_ok | apply rekey_outcome_ok
          | by apply other_methods_keep ].
Qed.

(** On an initialized guest, [init] rewrites the guest's process limit before
    it compares identities: a well-formed [init] that is rejected for its
    identity has already made the change that [configure_pids_limit] makes. *)
Theorem rejected_init_sets_pids_limit q s existing :
  gs_initialization s = Some existing -> identity_malformed q = false ->
  run (init q) s =
  match run (configure_pids_limit (ir_max_processes q)) s with
  | (Ok available, s') =>
      (if same_identity existing (candidate_of q available) then Ok (MkInitResponse true true)
       else Err (MkStatus FailedPrecondition "guest already initialized with different identity"), s')
  | (Err e, s') => (Err e, s')
  end.
Proof.
  intros Hs Hm. unfold init. rewrite Hm, run_bind_ok.
  pose proof (configure_pids_limit_keeps (ir_max_processes q) s) as [Hk _].
  destruct (run (configure_pids_limit (ir_max_processes q)) s) as [[available|e] s1]; [|done].
  cbn [fst snd] in *. rewrite run_bind. cbn [gets act run fst snd]. rewrite Hk, Hs.
  by destruct (same_identity _ _).
Qed.

(** ** Reading a file in chunks *)

Definition chunk_bytes (chunks : list FileChunk) : list Byte.byte := concat (map fc_data chunks).

Lemma chunk_bytes_app a c : chunk_bytes (a ++ [c]) = chunk_bytes a ++ fc_data c.
Proof. unfold chunk_bytes. rewrite map_app, concat_app. simpl. by rewrite app_nil_r. Qed.

Section Chunks.
(** [rest f fs]: the bytes that are still to be read from an open file. A read
    returns the next of them, and none only at the end. *)
Context (rest : CapFile -> Fs -> list Byte.byte).
Hypothesis read_next : forall f size fs data f' fs', (0 < size)%Z ->
  run (cap_read f size) fs = (Ok (data, f'), fs') ->
  rest f fs = data ++ rest f' fs' /\ (data = [] -> rest f fs = []).

Context (offset maximum len : Z) (bytes : list Byte.byte).
Hypothesis offset_range : (0 <= offset)%Z.
Hypothesis maximum_range : (0 <= maximum)%Z.
Hypothesis no_wrap : (offset + maximum < 2 ^ 64)%Z.

(** What the chunks sent so far promise: at most a mebibyte each, no more than
    the maximum together, successive bytes of the file, and [eof] only on the
    last one. *)
Definition chunks_so_far (chunks : list FileChunk) : Prop :=
  (Z.of_nat (length (chunk_bytes chunks)) <= maximum)%Z
  /\ Forall (fun c => (Z.of_nat (length (fc_data c)) <= FILE_CHUNK_BYTES)%Z) chunks
  /\ Forall (fun c => fc_eof c = false) (removelast chunks)
  /\ exists more, bytes = chunk_bytes chunks ++ more.

Definition chunks_complete (chunks : list FileChunk) : Prop :=
  chunks_so_far chunks /\
  match last chunks with
  | Some c => if fc_eof c
              then chunk_bytes chunks = bytes
                   \/ (len <= offset + Z.of_nat (length (chunk_bytes chunks)))%Z
              else Z.of_nat (length (chunk_bytes chunks)) = maximum
  | None => maximum = 0%Z
  end.

Definition reading_ok (r : Reading) (fs : Fs) : Prop :=
  rd_remaining r = (maximum - Z.of_nat (length (chunk_bytes (rd_chunks r))))%Z
  /\ (0 <= rd_remaining r)%Z /\ chunks_so_far (rd_chunks r)
  /\ Forall (fun c => fc_eof c = false) (rd_chunks r)
  /\ bytes = chunk_bytes (rd_chunks r) ++ rest (rd_file r) fs.

Definition reading_done (r : result (list FileChunk) Status) (_ : Fs) : Prop :=
  match r with Ok chunks => chunks_complete chunks | Err e => st_code e = Internal end.

Lemma read_chunk_step r fs : reading_ok r fs ->
  match run (read_chunk offset maximum len r) fs with
  | (inl r', fs') => reading_ok r' fs' /\ (rd_remaining r' < rd_remaining r)%Z
  | (inr e, fs') => reading_done e fs'
  end.
Proof.
  intros (Hrem&H0&Hsf&Heof&Hb). destruct r as [remaining chunks file]; cbn [rd_remaining rd_chunks rd_file] in *.
  unfold read_chunk; cbn [rd_remaining rd_chunks rd_file].
  destruct (Z.leb_spec remaining 0) as [Hle|Hlt].
  { cbn. split; [done|]. destruct (last chunks) as [c|] eqn:Hl.
    - assert (fc_eof c = false) as ->; [|lia]. apply last_Some in Hl as [l ->].
      apply Forall_app in Heof as [_ Hc]. by inversion Hc.
    - apply last_None in Hl as ->. cbn in Hrem. lia. }
  cbv zeta. rewrite run_bind. set (size := Z.min remaining FILE_CHUNK_BYTES).
  assert (0 < size)%Z as Hsize by (unfold size, FILE_CHUNK_BYTES; lia).
  destruct (run (cap_read file size) fs) as [[[data file']|e] fs'] eqn:Hr; cbn [fst snd]; [|done].
  destruct (read_next _ _ _ _ _ _ Hsize Hr) as [Hnext Hend].
  pose proof (cap_read_at_most _ _ _ _ _ _ (Z.lt_le_incl _ _ Hsize) Hr) as Hmost.
  assert (saturating_sub remaining (Z.of_nat (length data)) = remaining - Z.of_nat (length data))%Z as Hs1
    by (unfold saturating_sub, size in *; lia).
  rewrite Hs1. set (total := (Z.of_nat (length (chunk_bytes chunks)) + Z.of_nat (length data))%Z).
  assert (saturating_sub maximum (remaining - Z.of_nat (length data)) = total)%Z as ->
    by (unfold saturating_sub, size, total in *; lia).
  rewrite Z.mod_small by (unfold size, total in *; lia).
  set (eof := (Z.of_nat (length data) =? 0)%Z || (len <=? offset + total)%Z).
  assert (Z.of_nat (length (chunk_bytes (chunks ++ [MkFileChunk data eof]))) = total) as Htotal.
  { rewrite chunk_bytes_app, length_app. cbn [fc_data]. unfold total. lia. }
  assert (chunks_so_far (chunks ++ [MkFileChunk data eof])) as Hsf'.
  { destruct Hsf as (_&Hsmall&_&_). split; [unfold size, total in *; lia|]. split; [|split].
    - apply Forall_app. split; [done|]. apply Forall_singleton. cbn [fc_data]. unfold size in Hmost. lia.
    - by rewrite removelast_snoc.
    - exists (rest file' fs'). by rewrite chunk_bytes_app; cbn [fc_data]; rewrite <-app_assoc, <-Hnext. }
  destruct eof eqn:Heq; cbn [run].
  - split; [done|]. rewrite last_snoc. cbn [fc_eof]. unfold eof in Heq.
    apply orb_true_iff in Heq as [Hz%Z.eqb_eq|Hle%Z.leb_le].
    + left. assert (data = []) as -> by (apply nil_length_inv; lia).
      rewrite chunk_bytes_app, app_nil_r. by rewrite Hb, (Hend eq_refl), app_nil_r.
    + right. by rewrite Htotal.
  - apply orb_false_iff in Heq as [Hz%Z.eqb_neq _]. split; [|cbn; lia].
    unfold reading_ok; cbn [rd_remaining rd_chunks rd_file]. rewrite Htotal.
    split; [unfold total; lia|]. split; [unfold size in *; lia|]. split; [done|]. split.
    + apply Forall_app. split; [done|]. by apply Forall_singleton.
    + by rewrite chunk_bytes_app; cbn [fc_data]; rewrite <-app_assoc, <-Hnext.
Qed.

(** Reading a file ends, whatever the sizes of the reads, and gives chunks of
    at most a mebibyte that are successive bytes of the file from the offset, no
    more than the maximum together. Only the last chunk may say [eof]; it does
    when no byte was left, or when the offset and the count of bytes reach the
    length that the metadata gave; otherwise the maximum was read in full. The
    only other answer is an internal error, from a failing read. *)
Theorem guest_read_chunks file fs :
  rest file fs = bytes ->
  exists r fs', run (loop READ_TURNS (read_chunk offset maximum len) (MkReading maximum [] file)) fs
                = (inr r, fs')
    /\ run (read_chunks offset maximum len file) fs = (r, fs') /\ reading_done r fs'.
Proof.
  intros Hb. destruct (run_loop (read_chunk offset maximum len) rd_remaining reading_ok reading_done)
    with (n := READ_TURNS) (x := MkReading maximum [] file) (s := fs) as (r&fs'&Hrun&Hdone).
  - by intros x s (_&H0&_).
  - apply read_chunk_step.
  - unfold reading_ok; cbn [rd_remaining rd_chunks rd_file chunk_bytes map concat length].
    split; [lia|]. split; [done|]. split; [|split; [by constructor|done]].
    split; [done|]. split; [by constructor|]. split; [by constructor|]. by exists bytes.
  - cbn [rd_remaining]. unfold READ_TURNS. lia.
  - exists r, fs'. split; [done|]. split; [|done]. unfold read_chunks. rewrite run_fmap.
    cbn [fst snd] in *. by rewrite Hrun.
Qed.
End Chunks.

(** A read of no bytes answers [eof] whatever the length of the file: the
    caller is told that the file ended where nothing was read. *)
Theorem guest_empty_read_claims_eof q s chunks s' :
  gr_max_bytes q = 0%Z -> run (read_file q) s = (Ok chunks, s') ->
  chunks = [MkFileChunk [] true] \/ exists state, gs_initialization s = Some state
    /\ (in_max_file_bytes state < 0)%Z.
Proof.
  intros H0. unfold read_file. rewrite run_bind_ok, run_authorized. cbn [fst snd].
  destruct (gs_initialization s) as [state|]; [|done].
  destruct (holds_token (Some state) (gr_auth q)); [|done].
  destruct (decide (in_max_file_bytes state < 0)%Z); [intros _; right; by exists state|].
  rewrite run_bind_ok. cbn [of_result run fst snd].
  destruct (relative_path (gr_path q)) as [relative|e]; [|done].
  rewrite run_bind. cbn [gets act run fst snd]. cbv zeta. rewrite run_lift.
  replace (Z.min (gr_max_bytes q) (in_max_file_bytes state)) with 0%Z by lia.
  set (p := bind_ok (open_workspace _) _).
  assert (forall fs, match (run p fs).1 with Ok chunks => chunks = [MkFileChunk [] true] | Err _ => True end)
    as Hp.
  { intros fs. unfold p. rewrite run_bind_ok. destruct (run (open_workspace _) fs) as [[d|] fs1]; [|done].
    cbn [fst snd]. rewrite run_bind_ok.
    destruct (run (verify_components d relative false) fs1) as [[u|] fs2]; [|done].
    cbn [fst snd]. rewrite run_bind_ok, run_map_err.
    destruct (run (cap_metadata d relative) fs2) as [[md|] fs3]; [|done]. cbn [fst snd map_err].
    destruct (negb (is_file md)); [done|]. rewrite run_bind_ok, run_map_err.
    destruct (run (cap_open_with d read_options relative) fs3) as [[f|] fs4]; [|done].
    cbn [fst snd map_err]. rewrite run_bind_ok, run_fmap.
    destruct (run (cap_seek f (gr_offset q)) fs4) as [[g|] fs5]; [|done].
    cbn [fst snd internal map_err]. by rewrite run_bind_ok. }
  specialize (Hp (view s)). intros Hrun. left. destruct (run p (view s)) as [r fs']. cbn [fst snd] in *.
  by injection Hrun as -> _.
Qed.
End Props.

(** ** Paths *)

Lemma push_assoc p q r :
  p_root q = false -> p_root r = false -> p_pieces q <> [] -> p_pieces r <> [] ->
  push (push p q) r = push p (push q r).
Proof.
  destruct p as [pr pp], q as [qr qp], r as [rr rp]; cbn [p_root p_pieces]. intros -> -> Hq Hr.
  unfold push; cbn [p_root p_pieces]. f_equal.
  destruct qp as [|y l _] using rev_ind; [done|]. clear Hq. rewrite !last_snoc, !removelast_snoc.
  assert (forall front : list string, last (front ++ l ++ [y]) = Some y) as Hlast
    by (intros; by rewrite app_assoc, last_snoc).
  assert (forall front : list string, removelast (front ++ l ++ [y]) = front ++ l) as Hrem
    by (intros; by rewrite app_assoc, removelast_snoc).
  destruct (last pp) as [x|]; [destruct x as [|c x]|];
    rewrite ?Hlast, ?Hrem; destruct y; by rewrite <-?app_assoc.
Qed.

(** A component that [relative_path] leaves: [.] or a plain name. *)
Definition relative_component (c : Component) : Prop :=
  c = CurDir \/ exists n, c = Normal n /\ plain_name n.

Lemma relative_component_path c : relative_component c ->
  Path_of_string (as_os_str c) = MkPath false [as_os_str c] /\ as_os_str c <> "" /\ as_os_str c <> "..".
Proof.
  intros [->|(n&->&Hn)]; [done|]. split; [by apply plain_name_path|]. cbn [as_os_str].
  destruct Hn as (Ht&Hd&_). split; [|done]. by intros ->.
Qed.

(** Adding one piece takes the place of a trailing separator. *)
Lemma push_piece p x : p_root p = false ->
  exists front rest, p_pieces p = front ++ rest /\ real_names rest = []
    /\ push p (MkPath false [x]) = MkPath false (front ++ [x]).
Proof.
  destruct p as [r ps]; cbn [p_root p_pieces]. intros ->. unfold push; cbn [p_root p_pieces].
  destruct (last ps) as [[|c y]|] eqn:Hl.
  - apply last_Some in Hl as [front ->]. exists front, [""]. by rewrite removelast_snoc.
  - exists ps, []. by rewrite app_nil_r.
  - exists ps, []. by rewrite app_nil_r.
Qed.

Lemma real_names_app ps qs : real_names (ps ++ qs) = real_names ps ++ real_names qs.
Proof. apply filter_app. Qed.

(** A relative path that is not empty, ends in no separator, names no parent, and
    whose way from [dir] to its last piece is one of real directories: it neither
    leaves [dir] nor meets a symbolic link before its end. *)
Definition beneath (m : gmap loc Node) (dir : loc) (p : Path) : Prop :=
  p_root p = false /\ (exists x, last (p_pieces p) = Some x /\ x <> "") /\ ".." ∉ p_pieces p
  /\ forall front rest, p_pieces p = front ++ rest -> rest <> [] ->
       is_dir_at m (dir ++ real_names front) = true.

Section Paths.
Context `{U : UuidLib} `{C : CryptoLib} `{D : CapStd}.

(** [cap_std::fs::Dir]: while [root] leads to the directory that the capability
    was opened on, a path beneath that directory is what it is for the host. *)
Context (directory : CapDir) (root : Path) (dir : loc).
Hypothesis shows : forall p fs k, resolve fs true root = Found dir k -> beneath (fs_nodes fs) dir p ->
  run (cap_symlink_metadata directory p) fs = run (symlink_metadata (push root p)) fs.

(** How far [verify_components] has come: through real directories. *)
Record arrived (fs : Fs) (k : nat) (current : Path) : Prop := {
  ar_relative : p_root current = false;
  ar_pieces : p_pieces current <> [];
  ar_no_parent : ".." ∉ p_pieces current;
  ar_root : resolve fs true root = Found dir k;
  ar_found : resolve fs true (push root current) = Found (dir ++ real_names (p_pieces current)) k;
  ar_dirs : forall front rest, p_pieces current = front ++ rest ->
    is_dir_at (fs_nodes fs) (dir ++ real_names front) = true;
}.

Lemma arrived_same fs fs' k current : fs_same fs fs' -> arrived fs k current -> arrived fs' k current.
Proof.
  intros Hsame [H1 H2 H3 H4 H5 H6]. pose proof Hsame as (Hnodes&_).
  split; [exact H1|exact H2|exact H3|rewrite (same_resolve _ _ _ _ Hsame); exact H4
    |rewrite (same_resolve _ _ _ _ Hsame); exact H5|rewrite Hnodes; exact H6].
Qed.

Lemma arrived_beneath fs k current c : arrived fs k current -> relative_component c ->
  beneath (fs_nodes fs) dir (push current (Path_of_string (as_os_str c))).
Proof.
  intros [Hr Hne Hdd _ _ Hdirs] (Hp&Hx&Hx')%relative_component_path. rewrite Hp.
  destruct (push_piece current (as_os_str c) Hr) as (front&rest&Hps&_&->).
  split; [done|]. cbn [p_pieces]. split; [exists (as_os_str c); by rewrite last_snoc|]. split.
  - rewrite Hps, not_elem_of_app in Hdd. rewrite not_elem_of_app, list_elem_of_singleton. by intuition.
  - intros f r Heq Hrest. destruct r as [|y r _] using rev_ind; [done|].
    rewrite app_assoc in Heq. apply app_inj_tail in Heq as [-> _].
    apply (Hdirs f (r ++ rest)). by rewrite Hps, <-app_assoc.
Qed.

Lemma push_component current c : p_root current = false -> relative_component c ->
  let next := push current (Path_of_string (as_os_str c)) in
  p_root next = false /\ p_pieces next <> []
  /\ real_names (p_pieces next) = real_names (p_pieces current) ++ real_names [as_os_str c].
Proof.
  intros Hr Hc. destruct (relative_component_path c Hc) as (Hp&_&_). cbv zeta. rewrite Hp.
  destruct (push_piece current (as_os_str c) Hr) as (front&rest&Hps&Hn&->). cbn [p_root p_pieces].
  split; [done|]. split; [by destruct front|]. by rewrite Hps, !real_names_app, Hn, app_nil_r.
Qed.

Lemma push_from_root current c : p_root current = false -> p_pieces current <> [] -> relative_component c ->
  push root (push current (Path_of_string (as_os_str c))) = push (push root current) (Path_of_string (as_os_str c)).
Proof.
  intros Hr Hne (Hp&_&_)%relative_component_path. rewrite Hp. symmetry. by apply push_assoc.
Qed.

Lemma arrived_push fs k current c : arrived fs k current -> relative_component c ->
  let next := push current (Path_of_string (as_os_str c)) in
  resolve fs true (push root next) = Found (dir ++ real_names (p_pieces next)) k ->
  is_dir_at (fs_nodes fs) (dir ++ real_names (p_pieces next)) = true -> arrived fs k next.
Proof.
  intros Hat Hc. destruct (push_component current c (ar_relative _ _ _ Hat) Hc) as (Hr&Hne&_).
  destruct (arrived_beneath fs k current c Hat Hc) as (_&_&Hdd&Hfronts). cbv zeta. intros Hfound Hdir.
  split; [exact Hr|exact Hne|exact Hdd|exact (ar_root _ _ _ Hat)|exact Hfound|].
  intros front rest Heq. destruct rest as [|y rest]; [|by eapply Hfronts].
  rewrite app_nil_r in Heq. by rewrite <-Heq.
Qed.

(** One more component: [.] stays, a name is what the host finds there. *)
Lemma arrived_next fs k current c n : arrived fs k current -> relative_component c ->
  let next := push current (Path_of_string (as_os_str c)) in
  result_map snd (lookup_path fs false (push root next)) = Ok n -> is_symlink n = false -> is_dir n = true ->
  arrived fs k next.
Proof.
  intros Hat Hc. cbv zeta. destruct (push_component current c (ar_relative _ _ _ Hat) Hc) as (_&_&Hnames).
  pose proof Hat as [Hr Hne _ _ Hfound Hdirs].
  pose proof (Hdirs (p_pieces current) [] (eq_sym (app_nil_r _))) as Hd.
  rewrite (push_from_root current c Hr Hne Hc). intros Hl Hs Hn.
  apply (arrived_push fs k current c Hat Hc); rewrite ?(push_from_root current c Hr Hne Hc), Hnames;
    destruct Hc as [->|(x&->&Hx)]; cbn [as_os_str] in *.
  - change (real_names ["."]) with (@nil string). rewrite app_nil_r. by apply push_curdir.
  - rewrite (lookup_push_name fs _ _ k x Hfound Hx), Hd in Hl.
    rewrite real_names_real by apply Hx. change (real_names []) with (@nil string). rewrite app_assoc.
    destruct (fs_nodes fs !! _) as [y|] eqn:Hy; [|done]. injection Hl as ->. by eapply resolve_push_name.
  - change (real_names ["."]) with (@nil string). by rewrite app_nil_r.
  - rewrite (lookup_push_name fs _ _ k x Hfound Hx), Hd in Hl.
    rewrite real_names_real by apply Hx. change (real_names []) with (@nil string). rewrite app_assoc.
    destruct (fs_nodes fs !! _) as [y|] eqn:Hy; [|done]. injection Hl as ->.
    unfold is_dir_at. rewrite node_at_snoc, Hy. exact Hn.
Qed.

(** [verify_components] asks no less of the path than [inspect] of the
    development runtime. *)
Lemma verify_inspect allow cs : forall current fs fs' k,
  arrived fs k current -> Forall relative_component cs ->
  run (verify_loop directory current cs allow) fs = (Ok tt, fs') ->
  run (inspect (push root current) cs allow) fs = (Ok tt, fs').
Proof.
  induction cs as [|c cs IH]; intros current fs fs' k Hat Hcs; [by intros [= <-]|].
  apply Forall_cons in Hcs as [Hc Hcs]. pose proof Hat as [Hr Hne _ Hroot _ _].
  cbn [verify_loop inspect]. cbv zeta.
  rewrite !run_bind, (shows _ _ k Hroot) by (by eapply arrived_beneath).
  rewrite <-(push_from_root current c Hr Hne Hc). set (next := push current (Path_of_string (as_os_str c))).
  pose proof (query_same (fun fs => result_map snd (lookup_path fs false (push root next))) fs) as Hsame.
  change (query _) with (symlink_metadata (push root next)) in Hsame.
  pose proof (run_symlink_metadata (push root next) fs) as Hmeta. cbv zeta in Hmeta.
  destruct (run (symlink_metadata (push root next)) fs) as [[n|e] fs1]; cbn [fst snd] in *.
  - destruct (is_symlink n) eqn:Hs; [done|].
    destruct cs as [|c' cs]; [by intros [= <-]|]. rewrite bool_decide_eq_false_2 by done. cbn [negb andb].
    destruct (is_dir n) eqn:Hd; [|done]. cbn [negb]. apply (IH next fs1 fs' k); [|done].
    eapply arrived_same; [exact Hsame|]. eapply arrived_next; [done|done| |exact Hs|exact Hd].
    destruct Hmeta as [Hmeta|(?&?&_)]; [exact (eq_sym Hmeta)|done].
  - destruct (bool_decide (io_kind e = IoNotFound)); cbn [andb]; [|done].
    destruct allow; cbn [andb]; [|done]. destruct cs; [|done]. by intros [= <-].
Qed.

Lemma relative_path_pieces text relative : Guest.relative_path text = Ok relative ->
  exists path, SandboxPath_new text = Ok path
    /\ relative = Path_of_string (SandboxPath_relative path)
    /\ existsb forbidden_component (components relative) = false.
Proof.
  unfold Guest.relative_path. destruct (SandboxPath_new text) as [path|] eqn:Hp; [|done].
  intros [= <-]. exists path. split; [done|]. split; [done|].
  destruct (relative_confined _ _ Hp) as (Habs&Hdd&_).
  set (r := SandboxPath_relative path) in *.
  assert (Path_of_string r = MkPath false (split_on slash r)) as ->.
  { unfold Path_of_string. destruct r as [|c r']; [done|].
    destruct (Ascii.eqb_spec c slash) as [->|]; [|done]. by destruct r'. }
  unfold components; cbn [p_root p_pieces]. rewrite existsb_app. apply orb_false_iff. split.
  { destruct (split_on slash r) as [|f t]; [done|]. by destruct (String.eqb f "."). }
  apply not_true_iff_false. intros (c&Hin&Hc)%existsb_exists.
  apply in_flat_map in Hin as (x&Hx&Hcx). unfold piece_components in Hcx.
  destruct (_ || _); [done|]. destruct (String.eqb_spec x "..") as [->|].
  - by apply Hdd, list_elem_of_In.
  - destruct Hcx as [<-|[]]. done.
Qed.

(** The loop starts at the workspace. *)
Lemma arrived_start fs k : resolve fs true root = Found dir k -> is_dir_at (fs_nodes fs) dir = true ->
  arrived fs k (MkPath false [""]).
Proof.
  intros Hroot Hd. assert (forall front rest, [""] = front ++ rest -> real_names front = []) as Hnil.
  { intros [|x [|]] rest Hf; [done|by injection Hf as <- _|by destruct x]. }
  split; [done|done|by intros ?%list_elem_of_singleton|exact Hroot| |].
  - rewrite (resolve_push fs root [""] dir k true Hroot) by done. change (real_names _) with (@nil string).
    rewrite app_nil_r, walk_trivial, Hd by (by repeat constructor). done.
  - intros front rest Hf. by rewrite (Hnil front rest Hf), app_nil_r.
Qed.

Lemma relative_components path : existsb forbidden_component (components (Path_of_string path)) = false ->
  Forall relative_component (components (Path_of_string path)).
Proof.
  intros Hforb. destruct (ProcessProps.relative_path _ Hforb) as (_&_&Hcomp&Hplain&_).
  assert (Forall relative_component (map Normal (real_names (p_pieces (Path_of_string path))))) as Hn.
  { apply Forall_map. eapply Forall_impl; [exact Hplain|]. intros n Hn. right. by exists n. }
  destruct Hcomp as [->| ->]; [done|]. constructor; [by left|done].
Qed.

(** C31. A path that a request names and [verify_components] accepts stays in the
    workspace: followed from the workspace, symbolic links included, it leads to
    a location below it, by plain names and through real directories only (or,
    when a missing leaf is allowed, to a missing name there). The workspace's
    capability need only show, of a path that leads through real directories
    below the workspace, what the host has there; of any other path it may show
    anything. *)
Theorem guest_path_confined text relative allow fs fs' k :
  Guest.relative_path text = Ok relative ->
  resolve fs true root = Found dir k -> is_dir_at (fs_nodes fs) dir = true ->
  run (verify_components directory relative allow) fs = (Ok tt, fs') ->
  fs_nodes fs' = fs_nodes fs /\ exists names,
    Forall plain_name names /\ reaches (fs_nodes fs') dir names allow = true /\
    forall follow, match resolve fs' follow (push root relative) with
             | Found l _ => l = dir ++ names
             | Missing d x _ => d ++ [x] = dir ++ names /\ allow = true
             | Fails _ => True
             end.
Proof.
  intros Hrel Hroot Hd Hrun. destruct (relative_path_pieces _ _ Hrel) as (path&_&Heq&Hforb).
  pose proof (arrived_start fs k Hroot Hd) as Hat.
  assert (Forall relative_component (components relative)) as Hcs
    by (rewrite Heq in *; by apply relative_components).
  pose proof (verify_inspect allow (components relative) _ fs fs' k Hat Hcs Hrun) as Hins.
  assert (resolve fs true (push root (MkPath false [""])) = Found dir k) as Hr
    by (by rewrite (ar_found _ _ _ Hat), app_nil_r).
  assert (run (safe_path (push root (MkPath false [""])) path allow) fs
    = (Ok (push (push root (MkPath false [""])) relative), fs')) as Hsafe.
  { unfold safe_path. cbv zeta. rewrite <-Heq, Hforb, run_bind_ok, Hins. done. }
  destruct (safe_path_accepts _ _ _ _ _ _ _ _ Hr Hd Hsafe) as (_&Hsame&Hacc).
  pose proof Hsame as (Hnodes&_). split; [done|]. exists (path_names path).
  split; [by eapply acc_plain|]. rewrite Hnodes. split; [by eapply acc_reaches|].
  intros follow. rewrite (same_resolve _ _ _ _ Hsame).
  pose proof (accepted_resolve fs (push root (MkPath false [""])) path allow dir k follow Hr Hacc) as Hres.
  unfold target_path in Hres. rewrite <-Heq, push_assoc in Hres; [|done| |done|].
  - assert (push (MkPath false [""]) relative = relative) as Hid; [|by rewrite Hid in Hres].
    unfold push; cbn [p_root p_pieces last removelast app]. destruct Hacc as [Hrr _ _ _ _].
    rewrite <-Heq in Hrr. destruct relative; simpl in *. by subst.
  - destruct Hacc as [Hrr _ _ _ _]. by rewrite <-Heq in Hrr.
  - destruct Hacc as [_ _ Hne _ _]. unfold relative_pieces in Hne. by rewrite <-Heq in Hne.
Qed.
End Paths.

(** ** What the client sees of a process *)

Lemma other_step_sound turn c :
  Forall forwards c.1 ->
  rtc (cstep no_arrivals outside) c (other_step turn c)
  /\ Forall forwards (other_step turn c).1 /\ adds_output c.2 (other_step turn c).2
  /\ (os_receiver (other_step turn c).2 = true -> os_receiver c.2 = true).
Proof.
  destruct c as [ts s]; cbn [fst snd]. intros Hf. destruct turn as [i|]; cbn [other_step].
  - unfold sched_step; cbn [fst snd]. destruct (ts !! i) as [[a|B f k]|] eqn:Hi.
    1,3: split; [apply rtc_refl|]; by repeat split; try done.
    split; [by apply rtc_once, cs_run|]. pose proof Hf as Hf'. rewrite Forall_lookup in Hf.
    destruct (Hf i _ Hi s) as (Ha&Hr&Hk). cbn [fst snd]. split; [by apply Forall_insert|].
    split; [done|]. by rewrite Hr.
  - split; [apply rtc_once, cs_env; repeat split; done|]. cbn [fst snd]. split; [done|]. split; [|done].
    exists []. by rewrite app_nil_r.
Qed.

Definition turns (l : list (option nat)) (c : list (prog OutputState bool) * OutputState) :
  list (prog OutputState bool) * OutputState := foldl (fun c turn => other_step turn c) c l.

Lemma turns_sound l : forall c, Forall forwards c.1 ->
  rtc (cstep no_arrivals outside) c (turns l c)
  /\ Forall forwards (turns l c).1 /\ adds_output c.2 (turns l c).2
  /\ (os_receiver (turns l c).2 = true -> os_receiver c.2 = true).
Proof.
  induction l as [|t l IH]; intros c Hf; cbn [turns foldl]; [by split; [apply rtc_refl|]|].
  destruct (other_step_sound t c Hf) as (H1&H2&H3&H4). destruct (IH _ H2) as (H5&H6&H7&H8).
  split; [by etrans|]. split; [done|]. split; [by etrans|auto].
Qed.

Definition terminal (e : ProcessEvent) : bool := negb (is_output e).
Definition terminals (events : list ProcessEvent) : list ProcessEvent :=
  List.filter terminal events.

Lemma terminals_app a b : terminals (a ++ b) = terminals a ++ terminals b.
Proof. apply List.filter_app. Qed.

Lemma terminals_output out : forallb is_output out = true -> terminals out = [].
Proof.
  induction out as [|e out IH]; [done|]. cbn [forallb]. intros [He Ho]%andb_true_iff.
  unfold terminals, terminal in *. cbn [List.filter]. rewrite He. by apply IH.
Qed.

Lemma terminals_adds s s' : adds_output s s' -> terminals (os_events s') = terminals (os_events s).
Proof.
  intros (out&->&Ho). by rewrite terminals_app, (terminals_output out), app_nil_r.
Qed.

Lemma event_bytes_terminal e : terminal e = true -> length (event_data e) = 0.
Proof. unfold terminal, is_output, event_data. by destruct (pe_event e). Qed.

(** The event that [send_event] adds, when the client is there. *)
Lemma run_send_event e s :
  run (send_event e) s = (os_receiver s, if os_receiver s then push_event e s else s).
Proof. unfold send_event. rewrite run_act. by destruct (os_receiver s). Qed.

Lemma send_terminal_outside e s : terminal e = true -> outside s (run (send_event e) s).2.
Proof.
  intros He. rewrite run_send_event. cbn [snd]. destruct (os_receiver s) eqn:Hr; [|by repeat split].
  repeat split; cbn; [|done]. rewrite event_bytes_app, event_bytes_terminal by done. lia.
Qed.

(** What the client has of the process at the end: [o] is the channel, [ended]
    says whether both forwarding tasks have ended. *)
Record client_view (process_id : string) (maximum : Z) (o : OutputState) (ended : bool) : Prop := {
  cv_bytes : (event_bytes (os_events o) <= maximum)%Z;
  cv_one : length (terminals (os_events o)) <= 1;
  cv_told : os_receiver o = true -> length (terminals (os_events o)) = 1;
  cv_exit x : Exit x ∈ map pe_event (os_events o) ->
    last (os_events o) = Some (MkProcessEvent process_id (Exit x))
    /\ px_stdout_truncated x = px_output_limit_exceeded x
    /\ px_stderr_truncated x = px_output_limit_exceeded x
    /\ (ended = true -> px_output_limit_exceeded x = true <-> (maximum < os_used o)%Z);
}.

Lemma output_no_exit out x : forallb is_output out = true -> Exit x ∉ map pe_event out.
Proof.
  intros Ho Hin. apply list_elem_of_In, in_map_iff in Hin as (e&He&Hin).
  rewrite forallb_forall in Ho. specialize (Ho e Hin). unfold is_output in Ho. by rewrite He in Ho.
Qed.

(** One error event is all there is. *)
Lemma client_view_error process_id code message maximum s ended :
  (0 <= maximum)%Z -> os_events s = [] ->
  client_view process_id maximum
    (run (send_event (MkProcessEvent process_id (EError code message))) s).2 ended.
Proof.
  intros Hm He. rewrite run_send_event. cbn [snd]. destruct (os_receiver s) eqn:Hr.
  - split; cbn; rewrite He; cbn; try done; try lia. intros x Hx. set_solver.
  - split; rewrite ?He; cbn; try done; try lia; [by rewrite Hr|intros x Hx; set_solver].
Qed.

Section Task.
Context `{U : UuidLib} `{C : CryptoLib} `{D : CapStd} `{P : GuestProcesses} `{H : HostPrograms}.

Lemma run_send_error process_id code message st :
  run (send_error process_id code message) st
  = (tt, put (run (send_event (MkProcessEvent process_id (EError code message))) (ts_output st)).2 st).
Proof. unfold send_error. by rewrite run_fmap, run_lift. Qed.

Lemma run_others l st :
  run (others l) st
  = (tt, MkTaskState (ts_guest st) (turns l (ts_readers st, ts_output st)).1
           (turns l (ts_readers st, ts_output st)).2).
Proof. done. Qed.

(** From the moment the forwarding tasks start: the wait, the rest of the turns
    and the exit event. *)
Lemma client_view_exit process_id maximum limit s0 before after middle status timed_out :
  let c0 := (readers limit limit process_id maximum, s0) in
  let c1 := turns before c0 in
  let s1 := (run middle c1.2).2 in
  let c2 := turns after (c1.1, s1) in
  let exceeded := os_limit_hit c2.2 in
  let final := match status with
    | Some st => (run (send_event (MkProcessEvent process_id (Exit (MkProcessExit (status_code st)
                   (status_signal st) timed_out exceeded exceeded exceeded)))) c2.2).2
    | None => c2.2
    end in
  (0 <= maximum)%Z -> (maximum + 2 * buffer < 2 ^ 64)%Z -> nothing_sent s0 -> os_events s0 = [] ->
  (middle = Ret tt /\ is_Some status
   \/ exists code message, middle = fmap_prog (fun _ => tt)
        (send_event (MkProcessEvent process_id (EError code message))) /\ status = None) ->
  client_view process_id maximum final (forallb finished c2.1).
Proof.
  intros c0 c1 s1 c2 exceeded final H0 Hm Hs0 He0 Hmid.
  assert (Forall forwards c0.1) as Hf0 by (repeat constructor; apply read_output_forwards).
  destruct (turns_sound before c0 Hf0) as (R1&F1&A1&V1). fold c1 in R1, F1, A1, V1.
  pose proof (terminals_adds _ _ A1) as T1. change c0.2 with s0 in T1. rewrite He0 in T1.
  change (terminals []) with (@nil ProcessEvent) in T1.
  assert (outside c1.2 s1 /\ (os_receiver s1 = true -> status = None -> length (terminals (os_events s1)) = 1)
    /\ (is_Some status -> terminals (os_events s1) = [])
    /\ length (terminals (os_events s1)) <= 1
    /\ forall x, Exit x ∉ map pe_event (os_events s1)) as (O1&T2&T3&T4&X1).
  { assert (forall x, Exit x ∉ map pe_event (os_events c1.2)) as Hx.
    { destruct A1 as (out&Hout&Ho). change c0.2 with s0 in Hout. rewrite Hout, He0. intros x.
      by apply output_no_exit. }
    unfold s1. destruct Hmid as [[-> [st ->]]|(code&message&->&->)]; cbn [run snd].
    - rewrite T1. repeat split; try done. cbn; lia.
    - rewrite run_fmap. cbn [snd]. split; [by apply send_terminal_outside|].
      rewrite run_send_event. cbn [snd]. destruct (os_receiver c1.2) eqn:Hr; cbn [push_event os_events os_receiver].
      + rewrite terminals_app, T1. split; [done|]. split; [by intros []|]. split; [cbn; lia|].
        intros x. rewrite map_app. intros [Hin|Hin]%elem_of_app; [by apply (Hx x)|set_solver].
      + rewrite T1, Hr. split; [done|]. split; [done|]. split; [cbn; lia|]. done. }
  destruct (turns_sound after (c1.1, s1) F1) as (R2&F2&A2&V2). fold c2 in R2, F2, A2, V2.
  assert (rtc (cstep no_arrivals outside) c0 c2) as Hreach.
  { etrans; [exact R1|]. etrans; [|exact R2]. rewrite (surjective_pairing c1) at 1.
    by apply rtc_once, cs_env. }
  pose proof (terminals_adds _ _ A2) as T5. cbn [snd] in T5, V2.
  assert (forall x, Exit x ∉ map pe_event (os_events c2.2)) as X2.
  { destruct A2 as (out&Hout&Ho). cbn [snd] in Hout. rewrite Hout. intros x. rewrite map_app.
    intros [Hin|Hin]%elem_of_app; [by apply (X1 x)|by eapply output_no_exit]. }
  rewrite (surjective_pairing c2) in Hreach.
  destruct (readers_limited limit limit process_id maximum s0 c2.1 c2.2 H0 Hm Hs0 Hreach) as [Hbytes Hfin].
  unfold final. destruct status as [st|].
  - set (e := MkProcessEvent process_id _). rewrite run_send_event. cbn [snd].
    assert (terminals (os_events c2.2) = []) as T6 by (rewrite T5; by apply T3).
    destruct (os_receiver c2.2) eqn:Hr.
    + split; cbn [push_event os_events os_used os_receiver].
      * rewrite event_bytes_app. cbn. lia.
      * rewrite terminals_app, T6. cbn. lia.
      * by rewrite terminals_app, T6.
      * intros x. rewrite map_app, last_snoc. intros [Hin|Hin]%elem_of_app; [by destruct (X2 x)|].
        apply list_elem_of_singleton in Hin. unfold e in Hin. injection Hin as ->. split; [done|].
        split; [done|]. split; [done|]. intros Hended. by destruct (Hfin Hended).
    + split; rewrite ?T6, ?Hr; try done; [cbn; lia|]. intros x Hx. by destruct (X2 x).
  - split; [done|by rewrite T5| |intros x Hx; by destruct (X2 x)].
    intros Hr. rewrite T5. by apply T2; [apply V2|].
Qed.

Lemma assign_keeps_processes pid available g :
  gs_processes (run (assign_guest_cgroup pid available) g).2 = gs_processes g.
Proof. unfold assign_guest_cgroup. destruct (negb available); [done|]. by rewrite run_map_err, run_lift. Qed.

Lemma lift_output {A} (p : prog OutputState A) st :
  run (lift (S:=TaskState) p) st
  = ((run p (ts_output st)).1, MkTaskState (ts_guest st) (ts_readers st) (run p (ts_output st)).2).
Proof. by rewrite run_lift. Qed.

Lemma lift_guest {A} (p : prog GuestService A) st :
  run (lift (S:=TaskState) p) st
  = ((run p (ts_guest st)).1, MkTaskState (run p (ts_guest st)).2 (ts_readers st) (ts_output st)).
Proof. by rewrite run_lift. Qed.

Lemma run_after_wait process_id pid child waited :
  (forall fs, is_ok (child_reap child fs).1 = true) ->
  forall st, exists status timed_out g middle,
    run (after_wait process_id pid child waited) st
      = ((status, timed_out), MkTaskState g (ts_readers st) (run middle (ts_output st)).2)
    /\ gs_processes g = gs_processes (ts_guest st)
    /\ (middle = Ret tt /\ is_Some status
        \/ exists code message, middle = fmap_prog (fun _ => tt)
             (send_event (MkProcessEvent process_id (EError code message))) /\ status = None).
Proof.
  intros Hreap st. destruct waited as [status|error|]; unfold after_wait.
  - exists (Some status), false, (ts_guest st), (Ret tt). split; [by destruct st|]. split; [done|]. left. eauto.
  - set (e := MkProcessEvent process_id (EError "wait" (io_text error))).
    exists None, false, (ts_guest st), (fmap_prog (fun _ => tt) (send_event e)).
    rewrite run_bind, run_send_error. split; [by rewrite run_fmap|]. split; [done|]. right. by eexists _, _.
  - rewrite run_bind, lift_guest, run_bind, lift_guest, run_act. cbn [ts_guest ts_readers ts_output].
    pose proof (Hreap (gs_fs (run (deliver pid SIGKILL) (ts_guest st)).2)) as Hok.
    destruct (child_reap child _) as [[status|e] fs']; [|done].
    eexists (Some status), true, _, (Ret tt). split; [reflexivity|]. split; [done|]. left. eauto.
Qed.

Lemma process_task_view task limit before after st :
  (0 <= sp_max_output_bytes (tk_request task))%Z ->
  (sp_max_output_bytes (tk_request task) + 2 * buffer < 2 ^ 64)%Z ->
  (forall child fs, is_ok (child_reap child fs).1 = true) ->
  gs_processes (ts_guest st) !! tk_process_id task = None ->
  os_events (ts_output st) = [] ->
  let st' := (run (process_task task limit before after) st).2 in
  gs_processes (ts_guest st') = gs_processes (ts_guest st)
  /\ client_view (tk_process_id task) (sp_max_output_bytes (tk_request task)) (ts_output st')
       (forallb finished (ts_readers st')).
Proof.
  set (maximum := sp_max_output_bytes (tk_request task)). set (process_id := tk_process_id task).
  intros H0 Hm Hreap Hfresh He. cbv zeta. unfold process_task. fold maximum process_id. cbv zeta.
  rewrite run_bind, lift_guest, run_act.
  destruct (spawn _ _ _ _ _ _) as [spawned fs1]. cbn [fst snd].
  destruct spawned as [child|error].
  2: { rewrite run_send_error. cbn [snd put task_output ts_guest ts_output]. split; [done|].
       by apply client_view_error. }
  destruct (child_id child) as [pid|].
  2: { rewrite run_send_error. cbn [snd put task_output ts_guest ts_output]. split; [done|].
       by apply client_view_error. }
  rewrite run_bind, lift_guest. cbn [ts_guest ts_readers ts_output].
  pose proof (assign_keeps_processes pid (guest_cgroup_available (tk_state task))
    (set_guest_fs fs1 (ts_guest st))) as Hassign.
  destruct (run (assign_guest_cgroup _ _) _) as [assigned g1]. cbn [fst snd] in *.
  destruct assigned as [[]|error].
  2: { rewrite run_bind, lift_guest, run_send_error. cbn [snd put task_output ts_guest ts_output].
       split; [done|]. by apply client_view_error. }
  rewrite run_bind, lift_guest, run_bind, run_modify. cbn [fst snd ts_guest ts_readers ts_output].
  rewrite run_bind, run_others. cbn [fst snd ts_guest ts_readers ts_output].
  set (s0 := fresh_output _ _ (ts_output st)). set (c1 := turns before _).
  rewrite run_bind, lift_guest, run_act. cbn [ts_guest ts_readers ts_output].
  destruct (child_wait _ _ _) as [w fs2]. cbn [fst snd].
  assert (nothing_sent s0 /\ os_events s0 = []) as [Hs0 He0].
  { unfold s0, nothing_sent. cbn. by rewrite He. }
  rewrite run_bind.
  destruct (run_after_wait process_id pid child w (Hreap child) (MkTaskState
    (set_guest_fs fs2 (run (modify (fun s =>
       set_processes (<[process_id:=pid]> (gs_processes s)) s)) g1).2) c1.1 c1.2))
    as (status&timed_out&g2&middle&Hrun&Hg2&Hmid).
  rewrite Hrun. cbn [fst snd ts_guest ts_readers ts_output] in *.
  rewrite run_bind, run_others. cbn [fst snd ts_guest ts_readers ts_output].
  rewrite run_bind, lift_guest, run_modify. cbn [fst snd ts_guest ts_readers ts_output].
  pose proof (client_view_exit process_id maximum limit s0 before after middle status timed_out
    H0 Hm Hs0 He0 Hmid) as Hview. cbv zeta in Hview. fold c1 in Hview.
  assert (delete process_id (gs_processes g2) = gs_processes (ts_guest st)) as Hdel.
  { rewrite Hg2. cbn. rewrite Hassign. cbn. by apply delete_insert_id. }
  destruct status as [status|].
  - rewrite run_bind, run_gets, run_fmap, lift_output. cbn [fst snd ts_guest ts_readers ts_output]. done.
  - done.
Qed.

(** C29. What becomes of a spawned process, for every way the command may be
    started, assigned, waited for or time out (a killed command being one that
    can be waited for), every interleaving with the tasks
    that forward its output, and a client that may go away at any time. At the
    end the process is no longer in the table. The client is sent no more than
    [max_output_bytes] bytes, and at most one event that is an exit or an error;
    exactly one if it stayed. An exit event is the last event, and once both
    forwarding tasks are done it reports the limit exceeded exactly when more
    than the limit was read. *)
Theorem guest_process_task task limit before after st :
  (0 <= sp_max_output_bytes (tk_request task))%Z ->
  (sp_max_output_bytes (tk_request task) + 2 * buffer < 2 ^ 64)%Z ->
  (forall child fs, is_ok (child_reap child fs).1 = true) ->
  gs_processes (ts_guest st) !! tk_process_id task = None ->
  os_events (ts_output st) = [] ->
  let st' := (run (process_task task limit before after) st).2 in
  gs_processes (ts_guest st') = gs_processes (ts_guest st)
  /\ client_view (tk_process_id task) (sp_max_output_bytes (tk_request task)) (ts_output st')
       (forallb finished (ts_readers st')).
Proof. apply process_task_view. Qed.
End Task.

(** ** Network configuration *)

Section GuestNetwork.
Context `{H : HostPrograms}.

Definition network_wellformed (address : string) (prefix_length : Z) (gateway dns : string) : bool :=
  if is_empty address then (prefix_length =? 0)%Z && is_empty gateway && is_empty dns
  else bool_decide (is_Some (parse_ipv4 address)) && bool_decide (is_Some (parse_ipv4 gateway))
       && bool_decide (is_Some (parse_ipv4 dns)) && in_range 1 32 prefix_length.

Definition no_invalid {A} (r : result A Status) : Prop :=
  match r with Ok _ => True | Err e => st_code e = Internal end.

Lemma run_guest_command_internal program arguments s :
  no_invalid (run (run_guest_command program arguments) s).1.
Proof.
  unfold run_guest_command. rewrite run_bind, run_act.
  destruct (command_output program arguments (gs_fs s)) as [[o|e] fs']; cbn [fst snd]; [|done].
  by destruct (status_success _).
Qed.

(** A chain of steps none of which complains about the request. *)
Lemma no_invalid_bind {A B} (p : prog GuestService (result A Status)) (k : A -> prog GuestService (result B Status)) s :
  no_invalid (run p s).1 -> (forall a s', no_invalid (run (k a) s').1) -> no_invalid (run (bind_ok p k) s).1.
Proof. intros Hp Hk. rewrite run_bind_ok. destruct (run p s) as [[a|e] s']; [apply Hk|done]. Qed.

Lemma guest_network_answers address prefix_length gateway dns s :
  let answer := run (configure_guest_network address prefix_length gateway dns) s in
  if network_wellformed address prefix_length gateway dns
  then no_invalid answer.1
  else exists message, answer = (Err (MkStatus InvalidArgument message), s).
Proof.
  cbv zeta. unfold configure_guest_network, network_wellformed. destruct (is_empty address).
  - destruct (prefix_length =? 0)%Z; cbn [negb orb andb]; [|by eexists].
    destruct (is_empty gateway); cbn [negb orb andb]; [|by eexists].
    destruct (is_empty dns); cbn [negb orb andb]; [done|by eexists].
  - unfold parse_address.
    destruct (parse_ipv4 address) as [a|]; [rewrite bool_decide_eq_true_2 by done|]; cbn [andb]; [|by eexists].
    destruct (parse_ipv4 gateway) as [g|]; [rewrite bool_decide_eq_true_2 by done|]; cbn [andb]; [|by eexists].
    destruct (parse_ipv4 dns) as [d|]; [rewrite bool_decide_eq_true_2 by done|]; cbn [andb]; [|by eexists].
    destruct (in_range 1 32 prefix_length); cbn [negb]; [|by eexists]. cbn [of_result ok_or bind_ok bind].
    cbv zeta. repeat (apply no_invalid_bind; [apply run_guest_command_internal|intros _ ?]).
    rewrite run_map_err. by destruct (run _ _) as [[]].
Qed.
(** Configuring the guest's network refuses exactly the malformed requests
    (without an address: anything else given; with one: an address, gateway or
    resolver that is not a dotted IPv4 address, or a prefix length outside 1 to
    32) and then runs no command and writes no file. *)
Theorem guest_network_checked address prefix_length gateway dns s :
  let answer := run (configure_guest_network address prefix_length gateway dns) s in
  if network_wellformed address prefix_length gateway dns
  then no_invalid answer.1
  else exists message, answer = (Err (MkStatus InvalidArgument message), s).
Proof. apply guest_network_answers. Qed.
End GuestNetwork.

(** ** Examples *)

Definition example_auth : option Auth := Some (MkAuth example_token).
Definition example_read : GuestReadRequest := MkGuestReadRequest example_auth "data" 2 3.

Example guest_examples :
  ((run (read_file example_read) ready_guest).1,
   (run (read_file (MkGuestReadRequest example_auth "/home/sandbox/data" 2 0)) ready_guest).1,
   (run (read_file (MkGuestReadRequest None "data" 0 9)) ready_guest).1)
  = (Ok [MkFileChunk (replicate 3 Byte.x64) false], Ok [MkFileChunk [] true],
     Err (MkStatus Unauthenticated "missing token")).
Proof. vm_compute. reflexivity. Qed.

Lemma guest_unauthorised_inert_witness :
  run (guest_service (G_ReadFile (MkGuestReadRequest None "data" 0 9))) ready_guest
  = (Err (MkStatus Unauthenticated "missing token"), ready_guest).
Proof.
  etrans; [apply (guest_unauthorised_inert (G_ReadFile (MkGuestReadRequest None "data" 0 9)) None);
    [reflexivity|vm_compute; reflexivity]|].
  assert (refusal (gs_initialization ready_guest) None = MkStatus Unauthenticated "missing token") as Hr
    by (vm_compute; reflexivity).
  rewrite Hr. reflexivity.
Defined.

(** An [init] with another token, on a guest that is in use. *)
Definition other_init : InitRequest :=
  MkInitRequest "sandbox" "fedcba9876543210fedcba9876543210" 1000 1000 1024 7 "" 0 "" "".
Definition pids_file : loc := ["sys"; "fs"; "cgroup"; "ferrobox-guest"; "pids.max"].
Definition pids_limit (s : GuestService) : option (list Byte.byte) :=
  file_data <$> (fs_nodes (gs_fs s) !! pids_file).

Lemma rejected_init_sets_pids_limit_witness :
  (run (init other_init) ready_guest).1
    = Err (MkStatus FailedPrecondition "guest already initialized with different identity")
  /\ pids_limit ready_guest = Some [Byte.x36; Byte.x34]
  /\ pids_limit (run (init other_init) ready_guest).2 = Some [Byte.x37].
Proof.
  rewrite (rejected_init_sets_pids_limit other_init ready_guest
    (MkInitState "sandbox" (digest example_token) 1000 1000 1024 true));
    [|vm_compute; reflexivity|vm_compute; reflexivity].
  split; [vm_compute; reflexivity|]. split; vm_compute; reflexivity.
Defined.

(** What is left of an open file in the concrete instance. *)
Definition position_rest (f : loc * Z) (fs : Fs) : list Byte.byte :=
  match node_at (fs_nodes fs) f.1 with
  | Some n => drop (Z.to_nat (Z.max 0 f.2)) (file_data n)
  | None => []
  end.

Lemma position_read_next f size fs data f' fs' : (0 < size)%Z ->
  run (position_read f size) fs = (Ok (data, f'), fs') ->
  position_rest f fs = data ++ position_rest f' fs' /\ (data = [] -> position_rest f fs = []).
Proof.
  intros Hs. unfold position_read, read_from, query, syscall. rewrite run_fmap, run_act.
  assert (forall fs0, fs_nodes fs0 = fs_nodes fs ->
    match (match node_at (fs_nodes fs0) f.1 with
    | Some n => match n_kind n with File d => Ok (slice (Z.max 0 f.2) size d) | Dir => Err EISDIR | _ => Ok [] end
    | None => Ok [] end) with
    | Ok d => position_rest f fs = d ++ position_rest (f.1, (Z.max 0 f.2 + Z.of_nat (length d))%Z) fs0
              /\ (d = [] -> position_rest f fs = [])
    | Err _ => True
    end) as Hd.
  { intros fs0 Hn. unfold position_rest; cbn [fst snd]. rewrite Hn.
    destruct (node_at (fs_nodes fs) f.1) as [n|]; [|done]. unfold file_data.
    destruct (n_kind n) as [d| | |]; try done; try by rewrite !drop_nil. rewrite slice_nonneg by lia.
    set (rest := drop (Z.to_nat (Z.max 0 f.2)) d). split.
    - rewrite length_take.
      replace (Z.to_nat (Z.max 0 (Z.max 0 f.2 + Z.of_nat (Z.to_nat size `min` length rest))))
        with (Z.to_nat (Z.max 0 f.2) + (Z.to_nat size `min` length rest)) by lia.
      rewrite <-drop_drop. fold rest. destruct (decide (Z.to_nat size <= length rest)).
      + rewrite Nat.min_l by done. by rewrite take_drop.
      + rewrite Nat.min_r, take_ge, drop_all, app_nil_r by lia. done.
    - intros Hnil%(f_equal length). rewrite length_take in Hnil. apply nil_length_inv.
      cbn in Hnil. lia. }
  pose proof (Hd fs eq_refl) as H1.
  destruct (fs_faults fs) as [|[e|] rest]; cbn [fst snd]; [|done|].
  - destruct (match node_at _ _ with Some n => _ | None => _ end) as [d|e]; [|done].
    cbn [result_map fst snd]. by intros [= <- <- <-].
  - pose proof (Hd (set_faults rest fs) eq_refl) as H2.
    destruct (match node_at (fs_nodes (set_faults rest fs)) _ with Some n => _ | None => _ end) as [d|e];
      [|done]. cbn [result_map fst snd]. by intros [= <- <- <-].
Qed.

Definition data_file : loc * Z := (["home"; "sandbox"; "data"], 2%Z).

Lemma guest_read_chunks_witness :
  exists r fs', run (read_chunks 2 3 6 data_file) guest_tree = (r, fs')
    /\ reading_done 2%Z 3%Z 6%Z (replicate 4 Byte.x64) r fs'.
Proof.
  destruct (guest_read_chunks (D:=host_cap) position_rest position_read_next 2 3 6 (replicate 4 Byte.x64)
    ltac:(lia) ltac:(lia) ltac:(lia) data_file guest_tree) as (r&fs'&_&Hrun&Hdone).
  - vm_compute. reflexivity.
  - exists r, fs'. split; [exact Hrun|exact Hdone].
Defined.

Lemma guest_empty_read_claims_eof_witness :
  run (read_file (MkGuestReadRequest example_auth "data" 2 0)) ready_guest
    = (Ok [MkFileChunk [] true], (run (read_file (MkGuestReadRequest example_auth "data" 2 0)) ready_guest).2)
  /\ ([MkFileChunk [] true] = [MkFileChunk [] true]
      \/ exists state, gs_initialization ready_guest = Some state /\ (in_max_file_bytes state < 0)%Z).
Proof.
  assert (run (read_file (MkGuestReadRequest example_auth "data" 2 0)) ready_guest
    = (Ok [MkFileChunk [] true], (run (read_file (MkGuestReadRequest example_auth "data" 2 0)) ready_guest).2))
    as Hrun by (vm_compute; reflexivity).
  split; [exact Hrun|].
  exact (guest_empty_read_claims_eof (MkGuestReadRequest example_auth "data" 2 0) ready_guest
    [MkFileChunk [] true] _ eq_refl Hrun).
Defined.

Lemma guest_path_confined_witness :
  exists names, Forall plain_name names
    /\ resolve guest_tree true (push (Path_of_string "/home/sandbox") (Path_of_string "data"))
       = Found (["home"; "sandbox"] ++ names) max_links.
Proof.
  destruct (guest_path_confined (D:=host_cap) (Path_of_string "/home/sandbox") (Path_of_string "/home/sandbox")
    ["home"; "sandbox"] (fun p fs _ _ _ => eq_refl) "data" (Path_of_string "data") false guest_tree guest_tree
    max_links) as (_&names&Hplain&_&Hres).
  - vm_compute. reflexivity.
  - vm_compute. reflexivity.
  - vm_compute. reflexivity.
  - vm_compute. reflexivity.
  - exists names. split; [exact Hplain|]. specialize (Hres true).
    assert (resolve guest_tree true (push (Path_of_string "/home/sandbox") (Path_of_string "data"))
      = Found ["home"; "sandbox"; "data"] max_links) as Hr by (vm_compute; reflexivity).
    rewrite Hr in Hres. rewrite Hr. congruence.
Defined.

Definition example_start : StartProcessRequest :=
  MkStartProcessRequest example_auth ["true"] "data" ∅ 1000 7.
Definition example_task : ProcessTask :=
  MkProcessTask example_start (Path_of_string "/home/sandbox") "p"
    (MkInitState "sandbox" (digest example_token) 1000 1000 1024 true).
Definition example_task_state : TaskState := MkTaskState ready_guest [] (output_start [] []).
Definition example_turns : list (option nat) :=
  map Some [0; 1; 0; 1; 0; 1; 0; 1; 0; 1; 0; 1; 0; 1].

Lemma guest_process_task_witness :
  let st' := (run (process_task example_task 8 [] example_turns) example_task_state).2 in
  (forallb finished (ts_readers st') = true /\ length (os_events (ts_output st')) = 3)
  /\ client_view "p" 7 (ts_output st') (forallb finished (ts_readers st')).
Proof.
  cbv zeta. split; [split; vm_compute; reflexivity|].
  apply (guest_process_task example_task 8 [] example_turns example_task_state).
  - vm_compute. discriminate.
  - vm_compute. reflexivity.
  - intros child fs. reflexivity.
  - vm_compute. reflexivity.
  - reflexivity.
Defined.
