(* ===== verification/Network.v ===== *)
(** * Sandbox networks

    Models [crates/ferrobox-node/src/network.rs]: the namespace, addresses,
    firewall and routes of a sandbox, made by running [ip], [nft] and
    [iptables], and the DNS relay between the guest and the host's resolvers. *)
From S2P Require Import Prelude Conc Core Utf8 Fs Commands Inet.

Definition DNS_PORT : Z := 53.
Definition DNS_MAX_MESSAGE_BYTES : Z := u16_max.
Definition DNS_MAX_IN_FLIGHT : nat := 128.

Record SocketAddr := MkSocketAddr { sa_ip : Ipv4Addr; sa_port : Z }.

#[export] Instance SocketAddr_eq_dec : EqDecision SocketAddr.
Proof. solve_decision. Defined.

(** [dns_relay] names the address that the relay of the lease is bound to. *)
Record NetworkLease := MkNetworkLease {
  namespace : string;
  namespace_path : string;
  tap_name : string;
  guest_mac : string;
  guest_address : string;
  gateway : string;
  dns_ipv4 : string;
  host_veth : string;
  nft_table : string;
  firewall_comment : string;
  dns_relay : option SocketAddr;
}.

Definition set_relay (r : option SocketAddr) (l : NetworkLease) : NetworkLease :=
  MkNetworkLease (namespace l) (namespace_path l) (tap_name l) (guest_mac l) (guest_address l)
    (gateway l) (dns_ipv4 l) (host_veth l) (nft_table l) (firewall_comment l) r.

(** What the manager does to the host, in order: the commands it ran and the
    rules it loaded, each with whether the program was started and exited with
    success, and the relays it started and stopped. *)
Inductive NetAction :=
| Ran (command : list string) (succeeded : bool)
| Loaded (rules : string) (succeeded : bool)
| RelayStarted (address : SocketAddr) (guest : Ipv4Addr) (upstreams : list SocketAddr)
| RelayAborted (address : SocketAddr).

#[export] Instance NetAction_eq_dec : EqDecision NetAction.
Proof. solve_decision. Defined.

(** [nft -f -] with the rules on its standard input, and the binding of the
    relay's sockets. *)
Inductive NftOutcome :=
| NftNotStarted (error : IoError)
| NftNotWritten (error : IoError)
| NftNotWaited (error : IoError)
| NftExited (output : Output).

(** What the host reports of a program. *)
Definition command_succeeded (outcome : result Output IoError) : bool :=
  match outcome with Ok output => status_success (out_status output) | Err _ => false end.
Definition nft_succeeded (outcome : NftOutcome) : bool :=
  match outcome with NftExited output => status_success (out_status output) | _ => false end.

Class NetHost := {
  nft_load : string -> Fs -> NftOutcome * Fs;
  udp_bind : SocketAddr -> Fs -> result unit IoError;
  udp_local_addr : SocketAddr -> Fs -> result SocketAddr IoError;
  tcp_bind : SocketAddr -> Fs -> result unit IoError;
}.

Record NetState := MkNetState { nt_fs : Fs; nt_actions : list NetAction }.

Definition set_net_fs (fs : Fs) (s : NetState) : NetState := MkNetState fs (nt_actions s).
Definition note (a : NetAction) (s : NetState) : NetState := MkNetState (nt_fs s) (nt_actions s ++ [a]).

#[export] Instance net_fs : Lens NetState Fs.
Proof. by refine {| view := nt_fs; put := set_net_fs |}; intros; destruct s. Defined.

(** ** Names and addresses *)

(** [str::replace('-', "")] *)
Fixpoint remove_char (c : ascii) (s : string) : string :=
  match s with
  | EmptyString => EmptyString
  | String a s' => if Ascii.eqb a c then remove_char c s' else String a (remove_char c s')
  end.

Definition hex_digit (c : ascii) : option Z :=
  let n := Z.of_N (byte_code c) in
  if is_ascii_digit c then Some (n - 48)%Z
  else if (97 <=? n)%Z && (n <=? 102)%Z then Some (n - 87)%Z
  else if (65 <=? n)%Z && (n <=? 70)%Z then Some (n - 55)%Z
  else None.

Fixpoint hex_value (s : string) (acc : Z) : option Z :=
  match s with
  | EmptyString => Some acc
  | String c s' => d ← hex_digit c; hex_value s' (acc * 16 + d)%Z
  end.

(** [u16::from_str_radix(s, 16)] of at most two characters: an empty text is an
    error, and a sign is accepted in front of a digit. *)
Definition from_hex (s : string) : option Z :=
  match s with
  | EmptyString => None
  | String c s' =>
      if Ascii.eqb c "+" then (if is_empty s' then None else hex_value s' 0)
      else hex_value s 0
  end.

Section Network.
Context `{U : UuidLib}.

Definition compact_id (id : SandboxId) : string := remove_char "-" (SandboxId_to_string id).
(** [&compact[..8]] and [&compact[..2]]; an identifier has 32 digits. *)
Definition short_id (id : SandboxId) : string := string_take 8 (compact_id id).

Definition subnet_octet (id : SandboxId) : Z :=
  let value := match from_hex (string_take 2 (compact_id id)) with Some v => v | None => 0%Z end in
  (32 + value mod 191)%Z.

Definition gateway_ipv4 (id : SandboxId) : Ipv4Addr := MkIpv4 10 200 (subnet_octet id) 1.
Definition guest_ipv4 (id : SandboxId) : Ipv4Addr := MkIpv4 10 200 (subnet_octet id) 2.

(** The lease as [create_linux] first builds it. *)
Definition lease_of (id : SandboxId) : NetworkLease :=
  let short := short_id id in
  let namespace := "fb-" +:+ short in
  let gateway := Ipv4Addr_to_string (gateway_ipv4 id) in
  MkNetworkLease namespace ("/run/netns/" +:+ namespace) "tap0" "06:00:ac:10:00:02"
    (Ipv4Addr_to_string (guest_ipv4 id)) gateway gateway ("fbh" +:+ short) ("ferrobox_" +:+ short)
    ("ferrobox:" +:+ short) None.

Definition netns (namespace : string) (command : list string) : list string :=
  ["ip"; "netns"; "exec"; namespace] ++ command.

Definition setup_commands (id : SandboxId) : list (list string) :=
  let lease := lease_of id in
  let namespace := namespace lease in
  let host_veth := host_veth lease in
  let peer_veth := "fbn" +:+ short_id id in
  [ ["ip"; "netns"; "add"; namespace];
    ["ip"; "link"; "add"; host_veth; "type"; "veth"; "peer"; "name"; peer_veth];
    ["ip"; "link"; "set"; peer_veth; "netns"; namespace];
    ["ip"; "address"; "add"; gateway lease +:+ "/24"; "dev"; host_veth];
    ["ip"; "link"; "set"; host_veth; "up"];
    netns namespace ["ip"; "link"; "add"; "br0"; "type"; "bridge"];
    netns namespace ["ip"; "tuntap"; "add"; "dev"; "tap0"; "mode"; "tap"];
    netns namespace ["ip"; "link"; "set"; "tap0"; "master"; "br0"];
    netns namespace ["ip"; "link"; "set"; peer_veth; "master"; "br0"];
    netns namespace ["ip"; "link"; "set"; "lo"; "up"];
    netns namespace ["ip"; "link"; "set"; "br0"; "up"];
    netns namespace ["ip"; "link"; "set"; "tap0"; "up"];
    netns namespace ["ip"; "link"; "set"; peer_veth; "up"] ].

Definition quote : string := String "034"%char "".
Definition quoted (s : string) : string := quote +:+ s +:+ quote.
Definition line (s : string) : string := s +:+ String newline "".

Definition blocked_ranges : string :=
  "0.0.0.0/8, 10.0.0.0/8, 100.64.0.0/10, 127.0.0.0/8, 169.254.0.0/16, 172.16.0.0/12, 192.0.0.0/24, 192.168.0.0/16, 224.0.0.0/4, 240.0.0.0/4".

Definition firewall_rules (id : SandboxId) : string :=
  let lease := lease_of id in
  let veth := quoted (host_veth lease) in
  let gateway := gateway lease in
  let port := pretty DNS_PORT in
  let subnet := "10.200." +:+ pretty (subnet_octet id) +:+ ".0/24" in
  String.concat ""
    [ line ("table inet " +:+ nft_table lease +:+ " {");
      line "chain input { type filter hook input priority -10; policy accept;";
      line ("iifname " +:+ veth +:+ " ip daddr " +:+ gateway +:+ " udp dport " +:+ port +:+ " accept");
      line ("iifname " +:+ veth +:+ " ip daddr " +:+ gateway +:+ " tcp dport " +:+ port +:+ " accept");
      line ("iifname " +:+ veth +:+ " reject");
      line "}";
      line "chain forward { type filter hook forward priority -10; policy accept;";
      line ("iifname " +:+ veth +:+ " ip daddr { " +:+ blocked_ranges +:+ " } reject");
      line ("iifname " +:+ veth +:+ " accept");
      line ("oifname " +:+ veth +:+ " ct state established,related accept");
      line "}";
      line "chain postrouting { type nat hook postrouting priority srcnat; policy accept;";
      line ("ip saddr " +:+ subnet +:+ " oifname != " +:+ veth +:+ " masquerade");
      line "}";
      line "}" ].

Definition iptables_forward_rules (insert : bool) (lease : NetworkLease) : list (list string) :=
  let prefix := ["iptables"; "--wait"; "5"; if insert then "-I" else "-D"; "FORWARD"]
    ++ (if insert then ["1"] else []) in
  let guest_to_host := prefix ++ ["-i"; host_veth lease; "-m"; "comment"; "--comment";
    firewall_comment lease; "-j"; "ACCEPT"] in
  let host_to_guest := prefix ++ ["-o"; host_veth lease; "-m"; "conntrack"; "--ctstate";
    "ESTABLISHED,RELATED"; "-m"; "comment"; "--comment"; firewall_comment lease; "-j"; "ACCEPT"] in
  [guest_to_host; host_to_guest].

(** ** The host's resolvers *)

Definition ipv4_nameservers (contents : string) : list Ipv4Addr :=
  filter (fun address => negb (is_unspecified address) && negb (is_multicast address)
                         && negb (bool_decide (address = BROADCAST)) = true)
    (omap parse_ipv4
      (omap (fun line => split_whitespace line !! 1)
        (filter (fun line => head (split_whitespace line) = Some "nameserver") (lines contents)))).

Definition push_new (l : list SocketAddr) (a : SocketAddr) : list SocketAddr :=
  if bool_decide (a ∈ l) then l else l ++ [a].

(** [read_to_string] *)
Definition read_to_string (path : string) : prog Fs (result string IoError) :=
  (do? file <- open read_options (Path_of_string path) ;;
   do? data <- read_from file 0 u64_max ;;
   of_result (ok_or (MkIoError IoOther "stream did not contain valid UTF-8") (from_utf8 data)))%prog.

Fixpoint resolver_files (paths : list string) (upstreams : list SocketAddr) : prog Fs (list SocketAddr) :=
  match paths with
  | [] => Ret upstreams
  | path :: rest =>
      (do contents <- read_to_string path ;;
       resolver_files rest
         (match contents with
          | Ok contents => foldl push_new upstreams
              (map (fun address => MkSocketAddr address DNS_PORT) (ipv4_nameservers contents))
          | Err _ => upstreams
          end))%prog
  end.

Definition fallback_resolver : SocketAddr := MkSocketAddr (MkIpv4 1 1 1 1) DNS_PORT.

Definition host_dns_upstreams : prog Fs (list SocketAddr) :=
  fmap_prog (fun upstreams => take 3 (push_new upstreams fallback_resolver))
    (resolver_files ["/etc/resolv.conf"; "/run/systemd/resolve/resolv.conf"] []).

(** ** Creating and deleting *)

Context `{H : HostPrograms} `{N : NetHost}.

Definition unavailable (m : string) : RuntimeError := MkRuntimeError Unavailable m.

Definition run_command (command : list string) : prog NetState (result unit RuntimeError) :=
  match command with
  | [] => throw (RuntimeError_internal "empty network command")
  | program :: arguments =>
      (do output <- act (fun s => let '(out, fs') := command_output program arguments (nt_fs s) in
         (out, note (Ran command (command_succeeded out)) (set_net_fs fs' s))) ;;
       match output with
       | Err error => throw (RuntimeError_internal ("run " +:+ program +:+ ": " +:+ io_text error))
       | Ok output =>
           if status_success (out_status output) then ok tt
           else throw (unavailable
             (program +:+ " failed: " +:+ trim (from_utf8_lossy (out_stderr output))))
       end)%prog
  end.

Definition run_nft (rules : string) : prog NetState (result unit RuntimeError) :=
  (do outcome <- act (fun s => let '(out, fs') := nft_load rules (nt_fs s) in
     (out, note (Loaded rules (nft_succeeded out)) (set_net_fs fs' s))) ;;
   match outcome with
   | NftNotStarted error => throw (RuntimeError_internal ("start nft: " +:+ io_text error))
   | NftNotWritten error => throw (RuntimeError_internal ("write nft rules: " +:+ io_text error))
   | NftNotWaited error => throw (RuntimeError_internal ("wait for nft: " +:+ io_text error))
   | NftExited output =>
       if status_success (out_status output) then ok tt
       else throw (unavailable ("nft failed: " +:+ from_utf8_lossy (out_stderr output)))
   end)%prog.

(** [DnsRelay::start]; what its task does is [relay_event] below. *)
Definition relay_start (bind_address : SocketAddr) (guest : Ipv4Addr) (upstreams : list SocketAddr) :
  prog NetState (result SocketAddr RuntimeError) :=
  (do? _ <- gets (fun s => map_err
     (fun error => unavailable ("bind sandbox DNS UDP relay: " +:+ io_text error))
     (udp_bind bind_address (nt_fs s))) ;;
   do? listen_address <- gets (fun s => map_err
     (fun error => RuntimeError_internal ("read sandbox DNS relay address: " +:+ io_text error))
     (udp_local_addr bind_address (nt_fs s))) ;;
   do? _ <- gets (fun s => map_err
     (fun error => unavailable ("bind sandbox DNS TCP relay: " +:+ io_text error))
     (tcp_bind listen_address (nt_fs s))) ;;
   do _ <- modify (note (RelayStarted listen_address guest upstreams)) ;;
   ok listen_address)%prog.

(** Runs the commands and ignores their results. *)
Fixpoint run_all (commands : list (list string)) : prog NetState unit :=
  match commands with
  | [] => Ret tt
  | command :: rest => (do _ <- run_command command ;; run_all rest)%prog
  end.

Definition delete_commands (lease : NetworkLease) : list (list string) :=
  iptables_forward_rules false lease ++
  [ ["nft"; "delete"; "table"; "inet"; nft_table lease];
    ["ip"; "link"; "delete"; host_veth lease];
    ["ip"; "netns"; "delete"; namespace lease] ].

Definition delete_network (lease : NetworkLease) : prog NetState (result unit RuntimeError) :=
  (do _ <- (match dns_relay lease with
            | Some address => modify (note (RelayAborted address))
            | None => Ret tt
            end) ;;
   do _ <- run_all (delete_commands lease) ;;
   ok tt)%prog.

(** A failing step deletes the lease and gives up. *)
Definition or_delete {A} (lease : NetworkLease) (p : prog NetState (result A RuntimeError)) :
  prog NetState (result A RuntimeError) :=
  (do r <- p ;;
   match r with
   | Ok a => ok a
   | Err error => do _ <- delete_network lease ;; throw error
   end)%prog.

Definition create_linux (id : SandboxId) : prog NetState (result NetworkLease RuntimeError) :=
  (let lease := lease_of id in
   do? _ <- for_each (setup_commands id) (fun command => or_delete lease (run_command command)) ;;
   do? _ <- or_delete lease (run_nft (firewall_rules id)) ;;
   do? _ <- for_each (iptables_forward_rules true lease)
     (fun rule => or_delete lease (run_command rule)) ;;
   let relay_address := MkSocketAddr (gateway_ipv4 id) DNS_PORT in
   do upstreams <- lift host_dns_upstreams ;;
   do? relay <- or_delete lease (relay_start relay_address (guest_ipv4 id) upstreams) ;;
   ok (set_relay (Some relay) lease))%prog.

Definition create_network (id : SandboxId) (mode : NetworkMode) :
  prog NetState (result (option NetworkLease) RuntimeError) :=
  (if bool_decide (mode = Disabled) then ok None
   else do? lease <- create_linux id ;; ok (Some lease))%prog.
End Network.

(** ** DNS messages *)

Definition byte_at (message : list Byte.byte) (i : nat) : Z := Z.of_N (Byte.to_N (nth i message Byte.x00)).

Definition is_dns_query (message : list Byte.byte) : bool :=
  (12 <=? length message) && (Z.land (byte_at message 2) 0x80 =? 0)%Z
  && (0 <? byte_at message 4 * 256 + byte_at message 5)%Z.

Definition is_dns_response_for (query response : list Byte.byte) : bool :=
  (2 <=? length query) && (12 <=? length response)
  && bool_decide (take 2 response = take 2 query)
  && negb (Z.land (byte_at response 2) 0x80 =? 0)%Z.

Definition byte_of (z : Z) : Byte.byte :=
  match Byte.of_N (Z.to_N (z mod 256)) with Some b => b | None => Byte.x00 end.

Definition dns_servfail (query : list Byte.byte) : list Byte.byte :=
  (if 2 <=? length query then take 2 query else [Byte.x00; Byte.x00])
  ++ [byte_of (Z.lor 0x80 (Z.land (if 3 <=? length query then byte_at query 2 else 0) 0x01)); Byte.x82]
  ++ replicate 8 Byte.x00.

(** ** The relay

    An exchange with an upstream over UDP or TCP, with its sockets and its
    time limit: the answer, or nothing. *)
Class Resolvers := {
  udp_exchange : SocketAddr -> list Byte.byte -> option (list Byte.byte);
  tcp_exchange : SocketAddr -> list Byte.byte -> option (list Byte.byte);
}.

Section Relay.
Context `{R : Resolvers}.

(** The message that [relay_udp_query] sends back to the guest. *)
Fixpoint relay_udp_query (query : list Byte.byte) (upstreams : list SocketAddr) : list Byte.byte :=
  match upstreams with
  | [] => dns_servfail query
  | upstream :: rest =>
      match udp_exchange upstream query with
      | Some response => if is_dns_response_for query response then response
                         else relay_udp_query query rest
      | None => relay_udp_query query rest
      end
  end.

Fixpoint relay_tcp_query (query : list Byte.byte) (upstreams : list SocketAddr) :
  option (list Byte.byte) :=
  match upstreams with
  | [] => None
  | upstream :: rest =>
      if (u16_max <? Z.of_nat (length query))%Z then None
      else
      match tcp_exchange upstream query with
      | Some response => if is_dns_response_for query response then Some response
                         else relay_tcp_query query rest
      | None => relay_tcp_query query rest
      end
  end.

Definition be_bytes (n : Z) : list Byte.byte := [byte_of (n / 256); byte_of n].

(** [relay_tcp_queries] on a client whose remaining input is [input]: what is
    written back. [writes] bounds the messages written before a write fails;
    every turn but the last consumes input, so its length is enough turns. *)
Fixpoint relay_tcp_queries (turns writes : nat) (upstreams : list SocketAddr)
    (input : list Byte.byte) : list Byte.byte :=
  match turns with
  | O => []
  | S turns' =>
      if length input <? 2 then []
      else
      let size := Z.to_nat (byte_at input 0 * 256 + byte_at input 1) in
      let input := drop 2 input in
      if length input <? size then []
      else
      let query := take size input in
      if negb (is_dns_query query) then []
      else
      let response := match relay_tcp_query query upstreams with
                      | Some response => response
                      | None => dns_servfail query
                      end in
      if (u16_max <? Z.of_nat (length response))%Z then []
      else
      match writes with
      | O => []
      | S writes' =>
          be_bytes (Z.of_nat (length response)) ++ response
          ++ relay_tcp_queries turns' writes' upstreams (drop size input)
      end
  end.

(** ** The relay's task

    The queries in flight, each holding a permit, and whether the task goes
    on. *)
Inductive Relayed := RelayedUdp (peer : SocketAddr) (query : list Byte.byte) | RelayedTcp (peer : SocketAddr).

Record RelayState := MkRelayState { rs_running : bool; rs_in_flight : list Relayed }.

Inductive RelayEvent :=
| UdpReceived (received : option (SocketAddr * list Byte.byte))
| TcpAccepted (accepted : option SocketAddr)
| Completed (i : nat).

Definition stop (s : RelayState) : RelayState := MkRelayState false (rs_in_flight s).

(** A permit is taken if one is left. *)
Definition spawn_query (q : Relayed) (s : RelayState) : RelayState :=
  if length (rs_in_flight s) <? DNS_MAX_IN_FLIGHT
  then MkRelayState (rs_running s) (rs_in_flight s ++ [q]) else s.

Definition relay_event (guest : Ipv4Addr) (e : RelayEvent) (s : RelayState) : RelayState :=
  if negb (rs_running s) then s
  else
  match e with
  | UdpReceived None | TcpAccepted None => stop s
  | UdpReceived (Some (peer, message)) =>
      if negb (bool_decide (sa_ip peer = guest)) || negb (is_dns_query message) then s
      else spawn_query (RelayedUdp peer message) s
  | TcpAccepted (Some peer) =>
      if negb (bool_decide (sa_ip peer = guest)) then s else spawn_query (RelayedTcp peer) s
  | Completed i => MkRelayState (rs_running s) (delete i (rs_in_flight s))
  end.
End Relay.

Definition relay_initial : RelayState := MkRelayState true [].
