(* ===== verification/NetworkProps.v ===== *)
(** * Behaviour of sandbox networks

    Creation undoes itself when it fails; the names and addresses given out;
    the resolvers chosen; what the DNS relay answers and how much it takes on. *)
From S2P Require Import Prelude Conc Core Utf8 Instances Fs Commands Inet GuestOutput Guest.
From S2P Require Import GuestProps Network.

Section NetworkProps.
Context `{U : UuidLib}.

(** ** Names and addresses *)

Lemma string_take_take n m s : n <= m -> string_take n (string_take m s) = string_take n s.
Proof.
  revert m s. induction n as [|n IH]; intros [|m] [|c s] Hle; try done; [lia|].
  simpl. f_equal. apply IH. lia.
Qed.

Lemma subnet_octet_range id : (32 <= subnet_octet id <= 222)%Z.
Proof.
  unfold subnet_octet. set (v := match _ with Some v => v | None => 0%Z end).
  pose proof (Z.mod_pos_bound v 191). lia.
Qed.

Lemma lease_addresses_valid id :
  valid_ipv4 (gateway_ipv4 id) = true /\ valid_ipv4 (guest_ipv4 id) = true.
Proof.
  pose proof (subnet_octet_range id). unfold valid_ipv4, gateway_ipv4, guest_ipv4;
    cbn [octets forallb ip_a ip_b ip_c ip_d].
  assert (in_range 0 255 (subnet_octet id) = true) as -> by (apply in_range_spec; lia). done.
Qed.

Lemma pretty_not_empty a : is_empty (Ipv4Addr_to_string a) = false.
Proof.
  unfold Ipv4Addr_to_string. destruct (pretty (ip_a a)) as [|c s] eqn:Hp; [|done]. done.
Qed.

(** C38. The addresses of a lease are what the guest agent accepts: the guest's
    address and the gateway lie in one [/24] whose third octet is between 32
    and 222, they differ, they read back from their text, and initializing the
    guest with them is never refused as malformed. *)
Theorem lease_accepted_by_guest `{HP : HostPrograms} id s :
  (32 <= subnet_octet id <= 222)%Z
  /\ parse_ipv4 (guest_address (lease_of id)) = Some (MkIpv4 10 200 (subnet_octet id) 2)
  /\ parse_ipv4 (gateway (lease_of id)) = Some (MkIpv4 10 200 (subnet_octet id) 1)
  /\ dns_ipv4 (lease_of id) = gateway (lease_of id)
  /\ no_invalid (run (configure_guest_network (guest_address (lease_of id)) 24
       (gateway (lease_of id)) (dns_ipv4 (lease_of id))) s).1.
Proof.
  destruct (lease_addresses_valid id) as [Hgw Hguest].
  assert (parse_ipv4 (guest_address (lease_of id)) = Some (guest_ipv4 id)) as H1
    by by apply parse_ipv4_to_string.
  assert (parse_ipv4 (gateway (lease_of id)) = Some (gateway_ipv4 id)) as H2
    by by apply parse_ipv4_to_string.
  split; [apply subnet_octet_range|]. split; [done|]. split; [done|]. split; [done|].
  assert (network_wellformed (guest_address (lease_of id)) 24 (gateway (lease_of id))
    (dns_ipv4 (lease_of id)) = true) as Hwf.
  { unfold network_wellformed. change (dns_ipv4 (lease_of id)) with (gateway (lease_of id)).
    rewrite H1, H2.
    change (guest_address (lease_of id)) with (Ipv4Addr_to_string (guest_ipv4 id)).
    rewrite pretty_not_empty. done. }
  pose proof (guest_network_answers (guest_address (lease_of id)) 24 (gateway (lease_of id))
    (dns_ipv4 (lease_of id)) s) as Hc.
  cbv zeta in Hc. by rewrite Hwf in Hc.
Qed.

(** ** Creation and its undoing *)

(** The steps of a creation that leave something on the host outside the new
    namespace, and the command that removes it. *)
Definition creates (a : NetAction) : bool :=
  match a with
  | Loaded _ _ => true
  | Ran c _ => bool_decide (take 3 c = ["ip"; "netns"; "add"]) || bool_decide (take 3 c = ["ip"; "link"; "add"])
             || bool_decide (take 4 c = ["iptables"; "--wait"; "5"; "-I"])
  | _ => false
  end.

Inductive undoes : NetAction -> list string -> Prop :=
| undo_namespace n ok : undoes (Ran ["ip"; "netns"; "add"; n] ok) ["ip"; "netns"; "delete"; n]
| undo_link v rest ok : undoes (Ran ("ip" :: "link" :: "add" :: v :: rest) ok) ["ip"; "link"; "delete"; v]
| undo_rule rest ok :
    undoes (Ran ("iptables" :: "--wait" :: "5" :: "-I" :: "FORWARD" :: "1" :: rest) ok)
      ("iptables" :: "--wait" :: "5" :: "-D" :: "FORWARD" :: rest)
| undo_table t rest ok :
    undoes (Loaded ("table inet " +:+ t +:+ " {" +:+ rest) ok) ["nft"; "delete"; "table"; "inet"; t].

(** A command that succeeded, and the same action failing. *)
Definition done_command (c : list string) : NetAction := Ran c true.
Definition failing (a : NetAction) : NetAction :=
  match a with Ran c _ => Ran c false | Loaded rules _ => Loaded rules false | a => a end.

(** All that a creation does, in order, but for the relay: every step succeeds. *)
Definition creation (id : SandboxId) : list NetAction :=
  map done_command (setup_commands id) ++ [Loaded (firewall_rules id) true]
  ++ map done_command (iptables_forward_rules true (lease_of id)).

(** [acts] up to a step, which fails. *)
Definition stopped (acts made : list NetAction) : Prop :=
  exists complete a rest, acts = complete ++ a :: rest /\ made = complete ++ [failing a].

Lemma firewall_rules_table id :
  exists rest, firewall_rules id = "table inet " +:+ nft_table (lease_of id) +:+ " {" +:+ rest.
Proof.
  eexists. unfold firewall_rules. cbv zeta. cbn [String.concat].
  unfold line at 1. rewrite <-!append_assoc_s. reflexivity.
Qed.

Lemma creation_undone id a : a ∈ creation id -> creates a = true ->
  exists u, undoes a u /\ undoes (failing a) u /\ u ∈ delete_commands (lease_of id).
Proof.
  intros Hin Hc. apply list_elem_of_In in Hin.
  unfold creation, done_command in Hin. cbn [setup_commands iptables_forward_rules map app In] in Hin.
  repeat destruct Hin as [<-|Hin]; try done;
    try (eexists; split; [constructor|]; split; [constructor|]; apply list_elem_of_In; cbn; tauto).
  destruct (firewall_rules_table id) as [rest ->].
  eexists; split; [constructor|]; split; [constructor|]; apply list_elem_of_In; cbn; tauto.
Qed.

Context `{H : HostPrograms} `{N : NetHost}.

(** A program adds actions only. *)
Definition adds (p : list NetAction) (s s' : NetState) : Prop := nt_actions s' = nt_actions s ++ p.

(** A step that answers what the host did: it succeeds when the action did. *)
Definition acts_as {A} (a : NetAction) (p : prog NetState (result A RuntimeError)) : Prop :=
  forall s, match run p s with
            | (Ok _, s') => adds [a] s s'
            | (Err _, s') => adds [failing a] s s'
            end.

Lemma run_command_acts c : c <> [] -> acts_as (done_command c) (run_command c).
Proof.
  intros Hc s. destruct c as [|program arguments]; [done|]. cbn [run_command]. rewrite run_bind, run_act.
  destruct (command_output program arguments (nt_fs s)) as [[o|e] fs']; cbn [fst snd command_succeeded]; [|done].
  by destruct (status_success (out_status o)).
Qed.

Lemma run_nft_acts rules : acts_as (Loaded rules true) (run_nft rules).
Proof.
  intros s. unfold run_nft. rewrite run_bind, run_act. destruct (nft_load rules (nt_fs s)) as [[e|e|e|o] fs'];
    cbn [fst snd nft_succeeded]; try done. by destruct (status_success (out_status o)).
Qed.

(** The commands of a list, each with whatever came of it. *)
Definition tried (commands : list (list string)) (acts : list NetAction) : Prop :=
  exists outcomes, length outcomes = length commands /\ acts = zip_with Ran commands outcomes.

Lemma run_all_tries l s : Forall (fun c => c <> []) l -> exists acts, tried l acts /\ adds acts s (run (run_all l) s).2.
Proof.
  intros Hl. revert s. induction Hl as [|c l Hc _ IH]; intros s.
  { exists []. split; [by exists []|]. unfold adds. by rewrite app_nil_r. }
  cbn [run_all]. rewrite run_bind. pose proof (run_command_acts c Hc s) as H1.
  destruct (run (run_command c) s) as [r s1]. cbn [fst snd].
  destruct (IH s1) as (acts&(outcomes&Hlen&->)&H2).
  exists (Ran c (is_ok r) :: zip_with Ran l outcomes). split; [exists (is_ok r :: outcomes); cbn; by rewrite Hlen|].
  unfold adds in *. rewrite H2. destruct r; rewrite H1; by rewrite <- app_assoc.
Qed.

Lemma delete_commands_nonempty lease : Forall (fun c => c <> []) (delete_commands lease).
Proof. repeat constructor; done. Qed.

(** What the deletion of a lease does. *)
Definition deletion (lease : NetworkLease) (acts : list NetAction) : Prop :=
  exists commands, tried (delete_commands lease) commands
    /\ acts = match dns_relay lease with Some address => [RelayAborted address] | None => [] end ++ commands.

Lemma run_delete_network lease s :
  (run (delete_network lease) s).1 = Ok tt
  /\ exists acts, deletion lease acts /\ adds acts s (run (delete_network lease) s).2.
Proof.
  unfold delete_network. rewrite run_bind.
  assert (adds (match dns_relay lease with Some address => [RelayAborted address] | None => [] end) s
    (run (match dns_relay lease with
          | Some address => modify (note (RelayAborted address))
          | None => Ret tt end) s).2) as H1.
  { unfold adds. destruct (dns_relay lease); [done|]. by rewrite app_nil_r. }
  rewrite run_bind. cbn [fst snd]. split; [done|]. cbn [ok run snd].
  destruct (run_all_tries (delete_commands lease)
    (run (match dns_relay lease with
          | Some address => modify (note (RelayAborted address))
          | None => Ret tt end) s).2 (delete_commands_nonempty lease)) as (acts&Ht&H2).
  eexists. split; [by exists acts|]. unfold adds in *. by rewrite H2, H1, app_assoc.
Qed.

(** What a step of a creation does: it succeeds with all of [acts] done, or
    stops at the first of them that fails and then deletes the lease. *)
Definition stepped {A} (lease : NetworkLease) (acts : list NetAction) (p : prog NetState (result A RuntimeError)) : Prop :=
  forall s, match run p s with
            | (Ok _, s') => adds acts s s'
            | (Err _, s') => exists made cleaned, stopped acts made /\ deletion lease cleaned /\ adds (made ++ cleaned) s s'
            end.

Lemma or_delete_stepped {A} lease a (p : prog NetState (result A RuntimeError)) :
  acts_as a p -> stepped lease [a] (or_delete lease p).
Proof.
  intros Hp s. unfold or_delete. rewrite run_bind. specialize (Hp s).
  destruct (run p s) as [[x|e] s1]; cbn [fst snd] in *; [done|]. rewrite run_bind.
  cbn [throw run fst snd]. destruct (run_delete_network lease s1) as (_&cleaned&Hd&Ha).
  exists [failing a], cleaned. split; [by exists [], a, []|]. split; [done|].
  unfold adds in *. by rewrite Ha, Hp, app_assoc.
Qed.

Lemma stepped_bind {A B} lease a b (p : prog NetState (result A RuntimeError))
    (k : A -> prog NetState (result B RuntimeError)) :
  stepped lease a p -> (forall x, stepped lease b (k x)) -> stepped lease (a ++ b) (bind_ok p k).
Proof.
  intros Hp Hk s. rewrite run_bind_ok. pose proof (Hp s) as H1.
  destruct (run p s) as [[x|e] s1]; cbn [fst snd] in *.
  - pose proof (Hk x s1) as H2. destruct (run (k x) s1) as [[y|e] s2]; cbn [fst snd] in *.
    + unfold adds in *. by rewrite H2, H1, app_assoc.
    + destruct H2 as (made&cleaned&(complete&act&rest&->&->)&Hd&H2). exists (a ++ complete ++ [failing act]), cleaned.
      split; [exists (a ++ complete), act, rest; by rewrite <- !app_assoc|]. split; [done|].
      unfold adds in *. by rewrite H2, H1, <- !app_assoc.
  - destruct H1 as (made&cleaned&(complete&act&rest&->&->)&Hd&H1). exists (complete ++ [failing act]), cleaned.
    split; [|done]. exists complete, act, (rest ++ b). by rewrite <- app_assoc.
Qed.

Lemma stepped_ok {A} lease (a : A) : stepped lease [] (ok a).
Proof. intros s. unfold adds. cbn. by rewrite app_nil_r. Qed.

Lemma for_each_stepped lease l :
  Forall (fun c => c <> []) l ->
  stepped lease (map done_command l) (for_each l (fun c => or_delete lease (run_command c))).
Proof.
  induction 1 as [|c l Hc _ IH]; cbn [for_each map]; [apply stepped_ok|].
  apply (stepped_bind lease [done_command c] (map done_command l)); [|done].
  by apply or_delete_stepped, run_command_acts.
Qed.

(** ** Resolvers *)

Definition usable (a : SocketAddr) : Prop :=
  sa_port a = DNS_PORT /\ is_unspecified (sa_ip a) = false /\ is_multicast (sa_ip a) = false
  /\ sa_ip a <> BROADCAST.

Lemma ipv4_nameservers_usable contents :
  Forall usable (map (fun address => MkSocketAddr address DNS_PORT) (ipv4_nameservers contents)).
Proof.
  rewrite Forall_forall. intros a Ha%list_elem_of_In%in_map_iff. destruct Ha as (x&<-&Hx%list_elem_of_In).
  unfold ipv4_nameservers in Hx. apply list_elem_of_filter in Hx as [Hx _].
  rewrite !andb_true_iff, !negb_true_iff, bool_decide_eq_false in Hx.
  destruct Hx as [[? ?] ?]. by split.
Qed.

Lemma push_new_ok l a : NoDup l -> Forall usable l -> usable a ->
  NoDup (push_new l a) /\ Forall usable (push_new l a).
Proof.
  intros Hn Hu Ha. unfold push_new. case_bool_decide as Hin; [done|]. split.
  - apply NoDup_app. split; [done|]. split; [|apply NoDup_singleton].
    intros x Hx ->%list_elem_of_singleton. done.
  - by apply Forall_app_2; [|apply Forall_singleton].
Qed.

Lemma foldl_push_new l : forall acc, Forall usable l -> NoDup acc -> Forall usable acc ->
  NoDup (foldl push_new acc l) /\ Forall usable (foldl push_new acc l).
Proof.
  induction l as [|a l IH]; intros acc Hl Hn Hu; [done|]. inversion_clear Hl.
  destruct (push_new_ok acc a) as [? ?]; try done. by apply IH.
Qed.

Lemma resolver_files_ok paths : forall acc fs, NoDup acc -> Forall usable acc ->
  NoDup (run (resolver_files paths acc) fs).1 /\ Forall usable (run (resolver_files paths acc) fs).1.
Proof.
  induction paths as [|path paths IH]; intros acc fs Hn Hu; [done|]. cbn [resolver_files]. rewrite run_bind.
  destruct (run (read_to_string path) fs) as [[contents|e] fs1]; cbn [fst snd]; [|by apply IH].
  destruct (foldl_push_new (map (fun address => MkSocketAddr address DNS_PORT) (ipv4_nameservers contents)) acc)
    as [? ?]; try done; [apply ipv4_nameservers_usable|]. by apply IH.
Qed.

(** The resolvers that a relay asks: one to three of them, none twice, each on
    port 53 at an address that is not unspecified, multicast or broadcast; and
    the public fallback is among them unless three of the host's own came
    first. *)
Theorem upstreams_usable fs :
  let upstreams := (run host_dns_upstreams fs).1 in
  1 <= length upstreams <= 3 /\ NoDup upstreams /\ Forall usable upstreams
  /\ (length upstreams < 3 -> fallback_resolver ∈ upstreams).
Proof.
  cbv zeta. unfold host_dns_upstreams. rewrite run_fmap. cbn [fst].
  destruct (resolver_files_ok ["/etc/resolv.conf"; "/run/systemd/resolve/resolv.conf"] [] fs) as [Hn Hu];
    [constructor..|].
  set (l := (run (resolver_files _ []) fs).1) in *.
  assert (usable fallback_resolver) as Hf by (repeat split; done).
  destruct (push_new_ok l _ Hn Hu Hf) as [Hn' Hu'].
  assert (fallback_resolver ∈ push_new l fallback_resolver) as Hin.
  { unfold push_new. case_bool_decide; [done|]. apply elem_of_app. right. by apply list_elem_of_singleton. }
  set (l' := push_new l fallback_resolver) in *. rewrite length_take. split; [|split; [|split]].
  - destruct l' as [|x l']; [set_solver|]. cbn [length]. lia.
  - by eapply sublist_NoDup, sublist_take.
  - by apply Forall_take.
  - intros Hlt. by rewrite take_ge by lia.
Qed.

(** ** Creation *)

Definition relay_of (id : SandboxId) (lease : NetworkLease) (upstreams : list SocketAddr) : list NetAction :=
  match dns_relay lease with
  | Some address => [RelayStarted address (guest_ipv4 id) upstreams]
  | None => []
  end.

Lemma relay_start_result address guest upstreams s :
  match run (relay_start address guest upstreams) s with
  | (Ok bound, s') => adds [RelayStarted bound guest upstreams] s s'
  | (Err _, s') => s' = s
  end.
Proof.
  unfold relay_start. rewrite run_bind_ok, run_gets. cbn [fst snd].
  destruct (udp_bind address (nt_fs s)); cbn [map_err]; [|done]. rewrite run_bind_ok, run_gets. cbn [fst snd].
  destruct (udp_local_addr address (nt_fs s)) as [bound|]; cbn [map_err]; [|done].
  rewrite run_bind_ok, run_gets. cbn [fst snd]. by destruct (tcp_bind bound (nt_fs s)).
Qed.

Definition build (id : SandboxId) : prog NetState (result unit RuntimeError) :=
  let lease := lease_of id in
  bind_ok (for_each (setup_commands id) (fun command => or_delete lease (run_command command)))
    (fun _ => bind_ok (or_delete lease (run_nft (firewall_rules id)))
      (fun _ => for_each (iptables_forward_rules true lease) (fun rule => or_delete lease (run_command rule)))).

Definition start_relay (id : SandboxId) : prog NetState (result NetworkLease RuntimeError) :=
  bind (lift host_dns_upstreams) (fun upstreams =>
    bind_ok (or_delete (lease_of id)
      (relay_start (MkSocketAddr (gateway_ipv4 id) DNS_PORT) (guest_ipv4 id) upstreams))
      (fun relay => ok (set_relay (Some relay) (lease_of id)))).

Lemma build_stepped id : stepped (lease_of id) (creation id) (build id).
Proof.
  unfold build, creation. apply stepped_bind; [apply for_each_stepped; repeat constructor; done|].
  intros _. apply stepped_bind; [apply or_delete_stepped, run_nft_acts|].
  intros _. apply for_each_stepped. repeat constructor; done.
Qed.

Lemma create_linux_split id s : run (create_linux id) s = run (bind_ok (build id) (fun _ => start_relay id)) s.
Proof.
  unfold create_linux, build. cbv zeta. rewrite !run_bind_ok.
  destruct (run (for_each (setup_commands id) _) s) as [[u|e] s1]; cbn [fst snd]; [|done].
  rewrite ?run_bind_ok. by destruct (run (or_delete _ (run_nft _)) s1) as [[u2|e] s2].
Qed.

Lemma create_linux_result id s :
  match run (create_linux id) s with
  | (Ok lease, s') => exists address upstreams, lease = set_relay (Some address) (lease_of id)
      /\ adds (creation id ++ [RelayStarted address (guest_ipv4 id) upstreams]) s s'
  | (Err _, s') => exists made cleaned, (made = creation id \/ stopped (creation id) made)
      /\ tried (delete_commands (lease_of id)) cleaned /\ adds (made ++ cleaned) s s'
  end.
Proof.
  assert (forall cleaned, deletion (lease_of id) cleaned -> tried (delete_commands (lease_of id)) cleaned) as Hdel
    by (intros cleaned (commands&Ht&->); done).
  rewrite create_linux_split, run_bind_ok.
  pose proof (build_stepped id s) as H1. destruct (run (build id) s) as [[u|e] s1]; cbn [fst snd] in *.
  2: { destruct H1 as (made&cleaned&Hs&Hd&Ha). exists made, cleaned. split; [by right|]. split; [by apply Hdel|done]. }
  unfold start_relay. rewrite run_bind, run_lift. cbn [fst snd].
  set (upstreams := (run host_dns_upstreams (view s1)).1). set (s2 := put _ s1).
  assert (nt_actions s2 = nt_actions s1) as Hs2 by done. clearbody s2.
  rewrite run_bind_ok. unfold or_delete. rewrite run_bind.
  pose proof (relay_start_result (MkSocketAddr (gateway_ipv4 id) DNS_PORT) (guest_ipv4 id) upstreams s2) as H2.
  destruct (run (relay_start _ _ _) s2) as [[bound|e] s3]; cbn [fst snd].
  - cbn [ok run fst snd]. exists bound, upstreams. split; [done|]. unfold adds in *. by rewrite H2, Hs2, H1, app_assoc.
  - subst s3. rewrite run_bind. destruct (run_delete_network (lease_of id) s2) as (_&cleaned&Hd&Ha).
    cbn [throw run fst snd]. exists (creation id), cleaned. split; [by left|]. split; [by apply Hdel|].
    unfold adds in *. by rewrite Ha, Hs2, H1, app_assoc.
Qed.

(** C36. Creating a network either does all of its steps in order, every command
    exits with success and the firewall is loaded, and returns the lease with a
    running relay; or it stops at the first step that fails (a command, the
    firewall, or the relay after all of them) and then runs every deletion
    command, whatever comes of each: for each namespace, link, table and
    forwarding rule that a step up to there made or may have made, the command
    that removes it is run. *)
Theorem network_creation_cleans_up id s :
  match run (create_linux id) s with
  | (Ok lease, s') => exists address upstreams, lease = set_relay (Some address) (lease_of id)
      /\ nt_actions s' = nt_actions s ++ creation id ++ [RelayStarted address (guest_ipv4 id) upstreams]
  | (Err _, s') => exists made cleaned, (made = creation id \/ stopped (creation id) made)
      /\ nt_actions s' = nt_actions s ++ made ++ cleaned
      /\ tried (delete_commands (lease_of id)) cleaned
      /\ forall a, a ∈ made -> creates a = true -> exists u, undoes a u /\ u ∈ delete_commands (lease_of id)
  end.
Proof.
  pose proof (create_linux_result id s) as Hr.
  destruct (run (create_linux id) s) as [[lease|e] s']; [done|]. destruct Hr as (made&cleaned&Hmade&Ht&Ha).
  exists made, cleaned. split; [done|]. split; [done|]. split; [done|]. intros a Hin Hc.
  destruct Hmade as [->|(complete&b&rest&Heq&->)].
  { destruct (creation_undone id a Hin Hc) as (u&?&_&?). by exists u. }
  apply elem_of_app in Hin as [Hin|Hin%list_elem_of_singleton].
  - destruct (creation_undone id a) as (u&?&_&?); [rewrite Heq; apply elem_of_app; by left|done|]. by exists u.
  - subst a. destruct (creation_undone id b) as (u&_&?&?); [rewrite Heq; apply elem_of_app; right; by left| |by exists u].
    by destruct b.
Qed.

(** C37. Two sandboxes whose identifiers agree in the first eight digits (those of
    a time-ordered identifier tell sandboxes created about a minute apart or
    less no longer apart) are given one and the same network: namespace, links,
    table, subnet and rules. If creating the second fails, as it does when its
    namespace exists already, what is deleted is the first one's network. *)
Theorem network_collision a b s e s' :
  short_id a = short_id b -> run (create_linux b) s = (Err e, s') ->
  lease_of a = lease_of b /\ setup_commands a = setup_commands b
  /\ exists made cleaned, nt_actions s' = nt_actions s ++ made ++ cleaned /\ tried (delete_commands (lease_of a)) cleaned.
Proof.
  intros Hs Hrun. assert (subnet_octet a = subnet_octet b) as Ho.
  { unfold subnet_octet. rewrite <-(string_take_take 2 8 (compact_id a)), <-(string_take_take 2 8 (compact_id b)) by lia.
    unfold short_id in Hs. by rewrite Hs. }
  assert (lease_of a = lease_of b) as Hl.
  { unfold lease_of, gateway_ipv4, guest_ipv4. by rewrite Hs, Ho. }
  split; [done|]. split; [unfold setup_commands; by rewrite Hl, Hs|]. rewrite Hl.
  pose proof (create_linux_result b s) as Hr. rewrite Hrun in Hr. destruct Hr as (made&cleaned&_&Ht&Ha). by exists made, cleaned.
Qed.
End NetworkProps.

(** ** The DNS relay *)

Section RelayProps.
Context `{R : Resolvers}.

Lemma byte_of_N z : Z.of_N (Byte.to_N (byte_of z)) = (z mod 256)%Z.
Proof.
  unfold byte_of. pose proof (Z.mod_pos_bound z 256 ltac:(lia)) as Hb.
  destruct (Byte.of_N (Z.to_N (z mod 256))) as [b|] eqn:Hb2.
  - apply Byte.to_of_N in Hb2. rewrite Hb2. lia.
  - apply Byte.of_N_None_iff in Hb2. lia.
Qed.

Lemma length_be_bytes n : length (be_bytes n) = 2.
Proof. done. Qed.

Lemma be_bytes_value n rest : (0 <= n <= u16_max)%Z ->
  (byte_at (be_bytes n ++ rest) 0 * 256 + byte_at (be_bytes n ++ rest) 1 = n)%Z.
Proof.
  intros Hn. unfold byte_at, be_bytes. cbn [app nth]. rewrite !byte_of_N. unfold u16_max in Hn.
  rewrite (Z.mod_small (n / 256)) by (split; [apply Z.div_pos|apply Z.div_lt_upper_bound]; lia).
  pose proof (Z.div_mod n 256 ltac:(lia)). lia.
Qed.

Definition frame (message : list Byte.byte) : list Byte.byte :=
  be_bytes (Z.of_nat (length message)) ++ message.

Lemma is_dns_query_length q : is_dns_query q = true -> 12 <= length q.
Proof. unfold is_dns_query. rewrite !andb_true_iff. intros [[H%Nat.leb_le _] _]. done. Qed.

Lemma servfail_response q : 12 <= length q -> is_dns_response_for q (dns_servfail q) = true.
Proof.
  intros Hq. destruct q as [|a [|b [|c q]]]; cbn [length] in Hq; try lia.
  unfold is_dns_response_for, dns_servfail. cbn [length Nat.leb take app replicate].
  rewrite bool_decide_eq_true_2 by done. unfold byte_at. cbn [nth andb].
  rewrite byte_of_N. apply negb_true_iff, Z.eqb_neq.
  set (x := Z.of_N (Byte.to_N c)). assert (Z.land x 1 = 0 \/ Z.land x 1 = 1)%Z as [-> | ->]; [|done|done].
  assert (Z.land x 1 = x mod 2)%Z as -> by exact (Z.land_ones x 1 ltac:(lia)).
  pose proof (Z.mod_pos_bound x 2 ltac:(lia)). lia.
Qed.

Lemma length_servfail q : length (dns_servfail q) = 12.
Proof. unfold dns_servfail. destruct (Nat.leb_spec 2 (length q)); [|done].
  rewrite length_app, length_take_le by done. done. Qed.

Lemma relay_udp_query_response q upstreams : 12 <= length q ->
  is_dns_response_for q (relay_udp_query q upstreams) = true.
Proof.
  intros Hq. induction upstreams as [|u l IH]; cbn [relay_udp_query]; [by apply servfail_response|].
  destruct (udp_exchange u q) as [r|]; [|done]. by destruct (is_dns_response_for q r) eqn:Hr.
Qed.

Lemma relay_tcp_query_response q upstreams r :
  relay_tcp_query q upstreams = Some r ->
  is_dns_response_for q r = true /\ exists u, tcp_exchange u q = Some r.
Proof.
  induction upstreams as [|u l IH]; cbn [relay_tcp_query]; [done|].
  destruct (u16_max <? _)%Z; [done|]. destruct (tcp_exchange u q) as [r'|] eqn:Hu; [|done].
  destruct (is_dns_response_for q r') eqn:Hr; [|done]. intros [= <-]. eauto.
Qed.

(** A message read from a TCP stream has the length that its 16-bit prefix
    announced. *)
Hypothesis tcp_length : forall u q r, tcp_exchange u q = Some r -> (Z.of_nat (length r) <= u16_max)%Z.

Definition tcp_answer (upstreams : list SocketAddr) (q : list Byte.byte) : list Byte.byte :=
  match relay_tcp_query q upstreams with Some r => r | None => dns_servfail q end.

Lemma tcp_answer_ok upstreams q : is_dns_query q = true ->
  is_dns_response_for q (tcp_answer upstreams q) = true
  /\ (Z.of_nat (length (tcp_answer upstreams q)) <= u16_max)%Z.
Proof.
  intros Hq%is_dns_query_length. unfold tcp_answer.
  destruct (relay_tcp_query q upstreams) as [r|] eqn:Hr.
  - apply relay_tcp_query_response in Hr as [Hr [u Hu]]. split; [done|]. by eapply tcp_length.
  - split; [by apply servfail_response|]. rewrite length_servfail. done.
Qed.

Lemma relay_tcp_queries_frames upstreams queries : forall turns writes,
  Forall (fun q => is_dns_query q = true /\ (Z.of_nat (length q) <= u16_max)%Z) queries ->
  length queries < turns -> length queries <= writes ->
  relay_tcp_queries turns writes upstreams (concat (map frame queries))
  = concat (map (fun q => frame (tcp_answer upstreams q)) queries).
Proof.
  induction queries as [|q queries IH]; intros turns writes Hall Ht Hw;
    (destruct turns as [|turns]; [cbn in Ht; lia|]); [done|].
  inversion_clear Hall as [|?? [Hq Hlen] Hrest]. destruct writes as [|writes]; [cbn in Hw; lia|].
  cbn [map concat]. set (tail := concat (map frame queries)).
  assert ((length (frame q ++ tail) <? 2) = false) as F1.
  { apply Nat.ltb_ge. rewrite length_app. unfold frame. rewrite length_app. cbn. lia. }
  assert (Z.to_nat (byte_at (frame q ++ tail) 0 * 256 + byte_at (frame q ++ tail) 1) = length q) as F2.
  { unfold frame. rewrite <-app_assoc, be_bytes_value by lia. apply Nat2Z.id. }
  assert (drop 2 (frame q ++ tail) = q ++ tail) as F3 by done.
  assert ((length (q ++ tail) <? length q) = false) as F4 by (apply Nat.ltb_ge; rewrite length_app; lia).
  destruct (tcp_answer_ok upstreams q Hq) as [_ Hal].
  cbn [relay_tcp_queries]. rewrite F1. cbv zeta. rewrite F2, F3, F4, take_app_length, drop_app_length, Hq.
  cbn [negb]. fold (tcp_answer upstreams q). rewrite (proj2 (Z.ltb_ge _ _)) by done.
  rewrite app_assoc. unfold frame at 1. f_equal. apply IH; [done| |]; cbn in *; lia.
Qed.

End RelayProps.

(** What the relay of a guest may take on. *)
Definition admitted (guest : Ipv4Addr) (r : Relayed) : Prop :=
  match r with
  | RelayedUdp peer query => sa_ip peer = guest /\ is_dns_query query = true
  | RelayedTcp peer => sa_ip peer = guest
  end.

Definition relay_ok (guest : Ipv4Addr) (s : RelayState) : Prop :=
  length (rs_in_flight s) <= DNS_MAX_IN_FLIGHT /\ Forall (admitted guest) (rs_in_flight s).

Lemma spawn_query_ok guest q s : relay_ok guest s -> admitted guest q -> relay_ok guest (spawn_query q s).
Proof.
  intros [Hl Hf] Hq. unfold spawn_query. destruct (Nat.ltb_spec (length (rs_in_flight s)) DNS_MAX_IN_FLIGHT);
    [|done]. split; cbn [rs_in_flight].
  - rewrite length_app. cbn [length]. lia.
  - by apply Forall_app_2; [|apply Forall_singleton].
Qed.

Lemma relay_event_ok guest e s : relay_ok guest s -> relay_ok guest (relay_event guest e s).
Proof.
  intros Hs. unfold relay_event. destruct (negb (rs_running s)); [done|]. destruct e as [[[peer m]|]|[peer|]|i].
  - destruct (negb _ || negb _) eqn:Hc; [done|]. apply orb_false_iff in Hc as [Hp Hm].
    apply spawn_query_ok; [done|]. apply negb_false_iff, bool_decide_eq_true in Hp.
    by apply negb_false_iff in Hm.
  - done.
  - destruct (negb _) eqn:Hc; [done|]. apply negb_false_iff, bool_decide_eq_true in Hc.
    by apply spawn_query_ok.
  - done.
  - destruct Hs as [Hl Hf]. split; cbn [rs_in_flight].
    + pose proof (sublist_length _ _ (sublist_delete (rs_in_flight s) i)). lia.
    + by apply Forall_delete.
Qed.

(** Whatever arrives and in whatever order, the relay has at most 128 queries
    in flight, every one of them came from the guest's own address, and every
    datagram it forwards is a DNS query. *)
Theorem relay_bounded guest events :
  relay_ok guest (foldl (fun s e => relay_event guest e s) relay_initial events).
Proof.
  assert (relay_ok guest relay_initial) as H0 by (split; [cbn; lia|constructor]).
  revert H0. generalize relay_initial. induction events as [|e events IH]; intros s Hs; [done|].
  cbn [foldl]. by apply IH, relay_event_ok.
Qed.

(** ** Examples *)

Definition example_query : list Byte.byte :=
  [Byte.x12; Byte.x34; Byte.x01; Byte.x00; Byte.x00; Byte.x01] ++ replicate 6 Byte.x00.

(** Resolvers that never answer. *)
Definition silent_resolvers : Resolvers := {|
  udp_exchange _ _ := None;
  tcp_exchange _ _ := None;
|}.


(** A host on which every namespace exists already. *)
Definition busy_programs : HostPrograms := {|
  command_output program arguments fs :=
    (Ok (MkOutput (MkExitStatus (Some (if bool_decide (take 2 arguments = ["netns"; "add"]) then 1 else 0)%Z)
       None) [] []), fs);
|}.
Definition plain_nft : NetHost := {|
  nft_load _ fs := (NftExited (MkOutput (MkExitStatus (Some 0%Z) None) [] []), fs);
  udp_bind _ _ := Ok tt;
  udp_local_addr a _ := Ok a;
  tcp_bind _ _ := Ok tt;
|}.
Definition first_id : SandboxId := MkSandboxId "01987a2b-3c4d-7000-8000-000000000001".
Definition second_id : SandboxId := MkSandboxId "01987a2b-9999-7000-8000-000000000002".
Definition empty_host : NetState := MkNetState (MkFs ∅ [] 0 []) [].

Lemma network_collision_witness :
  first_id <> second_id /\ lease_of first_id = lease_of second_id
  /\ exists made cleaned, nt_actions (run (create_linux (H:=busy_programs) (N:=plain_nft) second_id) empty_host).2
       = [] ++ made ++ cleaned /\ tried (delete_commands (lease_of first_id)) cleaned.
Proof.
  split; [discriminate|].
  destruct (network_collision (H:=busy_programs) (N:=plain_nft) first_id second_id empty_host
    (unavailable "ip failed: ")
    (run (create_linux (H:=busy_programs) (N:=plain_nft) second_id) empty_host).2) as (Hl&_&made&cleaned&Hmade).
  - vm_compute. reflexivity.
  - vm_compute. reflexivity.
  - split; [exact Hl|]. exists made, cleaned. exact Hmade.
Defined.
