(* ===== verification/Template.v ===== *)
(** * The template catalog

    Models [crates/ferrobox-template/src/lib.rs]: immutable, content-addressed
    records of bootable templates, one file per alias, over the file system of
    [Fs] and [FsOps]. The JSON encoding and the temporary files are parameters. *)
From S2P Require Import Prelude Conc Core Fs Utf8 FsOps.

Definition CATALOG_SCHEMA_VERSION : Z := 1.
Definition TEMPLATE_CONTRACT : string := "ferrobox-template-v1".
Definition TEMPLATE_ID_HEX_LENGTH : nat := 60.
Definition READY_STATUS : string := "ready".

(** ** Data *)

Record BuildTemplateRequest := MkBuildTemplateRequest {
  bt_name : string;
  bt_version : string;
  bt_alias : string;
  bt_source_kind : string;
  bt_source_reference : string;
  bt_source_digest : string;
  bt_target_architecture : string;
  bt_kernel_path : Path;
  bt_rootfs_path : Path;
}.

Inductive TemplateSourceKind := Oci | SourceFile | Snapshot.

Record TemplateSource := MkTemplateSource {
  ts_kind : TemplateSourceKind; ts_reference : string; ts_digest : string }.

Record TemplatePlatform := MkTemplatePlatform {
  tp_operating_system : string; tp_architecture : string; tp_runtime : string }.

Record TemplateArtifact := MkTemplateArtifact {
  ta_media_type : string; ta_digest : string; ta_size_bytes : Z }.

Record TemplateArtifacts := MkTemplateArtifacts { tas_kernel : TemplateArtifact; tas_rootfs : TemplateArtifact }.

Record TemplateDescriptor := MkTemplateDescriptor {
  td_contract : string;
  td_name : string;
  td_version : string;
  td_source : TemplateSource;
  td_platform : TemplatePlatform;
  td_artifacts : TemplateArtifacts;
}.

Record ArtifactLocations := MkArtifactLocations { al_kernel : Path; al_rootfs : Path }.

Record TemplateRecord := MkTemplateRecord {
  tr_catalog_schema_version : Z;
  tr_template_id : string;
  tr_alias : string;
  tr_status : string;
  tr_spec_digest : string;
  tr_descriptor : TemplateDescriptor;
  tr_locations : ArtifactLocations;
}.

Record TemplateSummary := MkTemplateSummary {
  tsu_template_id : string;
  tsu_alias : string;
  tsu_name : string;
  tsu_version : string;
  tsu_status : string;
  tsu_source : TemplateSource;
  tsu_platform : TemplatePlatform;
}.

Record ArtifactVerification := MkArtifactVerification {
  av_present : bool;
  av_valid : bool;
  av_expected_digest : string;
  av_actual_digest : option string;
  av_expected_size_bytes : Z;
  av_actual_size_bytes : option Z;
  av_error : option string;
}.

Record TemplateVerification := MkTemplateVerification {
  tv_valid : bool; tv_descriptor_valid : bool;
  tv_kernel : ArtifactVerification; tv_rootfs : ArtifactVerification }.

Record TemplateInspection := MkTemplateInspection {
  ti_record : TemplateRecord; ti_verification : TemplateVerification }.

Record DeleteTemplateResult := MkDeleteTemplateResult {
  dt_template_id : string; dt_alias : string; dt_artifacts_preserved : bool;
  dt_locations : ArtifactLocations }.

Inductive TemplateCatalogError :=
| TemplateInvalidInput (field reason : string)
| AliasConflict (alias template_id : string)
| IdentityConflict (template_id alias : string)
| TemplateNotFound (reference : string)
| CorruptRecord (path : Path) (reason : string)
| Io (path : Path) (source : IoError)
| Serialization (reason : string).

Definition TemplateCatalogError_to_string (e : TemplateCatalogError) : string :=
  match e with
  | TemplateInvalidInput field reason => "invalid " +:+ field +:+ ": " +:+ reason
  | AliasConflict alias id => "template alias " +:+ alias +:+ " already points to " +:+ id
  | IdentityConflict id alias => "template identity " +:+ id +:+ " already uses alias " +:+ alias
  | TemplateNotFound reference => "template " +:+ reference +:+ " was not found"
  | CorruptRecord path reason =>
      "template catalog record " +:+ Path_to_string path +:+ " is invalid: " +:+ reason
  | Io path source => "I/O failed for " +:+ Path_to_string path +:+ ": " +:+ io_text source
  | Serialization reason => "template catalog serialization failed: " +:+ reason
  end.

(** ** Code outside the repository *)

(** [serde_json] on the types of this file. What is written reads back, also
    with a line end behind it, and different descriptors have different texts. *)
Class TemplateJson := {
  descriptor_to_vec : TemplateDescriptor -> result (list Byte.byte) string;
  record_to_vec_pretty : TemplateRecord -> result (list Byte.byte) string;
  record_from_slice : list Byte.byte -> result TemplateRecord string;
  descriptor_to_vec_inj d d' b :
    descriptor_to_vec d = Ok b -> descriptor_to_vec d' = Ok b -> d = d';
  record_roundtrip r b : record_to_vec_pretty r = Ok b -> record_from_slice (b ++ [Byte.x0a]) = Ok r;
}.

(** [tempfile::NamedTempFile]: created under a fresh name, removed when it is
    dropped, unless it was given its final name, which must not exist. *)
Class TempFiles := {
  Tmp : Type;
  tmp_new_in : Path -> prog Fs (result Tmp IoError);
  tmp_path : Tmp -> Path;
  tmp_write_all : Tmp -> list Byte.byte -> prog Fs (result unit IoError);
  tmp_sync_all : Tmp -> prog Fs (result unit IoError);
  tmp_persist_noclobber : Tmp -> Path -> prog Fs (result unit IoError);
  tmp_drop : Tmp -> prog Fs unit;
}.

(** ** Validation of the request *)

Definition parse_source_kind (value : string) : result TemplateSourceKind TemplateCatalogError :=
  let value := to_ascii_lowercase (trim value) in
  if String.eqb value "oci" then Ok Oci
  else if String.eqb value "file" then Ok SourceFile
  else if String.eqb value "snapshot" then Ok Snapshot
  else Err (TemplateInvalidInput "source_kind" "expected oci, file, or snapshot").

Definition normalize_architecture (value : string) : result string TemplateCatalogError :=
  let value := to_ascii_lowercase (trim value) in
  if String.eqb value "amd64" || String.eqb value "x86_64" then Ok "x86_64"
  else if String.eqb value "arm64" || String.eqb value "aarch64" then Ok "aarch64"
  else Err (TemplateInvalidInput "target_arch" "expected x86_64/amd64 or aarch64/arm64").

Definition alias_byte (c : ascii) : bool :=
  is_ascii_alphanumeric c || Ascii.eqb c "-" || Ascii.eqb c "_".

Definition validate_alias (value : string) : result string TemplateCatalogError :=
  if is_empty value || (64 <? slen value)%Z || negb (string_all alias_byte value)
  then Err (TemplateInvalidInput "template reference"
    "expected 1-64 ASCII letters, digits, hyphens, or underscores")
  else Ok value.

Definition validate_text (field value : string) (maximum_bytes : Z) : result string TemplateCatalogError :=
  let value := trim value in
  if is_empty value || (maximum_bytes <? slen value)%Z || any_control value
  then Err (TemplateInvalidInput field
    ("expected 1-" +:+ pretty maximum_bytes +:+ " bytes without control characters"))
  else Ok value.

Definition version_byte (c : ascii) : bool :=
  is_ascii_alphanumeric c || Ascii.eqb c "." || Ascii.eqb c "-" || Ascii.eqb c "_" || Ascii.eqb c "+".

Definition validate_version (value : string) : result string TemplateCatalogError :=
  if is_empty value || (64 <? slen value)%Z || negb (string_all version_byte value)
  then Err (TemplateInvalidInput "version"
    "expected 1-64 ASCII letters, digits, dots, hyphens, underscores, or plus signs")
  else Ok value.

Definition normalize_sha256 (field value : string) : result string TemplateCatalogError :=
  let value := to_ascii_lowercase (trim value) in
  match strip_prefix "sha256:" value with
  | None => Err (TemplateInvalidInput field "expected sha256:<64 hex characters>")
  | Some hex =>
      if negb (slen hex =? 64)%Z || negb (string_all is_ascii_hexdigit hex)
      then Err (TemplateInvalidInput field "expected sha256:<64 hex characters>")
      else Ok value
  end.

(** ** Digests *)

Definition format_digest (bytes : list Byte.byte) : string := "sha256:" +:+ hex_string bytes.

Section Catalog.
Context `{C : CryptoLib} `{J : TemplateJson} `{T : TempFiles}.

Definition sha256_text (bytes : list Byte.byte) : string := format_digest (sha256 bytes).

Definition serialization {A} (r : result A string) : result A TemplateCatalogError :=
  map_err Serialization r.

Definition descriptor_digest (descriptor : TemplateDescriptor) : result string TemplateCatalogError :=
  result_map sha256_text (serialization (descriptor_to_vec descriptor)).

(** [strip_prefix(..).expect(..)]: a digest of this file has the prefix. *)
Definition template_id_from_digest (digest : string) : string :=
  let hex := match strip_prefix "sha256:" digest with Some hex => hex | None => "" end in
  "tpl-" +:+ string_take TEMPLATE_ID_HEX_LENGTH hex.

(** A call on the files with its error at a path. *)
Definition io_at {A} (path : Path) (p : prog Fs (result A IoError)) :
  prog Fs (result A TemplateCatalogError) := prog_map_err (Io path) p.

Definition hash_file (path : Path) : prog Fs (result (string * Z) TemplateCatalogError) :=
  (do? contents <- read_file_whole (Io path) (Io path) path ;;
   ok (sha256_text contents, Z.of_nat (length contents)))%prog.

Definition canonical_file (field : string) (path : Path) : prog Fs (result Path TemplateCatalogError) :=
  (do? canonical <- io_at path (canonicalize path) ;;
   do? found <- io_at canonical (metadata canonical) ;;
   if negb (is_file found)
   then throw (TemplateInvalidInput field (Path_to_string canonical +:+ " is not a regular file"))
   else ok canonical)%prog.

(** ** Records *)

(** [path.file_name()] of a path built by [join], and [path.extension()]. *)
Definition file_name (path : Path) : option string :=
  match last (components path) with Some (Normal n) => Some n | _ => None end.

Definition has_json_extension (name : string) : bool :=
  match strip_prefix (srev ".json") (srev name) with
  | Some stem => negb (is_empty stem)
  | None => false
  end.

Definition validate_record (path : Path) (record : TemplateRecord) : result unit TemplateCatalogError :=
  let fail := CorruptRecord path in
  if negb (tr_catalog_schema_version record =? CATALOG_SCHEMA_VERSION)%Z
  then Err (fail ("unsupported schema version " +:+ pretty (tr_catalog_schema_version record)))
  else if negb (String.eqb (tr_status record) READY_STATUS)
  then Err (fail ("unsupported status " +:+ tr_status record))
  else if negb (String.eqb (td_contract (tr_descriptor record)) TEMPLATE_CONTRACT)
  then Err (fail ("unsupported contract " +:+ td_contract (tr_descriptor record)))
  else
  (let? _ := map_err (fun e => fail (TemplateCatalogError_to_string e)) (validate_alias (tr_alias record)) in
   if negb (bool_decide (file_name path = Some (tr_alias record +:+ ".json")))
   then Err (fail "alias does not match the record file name")
   else
   let? expected_digest := descriptor_digest (tr_descriptor record) in
   if negb (String.eqb (tr_spec_digest record) expected_digest)
   then Err (fail "descriptor digest mismatch")
   else if negb (String.eqb (tr_template_id record) (template_id_from_digest expected_digest))
   then Err (fail "template identity mismatch")
   else Ok tt)%result.

Definition load_record (path : Path) : prog Fs (result TemplateRecord TemplateCatalogError) :=
  (do? payload <- io_at path (fs_read path) ;;
   do? record <- of_result (map_err (CorruptRecord path) (record_from_slice payload)) ;;
   do? _ <- of_result (validate_record path record) ;;
   ok record)%prog.

Definition records_dir (root : Path) : Path := join root "records".

(** The loop of [records] over the names that the directory stream yields. *)
Fixpoint load_records (directory : Path) (names : list string) (records : list TemplateRecord) :
  prog Fs (result (list TemplateRecord) TemplateCatalogError) :=
  (do? _ <- io_at directory next_entry ;;
   match names with
   | [] => ok records
   | name :: rest =>
       if has_json_extension name
       then do? record <- load_record (join directory name) ;;
            load_records directory rest (records ++ [record])
       else load_records directory rest records
   end)%prog.

Definition records (root : Path) : prog Fs (result (list TemplateRecord) TemplateCatalogError) :=
  (let directory := records_dir root in
   do there <- path_exists directory ;;
   if negb there then ok []
   else
   do? (_, names) <- io_at directory (read_dir directory) ;;
   load_records directory names [])%prog.

Definition record_path (root : Path) (alias : string) : Path := join (records_dir root) (alias +:+ ".json").

Definition resolve_template (root : Path) (reference : string) :
  prog Fs (result (Path * TemplateRecord) TemplateCatalogError) :=
  (do? reference <- of_result (validate_alias reference) ;;
   let direct := record_path root reference in
   do there <- path_is_file direct ;;
   if there : bool then
     do? record <- load_record direct ;;
     ok (direct, record)
   else
   do? all <- records root ;;
   match List.find (fun record => String.eqb (tr_template_id record) reference) all with
   | Some record => ok (record_path root (tr_alias record), record)
   | None => throw (TemplateNotFound reference)
   end)%prog.

Definition catalog_record (root : Path) (reference : string) :
  prog Fs (result TemplateRecord TemplateCatalogError) :=
  fmap_prog (result_map snd) (resolve_template root reference).

(** ** Inspection *)

Definition verify_artifact (path : Path) (expected : TemplateArtifact) : prog Fs ArtifactVerification :=
  (do hashed <- hash_file path ;;
   match hashed with
   | Ok (actual_digest, actual_size) =>
       Ret (MkArtifactVerification true
         (String.eqb actual_digest (ta_digest expected) && (actual_size =? ta_size_bytes expected)%Z)
         (ta_digest expected) (Some actual_digest) (ta_size_bytes expected) (Some actual_size) None)
   | Err error =>
       do present <- path_is_file path ;;
       Ret (MkArtifactVerification present false (ta_digest expected) None (ta_size_bytes expected) None
         (Some (TemplateCatalogError_to_string error)))
   end)%prog.

Definition inspect_template (root : Path) (reference : string) :
  prog Fs (result TemplateInspection TemplateCatalogError) :=
  (do? record <- catalog_record root reference ;;
   let expected := td_artifacts (tr_descriptor record) in
   do kernel <- verify_artifact (al_kernel (tr_locations record)) (tas_kernel expected) ;;
   do rootfs <- verify_artifact (al_rootfs (tr_locations record)) (tas_rootfs expected) ;;
   ok (MkTemplateInspection record
     (MkTemplateVerification (av_valid kernel && av_valid rootfs) true kernel rootfs)))%prog.

Definition summary_le (a b : TemplateSummary) : Prop := String.leb (tsu_alias a) (tsu_alias b) = true.
#[export] Instance summary_le_dec : RelDecision summary_le.
Proof. intros a b. unfold summary_le. apply _. Defined.

Definition summary (r : TemplateRecord) : TemplateSummary :=
  MkTemplateSummary (tr_template_id r) (tr_alias r) (td_name (tr_descriptor r)) (td_version (tr_descriptor r))
    (tr_status r) (td_source (tr_descriptor r)) (td_platform (tr_descriptor r)).

Definition list_templates (root : Path) : prog Fs (result (list TemplateSummary) TemplateCatalogError) :=
  (do? all <- records root ;;
   ok (merge_sort summary_le (map summary all)))%prog.

Definition delete_template (root : Path) (reference : string) :
  prog Fs (result DeleteTemplateResult TemplateCatalogError) :=
  (do? (path, record) <- resolve_template root reference ;;
   do? _ <- io_at path (remove_file path) ;;
   ok (MkDeleteTemplateResult (tr_template_id record) (tr_alias record) true (tr_locations record)))%prog.

(** ** Building *)

(** The temporary file is dropped when a step after its creation fails. *)
Definition or_drop {A E} (t : Tmp) (p : prog Fs (result A E)) : prog Fs (result A E) :=
  (do r <- p ;;
   match r with
   | Ok a => ok a
   | Err e => do _ <- tmp_drop t ;; throw e
   end)%prog.

Definition persist_error (target : Path) (record : TemplateRecord) (source : IoError) : TemplateCatalogError :=
  if bool_decide (io_kind source = IoAlreadyExists)
  then AliasConflict (tr_alias record) (tr_template_id record)
  else Io target source.

Definition persist (root : Path) (record : TemplateRecord) : prog Fs (result unit TemplateCatalogError) :=
  (let directory := records_dir root in
   do? _ <- io_at directory (create_dir_all directory) ;;
   let target := record_path root (tr_alias record) in
   do? payload <- of_result (serialization (record_to_vec_pretty record)) ;;
   let payload := payload ++ [Byte.x0a] in
   do? temporary <- io_at directory (tmp_new_in directory) ;;
   do? _ <- or_drop temporary (io_at (tmp_path temporary)
     (do? _ <- tmp_write_all temporary payload ;; tmp_sync_all temporary)) ;;
   or_drop temporary (prog_map_err (persist_error target record)
     (tmp_persist_noclobber temporary target)))%prog.

(** What the loop over the existing records finds for a new one: nothing, or
    the answer. *)
Inductive Existing := SameTemplate | Conflicting (error : TemplateCatalogError).

Fixpoint find_existing (alias template_id : string) (all : list TemplateRecord) : option Existing :=
  match all with
  | [] => None
  | existing :: rest =>
      if String.eqb (tr_alias existing) alias
      then Some (if String.eqb (tr_template_id existing) template_id then SameTemplate
                 else Conflicting (AliasConflict alias (tr_template_id existing)))
      else if String.eqb (tr_template_id existing) template_id
      then Some (Conflicting (IdentityConflict template_id (tr_alias existing)))
      else find_existing alias template_id rest
  end.

Definition descriptor_of (name version : string) (source : TemplateSource) (architecture : string)
    (kernel rootfs : string * Z) : TemplateDescriptor :=
  MkTemplateDescriptor TEMPLATE_CONTRACT name version source
    (MkTemplatePlatform "linux" architecture "firecracker")
    (MkTemplateArtifacts
      (MkTemplateArtifact "application/vnd.ferrobox.kernel" kernel.1 kernel.2)
      (MkTemplateArtifact "application/vnd.ferrobox.rootfs.ext4" rootfs.1 rootfs.2)).

(** The record that a request asks for, before the catalog is looked at. *)
Definition prepare (request : BuildTemplateRequest) : prog Fs (result TemplateRecord TemplateCatalogError) :=
  (do? alias <- of_result (validate_alias (bt_alias request)) ;;
   do? name <- of_result (validate_text "name" (bt_name request) 128) ;;
   do? version <- of_result (validate_version (bt_version request)) ;;
   do? source_reference <- of_result (validate_text "source_reference" (bt_source_reference request) 1024) ;;
   do? source_digest <- of_result (normalize_sha256 "source_digest" (bt_source_digest request)) ;;
   do? source_kind <- of_result (parse_source_kind (bt_source_kind request)) ;;
   do? architecture <- of_result (normalize_architecture (bt_target_architecture request)) ;;
   do? kernel_path <- canonical_file "kernel" (bt_kernel_path request) ;;
   do? rootfs_path <- canonical_file "rootfs" (bt_rootfs_path request) ;;
   do? kernel <- hash_file kernel_path ;;
   do? rootfs <- hash_file rootfs_path ;;
   let descriptor := descriptor_of name version
     (MkTemplateSource source_kind source_reference source_digest) architecture kernel rootfs in
   do? spec_digest <- of_result (descriptor_digest descriptor) ;;
   ok (MkTemplateRecord CATALOG_SCHEMA_VERSION (template_id_from_digest spec_digest) alias READY_STATUS
     spec_digest descriptor (MkArtifactLocations kernel_path rootfs_path)))%prog.

Definition build (root : Path) (request : BuildTemplateRequest) :
  prog Fs (result TemplateInspection TemplateCatalogError) :=
  (do? record <- prepare request ;;
   do? all <- records root ;;
   match find_existing (tr_alias record) (tr_template_id record) all with
   | Some SameTemplate => inspect_template root (tr_alias record)
   | Some (Conflicting error) => throw error
   | None =>
       do? _ <- persist root record ;;
       inspect_template root (tr_alias record)
   end)%prog.
End Catalog.
