(* ===== verification/TemplateProps.v ===== *)
(** * The template catalog: properties

    What a reference resolves to, what inspection reports about the artifacts,
    that building never touches what is there and that an identity depends on
    the contents only, for the operations of [Template]. *)
From S2P Require Import Prelude Conc Core Utf8 Instances.
From S2P Require Import Fs FsOps Template.

(** ** Names *)

(** Names as a directory can hold them. *)
Definition proper_name (x : string) : Prop :=
  string_contains slash x = false /\ trivial_piece x = false /\ x <> "..".

Definition well_named (fs : Fs) : Prop :=
  forall l x n, fs_nodes fs !! (l ++ [x]) = Some n -> proper_name x.

Lemma Path_of_name x : proper_name x -> Path_of_string x = MkPath false [x].
Proof.
  intros (Hs&Ht&_). destruct x as [|c x]; [done|]. unfold Path_of_string.
  rewrite string_contains_cons in Hs. apply orb_false_iff in Hs as [Hc Hs].
  rewrite Ascii.eqb_sym, Hc, split_on_no_sep; [done|].
  by rewrite string_contains_cons, Hc, Hs.
Qed.

Lemma file_name_join p x : p_pieces p <> [] -> proper_name x -> file_name (join p x) = Some x.
Proof.
  intros Hp Hx. unfold file_name, join. rewrite Path_of_name by done. destruct Hx as (_&Ht&Hdd).
  by rewrite components_push_name, last_snoc.
Qed.

Lemma pieces_join p x : p_pieces (join p x) <> [].
Proof.
  unfold join, push. assert (p_pieces (Path_of_string x) <> []) as Hx.
  { destruct x as [|c x]; [done|]. unfold Path_of_string. destruct (Ascii.eqb c slash); apply split_on_not_nil. }
  destruct (p_root (Path_of_string x)); [done|]. cbn [p_pieces].
  destruct (last (p_pieces p)) as [[]|]; by intros [??]%app_eq_nil.
Qed.

Lemma append_inj_r a b s : a +:+ s = b +:+ s -> a = b.
Proof.
  revert b. induction a as [|x a IH]; intros [|y b]; simpl; [done| | |].
  - intros Hs. apply (f_equal String.length) in Hs. simpl in Hs. rewrite length_append_s in Hs. lia.
  - intros Hs. apply (f_equal String.length) in Hs. simpl in Hs. rewrite length_append_s in Hs. lia.
  - intros [= -> Hs]. f_equal. by apply IH.
Qed.

Lemma valid_alias_no_slash a : string_all alias_byte a = true -> string_contains slash a = false.
Proof.
  induction a as [|c a IH]; [done|]. cbn [string_all]. intros [Hc Ha]%andb_true_iff.
  rewrite string_contains_cons, IH by done. rewrite orb_false_r.
  destruct (Ascii.eqb slash c) eqn:E; [|done]. apply eqb_ascii_spec in E as <-. done.
Qed.

Lemma validate_alias_ok v a : validate_alias v = Ok a ->
  a = v /\ (1 <= slen a <= 64)%Z /\ string_all alias_byte a = true.
Proof.
  unfold validate_alias. destruct (is_empty v) eqn:He; [done|].
  destruct (Z.ltb_spec 64 (slen v)); [done|].
  destruct (string_all alias_byte v) eqn:Ha; [|done]. cbn. intros [= <-]. split; [done|]. split; [|done].
  destruct v; [done|]. unfold slen in *. cbn [String.length] in *. lia.
Qed.

Lemma alias_file_proper a : string_all alias_byte a = true -> proper_name (a +:+ ".json").
Proof.
  intros Ha.
  assert (forall s, String.length s < 5 -> a +:+ ".json" <> s) as Hlen.
  { intros s Hs <-. rewrite length_append_s in Hs. simpl in Hs. lia. }
  repeat split.
  - rewrite string_contains_app, (valid_alias_no_slash a Ha). done.
  - apply orb_false_iff. split; apply String.eqb_neq; apply Hlen; simpl; lia.
  - apply Hlen. simpl. lia.
Qed.

(** ** Records *)

Section Records.
Context `{C : CryptoLib} `{J : TemplateJson}.

(** A record that says of itself what is true of its content. *)
Record consistent (r : TemplateRecord) : Prop := {
  cs_schema : tr_catalog_schema_version r = CATALOG_SCHEMA_VERSION;
  cs_status : tr_status r = READY_STATUS;
  cs_contract : td_contract (tr_descriptor r) = TEMPLATE_CONTRACT;
  cs_alias : validate_alias (tr_alias r) = Ok (tr_alias r);
  cs_digest : descriptor_digest (tr_descriptor r) = Ok (tr_spec_digest r);
  cs_id : tr_template_id r = template_id_from_digest (tr_spec_digest r);
}.

Lemma validate_record_spec path r :
  validate_record path r = Ok tt <->
  consistent r /\ file_name path = Some (tr_alias r +:+ ".json").
Proof.
  unfold validate_record. split.
  - destruct (Z.eqb_spec (tr_catalog_schema_version r) CATALOG_SCHEMA_VERSION); [|done].
    destruct (String.eqb_spec (tr_status r) READY_STATUS); [|done].
    destruct (String.eqb_spec (td_contract (tr_descriptor r)) TEMPLATE_CONTRACT); [|done]. cbn [negb].
    destruct (validate_alias (tr_alias r)) as [a|] eqn:Ha; [|done]. cbn [map_err result_bind].
    case_bool_decide as Hf; [|done]. cbn [negb].
    destruct (descriptor_digest (tr_descriptor r)) as [dg|] eqn:Hd; [|done]. cbn [result_bind].
    destruct (String.eqb_spec (tr_spec_digest r) dg) as [Hs|]; [|done]. cbn [negb].
    destruct (String.eqb_spec (tr_template_id r) (template_id_from_digest dg)) as [Hi|]; [|done].
    intros _. split; [|done]. pose proof (validate_alias_ok _ _ Ha) as (Hal&_). rewrite Hal in Ha.
    split; try done; congruence.
  - intros [[H1 H2 H3 H4 H5 H6] Hf]. rewrite H1, H2, H3, H4, H5. cbn [map_err result_bind].
    rewrite bool_decide_eq_true_2 by done. rewrite <-H6, !String.eqb_refl. done.
Qed.

(** The catalog file at [path] holds [r]. *)
Definition stored (fs : Fs) (path : Path) (r : TemplateRecord) : Prop :=
  exists d, contents_at fs path = Some d /\ record_from_slice d = Ok r.

Lemma stored_before fs fs' path r : fs_same fs fs' -> stored fs' path r -> stored fs path r.
Proof. intros Hs (d&Hd&Hr). exists d. by rewrite <-(same_contents_at _ _ _ Hs). Qed.

Lemma run_io_at {A} path (p : prog Fs (result A IoError)) fs :
  run (io_at path p) fs = (map_err (Io path) (run p fs).1, (run p fs).2).
Proof. apply run_map_err. Qed.

Lemma run_load_record path fs :
  fs_same fs (run (load_record path) fs).2 /\
  match (run (load_record path) fs).1 with
  | Ok r => stored fs path r /\ consistent r /\ file_name path = Some (tr_alias r +:+ ".json")
  | Err _ => True
  end.
Proof.
  unfold load_record. rewrite run_bind_ok, run_io_at. cbn [fst snd].
  destruct (run_fs_read fs path) as [Hs Hr].
  destruct (run (fs_read path) fs) as [[d|e] fs1]; cbn [fst snd map_err] in *; [|done].
  rewrite run_bind_ok. unfold of_result at 1 2. cbn [run fst snd].
  destruct (record_from_slice d) as [r|e] eqn:Hj; cbn [map_err]; [|done].
  rewrite run_bind_ok. unfold of_result. cbn [run fst snd].
  destruct (validate_record path r) as [[]|e] eqn:Hv; cbn [run fst snd ok]; [|done].
  apply validate_record_spec in Hv. split; [done|]. split; [by exists d|done].
Qed.

(** Loading a stored record succeeds when nothing fails. *)
Lemma load_record_complete path fs r :
  fs_faults fs = [] -> stored fs path r -> consistent r ->
  file_name path = Some (tr_alias r +:+ ".json") ->
  exists fs', run (load_record path) fs = (Ok r, fs') /\ fs_same fs fs'.
Proof.
  intros Hf (d&Hd&Hj) Hc Hn. unfold load_record. rewrite run_bind_ok, run_io_at. cbn [fst snd].
  destruct (run_fs_read fs path) as [Hs Hr].
  destruct (run (fs_read path) fs) as [[d'|e] fs1]; cbn [fst snd map_err] in *.
  2: { rewrite (Hr Hf) in Hd. done. }
  rewrite Hd in Hr. injection Hr as <-.
  rewrite run_bind_ok. unfold of_result at 1 2. cbn [run fst snd]. rewrite Hj. cbn [map_err].
  rewrite run_bind_ok. unfold of_result. cbn [run fst snd].
  assert (validate_record path r = Ok tt) as -> by (by apply validate_record_spec).
  by exists fs1.
Qed.

Lemma load_records_sound directory names acc fs :
  fs_same fs (run (load_records directory names acc) fs).2 /\
  match (run (load_records directory names acc) fs).1 with
  | Ok l => forall r, r ∈ l -> r ∈ acc \/ exists name, name ∈ names /\
      stored fs (join directory name) r /\ consistent r /\
      file_name (join directory name) = Some (tr_alias r +:+ ".json")
  | Err _ => True
  end.
Proof.
  revert acc fs. induction names as [|name names IH]; intros acc fs; cbn [load_records];
    rewrite run_bind_ok, run_io_at; cbn [fst snd];
    pose proof (query_same (fun _ => Ok tt) fs) as Hq; fold next_entry in Hq;
    (destruct (run next_entry fs) as [[[]|e] fs1]; cbn [fst snd map_err] in *; [|done]).
  { cbn [run ok fst snd]. split; [done|]. by left. }
  destruct (has_json_extension name).
  - rewrite run_bind_ok. destruct (run_load_record (join directory name) fs1) as [Hs Hl].
    destruct (run (load_record _) fs1) as [[r|e] fs2]; cbn [fst snd] in *; [|split; [same_trans|done]].
    destruct (IH (acc ++ [r]) fs2) as [Hs2 Hrest]. split; [same_trans|].
    destruct (run (load_records _ _ _) fs2) as [[l|e] fs3]; cbn [fst snd] in *; [|done].
    intros r' [[Hin| ->%list_elem_of_singleton]%elem_of_app|(n&Hn&Hst&?)]%Hrest.
    + by left.
    + right. exists name. split; [left|]. destruct Hl as (Hst&?). split; [|done].
      exact (stored_before _ _ _ _ Hq Hst).
    + right. exists n. split; [by right|]. split; [|done]. refine (stored_before _ _ _ _ _ Hst). same_trans.
  - destruct (IH acc fs1) as [Hs2 Hrest]. split; [same_trans|].
    destruct (run (load_records _ _ _) fs1) as [[l|e] fs3]; cbn [fst snd] in *; [|done].
    intros r' [Hin|(n&Hn&Hst&?)]%Hrest; [by left|]. right. exists n. split; [by right|].
    split; [|done]. exact (stored_before _ _ _ _ Hq Hst).
Qed.

Lemma elem_of_children m dir name n : (name, n) ∈ children m dir -> m !! (dir ++ [name]) = Some n.
Proof.
  unfold children. intros ([l n']&Hin&Hx)%list_elem_of_omap. apply elem_of_map_to_list in Hin.
  unfold child_name in Hx. destruct (rev l) as [|x front] eqn:Hr; [done|]. case_bool_decide as Hd; [|done].
  cbn in Hx. injection Hx as <- <-. subst dir.
  apply (f_equal (@rev string)) in Hr. rewrite rev_involutive in Hr. simpl in Hr. by rewrite <-Hr.
Qed.

Lemma record_path_name root a : string_all alias_byte a = true -> file_name (record_path root a) = Some (a +:+ ".json").
Proof. intros Ha. apply file_name_join; [apply pieces_join|by apply alias_file_proper]. Qed.

Lemma run_read_dir p fs :
  match (run (read_dir p) fs).1 with
  | Ok (l, names) => names = map fst (children (fs_nodes fs) l)
  | Err _ => True
  end.
Proof.
  unfold read_dir, query, syscall. rewrite run_act.
  assert (forall fs0, fs_nodes fs0 = fs_nodes fs ->
    match (let? (l, n) := lookup_path fs0 true p in
      if is_dir n then Ok (l, map fst (children (fs_nodes fs0) l)) else Err ENOTDIR)%result with
    | Ok (l, names) => names = map fst (children (fs_nodes fs) l)
    | Err _ => True end) as Hq.
  { intros fs0 <-. destruct (lookup_path fs0 true p) as [[l n]|]; [|done]. cbn. by destruct (is_dir n). }
  destruct (fs_faults fs) as [|[e|] rest]; cbn [fst]; [by apply Hq|done|by apply Hq].
Qed.

(** Every record the catalog knows is consistent and is what its file holds. *)
Lemma run_records root fs :
  fs_same fs (run (records root) fs).2 /\
  match (run (records root) fs).1 with
  | Ok l => forall r, r ∈ l -> consistent r /\
      (well_named fs -> stored fs (record_path root (tr_alias r)) r)
  | Err _ => True
  end.
Proof.
  unfold records. rewrite run_bind. pose proof (run_path_exists_same (records_dir root) fs) as Hs.
  destruct (run (path_exists _) fs) as [b fs1]; cbn [fst snd] in *.
  destruct b; cbn [negb]; [|cbn [run ok fst snd]; split; [done|]; intros r []%not_elem_of_nil].
  rewrite run_bind_ok, run_io_at. cbn [fst snd]. pose proof (run_read_dir (records_dir root) fs1) as Hn.
  pose proof (query_same (fun fs0 => let? (l, n) := lookup_path fs0 true (records_dir root) in
    if is_dir n then Ok (l, map fst (children (fs_nodes fs0) l)) else Err ENOTDIR)%result fs1) as Hs2.
  fold (read_dir (records_dir root)) in Hs2.
  destruct (run (read_dir _) fs1) as [[[l names]|e] fs2]; cbn [fst snd map_err] in *; [|split; [same_trans|done]].
  destruct (load_records_sound (records_dir root) names [] fs2) as [Hs3 Hl].
  split; [same_trans|]. destruct (run (load_records _ _ _) fs2) as [[all|e] fs3]; cbn [fst snd] in *; [|done].
  intros r [[]%not_elem_of_nil|(name&Hin&Hst&Hc&Hfile)]%Hl. split; [done|]. intros Hw.
  rewrite Hn in Hin. apply list_elem_of_fmap in Hin as ([name' n]&->&Hin). cbn [fst] in *.
  apply elem_of_children in Hin. pose proof (proj1 Hs) as Hnodes. rewrite Hnodes in Hin. apply Hw in Hin.
  rewrite file_name_join in Hfile by (done || apply pieces_join). injection Hfile as ->.
  refine (stored_before _ _ _ _ _ Hst). same_trans.
Qed.

Lemma run_resolve_template root reference fs :
  fs_same fs (run (resolve_template root reference) fs).2 /\
  match (run (resolve_template root reference) fs).1 with
  | Ok (path, r) => path = record_path root (tr_alias r) /\ consistent r
      /\ (tr_alias r = reference \/ tr_template_id r = reference)
      /\ (well_named fs -> stored fs path r)
  | Err _ => True
  end.
Proof.
  unfold resolve_template. rewrite run_bind_ok. unfold of_result. cbn [run fst snd].
  destruct (validate_alias reference) as [a|e] eqn:Ha; [|done].
  apply validate_alias_ok in Ha as (->&_&Hall). rewrite run_bind.
  pose proof (run_path_is_file_same (record_path root reference) fs) as Hs.
  destruct (run (path_is_file _) fs) as [b fs1]; cbn [fst snd] in *. destruct b.
  - rewrite run_bind_ok. destruct (run_load_record (record_path root reference) fs1) as [Hs1 Hl].
    destruct (run (load_record _) fs1) as [[r|e] fs2]; cbn [fst snd run ok] in *; (split; [same_trans|]); [|done].
    destruct Hl as (Hst&Hc&Hf). rewrite record_path_name in Hf by done. injection Hf as Hf%append_inj_r.
    rewrite <-Hf. split; [done|]. split; [done|]. split; [by left|]. intros _. exact (stored_before _ _ _ _ Hs Hst).
  - rewrite run_bind_ok. destruct (run_records root fs1) as [Hs1 Hl].
    destruct (run (records root) fs1) as [[all|e] fs2]; cbn [fst snd] in *; [|split; [same_trans|done]].
    destruct (List.find _ all) as [r|] eqn:Hfind; cbn [run ok throw fst snd]; (split; [same_trans|]); [|done].
    apply find_some in Hfind as [Hin%list_elem_of_In Hid%String.eqb_eq].
    apply Hl in Hin as [Hc Hst]. split; [done|]. split; [done|]. split; [by right|]. intros Hw.
    refine (stored_before _ _ _ _ Hs (Hst _)). intros l x n. destruct Hs as (->&_). apply Hw.
Qed.
End Records.

(** ** Inspection *)

Section Inspection.
Context `{C : CryptoLib} `{J : TemplateJson}.

(** The file at [p] is the artifact that [a] describes. *)
Definition artifact_intact (fs : Fs) (p : Path) (a : TemplateArtifact) : Prop :=
  exists d, contents_at fs p = Some d /\ sha256_text d = ta_digest a /\ Z.of_nat (length d) = ta_size_bytes a.

Lemma intact_before fs fs' p a : fs_same fs fs' -> artifact_intact fs' p a <-> artifact_intact fs p a.
Proof. intros Hs. unfold artifact_intact. by rewrite (same_contents_at _ _ _ Hs). Qed.

Lemma run_hash_file p fs :
  fs_same fs (run (hash_file p) fs).2 /\
  match (run (hash_file p) fs).1 with
  | Ok (dg, size) => exists d, contents_at fs p = Some d /\ dg = sha256_text d /\ size = Z.of_nat (length d)
  | Err _ => fs_faults fs = [] -> forall d, contents_at fs p = Some d -> (2 ^ 64 <= Z.of_nat (length d))%Z
  end.
Proof.
  unfold hash_file. rewrite run_bind_ok.
  destruct (run_read_file_whole (Io p) (Io p) fs p) as [Hs Hr].
  destruct (run (read_file_whole _ _ _) fs) as [[d|e] fs1]; cbn [fst snd run ok] in *; [|done].
  split; [done|]. by exists d.
Qed.

(** The verdict on one artifact is right whenever nothing fails, and a positive
    one always. *)
Lemma run_verify_artifact p a fs : (0 <= ta_size_bytes a <= u64_max)%Z ->
  fs_same fs (run (verify_artifact p a) fs).2 /\
  (av_valid (run (verify_artifact p a) fs).1 = true -> artifact_intact fs p a) /\
  (fs_faults fs = [] -> artifact_intact fs p a -> av_valid (run (verify_artifact p a) fs).1 = true).
Proof.
  intros Hsize. unfold verify_artifact. rewrite run_bind. destruct (run_hash_file p fs) as [Hs Hr].
  destruct (run (hash_file p) fs) as [[[dg size]|e] fs1]; cbn [fst snd] in *.
  - destruct Hr as (d&Hd&->&->). cbn [run fst snd av_valid]. split; [done|]. split.
    + intros [H1%String.eqb_eq H2%Z.eqb_eq]%andb_true_iff. by exists d.
    + intros _ (d'&Hd'&<-&<-). rewrite Hd in Hd'. injection Hd' as <-.
      by rewrite String.eqb_refl, Z.eqb_refl.
  - rewrite run_bind. pose proof (run_path_is_file_same p fs1) as Hs2.
    destruct (run (path_is_file p) fs1) as [b fs2]. cbn [run fst snd av_valid] in *.
    split; [same_trans|]. split; [done|]. intros Hf (d&Hd&_&Hlen).
    pose proof (Hr Hf d Hd). unfold u64_max in Hsize. lia.
Qed.

(** The sizes of a descriptor are [u64] numbers. *)
Definition sizes_fit (r : TemplateRecord) : Prop :=
  (0 <= ta_size_bytes (tas_kernel (td_artifacts (tr_descriptor r))) <= u64_max)%Z /\
  (0 <= ta_size_bytes (tas_rootfs (td_artifacts (tr_descriptor r))) <= u64_max)%Z.

Definition artifacts_intact (fs : Fs) (r : TemplateRecord) : Prop :=
  artifact_intact fs (al_kernel (tr_locations r)) (tas_kernel (td_artifacts (tr_descriptor r))) /\
  artifact_intact fs (al_rootfs (tr_locations r)) (tas_rootfs (td_artifacts (tr_descriptor r))).

Lemma run_catalog_record root reference fs :
  run (catalog_record root reference) fs =
  (result_map snd (run (resolve_template root reference) fs).1, (run (resolve_template root reference) fs).2).
Proof. apply run_fmap. Qed.

Lemma run_inspect_template root reference fs :
  fs_same fs (run (inspect_template root reference) fs).2 /\
  match (run (inspect_template root reference) fs).1 with
  | Ok i => result_map snd (run (resolve_template root reference) fs).1 = Ok (ti_record i) /\
      (sizes_fit (ti_record i) ->
       (tv_valid (ti_verification i) = true -> artifacts_intact fs (ti_record i)) /\
       (fs_faults fs = [] -> artifacts_intact fs (ti_record i) -> tv_valid (ti_verification i) = true))
  | Err e => result_map snd (run (resolve_template root reference) fs).1 = Err e
  end.
Proof.
  unfold inspect_template. rewrite run_bind_ok, run_catalog_record. cbn [fst snd].
  destruct (run_resolve_template root reference fs) as [Hs _].
  destruct (run (resolve_template root reference) fs) as [[[path r]|e] fs1]; cbn [fst snd result_map] in *; [|done].
  rewrite run_bind. unfold artifacts_intact, sizes_fit.
  set (k := al_kernel (tr_locations r)). set (ka := tas_kernel _). set (q := al_rootfs _). set (qa := tas_rootfs _).
  assert (preserves fs_same (verify_artifact k ka) /\ preserves fs_same (verify_artifact q qa)) as [Hpk Hpq].
  { split; (apply preserves_bind; [apply _|intros fs0; apply run_hash_file|]; intros [[]|];
      [apply preserves_ret; apply _|]; apply preserves_bind; [apply _|apply run_path_is_file_same|];
      intros ?; apply preserves_ret; apply _). }
  pose proof (Hpk fs1) as Hs1. pose proof (fun H => run_verify_artifact k ka fs1 H) as Hk.
  destruct (run (verify_artifact k ka) fs1) as [kv fs2]; cbn [fst snd] in *. rewrite run_bind.
  pose proof (Hpq fs2) as Hs2. pose proof (fun H => run_verify_artifact q qa fs2 H) as Hq.
  destruct (run (verify_artifact q qa) fs2) as [qv fs3]; cbn [fst snd run ok ti_record ti_verification tv_valid] in *.
  split; [same_trans|]. split; [done|]. fold k ka q qa. intros [Hsk Hsq].
  destruct (Hk Hsk) as (_&Hk1&Hk2). destruct (Hq Hsq) as (_&Hq1&Hq2).
  rewrite (intact_before _ _ _ _ Hs) in Hk1, Hk2.
  assert (fs_same fs fs2) as H02 by same_trans. rewrite (intact_before _ _ _ _ H02) in Hq1, Hq2.
  rewrite andb_true_iff. split; [naive_solver|]. intros Hf [??]. split; [apply Hk2|apply Hq2]; try done.
  - by apply Hs.
  - by apply H02.
Qed.
End Inspection.

(** ** Building *)

(** The tree differs at [l] only. *)
Definition only_at (l : loc) (fs fs' : Fs) : Prop :=
  (forall k, k <> l -> fs_nodes fs' !! k = fs_nodes fs !! k) /\ fs_cwd fs' = fs_cwd fs
  /\ (fs_faults fs = [] -> fs_faults fs' = []).

(** What [tempfile] promises: a fresh file, gone when dropped, that takes its
    final name only if nothing has that name. *)
Class TempFilesLaws `{T : TempFiles} := {
  tmp_loc : Tmp -> loc;
  new_in_law dir fs :
    match run (tmp_new_in dir) fs with
    | (Ok t, fs') => fs_nodes fs !! tmp_loc t = None /\ only_at (tmp_loc t) fs fs'
        /\ (exists n, fs_nodes fs' !! tmp_loc t = Some n /\ n_kind n = File [])
    | (Err _, fs') => fs_same fs fs'
    end;
  write_law t d fs :
    only_at (tmp_loc t) fs (run (tmp_write_all t d) fs).2 /\
    ((run (tmp_write_all t d) fs).1 = Ok tt ->
     (exists n, fs_nodes fs !! tmp_loc t = Some n /\ n_kind n = File []) ->
     exists n, fs_nodes (run (tmp_write_all t d) fs).2 !! tmp_loc t = Some n /\ n_kind n = File d);
  sync_law t : preserves fs_same (tmp_sync_all t);
  persist_law t target fs :
    match run (tmp_persist_noclobber t target) fs with
    | (Ok _, fs') => exists dir x, resolve fs false target = Missing dir x false
        /\ fs_nodes fs' = (match fs_nodes fs !! tmp_loc t with
                          | Some n => <[dir ++ [x] := n]> (delete (tmp_loc t) (fs_nodes fs))
                          | None => fs_nodes fs end)
        /\ fs_cwd fs' = fs_cwd fs /\ (fs_faults fs = [] -> fs_faults fs' = [])
    | (Err _, fs') => fs_same fs fs'
    end;
  drop_law t fs :
    fs_nodes (run (tmp_drop t) fs).2 = delete (tmp_loc t) (fs_nodes fs) /\
    fs_cwd (run (tmp_drop t) fs).2 = fs_cwd fs /\ (fs_faults fs = [] -> fs_faults (run (tmp_drop t) fs).2 = []);
}.

Lemma only_at_trans l a b c : only_at l a b -> only_at l b c -> only_at l a c.
Proof. intros (H1&H2&H3) (H4&H5&H6). split; [|split; [congruence|auto]]. intros k Hk. by rewrite H4, H1. Qed.

Lemma same_only_at l a b : fs_same a b -> only_at l a b.
Proof. intros (Hn&Hc&_&Hf). split; [by rewrite Hn|done]. Qed.

Section Building.
Context `{C : CryptoLib} `{J : TemplateJson} `{T : TempFiles} `{!TempFilesLaws}.

(** Nothing that was there is touched: the tree only gains nodes. *)
Definition fs_adds (fs fs' : Fs) : Prop :=
  fs_nodes fs ⊆ fs_nodes fs' /\ fs_cwd fs' = fs_cwd fs /\ (fs_faults fs = [] -> fs_faults fs' = []).

#[export] Instance fs_adds_preorder : PreOrder fs_adds.
Proof.
  split; [by intros fs|]. intros a b c (H1&H2&H3) (H4&H5&H6). split; [by etrans|]. split; [congruence|auto].
Qed.

Lemma same_adds a b : fs_same a b -> fs_adds a b.
Proof. intros (Hn&Hc&_&Hf). split; [by rewrite Hn|done]. Qed.

Lemma extends_adds a b : fs_extends a b -> fs_adds a b.
Proof. intros ([Hm _]&Hc&Hf). done. Qed.

(** A file that was created under a fresh name and dropped leaves no trace. *)
Lemma drop_fresh t fs0 fs : fs_nodes fs0 !! tmp_loc t = None -> only_at (tmp_loc t) fs0 fs ->
  fs_adds fs0 (run (tmp_drop t) fs).2.
Proof.
  intros Hfresh (Hn&Hc&Hf). destruct (drop_law t fs) as (Hd&Hc'&Hf').
  assert (fs_nodes (run (tmp_drop t) fs).2 = fs_nodes fs0) as Heq.
  { rewrite Hd. apply map_eq. intros k. destruct (decide (k = tmp_loc t)) as [->|Hne].
    - by rewrite lookup_delete_eq, Hfresh.
    - by rewrite lookup_delete_ne, Hn by done. }
  split; [by rewrite Heq|]. split; [congruence|auto].
Qed.

Lemma run_or_drop {A E} t (p : prog Fs (result A E)) fs :
  run (or_drop t p) fs =
  match run p fs with
  | (Ok a, fs') => (Ok a, fs')
  | (Err e, fs') => (Err e, (run (tmp_drop t) fs').2)
  end.
Proof.
  unfold or_drop. rewrite run_bind. destruct (run p fs) as [[a|e] fs']; [done|]. cbn [fst snd].
  by rewrite run_bind.
Qed.

(** Filling the temporary file that is new since [fs1]. *)
Lemma run_fill t data fs1 fs2 :
  fs_nodes fs1 !! tmp_loc t = None -> only_at (tmp_loc t) fs1 fs2 ->
  (exists n, fs_nodes fs2 !! tmp_loc t = Some n /\ n_kind n = File []) ->
  match run (or_drop t (io_at (tmp_path t) (do? _ <- tmp_write_all t data ;; tmp_sync_all t)%prog)) fs2 with
  | (Ok _, fs4) => only_at (tmp_loc t) fs1 fs4 /\
      exists n, fs_nodes fs4 !! tmp_loc t = Some n /\ n_kind n = File data
  | (Err _, fs4) => fs_adds fs1 fs4
  end.
Proof.
  intros Hfresh Hat Hempty. rewrite run_or_drop, run_io_at, run_bind_ok.
  destruct (write_law t data fs2) as [Hw Hdata].
  destruct (run (tmp_write_all t _) fs2) as [[[]|e] fs3]; cbn [fst snd map_err] in *.
  2: { apply drop_fresh; [done|]. by eapply only_at_trans. }
  pose proof (sync_law t fs3) as Hsync.
  assert (only_at (tmp_loc t) fs1 (run (tmp_sync_all t) fs3).2) as H4.
  { eapply only_at_trans; [exact Hat|]. eapply only_at_trans; [exact Hw|]. by apply same_only_at. }
  destruct (run (tmp_sync_all t) fs3) as [[[]|e] fs4]; cbn [fst snd map_err] in *.
  - split; [done|]. destruct Hsync as (->&_). by apply Hdata.
  - by apply drop_fresh.
Qed.

(** Giving the filled file its name. *)
Lemma run_name t (err : IoError -> TemplateCatalogError) target data fs1 fs4 :
  fs_nodes fs1 !! tmp_loc t = None -> only_at (tmp_loc t) fs1 fs4 ->
  (exists n, fs_nodes fs4 !! tmp_loc t = Some n /\ n_kind n = File data) ->
  match run (or_drop t (prog_map_err err (tmp_persist_noclobber t target))) fs4 with
  | (Ok _, fs5) => fs_adds fs1 fs5 /\ file_at fs5 target = Some data
  | (Err _, fs5) => fs_adds fs1 fs5
  end.
Proof.
  intros Hfresh Hat4 (n&Hn4&Hk). rewrite run_or_drop, run_map_err.
  pose proof (persist_law t target fs4) as Hp.
  destruct (run (tmp_persist_noclobber t _) fs4) as [[[]|e] fs5]; cbn [fst snd map_err].
  2: { apply drop_fresh; [done|]. eapply only_at_trans; [done|]. by apply same_only_at. }
  destruct Hp as (dir&x&Hmiss&Hnodes&Hcwd&Hfaults). rewrite Hn4 in Hnodes.
  destruct Hat4 as (Hothers&Hcwd4&Hf4). pose proof (resolve_missing _ _ _ _ _ _ Hmiss) as Hfree.
  assert (dir ++ [x] <> tmp_loc t) as Hne by congruence.
  split.
  - split; [|split; [congruence|auto]]. rewrite Hnodes. transitivity (delete (tmp_loc t) (fs_nodes fs4)).
    + apply map_subseteq_spec. intros k a Ha. rewrite lookup_delete_ne by congruence.
      rewrite Hothers; [done|congruence].
    + apply insert_subseteq. by rewrite lookup_delete_ne.
  - unfold file_at. rewrite (resolve_missing_insert fs4 false _ dir x n fs5); [by rewrite Hk| | |by unfold is_file; rewrite Hk|done|done].
    + intros l a Ha Hkind. rewrite Hnodes. rewrite lookup_insert_ne by congruence.
      rewrite lookup_delete_ne; [done|]. intros <-. rewrite Hn4 in Ha. injection Ha as <-.
      unfold is_dir, is_symlink in Hkind. rewrite Hk in Hkind. naive_solver.
    + by rewrite Hnodes, lookup_insert_eq.
Qed.

(** What [persist] leaves behind: on failure at most directories; otherwise the
    record under its name, which was free. *)
Lemma run_persist root r fs :
  match run (persist root r) fs with
  | (Ok _, fs') => fs_adds fs fs' /\ exists payload, record_to_vec_pretty r = Ok payload /\
      file_at fs' (record_path root (tr_alias r)) = Some (payload ++ [Byte.x0a])
  | (Err _, fs') => fs_adds fs fs'
  end.
Proof.
  unfold persist. rewrite run_bind_ok, run_io_at. cbn [fst snd].
  pose proof (create_dir_all_extends (records_dir root) fs) as Hd%extends_adds.
  destruct (run (create_dir_all _) fs) as [[[]|e] fs1]; cbn [fst snd map_err] in *; [|done].
  rewrite run_bind_ok. unfold of_result. cbn [run fst snd]. unfold serialization.
  destruct (record_to_vec_pretty r) as [payload|e]; cbn [map_err]; [|done].
  rewrite run_bind_ok, run_io_at. cbn [fst snd].
  pose proof (new_in_law (records_dir root) fs1) as Hnew.
  destruct (run (tmp_new_in _) fs1) as [[t|e] fs2]; cbn [fst snd map_err] in *.
  2: { etrans; [exact Hd|by apply same_adds]. }
  destruct Hnew as (Hfresh&Hat&Hempty). rewrite run_bind_ok.
  pose proof (run_fill t (payload ++ [Byte.x0a]) fs1 fs2 Hfresh Hat Hempty) as Hfill.
  destruct (run (or_drop t _) fs2) as [[[]|e] fs4]; cbn [fst snd].
  2: { by etrans. }
  destruct Hfill as [Hat4 Hfull].
  pose proof (run_name t (persist_error (record_path root (tr_alias r)) r) (record_path root (tr_alias r)) _
    fs1 fs4 Hfresh Hat4 Hfull) as Hname.
  destruct (run (or_drop t _) fs4) as [[[]|e] fs5]; [|by etrans].
  destruct Hname as [Hadds Hfile]. split; [by etrans|]. by exists payload.
Qed.
End Building.

(** ** The record a request asks for *)

Section Prepared.
Context `{C : CryptoLib} `{J : TemplateJson}.

(** The descriptor that the fields of a request and the contents of its two
    files determine. *)
Definition requested (req : BuildTemplateRequest) (k q : list Byte.byte) : result TemplateDescriptor TemplateCatalogError :=
  (let? name := validate_text "name" (bt_name req) 128 in
   let? version := validate_version (bt_version req) in
   let? reference := validate_text "source_reference" (bt_source_reference req) 1024 in
   let? digest := normalize_sha256 "source_digest" (bt_source_digest req) in
   let? kind := parse_source_kind (bt_source_kind req) in
   let? architecture := normalize_architecture (bt_target_architecture req) in
   Ok (descriptor_of name version (MkTemplateSource kind reference digest) architecture
         (sha256_text k, Z.of_nat (length k)) (sha256_text q, Z.of_nat (length q))))%result.

Lemma canonical_file_same field p : preserves fs_same (canonical_file field p).
Proof.
  unfold canonical_file. repeat first
    [ apply preserves_fmap; [apply _|apply query_same] | preserves_step ].
Qed.

Lemma hash_file_same p : preserves fs_same (hash_file p).
Proof. intros fs. apply run_hash_file. Qed.

Lemma run_prepare req fs :
  fs_same fs (run (prepare req) fs).2 /\
  match (run (prepare req) fs).1 with
  | Ok r => consistent r /\ tr_alias r = bt_alias req /\ artifacts_intact fs r /\
      exists k q, contents_at fs (al_kernel (tr_locations r)) = Some k
        /\ contents_at fs (al_rootfs (tr_locations r)) = Some q
        /\ requested req k q = Ok (tr_descriptor r)
  | Err _ => True
  end.
Proof.
  unfold prepare, requested. rewrite run_bind_ok, run_of_result. cbn [fst snd].
  destruct (validate_alias (bt_alias req)) as [alias|] eqn:Halias; [|done].
  rewrite run_bind_ok, run_of_result. cbn [fst snd]. destruct (validate_text "name" _ _) as [name|]; [|done].
  rewrite run_bind_ok, run_of_result. cbn [fst snd]. destruct (validate_version _) as [version|]; [|done].
  rewrite run_bind_ok, run_of_result. cbn [fst snd]. destruct (validate_text _ _ _) as [reference|]; [|done].
  rewrite run_bind_ok, run_of_result. cbn [fst snd]. destruct (normalize_sha256 _ _) as [digest|]; [|done].
  rewrite run_bind_ok, run_of_result. cbn [fst snd]. destruct (parse_source_kind _) as [kind|]; [|done].
  rewrite run_bind_ok, run_of_result. cbn [fst snd]. destruct (normalize_architecture _) as [arch|]; [|done].
  rewrite run_bind_ok. pose proof (canonical_file_same "kernel" (bt_kernel_path req) fs) as H1.
  destruct (run (canonical_file "kernel" _) fs) as [[kp|] fs1]; cbn [fst snd] in *; [|done].
  rewrite run_bind_ok. pose proof (canonical_file_same "rootfs" (bt_rootfs_path req) fs1) as H2.
  destruct (run (canonical_file "rootfs" _) fs1) as [[rp|] fs2]; cbn [fst snd] in *; [|split; [same_trans|done]].
  rewrite run_bind_ok. destruct (run_hash_file kp fs2) as [H3 Hk].
  destruct (run (hash_file kp) fs2) as [[[kd ks]|] fs3]; cbn [fst snd] in *; [|split; [same_trans|done]].
  rewrite run_bind_ok. destruct (run_hash_file rp fs3) as [H4 Hq].
  destruct (run (hash_file rp) fs3) as [[[qd qs]|] fs4]; cbn [fst snd] in *; [|split; [same_trans|done]].
  destruct Hk as (k&Hk&->&->). destruct Hq as (q&Hq&->&->).
  rewrite run_bind_ok, run_of_result. cbn [fst snd result_bind].
  assert (fs_same fs fs2) as H02 by same_trans. assert (fs_same fs fs3) as H03 by same_trans.
  rewrite (same_contents_at _ _ _ H02) in Hk. rewrite (same_contents_at _ _ _ H03) in Hq.
  destruct (descriptor_digest _) as [dg|] eqn:Hd; [|split; [same_trans|done]].
  cbn [run ok fst snd tr_alias tr_locations tr_descriptor al_kernel al_rootfs].
  pose proof (validate_alias_ok _ _ Halias) as (->&_).
  split; [same_trans|]. split; [by split|]. split; [done|]. split; [by split; [exists k|exists q]|].
  by exists k, q.
Qed.
End Prepared.

Lemma find_existing_some alias id all x :
  find_existing alias id all = Some x ->
  match x with
  | SameTemplate => exists r, r ∈ all /\ tr_alias r = alias /\ tr_template_id r = id
  | Conflicting e => exists r, r ∈ all /\
      (tr_alias r = alias /\ tr_template_id r <> id /\ e = AliasConflict alias (tr_template_id r)
       \/ tr_alias r <> alias /\ tr_template_id r = id /\ e = IdentityConflict id (tr_alias r))
  end.
Proof.
  induction all as [|r all IH]; [done|]. cbn [find_existing].
  destruct (String.eqb_spec (tr_alias r) alias) as [Ha|Ha].
  - intros [= <-]. destruct (String.eqb_spec (tr_template_id r) id) as [Hi|Hi]; exists r;
      (split; [by left|]); [done|by left].
  - destruct (String.eqb_spec (tr_template_id r) id) as [Hi|Hi].
    + intros [= <-]. exists r. split; [by left|]. by right.
    + intros Hx%IH. destruct x; destruct Hx as (r'&?&?); exists r'; (split; [by right|done]).
Qed.

(** ** Digests as text *)

Lemma sha256_text_inj `{CryptoLib} a b : sha256_text a = sha256_text b -> sha256 a = sha256 b.
Proof.
  unfold sha256_text, format_digest. intros Hs. apply hex_string_inj.
  simpl in Hs. by injection Hs.
Qed.

(** ** Theorems *)

Section Theorems.
Context `{C : CryptoLib} `{J : TemplateJson}.

(** A reference leads only to a consistent record: one whose file is named
    after its alias and holds it, whose digest and identity are those of its
    descriptor, and which has the reference as its alias or identity; looking it
    up changes nothing. *)
Theorem template_resolution root reference fs path r fs' :
  well_named fs -> run (resolve_template root reference) fs = (Ok (path, r), fs') ->
  path = record_path root (tr_alias r) /\ stored fs path r /\ consistent r
  /\ (tr_alias r = reference \/ tr_template_id r = reference) /\ fs_same fs fs'.
Proof.
  intros Hw Hrun. destruct (run_resolve_template root reference fs) as [Hs Hr]. rewrite Hrun in Hs, Hr.
  destruct Hr as (->&Hc&Href&Hst). by auto.
Qed.

(** C25. Inspection never changes the tree; its positive verdict means that both
    files hold exactly the bytes that the descriptor names by digest and size,
    and when no call fails it is positive whenever they do: tampering with an
    artifact is detected. *)
Theorem template_inspection_detects_tampering root reference fs i fs' :
  run (inspect_template root reference) fs = (Ok i, fs') -> sizes_fit (ti_record i) ->
  fs_same fs fs' /\
  (tv_valid (ti_verification i) = true -> artifacts_intact fs (ti_record i)) /\
  (fs_faults fs = [] -> artifacts_intact fs (ti_record i) -> tv_valid (ti_verification i) = true).
Proof.
  intros Hrun Hfit. destruct (run_inspect_template root reference fs) as [Hs Hi]. rewrite Hrun in Hs, Hi.
  destruct Hi as [_ Hi]. split; [done|]. by apply Hi.
Qed.

(** C26. An identity is one of content: what a request asks for depends on its
    fields and the bytes of its two files only, not on alias, catalog or
    locations; equal requests get equal identities, and equal digests mean equal
    requests unless two texts collide under the hash. *)
Theorem template_identity_is_content req req' fs fs' r r' s s' k q k' q' :
  run (prepare req) fs = (Ok r, s) -> run (prepare req') fs' = (Ok r', s') ->
  contents_at fs (al_kernel (tr_locations r)) = Some k -> contents_at fs (al_rootfs (tr_locations r)) = Some q ->
  contents_at fs' (al_kernel (tr_locations r')) = Some k' -> contents_at fs' (al_rootfs (tr_locations r')) = Some q' ->
  (requested req k q = requested req' k' q' ->
   tr_template_id r = tr_template_id r' /\ tr_spec_digest r = tr_spec_digest r') /\
  (tr_spec_digest r = tr_spec_digest r' ->
   requested req k q = requested req' k' q' \/ exists a b, a <> b /\ sha256 a = sha256 b).
Proof.
  intros H1 H2 Hk Hq Hk' Hq'. destruct (run_prepare req fs) as [_ P1]. destruct (run_prepare req' fs') as [_ P2].
  rewrite H1 in P1. rewrite H2 in P2.
  destruct P1 as ([_ _ _ _ D1 I1]&_&_&k1&q1&Ek&Eq&R1). destruct P2 as ([_ _ _ _ D2 I2]&_&_&k2&q2&Ek'&Eq'&R2).
  rewrite Hk in Ek. rewrite Hq in Eq. rewrite Hk' in Ek'. rewrite Hq' in Eq'. simplify_eq.
  rewrite R1, R2. split.
  - intros [= Hd]. rewrite Hd in D1. rewrite D1 in D2. injection D2 as Hs. rewrite I1, I2. by rewrite Hs.
  - intros Hs. unfold descriptor_digest, serialization in D1, D2.
    destruct (descriptor_to_vec (tr_descriptor r)) as [a|] eqn:Ha; [|done].
    destruct (descriptor_to_vec (tr_descriptor r')) as [b|] eqn:Hb; [|done].
    cbn in D1, D2. injection D1 as D1. injection D2 as D2. rewrite <-D1, <-D2 in Hs. apply sha256_text_inj in Hs.
    destruct (decide (a = b)) as [<-|Hne]; [left|right; by exists a, b].
    f_equal. by eapply descriptor_to_vec_inj.
Qed.

Context `{T : TempFiles} `{!TempFilesLaws}.

(** Building never changes or removes anything that exists, whatever
    fails. *)
Theorem template_build_adds_only root req fs :
  fs_adds fs (run (build root req) fs).2.
Proof.
  unfold build. rewrite run_bind_ok. destruct (run_prepare req fs) as [Hs _].
  destruct (run (prepare req) fs) as [[r|e] fs1]; cbn [fst snd] in *; [|by apply same_adds].
  rewrite run_bind_ok. destruct (run_records root fs1) as [Hs1 _].
  destruct (run (records root) fs1) as [[all|e] fs2]; cbn [fst snd] in *; [|apply same_adds; same_trans].
  assert (fs_adds fs fs2) as H02 by (apply same_adds; same_trans).
  destruct (find_existing _ _ all) as [[|e]|]; [| |].
  - etrans; [exact H02|]. apply same_adds, run_inspect_template.
  - done.
  - rewrite run_bind_ok. pose proof (run_persist root r fs2) as Hp.
    destruct (run (persist root r) fs2) as [[u|e] fs3]; cbn [fst snd] in *; [|by etrans].
    etrans; [exact H02|]. etrans; [apply Hp|]. apply same_adds, run_inspect_template.
Qed.
(** A stored record is found by its alias when nothing fails. *)
Lemma resolve_stored root r fs :
  fs_faults fs = [] -> consistent r -> record_from_slice (default [] (file_at fs (record_path root (tr_alias r)))) = Ok r ->
  file_at fs (record_path root (tr_alias r)) <> None ->
  exists fs', run (resolve_template root (tr_alias r)) fs = (Ok (record_path root (tr_alias r), r), fs').
Proof.
  intros Hf Hc Hj Hfile. destruct (file_at fs _) as [d|] eqn:Hd; [|done]. cbn in Hj.
  unfold resolve_template. rewrite run_bind_ok, run_of_result. cbn [fst snd]. rewrite (cs_alias r Hc).
  rewrite run_bind. assert (run (path_is_file (record_path root (tr_alias r))) fs = (true, fs)) as ->.
  { unfold path_is_file, metadata. rewrite run_fmap, run_query by done. cbn [fst snd]. unfold file_at in Hd.
    destruct (lookup_path fs true _) as [[l n]|]; [|done]. cbn. unfold is_file. by destruct (n_kind n). }
  cbn [fst snd]. destruct (load_record_complete (record_path root (tr_alias r)) fs r Hf) as (fs'&Hl&_); [|done| |].
  - exists d. split; [|done]. by apply file_at_contents.
  - apply record_path_name. pose proof (cs_alias r Hc) as (_&_&?)%validate_alias_ok. done.
  - rewrite run_bind_ok, Hl. by exists fs'.
Qed.

(** C24. A build under a free name, when nothing fails, stores the record that
    was asked for, can be looked up again, and is reported intact. *)
Theorem template_build_roundtrip root req fs i fs' :
  well_named fs -> fs_faults fs = [] -> contents_at fs (record_path root (bt_alias req)) = None ->
  run (build root req) fs = (Ok i, fs') -> sizes_fit (ti_record i) ->
  tr_alias (ti_record i) = bt_alias req /\ consistent (ti_record i)
  /\ stored fs' (record_path root (bt_alias req)) (ti_record i)
  /\ (exists k q, contents_at fs (al_kernel (tr_locations (ti_record i))) = Some k
        /\ contents_at fs (al_rootfs (tr_locations (ti_record i))) = Some q
        /\ requested req k q = Ok (tr_descriptor (ti_record i)))
  /\ tv_valid (ti_verification i) = true.
Proof.
  intros Hw Hf Hfree Hrun Hfit. revert Hrun. unfold build. rewrite run_bind_ok.
  destruct (run_prepare req fs) as [Hs Hprep].
  destruct (run (prepare req) fs) as [[r|e] fs1]; cbn [fst snd] in *; [|done].
  destruct Hprep as (Hc&Halias&[Hik Hiq]&Hreq). rewrite run_bind_ok. destruct (run_records root fs1) as [Hs1 Hall].
  destruct (run (records root) fs1) as [[all|e] fs2]; cbn [fst snd] in *; [|done].
  assert (fs_same fs fs2) as H02 by same_trans.
  destruct (find_existing _ _ all) as [[|e]|] eqn:Hfind; [|done|].
  { apply find_existing_some in Hfind as (r0&Hin&Ha&_). apply Hall in Hin as [_ Hst].
    assert (well_named fs1) as Hw1 by (intros l x n; destruct Hs as (->&_); apply Hw).
    destruct (Hst Hw1) as (d&Hd&_). rewrite (same_contents_at _ _ _ Hs), Ha, Halias, Hfree in Hd. done. }
  rewrite run_bind_ok. pose proof (run_persist root r fs2) as Hp.
  destruct (run (persist root r) fs2) as [[u|e] fs3]; cbn [fst snd] in *; [|done].
  destruct Hp as [(Hsub&Hcwd&Hf3) (payload&Hpay&Hfile)]. intros Hrun.
  destruct (run_inspect_template root (tr_alias r) fs3) as [Hs3 Hi]. rewrite Hrun in Hs3, Hi.
  destruct (resolve_stored root r fs3) as (fs4&Hres); [by apply Hf3, H02|done| |by rewrite Hfile|].
  { rewrite Hfile. cbn. by apply record_roundtrip. }
  rewrite Hres in Hi. cbn [fst result_map snd] in Hi. destruct Hi as [[= Hir] Hi]. rewrite <-Hir in *.
  destruct (Hi Hfit) as [_ Hvalid]. split; [done|]. split; [done|].
  split. { rewrite <-Halias. refine (_ : stored fs' _ _). exists (payload ++ [Byte.x0a]). split; [|by apply record_roundtrip].
    rewrite (same_contents_at _ _ _ Hs3). by apply file_at_contents. }
  split; [done|]. apply Hvalid; [by apply Hf3, H02|].
  assert (forall p a, artifact_intact fs p a -> artifact_intact fs3 p a) as Hkeep.
  { intros p a (d&Hd&?). exists d. split; [|done].
    eapply (contents_at_subseteq fs2); [done|done|]. by rewrite (same_contents_at _ _ _ H02). }
  split; by apply Hkeep.
Qed.
End Theorems.

(** ** A concrete catalog

    The interfaces are not empty: records written as the bits of a number, and
    temporary files under one reserved name. *)

Fixpoint bits (p : positive) : list Byte.byte :=
  match p with xH => [] | xO p => Byte.x30 :: bits p | xI p => Byte.x31 :: bits p end.
Fixpoint of_bits (l : list Byte.byte) : positive :=
  match l with
  | Byte.x30 :: l => xO (of_bits l)
  | Byte.x31 :: l => xI (of_bits l)
  | _ => xH
  end.

Lemma of_bits_bits p : of_bits (bits p ++ [Byte.x0a]) = p /\ of_bits (bits p) = p.
Proof. split; induction p as [p IH|p IH|]; cbn; congruence. Qed.

#[export] Instance TemplateSourceKind_eq_dec : EqDecision TemplateSourceKind.
Proof. solve_decision. Defined.
#[export] Instance TemplateSourceKind_countable : Countable TemplateSourceKind.
Proof.
  refine (inj_countable' (fun k => match k with Oci => 0 | SourceFile => 1 | Snapshot => 2 end)
    (fun n => match n with 0 => Oci | 1 => SourceFile | _ => Snapshot end) _).
  by intros [].
Defined.
#[export] Instance TemplateSource_eq_dec : EqDecision TemplateSource.
Proof. solve_decision. Defined.
#[export] Instance TemplatePlatform_eq_dec : EqDecision TemplatePlatform.
Proof. solve_decision. Defined.
#[export] Instance TemplateArtifact_eq_dec : EqDecision TemplateArtifact.
Proof. solve_decision. Defined.
#[export] Instance TemplateArtifacts_eq_dec : EqDecision TemplateArtifacts.
Proof. solve_decision. Defined.
#[export] Instance ArtifactLocations_eq_dec : EqDecision ArtifactLocations.
Proof. solve_decision. Defined.
#[export] Instance TemplateDescriptor_eq_dec : EqDecision TemplateDescriptor.
Proof. solve_decision. Defined.
#[export] Instance TemplateDescriptor_countable : Countable TemplateDescriptor.
Proof.
  refine (inj_countable' (fun d => (td_contract d, td_name d, td_version d,
      (ts_kind (td_source d), ts_reference (td_source d), ts_digest (td_source d)),
      (tp_operating_system (td_platform d), tp_architecture (td_platform d), tp_runtime (td_platform d)),
      (let k := tas_kernel (td_artifacts d) in (ta_media_type k, ta_digest k, ta_size_bytes k)),
      (let q := tas_rootfs (td_artifacts d) in (ta_media_type q, ta_digest q, ta_size_bytes q))))
    (fun '(c, n, v, (k, r, g), (o, a, t), (m1, d1, s1), (m2, d2, s2)) =>
      MkTemplateDescriptor c n v (MkTemplateSource k r g) (MkTemplatePlatform o a t)
        (MkTemplateArtifacts (MkTemplateArtifact m1 d1 s1) (MkTemplateArtifact m2 d2 s2))) _).
  by intros [??? [] [] [[] []]].
Defined.
#[export] Instance TemplateRecord_eq_dec : EqDecision TemplateRecord.
Proof. solve_decision. Defined.
#[export] Instance TemplateRecord_countable : Countable TemplateRecord.
Proof.
  refine (inj_countable' (fun r => (tr_catalog_schema_version r, tr_template_id r, tr_alias r, tr_status r,
      tr_spec_digest r, tr_descriptor r,
      (let k := al_kernel (tr_locations r) in (p_root k, p_pieces k)),
      (let q := al_rootfs (tr_locations r) in (p_root q, p_pieces q))))
    (fun '(v, i, a, t, g, d, (r1, p1), (r2, p2)) =>
      MkTemplateRecord v i a t g d (MkArtifactLocations (MkPath r1 p1) (MkPath r2 p2))) _).
  by intros [?????? [[] []]].
Defined.

#[export] Instance bit_json : TemplateJson.
Proof.
  refine {| descriptor_to_vec := fun d => Ok (bits (encode d));
            record_to_vec_pretty := fun r => Ok (bits (encode r));
            record_from_slice := fun l => ok_or "malformed" (decode (of_bits l)) |}.
  - intros d d' b [= <-] [= Hb]. apply (inj encode).
    rewrite <-(proj2 (of_bits_bits (encode d))), <-(proj2 (of_bits_bits (encode d'))). by rewrite Hb.
  - intros r b [= <-]. rewrite (proj1 (of_bits_bits _)), decode_encode. done.
Defined.

Definition tmp_file : Node := MkNode (File []) 33152 0.
#[export] Instance one_tmp : TempFiles := {|
  Tmp := loc;
  tmp_new_in dir := act (fun fs =>
    match resolve fs true dir with
    | Found l _ => let at_ := l ++ [".tmp"] in
        if bool_decide (fs_nodes fs !! at_ = None)
        then (Ok at_, set_nodes (<[at_ := tmp_file]> (fs_nodes fs)) fs) else (Err EEXIST, fs)
    | _ => (Err ENOENT, fs)
    end);
  tmp_path := path_of_loc;
  tmp_write_all l d := act (fun fs =>
    match fs_nodes fs !! l with
    | Some n => (Ok tt, set_nodes (<[l := MkNode (File d) (n_mode n) (fs_clock_ns fs)]> (fs_nodes fs)) fs)
    | None => (Err ENOENT, fs)
    end);
  tmp_sync_all l := ok tt;
  tmp_persist_noclobber l target := act (fun fs =>
    match resolve fs false target with
    | Missing dir x false => (Ok tt, set_nodes (match fs_nodes fs !! l with
        | Some n => <[dir ++ [x] := n]> (delete l (fs_nodes fs))
        | None => fs_nodes fs end) fs)
    | Missing _ _ true => (Err ENOENT, fs)
    | Found _ _ => (Err EEXIST, fs)
    | Fails e => (Err e, fs)
    end);
  tmp_drop l := modify (fun fs => set_nodes (delete l (fs_nodes fs)) fs);
|}.

#[export] Instance one_tmp_laws : TempFilesLaws.
Proof.
  refine {| tmp_loc := fun l : Tmp => l |}.
  - intros dir fs. cbn. destruct (resolve fs true dir) as [l k|d x t|e]; cbn; [|done|done].
    case_bool_decide as Hn; cbn; [|done]. split; [done|]. split.
    + split; [|done]. intros k' Hk. cbn. by rewrite lookup_insert_ne.
    + exists tmp_file. by rewrite lookup_insert_eq.
  - intros t d fs. cbn in t |- *. destruct (fs_nodes fs !! t) as [n|] eqn:Hn; cbn; [|done].
    split; [split; [|done]|intros _ _; eexists; by rewrite lookup_insert_eq].
    intros k' Hk. cbn. by rewrite lookup_insert_ne.
  - intros t fs. reflexivity.
  - intros t target fs. cbn. destruct (resolve fs false target) as [l k|d x []|e]; cbn; [done|done| |done].
    exists d, x. done.
  - intros t fs. done.
Defined.

Definition example_file (s : string) : Node := MkNode (File (String.list_byte_of_string s)) 33188 0.
Definition example_catalog : Fs := MkFs
  (list_to_map [(["cat"], root_node); (["cat"; "records"], root_node); (["a"], root_node);
                (["a"; "kernel"], example_file "kernel"); (["a"; "rootfs"], example_file "rootfs")])
  [] 0 [].
Definition example_root : Path := Path_of_string "/cat".
Definition example_request : BuildTemplateRequest :=
  MkBuildTemplateRequest "python" "3.12" "py" "oci" "python"
    "sha256:1111111111111111111111111111111111111111111111111111111111111111" "amd64"
    (Path_of_string "/a/kernel") (Path_of_string "/a/rootfs").
Definition example_tampered (fs : Fs) : Fs := set_nodes (<[["a"; "kernel"] := example_file "other!"]> (fs_nodes fs)) fs.

Definition names_proper (fs : Fs) : bool :=
  forallb (fun kv => match rev kv.1 with
    | x :: _ => negb (string_contains slash x) && negb (trivial_piece x) && negb (String.eqb x "..")
    | [] => true end) (map_to_list (fs_nodes fs)).

Lemma names_proper_well_named fs : names_proper fs = true -> well_named fs.
Proof.
  unfold names_proper. intros Hall l x n Hx. apply elem_of_map_to_list, list_elem_of_In in Hx.
  rewrite forallb_forall in Hall. apply Hall in Hx. cbn [fst] in Hx.
  rewrite rev_app_distr in Hx. cbn in Hx. rewrite !andb_true_iff, !negb_true_iff, String.eqb_neq in Hx.
  by destruct Hx as [[??]?].
Qed.

Definition example_build : result TemplateInspection TemplateCatalogError * Fs :=
  run (build example_root example_request) example_catalog.

(** A reading of the outcome that can be computed. *)
Definition reading {A E} (f : A -> bool) (r : result A E * Fs) : bool :=
  match r.1 with Ok a => f a | Err _ => false end.

Definition sizes_fit_b (r : TemplateRecord) : bool :=
  in_range 0 u64_max (ta_size_bytes (tas_kernel (td_artifacts (tr_descriptor r)))) &&
  in_range 0 u64_max (ta_size_bytes (tas_rootfs (td_artifacts (tr_descriptor r)))).

Lemma sizes_fit_b_spec r : sizes_fit_b r = true -> sizes_fit r.
Proof. unfold sizes_fit_b, sizes_fit. by rewrite andb_true_iff, !in_range_spec. Qed.

Lemma template_build_roundtrip_witness :
  match example_build with
  | (Ok i, fs') => tv_valid (ti_verification i) = true /\ stored fs' (record_path example_root "py") (ti_record i)
  | (Err _, _) => False
  end.
Proof.
  assert (reading (fun i => sizes_fit_b (ti_record i)) example_build = true) as Hread by (vm_compute; reflexivity).
  destruct example_build as [[i|e] fs'] eqn:Hrun; [|discriminate Hread].
  destruct (template_build_roundtrip example_root example_request example_catalog i fs') as (_&_&Hst&_&Hv).
  - apply names_proper_well_named. vm_compute. reflexivity.
  - reflexivity.
  - vm_compute. reflexivity.
  - exact Hrun.
  - apply sizes_fit_b_spec. exact Hread.
  - split; [exact Hv|exact Hst].
Defined.

(** The record is found again by its identity. *)
Definition example_id : string := "tpl-303131303031303031303131303130313130303030303130313031303130".
Definition example_resolved : result (Path * TemplateRecord) TemplateCatalogError * Fs :=
  run (resolve_template example_root example_id) example_build.2.

Lemma template_resolution_witness :
  match example_resolved with
  | (Ok (path, r), _) => consistent r /\ path = record_path example_root (tr_alias r)
  | (Err _, _) => False
  end.
Proof.
  assert (reading (fun _ => true) example_resolved = true) as Hread by (vm_compute; reflexivity).
  destruct example_resolved as [[[path r]|e] fs'] eqn:Hrun; [|discriminate Hread].
  destruct (template_resolution example_root example_id example_build.2 path r fs') as (Hp&_&Hc&_).
  - apply names_proper_well_named. vm_compute. reflexivity.
  - exact Hrun.
  - split; [exact Hc|exact Hp].
Defined.

(** An exchanged kernel is reported. *)
Definition example_inspected (fs : Fs) : result TemplateInspection TemplateCatalogError * Fs :=
  run (inspect_template example_root "py") fs.

Lemma template_inspection_detects_tampering_witness :
  match example_inspected (example_tampered example_build.2) with
  | (Ok i, _) => tv_valid (ti_verification i) = false /\
      ~ (artifacts_intact (example_tampered example_build.2) (ti_record i))
  | (Err _, _) => False
  end.
Proof.
  assert (reading (fun i => sizes_fit_b (ti_record i) && negb (tv_valid (ti_verification i)))
    (example_inspected (example_tampered example_build.2)) = true) as Hread by (vm_compute; reflexivity).
  destruct (example_inspected (example_tampered example_build.2)) as [[i|e] fs'] eqn:Hrun; [|discriminate Hread].
  unfold reading in Hread. cbn [fst] in Hread. apply andb_true_iff in Hread as [Hfit Hno].
  apply negb_true_iff in Hno. split; [exact Hno|]. intros Hintact.
  destruct (template_inspection_detects_tampering example_root "py" (example_tampered example_build.2) i fs')
    as (_&_&Hcomplete).
  - exact Hrun.
  - apply sizes_fit_b_spec. exact Hfit.
  - rewrite Hcomplete in Hno; [discriminate Hno| |exact Hintact]. vm_compute. reflexivity.
Defined.

(** The same content under another alias. *)
Definition example_renamed : BuildTemplateRequest :=
  MkBuildTemplateRequest "python" "3.12" "other" "oci" "python"
    "sha256:1111111111111111111111111111111111111111111111111111111111111111" "x86_64"
    (Path_of_string "/a/../a/kernel") (Path_of_string "/a/rootfs").

Lemma template_identity_is_content_witness :
  match run (prepare example_request) example_catalog, run (prepare example_renamed) example_catalog with
  | (Ok r, _), (Ok r', _) => tr_template_id r = tr_template_id r'
  | _, _ => False
  end.
Proof.
  assert (forall req, reading (fun r => bool_decide (contents_at example_catalog (al_kernel (tr_locations r))
      = Some (String.list_byte_of_string "kernel")) && bool_decide (contents_at example_catalog (al_rootfs (tr_locations r))
      = Some (String.list_byte_of_string "rootfs"))) (run (prepare req) example_catalog) = true ->
    exists r s, run (prepare req) example_catalog = (Ok r, s)
      /\ contents_at example_catalog (al_kernel (tr_locations r)) = Some (String.list_byte_of_string "kernel")
      /\ contents_at example_catalog (al_rootfs (tr_locations r)) = Some (String.list_byte_of_string "rootfs")) as Hread.
  { intros req. unfold reading. destruct (run (prepare req) example_catalog) as [[r|e] s]; [|discriminate].
    cbn [fst]. intros [Hk%bool_decide_eq_true Hq%bool_decide_eq_true]%andb_true_iff. by exists r, s. }
  destruct (Hread example_request) as (r&s&Hrun&Hk&Hq); [vm_compute; reflexivity|].
  destruct (Hread example_renamed) as (r'&s'&Hrun'&Hk'&Hq'); [vm_compute; reflexivity|].
  rewrite Hrun, Hrun'.
  destruct (template_identity_is_content example_request example_renamed example_catalog example_catalog r r' s s'
    _ _ _ _ Hrun Hrun' Hk Hq Hk' Hq') as [Hid _].
  apply Hid. vm_compute. reflexivity.
Defined.
