(* ===== verification/TemplateRuntime.v ===== *)
(** * Templates for the microVM runtime

    Models [crates/ferrobox-node/src/template_runtime.rs]: the runtime takes a
    template from the catalog only for its own platform and kernel, and only
    when both artifacts are what the record says. *)
From S2P Require Import Prelude Conc Core Utf8 Instances.
From S2P Require Import Fs FsOps Template TemplateProps.

Record RuntimeTemplateAssets := MkRuntimeTemplateAssets { rta_kernel : Path; rta_rootfs : Path }.

Record ResolvedRuntimeTemplate := MkResolvedRuntimeTemplate {
  rrt_template_id : string; rrt_assets : RuntimeTemplateAssets }.

Record TemplateRuntimeResolver := MkTemplateRuntimeResolver {
  trr_catalog : Path;
  trr_compatible_kernel_digest : string;
  trr_architecture : string;
}.

(** [TemplateRuntimeResolver::new] on a host of the given architecture. *)
Definition TemplateRuntimeResolver_new (arch : string) (catalog_root : Path) (compatible_kernel_digest : string) :
  TemplateRuntimeResolver := MkTemplateRuntimeResolver catalog_root compatible_kernel_digest arch.

Definition template_artifact_unavailable : RuntimeError :=
  MkRuntimeError Unavailable "template artifact verification failed".

Definition map_catalog_error (template_id : string) (error : TemplateCatalogError) : RuntimeError :=
  match error with
  | TemplateNotFound _ => RuntimeError_not_found ("template " +:+ template_id +:+ " was not found")
  | TemplateInvalidInput _ _ => RuntimeError_invalid "template identifier is invalid"
  | AliasConflict _ _ | IdentityConflict _ _ | CorruptRecord _ _ | Io _ _ | Serialization _ =>
      MkRuntimeError Unavailable "template catalog inspection failed"
  end.

Section Resolver.
Context `{C : CryptoLib} `{J : TemplateJson}.

Definition artifact_matches (path : Path) (expected : TemplateArtifact) : prog Fs (result bool RuntimeError) :=
  (do? found <- prog_map_err (fun _ => template_artifact_unavailable) (metadata path) ;;
   if negb (is_file found) || negb (metadata_len found =? ta_size_bytes expected)%Z then ok false
   else
   do? contents <- read_file_whole (fun _ => template_artifact_unavailable)
     (fun _ => template_artifact_unavailable) path ;;
   ok (String.eqb ("sha256:" +:+ hex_string (sha256 contents)) (ta_digest expected)))%prog.

Definition resolve_runtime_template (resolver : TemplateRuntimeResolver) (template_reference : string) :
  prog Fs (result ResolvedRuntimeTemplate RuntimeError) :=
  (do? record <- prog_map_err (map_catalog_error template_reference)
     (catalog_record (trr_catalog resolver) template_reference) ;;
   let platform := td_platform (tr_descriptor record) in
   let artifacts := td_artifacts (tr_descriptor record) in
   if starts_with "tpl-" template_reference && negb (String.eqb (tr_template_id record) template_reference)
   then throw (RuntimeError_invalid
     "tpl-prefixed runtime template selection requires a content-derived template ID")
   else if negb (String.eqb (tp_operating_system platform) "linux")
        || negb (String.eqb (tp_runtime platform) "firecracker")
        || negb (String.eqb (tp_architecture platform) (trr_architecture resolver))
   then throw (MkRuntimeError Unsupported "template platform is incompatible with this runtime")
   else if negb (String.eqb (ta_digest (tas_kernel artifacts)) (trr_compatible_kernel_digest resolver))
   then throw (MkRuntimeError Unsupported
     "template kernel is incompatible with this runtime snapshot contract")
   else
   do? kernel <- artifact_matches (al_kernel (tr_locations record)) (tas_kernel artifacts) ;;
   do? both <- (if negb kernel then ok false
                else artifact_matches (al_rootfs (tr_locations record)) (tas_rootfs artifacts)) ;;
   if negb both then throw template_artifact_unavailable
   else ok (MkResolvedRuntimeTemplate (tr_template_id record)
     (MkRuntimeTemplateAssets (al_kernel (tr_locations record)) (al_rootfs (tr_locations record)))))%prog.

Lemma run_artifact_matches p a fs :
  fs_same fs (run (artifact_matches p a) fs).2 /\
  match (run (artifact_matches p a) fs).1 with
  | Ok true => artifact_intact fs p a
  | Ok false => True
  | Err e => e = template_artifact_unavailable
  end.
Proof.
  unfold artifact_matches. rewrite run_bind_ok, run_map_err. cbn [fst snd].
  destruct (run_metadata fs p) as [Hs Hm].
  destruct (run (metadata p) fs) as [[n|e] fs1]; cbn [fst snd map_err] in *; [|done].
  destruct (is_file n) eqn:Hfile; cbn [negb orb]; [|done].
  destruct (Z.eqb_spec (metadata_len n) (ta_size_bytes a)) as [Hlen|]; cbn [negb]; [|done].
  rewrite run_bind_ok.
  destruct (run_read_file_whole (fun _ => template_artifact_unavailable)
     (fun _ => template_artifact_unavailable) fs1 p) as [Hs2 Hr].
  destruct Hm as [l Hl]. pose proof (same_contents_at _ _ p Hs) as Hc.
  pose proof (run_read_file_whole_error (fun _ => template_artifact_unavailable)
     (fun _ => template_artifact_unavailable) fs1 p) as Herr.
  destruct (run (read_file_whole _ _ _) fs1) as [[d|e] fs2]; cbn [fst snd run ok] in *.
  - split; [same_trans|]. destruct (String.eqb_spec ("sha256:" +:+ hex_string (sha256 d)) (ta_digest a)) as [Hd|]; [|done].
    exists d. rewrite <-Hc. split; [done|]. split; [done|]. rewrite <-Hlen.
    rewrite Hc, (contents_of_lookup _ _ _ _ Hl) in Hr. unfold is_file, metadata_len in *.
    destruct (n_kind n); [|done..]. by injection Hr as ->.
  - split; [same_trans|]. by destruct Herr as [io [-> | ->]].
Qed.
End Resolver.

(** ** What is resolved *)

Section Theorems.
Context `{C : CryptoLib} `{J : TemplateJson}.

(** The runtime of the resolver can boot the record. *)
Definition platform_compatible (resolver : TemplateRuntimeResolver) (r : TemplateRecord) : Prop :=
  tp_operating_system (td_platform (tr_descriptor r)) = "linux"
  /\ tp_runtime (td_platform (tr_descriptor r)) = "firecracker"
  /\ tp_architecture (td_platform (tr_descriptor r)) = trr_architecture resolver
  /\ ta_digest (tas_kernel (td_artifacts (tr_descriptor r))) = trr_compatible_kernel_digest resolver.

Lemma catalog_error_kind id e :
  re_kind (map_catalog_error id e) ∈ [NotFound; InvalidInput; Unavailable].
Proof. destruct e; set_solver. Qed.

Lemma run_resolve_runtime_template resolver reference fs :
  fs_same fs (run (resolve_runtime_template resolver reference) fs).2 /\
  match (run (resolve_runtime_template resolver reference) fs).1 with
  | Ok t => exists r, consistent r
      /\ (well_named fs -> stored fs (record_path (trr_catalog resolver) (tr_alias r)) r)
      /\ (tr_alias r = reference \/ tr_template_id r = reference)
      /\ (starts_with "tpl-" reference = true -> tr_template_id r = reference)
      /\ platform_compatible resolver r /\ artifacts_intact fs r
      /\ t = MkResolvedRuntimeTemplate (tr_template_id r)
               (MkRuntimeTemplateAssets (al_kernel (tr_locations r)) (al_rootfs (tr_locations r)))
  | Err e => re_kind e ∈ [NotFound; InvalidInput; Unsupported; Unavailable]
  end.
Proof.
  unfold resolve_runtime_template. rewrite run_bind_ok, run_map_err, run_catalog_record. cbn [fst snd].
  destruct (run_resolve_template (trr_catalog resolver) reference fs) as [Hs Hr].
  destruct (run (resolve_template _ _) fs) as [[[path r]|e] fs1]; cbn [fst snd result_map map_err] in *.
  2: { split; [done|]. pose proof (catalog_error_kind reference e). set_solver. }
  destruct Hr as (->&Hc&Href&Hst).
  destruct (starts_with "tpl-" reference && negb (String.eqb (tr_template_id r) reference)) eqn:Htpl;
    [split; [done|set_solver]|].
  destruct (negb (String.eqb (tp_operating_system _) "linux") || _ || _) eqn:Hplat; [split; [done|set_solver]|].
  destruct (String.eqb_spec (ta_digest (tas_kernel (td_artifacts (tr_descriptor r))))
    (trr_compatible_kernel_digest resolver)) as [Hk|]; cbn [negb]; [|split; [done|set_solver]].
  rewrite !orb_false_iff, !negb_false_iff, !String.eqb_eq in Hplat.
  rewrite run_bind_ok. destruct (run_artifact_matches (al_kernel (tr_locations r)) (tas_kernel (td_artifacts (tr_descriptor r))) fs1)
    as [Hs1 Hm1]. destruct (run (artifact_matches _ _) fs1) as [[[]|e] fs2]; cbn [fst snd negb] in *.
  2: { rewrite run_bind_ok. cbn [run ok throw fst snd negb]. split; [same_trans|set_solver]. }
  2: { subst e. split; [same_trans|set_solver]. }
  rewrite run_bind_ok. destruct (run_artifact_matches (al_rootfs (tr_locations r)) (tas_rootfs (td_artifacts (tr_descriptor r))) fs2)
    as [Hs2 Hm2]. destruct (run (artifact_matches _ _) fs2) as [[[]|e] fs3]; cbn [run ok throw fst snd negb] in *.
  2: { split; [same_trans|set_solver]. }
  2: { subst e. split; [same_trans|set_solver]. }
  split; [same_trans|]. exists r. split; [done|]. split; [done|]. split; [done|].
  split. { intros Ht. rewrite Ht in Htpl. cbn [andb] in Htpl. by apply negb_false_iff, String.eqb_eq in Htpl. }
  split; [unfold platform_compatible; tauto|]. split; [|done].
  assert (fs_same fs fs2) as H02 by same_trans.
  split; [exact (proj1 (intact_before _ _ _ _ Hs) Hm1)|exact (proj1 (intact_before _ _ _ _ H02) Hm2)].
Qed.

(** The runtime boots only a template that the catalog holds consistently,
    for its own platform and its one compatible kernel, whose kernel and root
    file system hold exactly the recorded bytes when it is resolved; a reference
    of the form of a content identity selects that identity and never an alias
    of the same text. Resolution changes nothing. *)
Theorem runtime_template_resolution resolver reference fs t fs' :
  well_named fs -> run (resolve_runtime_template resolver reference) fs = (Ok t, fs') ->
  fs_same fs fs' /\ exists r, consistent r
    /\ stored fs (record_path (trr_catalog resolver) (tr_alias r)) r
    /\ (tr_alias r = reference \/ tr_template_id r = reference)
    /\ (starts_with "tpl-" reference = true -> tr_template_id r = reference)
    /\ platform_compatible resolver r /\ artifacts_intact fs r
    /\ t = MkResolvedRuntimeTemplate (tr_template_id r)
             (MkRuntimeTemplateAssets (al_kernel (tr_locations r)) (al_rootfs (tr_locations r))).
Proof.
  intros Hw Hrun. destruct (run_resolve_runtime_template resolver reference fs) as [Hs Hr].
  rewrite Hrun in Hs, Hr. split; [done|]. destruct Hr as (r&?&Hst&?). exists r. auto.
Qed.
End Theorems.

(** The catalog of [TemplateProps], for a runtime with that kernel. *)
Definition example_resolver : TemplateRuntimeResolver :=
  TemplateRuntimeResolver_new "x86_64" example_root
    (sha256_text (String.list_byte_of_string "kernel")).
Definition example_resolution : result ResolvedRuntimeTemplate RuntimeError * Fs :=
  run (resolve_runtime_template example_resolver "py") example_build.2.

Lemma runtime_template_resolution_witness :
  match example_resolution with
  | (Ok t, _) => exists r, consistent r /\ artifacts_intact example_build.2 r /\ rrt_template_id t = tr_template_id r
  | (Err _, _) => False
  end.
Proof.
  assert (reading (fun _ => true) example_resolution = true) as Hread by (vm_compute; reflexivity).
  destruct example_resolution as [[t|e] fs'] eqn:Hrun; [|discriminate Hread].
  destruct (runtime_template_resolution example_resolver "py" example_build.2 t fs') as (_&r&Hc&_&_&_&_&Hi&Ht).
  - apply names_proper_well_named. vm_compute. reflexivity.
  - exact Hrun.
  - exists r. split; [exact Hc|]. split; [exact Hi|]. rewrite Ht. reflexivity.
Defined.
