(* ===== verification/Rootfs.v ===== *)
(** * Images of the jail

    Models [crates/ferrobox-node/src/rootfs.rs]: cloning a writable root file
    system, sharing a read-only asset, and checking a configured file. *)
From S2P Require Import Prelude Conc Fs FsOps Commands.

Inductive RootfsError := InvalidPath | RootfsIo (text : string).

Definition RootfsError_to_string (e : RootfsError) : string :=
  match e with
  | InvalidPath => "invalid rootfs path"
  | RootfsIo text => "rootfs operation failed: " +:+ text
  end.

(** [Path::is_absolute] *)
Definition is_absolute (p : Path) : bool := p_root p.

Definition rootfs_io {A} (p : prog Fs (result A IoError)) : prog Fs (result A RootfsError) :=
  prog_map_err (fun error => RootfsIo (io_text error)) p.

(** What both clones begin with: the paths must be absolute and different, and
    the directory of the destination is created. *)
Definition prepare_destination (source destination : Path) : prog Fs (result unit RootfsError) :=
  if negb (is_absolute source) || negb (is_absolute destination) || path_eq source destination
  then throw InvalidPath
  else match parent destination with
       | None => throw InvalidPath
       | Some parent => rootfs_io (create_dir_all parent)
       end.

Section Rootfs.
Context `{H : HostPrograms}.

Definition clone_rootfs (source destination : Path) : prog Fs (result unit RootfsError) :=
  (do? _ <- prepare_destination source destination ;;
   do? status <- rootfs_io (act (command_status "cp"
     ["--reflink=auto"; "--sparse=always"; "--"; Path_to_string source; Path_to_string destination])) ;;
   if status_success status then ok tt
   else
   do? _ <- rootfs_io (fs_copy source destination) ;;
   ok tt)%prog.
End Rootfs.

Definition clone_readonly_asset (source destination : Path) : prog Fs (result unit RootfsError) :=
  (do? _ <- prepare_destination source destination ;;
   do linked <- hard_link source destination ;;
   match linked with
   | Ok _ => ok tt
   | Err _ => do? _ <- rootfs_io (fs_copy source destination) ;; ok tt
   end)%prog.

Definition verify_regular_file (path : Path) : prog Fs (result Path RootfsError) :=
  (do? canonical <- rootfs_io (canonicalize path) ;;
   do? found <- rootfs_io (metadata canonical) ;;
   if negb (is_file found) then throw InvalidPath else ok canonical)%prog.
