(* ===== verification/Snapshot.v ===== *)
(** * Snapshots on disk

    Models [crates/ferrobox-node/src/snapshot.rs]: a snapshot is staged in a
    partial directory, completed with a manifest of the sizes and digests of its
    artifacts, published by a rename, verified before use and deleted. *)
From S2P Require Import Prelude Conc Core Utf8.
From S2P Require Import Fs FsOps Commands Rootfs.

Definition SNAPSHOT_SCHEMA_VERSION : Z := 1.
Definition MANIFEST_NAME : string := "manifest.json".
Definition VMSTATE_NAME : string := "vmstate".
Definition MEMORY_NAME : string := "memory".
Definition ROOTFS_NAME : string := "rootfs.ext4".
Definition RESTORE_TOKEN_NAME : string := "restore-token".
Definition ARTIFACT_NAMES : list string := [VMSTATE_NAME; MEMORY_NAME; ROOTFS_NAME].

Record ArtifactDigest := MkArtifactDigest { ad_size_bytes : Z; ad_sha256 : string }.

#[export] Instance ArtifactDigest_eq_dec : EqDecision ArtifactDigest.
Proof. solve_decision. Defined.

Definition integrity_error (message : string) : RuntimeError := MkRuntimeError Unavailable message.

(** A call with its error in an internal error or an integrity error. *)
Definition internal_at {A} (what : string) (p : prog Fs (result A IoError)) : prog Fs (result A RuntimeError) :=
  prog_map_err (fun error => RuntimeError_internal (what +:+ ": " +:+ io_text error)) p.
Definition integrity_at {A} (what : string) (p : prog Fs (result A IoError)) : prog Fs (result A RuntimeError) :=
  prog_map_err (fun error => integrity_error (what +:+ ": " +:+ io_text error)) p.

(** ** Files *)

Definition sync_file (path : Path) : prog Fs (result unit RuntimeError) :=
  (do? file <- internal_at "open snapshot file" (open read_options path) ;;
   internal_at "sync snapshot file" (sync_all file))%prog.
Definition sync_directory (path : Path) : prog Fs (result unit RuntimeError) := sync_file path.

Definition set_mode (path : Path) (mode : Z) : prog Fs (result unit RuntimeError) :=
  (do? _ <- internal_at "stat permissions" (metadata path) ;;
   internal_at "set permissions" (set_permissions path mode))%prog.

Definition unix_millis : prog Fs Z := gets (fun fs => Z.max 0 (fs_clock_ns fs) / 1000000)%Z.

(** A file created, written, flushed to disk. *)
Definition write_synced (create write sync : string) (path : Path) (data : list Byte.byte) :
  prog Fs (result unit RuntimeError) :=
  (do? file <- internal_at create (file_create path) ;;
   do? _ <- internal_at write (write_all file data) ;;
   internal_at sync (sync_all file))%prog.

Section Snapshots.
Context `{U : UuidLib} `{C : CryptoLib}.

Definition sha256_hex (bytes : list Byte.byte) : string := hex_string (sha256 bytes).

Definition sha256_file (path : Path) : prog Fs (result string RuntimeError) :=
  (do? contents <- read_file_whole
     (fun error => RuntimeError_internal ("open digest input: " +:+ io_text error))
     (fun error => RuntimeError_internal ("read digest input: " +:+ io_text error)) path ;;
   ok (sha256_hex contents))%prog.

(** ** Data *)

Record SnapshotManifest := MkSnapshotManifest {
  sm_schema_version : Z;
  sm_snapshot_id : SnapshotId;
  sm_source_sandbox_id : SandboxId;
  sm_name : option string;
  sm_created_at_unix_ms : Z;
  sm_source_state : SandboxState;
  sm_spec : SandboxSpec;
  sm_node_id : string;
  sm_architecture : string;
  sm_firecracker_version : string;
  sm_kernel_sha256 : string;
  sm_artifacts : gmap string ArtifactDigest;
  sm_restore_token_sha256 : string;
  sm_size_bytes : Z;
  sm_digest_sha256 : string;
}.

#[export] Instance SnapshotManifest_eq_dec : EqDecision SnapshotManifest.
Proof. solve_decision. Defined.

Definition set_artifacts (artifacts : gmap string ArtifactDigest) (size : Z) (m : SnapshotManifest) : SnapshotManifest :=
  MkSnapshotManifest (sm_schema_version m) (sm_snapshot_id m) (sm_source_sandbox_id m) (sm_name m)
    (sm_created_at_unix_ms m) (sm_source_state m) (sm_spec m) (sm_node_id m) (sm_architecture m)
    (sm_firecracker_version m) (sm_kernel_sha256 m) artifacts (sm_restore_token_sha256 m) size
    (sm_digest_sha256 m).
Definition set_digest (digest : string) (m : SnapshotManifest) : SnapshotManifest :=
  MkSnapshotManifest (sm_schema_version m) (sm_snapshot_id m) (sm_source_sandbox_id m) (sm_name m)
    (sm_created_at_unix_ms m) (sm_source_state m) (sm_spec m) (sm_node_id m) (sm_architecture m)
    (sm_firecracker_version m) (sm_kernel_sha256 m) (sm_artifacts m) (sm_restore_token_sha256 m)
    (sm_size_bytes m) digest.

(** [serde_json] on manifests. What is written reads back. *)
Class ManifestJson := {
  manifest_to_vec : SnapshotManifest -> result (list Byte.byte) string;
  manifest_to_vec_pretty : SnapshotManifest -> result (list Byte.byte) string;
  manifest_from_slice : list Byte.byte -> result SnapshotManifest string;
  manifest_roundtrip m b : manifest_to_vec_pretty m = Ok b -> manifest_from_slice b = Ok m;
}.

Definition manifest_handle (m : SnapshotManifest) : SnapshotHandle :=
  MkSnapshotHandle (sm_snapshot_id m) (sm_source_sandbox_id m) (sm_name m) (sm_created_at_unix_ms m)
    (sm_source_state m) (sm_spec m) (sm_size_bytes m) (sm_digest_sha256 m).

Record SnapshotArtifact := MkSnapshotArtifact { sa_root : Path; sa_manifest : SnapshotManifest }.

Definition artifact_handle (a : SnapshotArtifact) : SnapshotHandle := manifest_handle (sa_manifest a).
Definition source_sandbox_id (a : SnapshotArtifact) : SandboxId := sm_source_sandbox_id (sa_manifest a).
Definition artifact_spec (a : SnapshotArtifact) : SandboxSpec := sm_spec (sa_manifest a).
Definition vmstate_path (a : SnapshotArtifact) : Path := join (sa_root a) VMSTATE_NAME.
Definition memory_path (a : SnapshotArtifact) : Path := join (sa_root a) MEMORY_NAME.
Definition rootfs_path (a : SnapshotArtifact) : Path := join (sa_root a) ROOTFS_NAME.

Record SnapshotStageRequest := MkSnapshotStageRequest {
  st_snapshot_id : SnapshotId;
  st_source_sandbox_id : SandboxId;
  st_name : option string;
  st_source_state : SandboxState;
  st_spec : SandboxSpec;
  st_vmstate_path : Path;
  st_memory_path : Path;
  st_rootfs_path : Path;
  st_restore_token : string;
}.

Record StagedSnapshot := MkStagedSnapshot {
  ss_partial_root : Path; ss_final_root : Path; ss_manifest : SnapshotManifest }.

(** [architecture] is the host's [std::env::consts::ARCH]. *)
Record SnapshotStore := MkSnapshotStore {
  store_root : Path;
  store_node_id : string;
  store_firecracker_version : string;
  store_kernel_sha256 : string;
  store_architecture : string;
}.

Definition SnapshotStore_new (arch : string) (root : Path) (node_id firecracker_version : string)
    (kernel_path : Path) : prog Fs (result SnapshotStore RuntimeError) :=
  (do? _ <- internal_at "create snapshot store" (create_dir_all root) ;;
   do? _ <- set_mode root 448 (* 0o700 *) ;;
   do? kernel_sha256 <- sha256_file kernel_path ;;
   ok (MkSnapshotStore root node_id firecracker_version kernel_sha256 arch))%prog.

Context {J : ManifestJson} `{H : HostPrograms}.

Definition calculated_digest (m : SnapshotManifest) : result string RuntimeError :=
  result_map sha256_hex
    (map_err (fun error => RuntimeError_internal ("serialize manifest: " +:+ error))
      (manifest_to_vec (set_digest "" m))).

(** ** Staging *)

Definition stage_artifact (partial_root : Path) (source : Path) (name : string) :
  prog Fs (result unit RuntimeError) :=
  (do? _ <- prog_map_err (fun error => RuntimeError_internal
       ("stage snapshot " +:+ name +:+ ": " +:+ RootfsError_to_string error))
     (clone_rootfs source (join partial_root name)) ;;
   do? _ <- set_mode (join partial_root name) 292 (* 0o444 *) ;;
   sync_file (join partial_root name))%prog.

Definition stage_inner (store : SnapshotStore) (request : SnapshotStageRequest)
    (partial_root final_root : Path) : prog Fs (result StagedSnapshot RuntimeError) :=
  (do? _ <- for_each [(st_vmstate_path request, VMSTATE_NAME); (st_memory_path request, MEMORY_NAME);
                      (st_rootfs_path request, ROOTFS_NAME)]
     (fun '(source, name) => stage_artifact partial_root source name) ;;
   let token_path := join partial_root RESTORE_TOKEN_NAME in
   let token := String.list_byte_of_string (st_restore_token request) in
   do? _ <- write_synced "create restore token" "write restore token" "sync restore token" token_path token ;;
   do? _ <- set_mode token_path 256 (* 0o400 *) ;;
   do now <- unix_millis ;;
   ok (MkStagedSnapshot partial_root final_root
     (MkSnapshotManifest SNAPSHOT_SCHEMA_VERSION (st_snapshot_id request) (st_source_sandbox_id request)
       (st_name request) now (st_source_state request) (st_spec request) (store_node_id store)
       (store_architecture store) (store_firecracker_version store) (store_kernel_sha256 store) ∅
       (sha256_hex token) 0 "")))%prog.

Definition partial_root_of (store : SnapshotStore) (id : SnapshotId) : Path :=
  join (store_root store) ("." +:+ SnapshotId_to_string id +:+ ".partial").
Definition final_root_of (store : SnapshotStore) (id : SnapshotId) : Path :=
  join (store_root store) (SnapshotId_to_string id).

(** A failure removes the directory, whatever that removal answers. *)
Definition or_remove {A E} (p : prog Fs (result A E)) (directory : Path) : prog Fs (result A E) :=
  (do r <- p ;;
   match r with
   | Ok a => ok a
   | Err e => do _ <- remove_dir_all directory ;; throw e
   end)%prog.

Definition stage (store : SnapshotStore) (request : SnapshotStageRequest) :
  prog Fs (result StagedSnapshot RuntimeError) :=
  (let partial_root := partial_root_of store (st_snapshot_id request) in
   let final_root := final_root_of store (st_snapshot_id request) in
   do partial_there <- path_exists partial_root ;;
   do final_there <- (if partial_there : bool then Ret true else path_exists final_root) ;;
   if final_there : bool
   then throw (MkRuntimeError Conflict "snapshot artifact path already exists")
   else
   do? _ <- internal_at "create snapshot stage" (create_dir partial_root) ;;
   do? _ <- set_mode partial_root 448 (* 0o700 *) ;;
   or_remove (stage_inner store request partial_root final_root) partial_root)%prog.

Definition discard (staged : StagedSnapshot) : prog Fs unit :=
  fmap_prog (fun _ => tt) (remove_dir_all (ss_partial_root staged)).

(** ** Publishing *)

(** The sizes and digests of the artifacts, entered into the manifest. *)
Fixpoint digest_artifacts (partial_root : Path) (names : list string) (m : SnapshotManifest) :
  prog Fs (result SnapshotManifest RuntimeError) :=
  match names with
  | [] => ok m
  | name :: rest =>
      (let path := join partial_root name in
       do? found <- internal_at ("stat snapshot " +:+ name) (metadata path) ;;
       let size_bytes := metadata_len found in
       do? digest <- sha256_file path ;;
       digest_artifacts partial_root rest
         (set_artifacts (<[name := MkArtifactDigest size_bytes digest]> (sm_artifacts m))
           (saturating_add u64_max (sm_size_bytes m) size_bytes) m))%prog
  end.

Definition finalize_inner (store : SnapshotStore) (staged : StagedSnapshot) :
  prog Fs (result SnapshotArtifact RuntimeError) :=
  (do? manifest <- digest_artifacts (ss_partial_root staged) ARTIFACT_NAMES (ss_manifest staged) ;;
   do? digest <- of_result (calculated_digest manifest) ;;
   let manifest := set_digest digest manifest in
   do? manifest_bytes <- of_result (map_err
     (fun error => RuntimeError_internal ("serialize manifest: " +:+ error)) (manifest_to_vec_pretty manifest)) ;;
   let manifest_path := join (ss_partial_root staged) MANIFEST_NAME in
   do? _ <- write_synced "create manifest" "write manifest" "sync manifest" manifest_path manifest_bytes ;;
   do? _ <- set_mode manifest_path 292 (* 0o444 *) ;;
   do? _ <- sync_directory (ss_partial_root staged) ;;
   do? _ <- internal_at "publish snapshot" (rename (ss_partial_root staged) (ss_final_root staged)) ;;
   do synced <- sync_directory (store_root store) ;;
   match synced with
   | Err error =>
       do _ <- remove_dir_all (ss_final_root staged) ;;
       do _ <- sync_directory (store_root store) ;;
       throw error
   | Ok _ => ok (MkSnapshotArtifact (ss_final_root staged) manifest)
   end)%prog.

Definition finalize (store : SnapshotStore) (staged : StagedSnapshot) :
  prog Fs (result SnapshotArtifact RuntimeError) :=
  or_remove (finalize_inner store staged) (ss_partial_root staged).

(** ** Verification *)

(** The artifacts one by one, and the sum of their sizes. *)
Fixpoint check_artifacts (root : Path) (manifest : SnapshotManifest) (names : list string) (total_size : Z) :
  prog Fs (result Z RuntimeError) :=
  match names with
  | [] => ok total_size
  | name :: rest =>
      (do? expected <- of_result (ok_or (integrity_error ("manifest omits " +:+ name))
         (sm_artifacts manifest !! name)) ;;
       let path := join root name in
       do? found <- integrity_at ("stat " +:+ name) (metadata path) ;;
       let actual_size := metadata_len found in
       do? same <- (if negb (actual_size =? ad_size_bytes expected)%Z then ok false
                    else do? digest <- sha256_file path ;; ok (String.eqb digest (ad_sha256 expected))) ;;
       if negb same then throw (integrity_error (name +:+ " digest mismatch"))
       else check_artifacts root manifest rest (saturating_add u64_max total_size actual_size))%prog
  end.

Definition manifest_mismatch : RuntimeError := integrity_error "manifest identity or compatibility mismatch".

Definition verified_manifest (store : SnapshotStore) (artifact : SnapshotArtifact) :
  prog Fs (result SnapshotManifest RuntimeError) :=
  (do? bytes <- integrity_at "read manifest" (fs_read (join (sa_root artifact) MANIFEST_NAME)) ;;
   do? manifest <- of_result (map_err (fun error => integrity_error ("parse manifest: " +:+ error))
     (manifest_from_slice bytes)) ;;
   if negb (sm_schema_version manifest =? SNAPSHOT_SCHEMA_VERSION)%Z
      || negb (bool_decide (manifest = sa_manifest artifact))
      || negb (String.eqb (sm_architecture manifest) (store_architecture store))
      || negb (String.eqb (sm_firecracker_version manifest) (store_firecracker_version store))
      || negb (String.eqb (sm_kernel_sha256 manifest) (store_kernel_sha256 store))
   then throw manifest_mismatch
   else
   do? digest <- of_result (calculated_digest manifest) ;;
   if negb (String.eqb (sm_digest_sha256 manifest) digest)
      || negb (size (sm_artifacts manifest) =? length ARTIFACT_NAMES)
   then throw manifest_mismatch
   else
   do? total_size <- check_artifacts (sa_root artifact) manifest ARTIFACT_NAMES 0 ;;
   if negb (total_size =? sm_size_bytes manifest)%Z then throw (integrity_error "snapshot size mismatch")
   else
   do? token <- integrity_at "read restore token" (fs_read (join (sa_root artifact) RESTORE_TOKEN_NAME)) ;;
   if negb (String.eqb (sha256_hex token) (sm_restore_token_sha256 manifest))
   then throw (integrity_error "restore token digest mismatch")
   else ok manifest)%prog.

(** [RuntimeError]'s [Display] is its message. *)
Definition verify (store : SnapshotStore) (artifact : SnapshotArtifact) : prog Fs SnapshotVerification :=
  fmap_prog (fun r => match r with
    | Ok _ => MkSnapshotVerification (sm_snapshot_id (sa_manifest artifact)) true
                (Z.of_nat (length ARTIFACT_NAMES)) None
    | Err error => MkSnapshotVerification (sm_snapshot_id (sa_manifest artifact)) false 0
                     (Some (re_message error))
    end) (verified_manifest store artifact).

Definition restore_token (artifact : SnapshotArtifact) : prog Fs (result string RuntimeError) :=
  (do? token <- integrity_at "read restore token" (fs_read_to_string (join (sa_root artifact) RESTORE_TOKEN_NAME)) ;;
   if (slen token <? 32)%Z then throw (integrity_error "restore token is invalid")
   else if negb (String.eqb (sha256_hex (String.list_byte_of_string token))
                   (sm_restore_token_sha256 (sa_manifest artifact)))
   then throw (integrity_error "restore token digest mismatch")
   else ok token)%prog.

Definition delete_artifact (store : SnapshotStore) (artifact : SnapshotArtifact) :
  prog Fs (result unit RuntimeError) :=
  (if negb (path_starts_with (sa_root artifact) (store_root store)) || path_eq (sa_root artifact) (store_root store)
   then throw (RuntimeError_internal "refusing unsafe snapshot cleanup")
   else
   do? _ <- internal_at "delete snapshot" (remove_dir_all (sa_root artifact)) ;;
   sync_directory (store_root store))%prog.
End Snapshots.
