(* ===== verification/SnapshotProps.v ===== *)
(** * Snapshots on disk: properties

    Verification accepts a snapshot exactly when its files are those of its
    manifest. *)
From S2P Require Import Prelude Conc Core Utf8 Instances.
From S2P Require Import Fs FsOps Commands Rootfs Snapshot.

Section Verification.
Context `{U : UuidLib} `{C : CryptoLib} {J : ManifestJson} `{H : HostPrograms}.

(** The file at [p] has the recorded size and digest. *)
Definition entry_intact (fs : Fs) (p : Path) (d : ArtifactDigest) : Prop :=
  exists l n b, lookup_path fs true p = Ok (l, n) /\ metadata_len n = ad_size_bytes d
    /\ contents_at fs p = Some b /\ sha256_hex b = ad_sha256 d.

(** The entries of the manifest for the given names, their files, and the sum of
    the sizes with what was counted before. *)
Fixpoint entries_intact (fs : Fs) (root : Path) (m : SnapshotManifest) (names : list string) (total : Z) : Prop :=
  match names with
  | [] => total = sm_size_bytes m
  | name :: rest => exists d, sm_artifacts m !! name = Some d /\ entry_intact fs (join root name) d
      /\ entries_intact fs root m rest (saturating_add u64_max total (ad_size_bytes d))
  end.

(** The manifest can be used by the store, and says of itself what is true. *)
Definition manifest_usable (store : SnapshotStore) (m : SnapshotManifest) : Prop :=
  sm_schema_version m = SNAPSHOT_SCHEMA_VERSION /\ sm_architecture m = store_architecture store
  /\ sm_firecracker_version m = store_firecracker_version store
  /\ sm_kernel_sha256 m = store_kernel_sha256 store
  /\ calculated_digest m = Ok (sm_digest_sha256 m) /\ size (sm_artifacts m) = length ARTIFACT_NAMES.

(** What is on disk is the artifact that the runtime recorded. *)
Definition snapshot_intact (fs : Fs) (store : SnapshotStore) (a : SnapshotArtifact) : Prop :=
  manifest_usable store (sa_manifest a)
  /\ (exists b, contents_at fs (join (sa_root a) MANIFEST_NAME) = Some b
        /\ manifest_from_slice b = Ok (sa_manifest a))
  /\ entries_intact fs (sa_root a) (sa_manifest a) ARTIFACT_NAMES 0
  /\ (exists t, contents_at fs (join (sa_root a) RESTORE_TOKEN_NAME) = Some t
        /\ sha256_hex t = sm_restore_token_sha256 (sa_manifest a)).

Lemma entries_before fs fs' root m names total :
  fs_same fs fs' -> entries_intact fs' root m names total <-> entries_intact fs root m names total.
Proof.
  intros Hs. revert total. induction names as [|name names IH]; intros total; [reflexivity|]. cbn [entries_intact].
  unfold entry_intact. rewrite (same_lookup _ _ _ _ Hs), (same_contents_at _ _ _ Hs).
  split; intros (d&?&?&Hrest); exists d; apply IH in Hrest; auto.
Qed.

Lemma run_sha256_file p fs :
  fs_same fs (run (sha256_file p) fs).2 /\
  match (run (sha256_file p) fs).1 with
  | Ok h => exists d, contents_at fs p = Some d /\ h = sha256_hex d
  | Err _ => fs_faults fs = [] -> forall d, contents_at fs p = Some d -> (2 ^ 64 <= Z.of_nat (length d))%Z
  end.
Proof.
  unfold sha256_file. rewrite run_bind_ok.
  match goal with |- context [read_file_whole ?a ?b p] => destruct (run_read_file_whole a b fs p) as [Hs Hr] end.
  destruct (run (read_file_whole _ _ _) fs) as [[d|e] fs1]; cbn [fst snd run ok] in *; [|done].
  split; [done|]. by exists d.
Qed.

(** No file is as large as 16 EiB. *)
Definition files_fit (fs : Fs) : Prop :=
  forall p d, contents_at fs p = Some d -> (Z.of_nat (length d) < 2 ^ 64)%Z.

Lemma run_check_artifacts root m names total fs :
  fs_same fs (run (check_artifacts root m names total) fs).2 /\
  match (run (check_artifacts root m names total) fs).1 with
  | Ok t => t = sm_size_bytes m -> entries_intact fs root m names total
  | Err _ => fs_faults fs = [] -> files_fit fs -> ~ entries_intact fs root m names total
  end /\
  (entries_intact fs root m names total ->
   match (run (check_artifacts root m names total) fs).1 with Ok t => t = sm_size_bytes m | Err _ => True end).
Proof.
  revert total fs. induction names as [|name names IH]; intros total fs; cbn [check_artifacts entries_intact].
  { by cbn. }
  rewrite run_bind_ok, run_of_result. cbn [fst snd].
  destruct (sm_artifacts m !! name) as [d|] eqn:Hd; cbn [ok_or].
  2: { split; [done|]. split; [|done]. intros _ _ (d&Hd'&_). congruence. }
  rewrite run_bind_ok. unfold integrity_at. rewrite run_map_err. cbn [fst snd].
  destruct (run_metadata fs (join root name)) as [Hs Hm].
  destruct (run (metadata (join root name)) fs) as [[n|e] fs1]; cbn [fst snd map_err] in *.
  2: { split; [done|]. split; [|done]. intros Hf _ (d'&?&(l&n&b&Hl&_)&_). destruct (Hm Hf) as [e' He]. congruence. }
  destruct Hm as [l Hl]. destruct (Z.eqb_spec (metadata_len n) (ad_size_bytes d)) as [Hlen|Hlen]; cbn [negb].
  2: { rewrite run_bind_ok. cbn [run ok throw fst snd negb]. split; [done|]. split; [|done].
       intros _ _ (d'&Hd'&(l'&n'&b&Hl'&Hlen'&_)&_). congruence. }
  rewrite run_bind_ok, run_bind_ok. destruct (run_sha256_file (join root name) fs1) as [Hs1 Hh].
  destruct (run (sha256_file (join root name)) fs1) as [[h|e] fs2]; cbn [fst snd run ok] in *.
  2: { split; [same_trans|]. split; [|done]. intros Hf Hfit (d'&_&(l'&n'&b&_&_&Hb&_)&_).
       rewrite <-(same_contents_at _ _ _ Hs) in Hb. pose proof (Hh ltac:(by apply Hs) b Hb) as Hbig.
       rewrite (same_contents_at _ _ _ Hs) in Hb. pose proof (Hfit _ _ Hb). lia. }
  destruct Hh as (b&Hb&->). rewrite (same_contents_at _ _ _ Hs) in Hb.
  destruct (String.eqb_spec (sha256_hex b) (ad_sha256 d)) as [Hsha|Hsha]; cbn [negb].
  2: { cbn [run throw fst snd]. split; [same_trans|]. split; [|done].
       intros _ _ (d'&Hd'&(l'&n'&b'&_&_&Hb'&?)&_). congruence. }
  assert (fs_same fs fs2) as H02 by same_trans.
  assert (entry_intact fs (join root name) d) as Hentry by (by exists l, n, b).
  destruct (IH (saturating_add u64_max total (metadata_len n)) fs2) as (Hs2&Hr&Hc).
  pose proof (fun names total => entries_before _ _ root m names total H02) as Hbefore. rewrite Hlen in *.
  destruct (run (check_artifacts _ _ _ _) fs2) as [[t|e] fs3]; cbn [fst snd] in *.
  - split; [same_trans|]. split; [intros Ht; exists d; rewrite <-Hbefore; auto|].
    intros (d'&Hd'&_&Hrest). assert (d' = d) as -> by congruence. by apply Hc, Hbefore.
  - split; [same_trans|]. split; [|done]. intros Hf Hfit (d'&Hd'&_&Hrest). assert (d' = d) as -> by congruence.
    apply (Hr ltac:(by apply H02)); [|by apply Hbefore]. intros p d0. rewrite (same_contents_at _ _ _ H02). apply Hfit.
Qed.

Lemma manifest_usable_checks store m :
  manifest_usable store m <->
  negb (sm_schema_version m =? SNAPSHOT_SCHEMA_VERSION)%Z || negb (bool_decide (m = m))
    || negb (String.eqb (sm_architecture m) (store_architecture store))
    || negb (String.eqb (sm_firecracker_version m) (store_firecracker_version store))
    || negb (String.eqb (sm_kernel_sha256 m) (store_kernel_sha256 store)) = false
  /\ exists h, calculated_digest m = Ok h /\
     negb (String.eqb (sm_digest_sha256 m) h) || negb (size (sm_artifacts m) =? length ARTIFACT_NAMES) = false.
Proof.
  unfold manifest_usable. rewrite !orb_false_iff, !negb_false_iff, Z.eqb_eq, !String.eqb_eq, (bool_decide_eq_true_2 (m = m)) by done.
  split.
  - intros (?&?&?&?&Hd&Hsize). split; [tauto|]. exists (sm_digest_sha256 m). split; [done|].
    rewrite orb_false_iff, !negb_false_iff, String.eqb_eq, Nat.eqb_eq. done.
  - intros [? (h&Hd&Hh)]. rewrite orb_false_iff, !negb_false_iff, String.eqb_eq, Nat.eqb_eq in Hh.
    destruct Hh as [-> ?]. tauto.
Qed.

Lemma run_integrity_read what p fs :
  fs_same fs (run (integrity_at what (fs_read p)) fs).2 /\
  match (run (integrity_at what (fs_read p)) fs).1 with
  | Ok d => contents_at fs p = Some d
  | Err _ => fs_faults fs = [] -> contents_at fs p = None
  end.
Proof.
  unfold integrity_at. rewrite run_map_err. cbn [fst snd]. destruct (run_fs_read fs p) as [Hs Hr].
  split; [done|]. by destruct (run (fs_read p) fs) as [[]].
Qed.

Lemma run_verified_manifest store a fs :
  fs_same fs (run (verified_manifest store a) fs).2 /\
  match (run (verified_manifest store a) fs).1 with
  | Ok m => m = sa_manifest a /\ snapshot_intact fs store a
  | Err _ => fs_faults fs = [] -> files_fit fs -> ~ snapshot_intact fs store a
  end.
Proof.
  unfold verified_manifest, snapshot_intact. rewrite run_bind_ok.
  destruct (run_integrity_read "read manifest" (join (sa_root a) MANIFEST_NAME) fs) as [Hs Hr].
  destruct (run (integrity_at _ _) fs) as [[bytes|e] fs1]; cbn [fst snd] in *.
  2: { split; [done|]. intros Hf _ (_&(b&Hb&_)&_). rewrite (Hr Hf) in Hb. done. }
  rewrite run_bind_ok, run_of_result. cbn [fst snd].
  destruct (manifest_from_slice bytes) as [m|e] eqn:Hm; cbn [map_err].
  2: { split; [done|]. intros _ _ (_&(b&Hb&Hj)&_). congruence. }
  destruct (decide (m = sa_manifest a)) as [->|Hne].
  2: { rewrite (bool_decide_eq_false_2 (m = sa_manifest a)) by done. cbn [negb]. rewrite orb_true_r. cbn [orb run throw fst snd].
       split; [done|]. intros _ _ (_&(b&Hb&Hj)&_). congruence. }
  pose proof (manifest_usable_checks store (sa_manifest a)) as Husable.
  rewrite (bool_decide_eq_true_2 (sa_manifest a = sa_manifest a)) in * by done. set (m := sa_manifest a) in *.
  destruct (negb (sm_schema_version m =? SNAPSHOT_SCHEMA_VERSION)%Z || _ || _ || _ || _).
  { cbn [run throw fst snd]. split; [done|]. intros _ _ ([? _]%Husable&_). done. }
  rewrite run_bind_ok, run_of_result. cbn [fst snd].
  destruct (calculated_digest m) as [h|e].
  2: { split; [done|]. intros _ _ ([_ (h&?&_)]%Husable&_). done. }
  destruct (negb (String.eqb (sm_digest_sha256 m) h) || _) eqn:Hchecks.
  { cbn [run throw fst snd]. split; [done|]. intros _ _ ([_ (h'&[= <-]&?)]%Husable&_). congruence. }
  rewrite run_bind_ok. destruct (run_check_artifacts (sa_root a) m ARTIFACT_NAMES 0 fs1) as (Hs1&Hc1&Hc2).
  pose proof (entries_before fs fs1 (sa_root a) m ARTIFACT_NAMES 0 Hs) as Hbefore.
  destruct (run (check_artifacts _ _ _ _) fs1) as [[total|e] fs2]; cbn [fst snd] in *.
  2: { split; [same_trans|]. intros Hf Hfit (_&_&He&_). apply (Hc1 ltac:(by apply Hs)); [|by apply Hbefore].
       intros p d. rewrite (same_contents_at _ _ _ Hs). apply Hfit. }
  destruct (Z.eqb_spec total (sm_size_bytes m)) as [Htotal|Htotal]; cbn [negb].
  2: { cbn [run throw fst snd]. split; [same_trans|]. intros _ _ (_&_&He&_). by apply Htotal, Hc2, Hbefore. }
  specialize (Hc1 Htotal). apply Hbefore in Hc1. rewrite run_bind_ok.
  destruct (run_integrity_read "read restore token" (join (sa_root a) RESTORE_TOKEN_NAME) fs2) as [Hs2 Ht].
  assert (fs_same fs fs2) as H02 by same_trans. rewrite (same_contents_at _ _ _ H02) in Ht.
  destruct (run (integrity_at _ _) fs2) as [[t|e] fs3]; cbn [fst snd] in *.
  2: { split; [same_trans|]. intros Hf _ (_&_&_&(t&Hb&_)). rewrite (Ht ltac:(by apply H02)) in Hb. done. }
  destruct (String.eqb_spec (sha256_hex t) (sm_restore_token_sha256 m)) as [Htok|Htok]; cbn [negb run throw ok fst snd].
  - split; [same_trans|]. split; [done|]. split; [by apply Husable; eauto|]. split.
    { by exists bytes. }
    split; [done|]. by exists t.
  - split; [same_trans|]. intros _ _ (_&_&_&(t'&Hb&?)). congruence.
Qed.

(** C23. Verification reports a snapshot valid exactly when what is on disk is
    what was recorded: the manifest reads back as the recorded one, is of the
    store's schema, platform, VMM and kernel, carries its own digest, names just
    the three artifacts with the sizes and digests that their files have and the
    sum of their sizes, and the restore token has the recorded digest. A positive
    verdict is right whatever calls fail, a negative one when none does; the tree
    is not changed; three artifacts are reported as checked if and only if the
    verdict is positive. *)
Theorem snapshot_verification_exact store a fs :
  let v := (run (verify store a) fs).1 in
  fs_same fs (run (verify store a) fs).2 /\ sv_snapshot_id v = sm_snapshot_id (sa_manifest a)
  /\ (sv_valid v = true -> snapshot_intact fs store a)
  /\ (fs_faults fs = [] -> files_fit fs -> snapshot_intact fs store a -> sv_valid v = true)
  /\ (sv_checked_artifacts v = 3%Z <-> sv_valid v = true) /\ (sv_failure v = None <-> sv_valid v = true).
Proof.
  intros v. subst v. unfold verify. rewrite run_fmap. cbn [fst snd].
  destruct (run_verified_manifest store a fs) as [Hs Hv].
  destruct (run (verified_manifest store a) fs) as [[m|e] fs1]; cbn [fst snd sv_valid sv_snapshot_id sv_checked_artifacts sv_failure] in *.
  - destruct Hv as [_ Hi]. by auto 10.
  - split; [done|]. split; [done|]. split; [done|]. split; [|done]. intros Hf Hfit Hi. by destruct (Hv Hf Hfit).
Qed.
End Verification.
