(* ===== verification/Machines.v ===== *)
(** * Virtual machines as the node reaches them

    Models [crates/ferrobox-node/src/firecracker.rs], the client of a VMM's API,
    and [vsock.rs], the connection to the guest inside it. The processes, their
    sockets, the guest agent behind the gRPC client and the passing of time are
    outside the repository: each of their calls is a step on the files and on an
    abstract state of all machines. *)
From S2P Require Import Prelude Conc Fs FsOps Utf8 Inet GuestOutput Guest.
From S2P Require Import Core.

(** ** gRPC *)

(** The codes of [tonic::Status]. *)
Inductive RpcCode :=
| RpcCancelled | RpcUnknown | RpcInvalidArgument | RpcDeadlineExceeded | RpcNotFound | RpcAlreadyExists
| RpcPermissionDenied | RpcResourceExhausted | RpcFailedPrecondition | RpcAborted | RpcOutOfRange
| RpcUnimplemented | RpcInternal | RpcUnavailable | RpcDataLoss | RpcUnauthenticated.

#[export] Instance RpcCode_eq_dec : EqDecision RpcCode.
Proof. solve_decision. Defined.

Record RpcStatus := MkRpcStatus { rs_code : RpcCode; rs_message : string; rs_display : string }.

(** Messages as they come off the wire: a missing event and an unknown kind are
    possible. *)
Record WireEvent := MkWireEvent { we_process_id : string; we_event : option Event }.
Record WireEntry := MkWireEntry {
  wn_name : string;
  wn_path : string;
  wn_kind : Z;
  wn_size_bytes : Z;
  wn_modified_unix_millis : option Z;
  wn_mode : option Z;
}.

(** The messages of a response stream, and the status it ends with. *)
Record Stream (A : Type) := MkStream { str_messages : list A; str_end : option RpcStatus }.
Arguments MkStream {A}. Arguments str_messages {A}. Arguments str_end {A}.

(** ** The VMM's API *)

Record MachineConfig := MkMachineConfig {
  vcpu_count : Z; mem_size_mib : Z; smt : bool; mc_track_dirty_pages : bool }.
Record BootSource := MkBootSource { kernel_image_path : string; boot_args : string }.
Record Drive := MkDrive { drive_id : string; path_on_host : string; is_root_device : bool; is_read_only : bool }.
Record NetworkInterface := MkNetworkInterface { iface_id : string; host_dev_name : string; ni_guest_mac : string }.
Record Vsock := MkVsock { vs_guest_cid : Z; uds_path : string }.
Inductive InstanceActionType := InstanceStart | SendCtrlAltDel.
Record InstanceAction := MkInstanceAction { action_type : InstanceActionType }.
Inductive VmStateValue := VmPaused | VmResumed.
Record VmState := MkVmState { vm_state : VmStateValue }.
Inductive SnapshotType := Full.
Record SnapshotCreate := MkSnapshotCreate {
  snapshot_type : SnapshotType; sc_snapshot_path : string; mem_file_path : string }.
Inductive MemoryBackendType := MemoryFile.
Record MemoryBackend := MkMemoryBackend { backend_path : string; backend_type : MemoryBackendType }.
Record SnapshotLoad := MkSnapshotLoad {
  sl_snapshot_path : string; mem_backend : MemoryBackend; sl_track_dirty_pages : bool; resume_vm : bool }.

(** The values that [serde_json::to_vec] is applied to. *)
Inductive ApiBody :=
| B_MachineConfig (b : MachineConfig) | B_BootSource (b : BootSource) | B_Drive (b : Drive)
| B_NetworkInterface (b : NetworkInterface) | B_Vsock (b : Vsock) | B_InstanceAction (b : InstanceAction)
| B_VmState (b : VmState) | B_SnapshotCreate (b : SnapshotCreate) | B_SnapshotLoad (b : SnapshotLoad).

Inductive Method := GET | PUT | PATCH.
Definition Method_to_string (m : Method) : string :=
  match m with GET => "GET" | PUT => "PUT" | PATCH => "PATCH" end.

Inductive FirecrackerError :=
| Transport (m : string)
| Api (status : Z) (body : string)
| Decode (m : string).

(** What a request over the Unix socket comes to. *)
Inductive HttpOutcome :=
| HttpTimedOut
| HttpFailed (error : string)
| HttpBodyFailed (error : string)
| HttpAnswered (status : Z) (body : list Byte.byte).

(** ** Outside the repository *)

Class Machines := {
  Vms : Type;
  VmProcess : Type;
  GuestClient : Type;
  UnixStream : Type;
  (** [Instant::now], in nanoseconds, and [tokio::time::sleep]. *)
  now : Fs * Vms -> Z;
  sleep_for : Z -> Fs * Vms -> unit * (Fs * Vms);
  (** [Command::spawn] of the jailer, whose process is the child; the VMM that
      it starts is a process of its own, in a new process namespace and in the
      control group of the jailer's identifier. [kill], [wait] and
      [timeout(d, wait())] are about the child. *)
  jailer_spawn : list string -> Fs * Vms -> result VmProcess IoError * (Fs * Vms);
  process_kill : VmProcess -> Fs * Vms -> result unit IoError * (Fs * Vms);
  process_wait : VmProcess -> Fs * Vms -> result unit IoError * (Fs * Vms);
  process_wait_for : VmProcess -> Z -> Fs * Vms -> bool * (Fs * Vms);
  (** The files of [/sys/fs/cgroup], which are the kernel's: [fs::metadata],
      [fs::write] (of [cgroup.kill], which kills the processes of a group),
      [fs::remove_dir] and [fs::read_to_string]. *)
  cgroup_metadata : Path -> Fs * Vms -> result unit IoError * (Fs * Vms);
  cgroup_write : Path -> string -> Fs * Vms -> result unit IoError * (Fs * Vms);
  cgroup_remove_dir : Path -> Fs * Vms -> result unit IoError * (Fs * Vms);
  cgroup_read_to_string : Path -> Fs * Vms -> result string IoError * (Fs * Vms);
  (** [hyper] over a Unix socket, with its time limit. *)
  http_request : Path -> Method -> string -> list Byte.byte -> Z -> Fs * Vms -> HttpOutcome * (Fs * Vms);
  (** [UnixStream]: [connect] under a time limit, [write_all] and [flush],
      [read_line] under a time limit: the number of bytes and the text. *)
  unix_connect : Path -> Z -> Fs * Vms -> option (result UnixStream IoError) * (Fs * Vms);
  unix_write : UnixStream -> string -> Fs * Vms -> result unit IoError * (Fs * Vms);
  unix_flush : UnixStream -> Fs * Vms -> result unit IoError * (Fs * Vms);
  unix_read_line : UnixStream -> Z -> Fs * Vms -> option (result (Z * string) IoError) * (Fs * Vms);
  (** [tonic]: its error for a failed connection, the HTTP/2 connection on a
      stream, and the calls of the client. *)
  tonic_error : string -> string;
  tonic_connect : UnixStream -> Fs * Vms -> result GuestClient string * (Fs * Vms);
  rpc_health : GuestClient -> Fs * Vms -> result unit RpcStatus * (Fs * Vms);
  rpc_init : GuestClient -> InitRequest -> Fs * Vms -> result unit RpcStatus * (Fs * Vms);
  rpc_rekey : GuestClient -> RekeyRequest -> Fs * Vms -> result unit RpcStatus * (Fs * Vms);
  rpc_start_process : GuestClient -> StartProcessRequest -> Fs * Vms ->
    result (Stream WireEvent) RpcStatus * (Fs * Vms);
  rpc_signal_process : GuestClient -> SignalProcessRequest -> Fs * Vms -> result bool RpcStatus * (Fs * Vms);
  rpc_write_file : GuestClient -> GuestWriteRequest -> option Z -> Fs * Vms -> result Z RpcStatus * (Fs * Vms);
  rpc_read_file : GuestClient -> GuestReadRequest -> Fs * Vms ->
    result (Stream FileChunk) RpcStatus * (Fs * Vms);
  rpc_list_directory : GuestClient -> GuestListRequest -> Fs * Vms ->
    result (list WireEntry) RpcStatus * (Fs * Vms);
}.

(** [serde_json] on the messages of the API, [Display] of a status code, and
    [Debug] of a text. *)
Class ApiJson := {
  body_to_vec : ApiBody -> result (list Byte.byte) string;
  version_from_slice : list Byte.byte -> result string string;
  fault_from_slice : list Byte.byte -> option string;
  status_display : Z -> string;
  debug_text : string -> string;
}.

Section Machines.
Context `{M : Machines} `{J : ApiJson}.

Definition Outside : Type := (Fs * Vms)%type.

#[export] Instance outside_fs : Lens Outside Fs.
Proof. by refine {| view := fst; put := fun fs s => (fs, s.2) |}; intros; destruct s. Defined.

(** ** The API client *)

(** A client is its socket and its time limit. *)
Record FirecrackerClient := MkFirecrackerClient { fc_socket : Path; fc_timeout : Z }.

Definition FirecrackerError_to_string (e : FirecrackerError) : string :=
  match e with
  | Transport m => "Firecracker API transport failed: " +:+ m
  | Api status body => "Firecracker API returned " +:+ status_display status +:+ ": " +:+ body
  | Decode m => "Firecracker API response was invalid: " +:+ m
  end.

(** [StatusCode::is_success] *)
Definition is_success (status : Z) : bool := in_range 200 299 status.

Definition request_with_timeout (client : FirecrackerClient) (method : Method) (path : string)
    (body : list Byte.byte) (timeout : Z) : prog Outside (result (list Byte.byte) FirecrackerError) :=
  (let operation := Method_to_string method +:+ " " +:+ path in
   do outcome <- act (http_request (fc_socket client) method path body timeout) ;;
   match outcome with
   | HttpTimedOut => throw (Transport (operation +:+ ": request timed out"))
   | HttpFailed error | HttpBodyFailed error => throw (Transport (operation +:+ ": " +:+ error))
   | HttpAnswered status bytes =>
       if is_success status then ok bytes
       else throw (Api status
         (match fault_from_slice bytes with Some fault => fault | None => from_utf8_lossy bytes end))
   end)%prog.

Definition api_request (client : FirecrackerClient) (method : Method) (path : string) (body : list Byte.byte) :
  prog Outside (result (list Byte.byte) FirecrackerError) :=
  request_with_timeout client method path body (fc_timeout client).

Definition send_json_with_timeout (client : FirecrackerClient) (method : Method) (path : string)
    (value : ApiBody) (timeout : Z) : prog Outside (result unit FirecrackerError) :=
  (do? body <- of_result (map_err Decode (body_to_vec value)) ;;
   do? _ <- request_with_timeout client method path body timeout ;;
   ok tt)%prog.

Definition send_json (client : FirecrackerClient) (method : Method) (path : string) (value : ApiBody) :
  prog Outside (result unit FirecrackerError) :=
  send_json_with_timeout client method path value (fc_timeout client).

(** [get::<VersionResponse>] *)
Definition api_get_version (client : FirecrackerClient) (path : string) :
  prog Outside (result string FirecrackerError) :=
  (do? body <- api_request client GET path [] ;;
   of_result (map_err Decode (version_from_slice body)))%prog.

Definition api_put (client : FirecrackerClient) (path : string) (value : ApiBody) :=
  send_json client PUT path value.
Definition api_put_with_timeout (client : FirecrackerClient) (path : string) (value : ApiBody) (timeout : Z) :=
  send_json_with_timeout client PUT path value timeout.
Definition api_patch (client : FirecrackerClient) (path : string) (value : ApiBody) :=
  send_json client PATCH path value.

(** ** The connection to the guest *)

Definition MAX_HANDSHAKE_LINE : Z := 128.

Record GuestConnector := MkGuestConnector { gc_uds_path : Path; gc_guest_port : Z; gc_timeout : Z }.

Inductive VsockConnectError := VsockIo (m : string) | VsockRejected (m : string) | VsockTonic (m : string).

Definition ends_with_newline (s : string) : bool :=
  match srev s with String c _ => Ascii.eqb c newline | EmptyString => false end.

(** What the proxy must answer: a whole line of acknowledgement, not too long. *)
Definition acknowledged (bytes : Z) (acknowledgement : string) : bool :=
  negb ((bytes =? 0)%Z || (MAX_HANDSHAKE_LINE <? bytes)%Z
        || negb (starts_with "OK " acknowledgement) || negb (ends_with_newline acknowledgement)).

Definition vsock_io {A} (r : result A IoError) : result A VsockConnectError :=
  map_err (fun error => VsockIo (io_text error)) r.

(** A call under a time limit. *)
Definition timed {A} (complaint : string) (r : option (result A IoError)) : result A VsockConnectError :=
  match r with None => Err (VsockIo complaint) | Some r => vsock_io r end.

Definition connect_stream (connector : GuestConnector) : prog Outside (result UnixStream VsockConnectError) :=
  (do? stream <- fmap_prog (timed "connect timed out")
     (act (unix_connect (gc_uds_path connector) (gc_timeout connector))) ;;
   do? _ <- fmap_prog vsock_io
     (act (unix_write stream ("CONNECT " +:+ pretty (gc_guest_port connector) +:+ String newline ""))) ;;
   do? _ <- fmap_prog vsock_io (act (unix_flush stream)) ;;
   do? (bytes, acknowledgement) <- fmap_prog (timed "handshake timed out")
     (act (unix_read_line stream (gc_timeout connector))) ;;
   if acknowledged bytes acknowledgement then ok stream
   else throw (VsockRejected (trim acknowledgement)))%prog.

Definition VsockConnectError_to_string (e : VsockConnectError) : string :=
  match e with
  | VsockIo m => "vsock connection failed: " +:+ m
  | VsockRejected m => "vsock proxy rejected connection: " +:+ m
  | VsockTonic m => "guest gRPC channel failed: " +:+ m
  end.

Definition client (connector : GuestConnector) : prog Outside (result GuestClient VsockConnectError) :=
  (do? stream <- prog_map_err (fun error => VsockTonic (tonic_error (VsockConnectError_to_string error)))
     (connect_stream connector) ;;
   prog_map_err VsockTonic (act (tonic_connect stream)))%prog.
End Machines.
