(* ===== verification/Firecracker.v ===== *)
(** * The microVM runtime: launching and ending machines

    Models the first half of [crates/ferrobox-node/src/firecracker_runtime.rs]:
    the runtime's state, its configuration, the jail of a sandbox and its
    removal, waiting for a machine, booting or restoring it, and what happens
    when any of this fails. The operations of the runtime contract are in
    [FirecrackerOps]. *)
From S2P Require Import Prelude Conc Fs FsOps Utf8 Commands Inet GuestOutput Guest.
From S2P Require Import Machines Network Rootfs Template TemplateRuntime Snapshot Core.

Definition FIRECRACKER_VERSION : string := "1.15.1".
(** Durations are in nanoseconds. *)
Definition millis (n : Z) : Z := n * 1000000.
Definition FIRECRACKER_SNAPSHOT_TIMEOUT : Z := millis 300000.
Definition CGROUP_V2_ROOT : string := "/sys/fs/cgroup".
Definition JAILER_CGROUP_PARENT : string := "ferrobox".

Record FirecrackerRuntimeConfig := MkFirecrackerRuntimeConfig {
  firecracker_binary : Path;
  jailer_binary : Path;
  kernel_image : Path;
  rootfs_template : Path;
  template_store : option Path;
  snapshot_root : option Path;
  chroot_base : Path;
  runtime_root : Path;
  jail_uid : Z;
  jail_gid : Z;
  cf_guest_port : Z;
  api_timeout : Z;
  boot_timeout : Z;
  cf_node_id : string;
}.

Record RestoreAssets := MkRestoreAssets {
  ra_vmstate_path : Path;
  ra_memory_path : Path;
  ra_rootfs_path : Path;
  captured_guest_token : option string;
}.

Record GuestNetworkConfig := MkGuestNetworkConfig {
  gn_guest_ipv4 : string; gn_guest_prefix_length : Z; gn_gateway_ipv4 : string; gn_dns_ipv4 : string }.

(** [GuestNetworkConfig::from_lease] *)
Definition from_lease (network : option NetworkLease) : GuestNetworkConfig :=
  match network with
  | None => MkGuestNetworkConfig "" 0 "" ""
  | Some lease => MkGuestNetworkConfig (guest_address lease) 24 (gateway lease) (dns_ipv4 lease)
  end.

(** An [Arc<Mutex<_>>] is a reference into a heap. *)
Abbreviation Ref := nat.

Section Firecracker.
Context `{U : UuidLib} `{C : CryptoLib} `{TJ : TemplateJson} {SJ : ManifestJson}.
Context `{H : HostPrograms} `{N : NetHost} `{M : Machines} `{AJ : ApiJson}.

Record FirecrackerSandbox := MkFirecrackerSandbox {
  fx_jailer_id : SandboxId;
  fx_state : SandboxState;
  fx_spec : SandboxSpec;
  fx_child : VmProcess;
  fx_api : FirecrackerClient;
  fx_guest_client : GuestClient;
  fx_guest_token : string;
  fx_chroot_root : Path;
  fx_network : option NetworkLease;
}.

Definition set_fx_state (st : SandboxState) (r : FirecrackerSandbox) : FirecrackerSandbox :=
  MkFirecrackerSandbox (fx_jailer_id r) st (fx_spec r) (fx_child r) (fx_api r) (fx_guest_client r)
    (fx_guest_token r) (fx_chroot_root r) (fx_network r).
Definition set_fx_client (c : GuestClient) (r : FirecrackerSandbox) : FirecrackerSandbox :=
  MkFirecrackerSandbox (fx_jailer_id r) (fx_state r) (fx_spec r) (fx_child r) (fx_api r) c
    (fx_guest_token r) (fx_chroot_root r) (fx_network r).
Definition set_fx_token (t : string) (r : FirecrackerSandbox) : FirecrackerSandbox :=
  MkFirecrackerSandbox (fx_jailer_id r) (fx_state r) (fx_spec r) (fx_child r) (fx_api r) (fx_guest_client r)
    t (fx_chroot_root r) (fx_network r).

(** The tables hold references; [fr_records] and [fr_artifacts] are what they
    point to, [fr_in_use] the artifacts whose lock is held. The identifiers drawn
    are counted; the host is its network state, with the files, and its
    machines. *)
Record FirecrackerRuntime := MkFirecrackerRuntime {
  fr_config : FirecrackerRuntimeConfig;
  fr_store : SnapshotStore;
  fr_resolver : option TemplateRuntimeResolver;
  fr_sandboxes : gmap SandboxId Ref;
  fr_records : gmap Ref FirecrackerSandbox;
  fr_snapshots : gmap SnapshotId Ref;
  fr_artifacts : gmap Ref SnapshotArtifact;
  fr_in_use : gset Ref;
  fr_ready_pool : list SandboxHandle;
  fr_net : NetState;
  fr_vms : Vms;
  fr_ids : nat;
  fr_uuids : nat;
  fr_next : Ref;
}.

Definition set_table (m : gmap SandboxId Ref) (s : FirecrackerRuntime) : FirecrackerRuntime :=
  MkFirecrackerRuntime (fr_config s) (fr_store s) (fr_resolver s) m (fr_records s) (fr_snapshots s)
    (fr_artifacts s) (fr_in_use s) (fr_ready_pool s) (fr_net s) (fr_vms s) (fr_ids s) (fr_uuids s) (fr_next s).
Definition set_heap (m : gmap Ref FirecrackerSandbox) (s : FirecrackerRuntime) : FirecrackerRuntime :=
  MkFirecrackerRuntime (fr_config s) (fr_store s) (fr_resolver s) (fr_sandboxes s) m (fr_snapshots s)
    (fr_artifacts s) (fr_in_use s) (fr_ready_pool s) (fr_net s) (fr_vms s) (fr_ids s) (fr_uuids s) (fr_next s).
Definition set_snapshot_table (m : gmap SnapshotId Ref) (a : gmap Ref SnapshotArtifact) (s : FirecrackerRuntime) :
  FirecrackerRuntime :=
  MkFirecrackerRuntime (fr_config s) (fr_store s) (fr_resolver s) (fr_sandboxes s) (fr_records s) m
    a (fr_in_use s) (fr_ready_pool s) (fr_net s) (fr_vms s) (fr_ids s) (fr_uuids s) (fr_next s).
Definition set_in_use (l : gset Ref) (s : FirecrackerRuntime) : FirecrackerRuntime :=
  MkFirecrackerRuntime (fr_config s) (fr_store s) (fr_resolver s) (fr_sandboxes s) (fr_records s) (fr_snapshots s)
    (fr_artifacts s) l (fr_ready_pool s) (fr_net s) (fr_vms s) (fr_ids s) (fr_uuids s) (fr_next s).
Definition set_pool (p : list SandboxHandle) (s : FirecrackerRuntime) : FirecrackerRuntime :=
  MkFirecrackerRuntime (fr_config s) (fr_store s) (fr_resolver s) (fr_sandboxes s) (fr_records s) (fr_snapshots s)
    (fr_artifacts s) (fr_in_use s) p (fr_net s) (fr_vms s) (fr_ids s) (fr_uuids s) (fr_next s).
Definition set_host (n : NetState) (v : Vms) (s : FirecrackerRuntime) : FirecrackerRuntime :=
  MkFirecrackerRuntime (fr_config s) (fr_store s) (fr_resolver s) (fr_sandboxes s) (fr_records s) (fr_snapshots s)
    (fr_artifacts s) (fr_in_use s) (fr_ready_pool s) n v (fr_ids s) (fr_uuids s) (fr_next s).
Definition set_counters (ids uuids : nat) (next : Ref) (s : FirecrackerRuntime) : FirecrackerRuntime :=
  MkFirecrackerRuntime (fr_config s) (fr_store s) (fr_resolver s) (fr_sandboxes s) (fr_records s) (fr_snapshots s)
    (fr_artifacts s) (fr_in_use s) (fr_ready_pool s) (fr_net s) (fr_vms s) ids uuids next.

#[export] Instance runtime_net : Lens FirecrackerRuntime NetState.
Proof. by refine {| view := fr_net; put := fun n s => set_host n (fr_vms s) s |}; intros; destruct s. Defined.
#[export] Instance runtime_files : Lens FirecrackerRuntime Fs.
Proof.
  by refine {| view := fun s => nt_fs (fr_net s);
               put := fun fs s => set_host (set_net_fs fs (fr_net s)) (fr_vms s) s |};
    intros; destruct s as [?????????[]].
Defined.
#[export] Instance runtime_outside : Lens FirecrackerRuntime Outside.
Proof.
  by refine {| view := fun s => (nt_fs (fr_net s), fr_vms s);
               put := fun o s => set_host (set_net_fs o.1 (fr_net s)) o.2 s |};
    intros; try destruct t; destruct s as [?????????[]].
Defined.

(** The three parts of the host that the steps below act on. *)
Definition files {A} (p : prog Fs A) : prog FirecrackerRuntime A := lift p.
Definition outside {A} (p : prog Outside A) : prog FirecrackerRuntime A := lift p.
Definition host_net {A} (p : prog NetState A) : prog FirecrackerRuntime A := lift p.

Definition config {A} (f : FirecrackerRuntimeConfig -> A) : prog FirecrackerRuntime A :=
  gets (fun s => f (fr_config s)).

Definition new_uuid : prog FirecrackerRuntime string :=
  act (fun s => (uuid_to_string (new_v4 (fr_uuids s)), set_counters (fr_ids s) (S (fr_uuids s)) (fr_next s) s)).
Definition new_sandbox_id : prog FirecrackerRuntime SandboxId :=
  act (fun s => (SandboxId_new (fr_ids s), set_counters (S (fr_ids s)) (fr_uuids s) (fr_next s) s)).
(** [format!("{}{}", Uuid::new_v4(), Uuid::new_v4())] *)
Definition new_token : prog FirecrackerRuntime string :=
  (do a <- new_uuid ;; do b <- new_uuid ;; Ret (a +:+ b))%prog.

(** What a reference points to, and its update under the lock. *)
Definition dangling : RuntimeError := RuntimeError_internal "dangling reference".
Definition deref (r : Ref) : prog FirecrackerRuntime (result FirecrackerSandbox RuntimeError) :=
  gets (fun s => ok_or dangling (fr_records s !! r)).
Definition update (r : Ref) (f : FirecrackerSandbox -> FirecrackerSandbox) : prog FirecrackerRuntime unit :=
  modify (fun s => set_heap (alter f r (fr_records s)) s).

(** ** Configuration *)

Definition validate_config (c : FirecrackerRuntimeConfig) : prog Fs (result unit RuntimeError) :=
  (do? _ <- for_each [firecracker_binary c; jailer_binary c; kernel_image c; rootfs_template c]
     (fun path => do? _ <- prog_map_err (fun error => RuntimeError_invalid (RootfsError_to_string error))
        (verify_regular_file path) ;; ok tt) ;;
   if negb (is_absolute (chroot_base c)) || negb (is_absolute (runtime_root c))
   then throw (RuntimeError_invalid "runtime paths must be absolute")
   else if match template_store c with Some path => negb (is_absolute path) | None => false end
   then throw (RuntimeError_invalid "template store must be absolute")
   else if match snapshot_root c with Some path => negb (is_absolute path) | None => false end
   then throw (RuntimeError_invalid "snapshot root must be absolute")
   else ok tt)%prog.

(** [FirecrackerRuntime::new] on a Linux host of architecture [arch]. *)
Definition FirecrackerRuntime_new (arch : string) (c : FirecrackerRuntimeConfig) (net : NetState) (vms : Vms) :
  result FirecrackerRuntime RuntimeError :=
  match run (do? _ <- validate_config c ;;
             do? _ <- internal_at "create chroot base" (create_dir_all (chroot_base c)) ;;
             do? _ <- internal_at "create runtime root" (create_dir_all (runtime_root c)) ;;
             SnapshotStore_new arch (join (runtime_root c) "snapshots") (cf_node_id c) FIRECRACKER_VERSION
               (kernel_image c))%prog (nt_fs net) with
  | (Err e, _) => Err e
  | (Ok store, fs) =>
      Ok (MkFirecrackerRuntime c store
        ((fun root => TemplateRuntimeResolver_new arch root ("sha256:" +:+ store_kernel_sha256 store))
           <$> template_store c)
        ∅ ∅ ∅ ∅ ∅ [] (set_net_fs fs net) vms 0 0 0)
  end.

Definition resolve_template_reference (template_reference : string) :
  prog FirecrackerRuntime (result ResolvedRuntimeTemplate RuntimeError) :=
  (do resolver <- gets fr_resolver ;;
   match negb (String.eqb template_reference "python"), resolver with
   | true, Some resolver => files (resolve_runtime_template resolver template_reference)
   | _, _ =>
       if starts_with "tpl-" template_reference
       then throw (RuntimeError_invalid "template catalog is not configured")
       else gets (fun s => Ok (MkResolvedRuntimeTemplate template_reference
              (MkRuntimeTemplateAssets (kernel_image (fr_config s)) (rootfs_template (fr_config s)))))
   end)%prog.

(** ** Removing a jail *)

Definition jail_root (id : SandboxId) : prog FirecrackerRuntime (result Path RuntimeError) :=
  gets (fun s =>
    match file_name (firecracker_binary (fr_config s)) with
    | None => Err (RuntimeError_invalid "firecracker binary has no filename")
    | Some executable_name =>
        Ok (join (join (join (chroot_base (fr_config s)) executable_name) (SandboxId_to_string id)) "root")
    end).

Definition cleanup_chroot (chroot_root : Path) : prog FirecrackerRuntime (result unit RuntimeError) :=
  (do base <- config chroot_base ;;
   if negb (path_starts_with chroot_root base) || path_eq chroot_root base
   then throw (RuntimeError_internal "refusing unsafe chroot cleanup")
   else
   files (
     do there <- path_exists chroot_root ;;
     if there : bool
     then internal_at "remove jail" (remove_dir_all chroot_root)
     else ok tt))%prog.

Definition cgroup_parent : Path := join (Path_of_string CGROUP_V2_ROOT) JAILER_CGROUP_PARENT.

(** The attempts to remove the directory of a group whose processes are dying;
    the last error is kept. *)
Definition CGROUP_ATTEMPTS : nat := 250.
Fixpoint remove_cgroup (attempts : nat) (cgroup : Path) (last_error : IoError) :
  prog Outside (result unit IoError) :=
  match attempts with
  | O => throw last_error
  | S attempts =>
      (do removed <- act (cgroup_remove_dir cgroup) ;;
       match removed with
       | Ok _ => ok tt
       | Err error =>
           if bool_decide (io_kind error = IoNotFound) then ok tt
           else do _ <- act (sleep_for (millis 20)) ;; remove_cgroup attempts cgroup error
       end)%prog
  end.

Definition read_or_unavailable (path : Path) : prog Outside string :=
  fmap_prog (fun r => match r with Ok text => text | Err error => "unavailable: " +:+ io_text error end)
    (act (cgroup_read_to_string path)).

Definition cleanup_cgroup (jailer_id : SandboxId) : prog Outside (result unit RuntimeError) :=
  (let cgroup := join cgroup_parent (SandboxId_to_string jailer_id) in
   if negb (path_starts_with cgroup cgroup_parent) || path_eq cgroup cgroup_parent
   then throw (RuntimeError_internal "refusing unsafe cgroup cleanup")
   else
   do found <- act (cgroup_metadata cgroup) ;;
   match found with
   | Err error =>
       if bool_decide (io_kind error = IoNotFound) then ok tt
       else throw (RuntimeError_internal
         ("inspect cgroup " +:+ Path_to_string cgroup +:+ ": " +:+ io_text error))
   | Ok _ =>
       do kill_result <- act (cgroup_write (join cgroup "cgroup.kill") "1") ;;
       do removed <- remove_cgroup CGROUP_ATTEMPTS cgroup (MkIoError IoOther "") ;;
       match removed with
       | Ok _ => ok tt
       | Err last_error =>
           do events <- read_or_unavailable (join cgroup "cgroup.events") ;;
           do processes <- read_or_unavailable (join cgroup "cgroup.procs") ;;
           let kill := match kill_result with Ok _ => "ok" | Err error => io_text error end in
           throw (RuntimeError_internal
             ("remove cgroup " +:+ Path_to_string cgroup +:+ ": " +:+ io_text last_error +:+ "; cgroup.kill="
              +:+ kill +:+ "; events=" +:+ debug_text events +:+ "; procs=" +:+ debug_text processes))
       end
   end)%prog.

Definition kill_and_wait (child : VmProcess) : prog FirecrackerRuntime unit :=
  outside (do _ <- act (process_kill child) ;; do _ <- act (process_wait child) ;; Ret tt)%prog.

Definition delete_lease (network : option NetworkLease) : prog FirecrackerRuntime (result unit RuntimeError) :=
  match network with Some lease => host_net (delete_network lease) | None => ok tt end.

Definition fc_error (error : FirecrackerError) : RuntimeError :=
  MkRuntimeError Unavailable (FirecrackerError_to_string error).

(** A call of the VMM's API. *)
Definition fc_call {A} (p : prog Outside (result A FirecrackerError)) : prog FirecrackerRuntime (result A RuntimeError) :=
  prog_map_err fc_error (outside p).

(** [terminate_record] on the record behind a reference whose lock is held. *)
Definition terminate_record (r : Ref) : prog FirecrackerRuntime (result unit RuntimeError) :=
  (do _ <- update r (set_fx_state Deleting) ;;
   do? record <- deref r ;;
   do _ <- outside (api_put (fx_api record) "/actions" (B_InstanceAction (MkInstanceAction SendCtrlAltDel))) ;;
   do exited <- outside (act (process_wait_for (fx_child record) (millis 2000))) ;;
   do _ <- (if exited : bool then Ret tt else kill_and_wait (fx_child record)) ;;
   do network_result <- delete_lease (fx_network record) ;;
   do jail_result <- cleanup_chroot (fx_chroot_root record) ;;
   do cgroup_result <- outside (cleanup_cgroup (fx_jailer_id record)) ;;
   do _ <- update r (set_fx_state
     (if is_ok network_result && is_ok jail_result && is_ok cgroup_result then Deleted else Failed)) ;;
   do? _ <- of_result network_result ;;
   do? _ <- of_result jail_result ;;
   of_result cgroup_result)%prog.

(** ** Waiting

    The four waits of the sources are loops that try, sleep five milliseconds
    and give up at a time limit. *)
Definition poll_turn {X R} (started limit : Z) (attempt : X -> prog Outside (X + R)) (expired : X -> R) (x : X) :
  prog Outside (X + R) :=
  (do t <- gets now ;;
   if (limit <=? t - started)%Z then Ret (inr (expired x))
   else
   do r <- attempt x ;;
   match r with
   | inr r => Ret (inr r)
   | inl x => do _ <- act (sleep_for (millis 5)) ;; Ret (inl x)
   end)%prog.

(** More turns of five milliseconds than any [Duration] holds. *)
Definition POLL_TURNS : nat := 100.

Definition poll {X R} (limit : Z) (attempt : X -> prog Outside (X + R)) (expired : X -> R) (x : X) : prog Outside R :=
  (do started <- gets now ;;
   fmap_prog (fun r => match r with inr r => r | inl x => expired x end)
     (loop POLL_TURNS (poll_turn started limit attempt expired) x))%prog.

Definition wait_for_socket (path : Path) (limit : Z) : prog Outside (result unit RuntimeError) :=
  poll limit
    (fun _ => do there <- lift (path_exists path) ;; Ret (if there : bool then inr (Ok tt) else inl tt))%prog
    (fun _ => Err (MkRuntimeError Timeout ("socket did not appear: " +:+ Path_to_string path))) tt.

(** The value that the loop carries is the last error. *)
Definition wait_for_api (api : FirecrackerClient) (limit : Z) : prog Outside (result unit RuntimeError) :=
  poll limit
    (fun _ =>
       do answer <- api_get_version api "/version" ;;
       Ret (match answer with
            | Ok version =>
                inr (if String.eqb version FIRECRACKER_VERSION then Ok tt
                     else Err (MkRuntimeError Unavailable
                       ("expected Firecracker " +:+ FIRECRACKER_VERSION +:+ ", got " +:+ version)))
            | Err error => inl (FirecrackerError_to_string error)
            end))%prog
    (fun last_error => Err (MkRuntimeError Unavailable
       ("Firecracker API did not become ready: " +:+ last_error)))
    "no request attempted".

Definition guest_not_ready : RuntimeError := MkRuntimeError Timeout "guest agent did not become ready".

Definition wait_for_guest (boot_timeout : Z) (connector : GuestConnector) :
  prog Outside (result GuestClient RuntimeError) :=
  poll boot_timeout
    (fun _ =>
       do connected <- client connector ;;
       match connected with
       | Ok client =>
           do healthy <- act (rpc_health client) ;;
           Ret (if is_ok healthy then inr (Ok client) else inl tt)
       | Err _ => Ret (inl tt)
       end)%prog
    (fun _ => Err guest_not_ready) tt.

(** ** Initializing and rekeying the guest *)

(** The fields that an initialization and a rekeying of the guest share. *)
Definition guest_identity (id : SandboxId) (token_value : string) (network : GuestNetworkConfig) : InitRequest :=
  MkInitRequest (SandboxId_to_string id) token_value 1000 1000 MAX_FILE_BYTES 256
    (gn_guest_ipv4 network) (gn_guest_prefix_length network) (gn_gateway_ipv4 network) (gn_dns_ipv4 network).

(** An identifier is drawn for every request sent; the uuids are those of the
    process, so they are drawn outside and the number used is returned. *)
Definition initialize_turn (boot_timeout : Z) (connector : GuestConnector) (request : InitRequest) (drawn : nat) :
  prog Outside (nat + result GuestClient RuntimeError * nat) :=
  (do connected <- wait_for_guest boot_timeout connector ;;
   match connected with
   | Err _ => Ret (inl drawn)
   | Ok client =>
       do response <- act (rpc_init client request) ;;
       Ret (match response with
            | Ok _ => inr (Ok client, S drawn)
            | Err error =>
                if bool_decide (rs_code error = RpcUnavailable) then inl (S drawn)
                else inr (Err (MkRuntimeError Unavailable ("guest init: " +:+ rs_display error)), S drawn)
            end)
   end)%prog.

Definition draw_uuids (n : nat) : prog FirecrackerRuntime unit :=
  modify (fun s => set_counters (fr_ids s) (fr_uuids s + n) (fr_next s) s).

Definition initialize_guest (id : SandboxId) (connector : GuestConnector) (token_value : string)
    (network : option NetworkLease) : prog FirecrackerRuntime (result GuestClient RuntimeError) :=
  (do limit <- config boot_timeout ;;
   do (initialized, drawn) <- outside (poll limit
     (initialize_turn limit connector (guest_identity id token_value (from_lease network)))
     (fun drawn => (Err guest_not_ready, drawn)) 0) ;;
   do _ <- draw_uuids drawn ;;
   Ret initialized)%prog.

Definition guest_error (error : RpcStatus) : RuntimeError :=
  MkRuntimeError
    (match rs_code error with
     | RpcNotFound => NotFound
     | RpcInvalidArgument => InvalidInput
     | RpcUnauthenticated | RpcPermissionDenied => Unauthorized
     | RpcResourceExhausted => ResourceExhausted
     | RpcDeadlineExceeded => Timeout
     | _ => Unavailable
     end) (rs_message error).

(** A call to a guest agent. *)
Definition guest_call {A} (p : Outside -> result A RpcStatus * Outside) :
  prog FirecrackerRuntime (result A RuntimeError) :=
  prog_map_err guest_error (outside (act p)).

Definition rekey_connected_guest (id : SandboxId) (client : GuestClient) (previous_token token_value : string)
    (network : GuestNetworkConfig) : prog FirecrackerRuntime (result unit RuntimeError) :=
  (do _ <- new_uuid ;;
   guest_call (rpc_rekey client
     (MkRekeyRequest (Some (MkAuth previous_token)) (guest_identity id token_value network))))%prog.

Definition rekey_guest (id : SandboxId) (connector : GuestConnector) (previous_token token_value : string)
    (network : option NetworkLease) : prog FirecrackerRuntime (result GuestClient RuntimeError) :=
  (do limit <- config boot_timeout ;;
   do? client <- outside (wait_for_guest limit connector) ;;
   do? _ <- rekey_connected_guest id client previous_token token_value (from_lease network) ;;
   ok client)%prog.

(** ** Booting and restoring *)

Definition guest_cid (spec : SandboxSpec) : Z := 3 + Z.shiftl (cpu_count spec) 8 + memory_mb spec mod 127.

Definition configure_and_start (api : FirecrackerClient) (spec : SandboxSpec) (network : option NetworkLease) :
  prog FirecrackerRuntime (result unit RuntimeError) :=
  (do? _ <- fc_call (api_put api "/machine-config"
     (B_MachineConfig (MkMachineConfig (cpu_count spec) (memory_mb spec) false false))) ;;
   do? _ <- fc_call (api_put api "/boot-source" (B_BootSource (MkBootSource "/kernel/vmlinux"
     "console=ttyS0 reboot=k panic=1 pci=off root=/dev/vda rw"))) ;;
   do? _ <- fc_call (api_put api "/drives/rootfs"
     (B_Drive (MkDrive "rootfs" "/images/rootfs.ext4" true false))) ;;
   do? _ <- match network with
     | Some lease => fc_call (api_put api "/network-interfaces/net1"
         (B_NetworkInterface (MkNetworkInterface "net1" (tap_name lease) (guest_mac lease))))
     | None => ok tt
     end ;;
   do? _ <- fc_call (api_put api "/vsock" (B_Vsock (MkVsock (guest_cid spec) "/run/guest.vsock"))) ;;
   fc_call (api_put api "/actions" (B_InstanceAction (MkInstanceAction InstanceStart))))%prog.

Definition load_snapshot (api : FirecrackerClient) : prog FirecrackerRuntime (result unit RuntimeError) :=
  fc_call (api_put api "/snapshot/load" (B_SnapshotLoad (MkSnapshotLoad "/snapshot/vmstate"
    (MkMemoryBackend "/snapshot/memory" MemoryFile) false true))).

(** [snapshot_paths]: state, memory, root file system and marker. *)
Definition snapshot_paths (root : Path) : Path * Path * Path * Path :=
  (join root "vmstate", join root "memory", join root "rootfs.ext4", join root "READY").

Definition snapshot_available : prog FirecrackerRuntime bool :=
  (do root <- config snapshot_root ;;
   match root with
   | None => Ret false
   | Some root =>
       let '(state, memory, rootfs, ready) := snapshot_paths root in
       files (
         do marker <- fs_read_to_string ready ;;
         let ready_version_matches :=
           match marker with Ok version => String.eqb version FIRECRACKER_VERSION | Err _ => false end in
         do has_state <- path_exists state ;;
         do has_memory <- (if has_state : bool then path_exists memory else Ret false) ;;
         do has_rootfs <- (if has_memory : bool then path_exists rootfs else Ret false) ;;
         Ret (has_rootfs && ready_version_matches))
   end)%prog.

(** [Command::status] with a complaint when it cannot start and when it fails. *)
Definition run_status (start failed program : string) (arguments : list string) :
  prog Fs (result unit RuntimeError) :=
  (do? status <- internal_at start (act (command_status program arguments)) ;;
   if status_success status then ok tt else throw (RuntimeError_internal failed))%prog.

Definition vm_patch (api : FirecrackerClient) (state : VmStateValue) :
  prog FirecrackerRuntime (result unit RuntimeError) :=
  fc_call (api_patch api "/vm" (B_VmState (MkVmState state))).

Definition vm_snapshot (api : FirecrackerClient) (stem : string) : prog FirecrackerRuntime (result unit RuntimeError) :=
  fc_call (api_put_with_timeout api "/snapshot/create"
    (B_SnapshotCreate (MkSnapshotCreate Full ("/snapshot/" +:+ stem +:+ "vmstate") ("/snapshot/" +:+ stem +:+ "memory")))
    FIRECRACKER_SNAPSHOT_TIMEOUT).

Definition rootfs_internal {A} (what : string) (p : prog Fs (result A RootfsError)) : prog Fs (result A RuntimeError) :=
  prog_map_err (fun error => RuntimeError_internal (what +:+ ": " +:+ RootfsError_to_string error)) p.

(** Keeps a booted machine as the snapshot that later sandboxes start from. *)
Definition capture_snapshot (api : FirecrackerClient) (rootfs_path jail_snapshot_path : Path) :
  prog FirecrackerRuntime (result unit RuntimeError) :=
  (do root <- config snapshot_root ;;
   match root with
   | None => ok tt
   | Some root =>
       do? _ <- vm_patch api VmPaused ;;
       do? _ <- vm_snapshot api "" ;;
       let '(state, memory, rootfs, ready) := snapshot_paths root in
       do? _ <- files (
         do? _ <- internal_at "create snapshot root" (create_dir_all root) ;;
         do? _ <- internal_at "copy snapshot state" (fs_copy (join jail_snapshot_path "vmstate") state) ;;
         do? _ <- internal_at "copy snapshot memory" (fs_copy (join jail_snapshot_path "memory") memory) ;;
         do? _ <- run_status "start snapshot chmod" "chmod snapshot assets failed" "chmod"
           ["0444"; Path_to_string state; Path_to_string memory] ;;
         do? _ <- rootfs_internal "copy snapshot rootfs" (clone_rootfs rootfs_path rootfs) ;;
         internal_at "mark snapshot ready" (fs_write ready FIRECRACKER_VERSION)) ;;
       vm_patch api VmResumed
   end)%prog.

(** ** Launching *)

(** The files of the jail; the paths are those of the sandbox's root. *)
Definition prepare_jail (chroot_root : Path) (assets : RuntimeTemplateAssets) (restore : option RestoreAssets)
    (owner : string) : prog Fs (result unit RuntimeError) :=
  (let kernel_path := join (join chroot_root "kernel") "vmlinux" in
   let rootfs_path := join (join chroot_root "images") "rootfs.ext4" in
   let run_path := join chroot_root "run" in
   let jail_snapshot_path := join chroot_root "snapshot" in
   do? _ <- internal_at "create kernel dir" (create_dir_all (join chroot_root "kernel")) ;;
   do? _ <- internal_at "create image dir" (create_dir_all (join chroot_root "images")) ;;
   do? _ <- internal_at "create run dir" (create_dir_all run_path) ;;
   do? _ <- internal_at "create snapshot dir" (create_dir_all jail_snapshot_path) ;;
   do? _ <- rootfs_internal "clone kernel" (clone_readonly_asset (rta_kernel assets) kernel_path) ;;
   let rootfs_source := match restore with Some a => ra_rootfs_path a | None => rta_rootfs assets end in
   do? _ <- prog_map_err (fun error => RuntimeError_internal (RootfsError_to_string error))
     (clone_rootfs rootfs_source rootfs_path) ;;
   do? _ <- match restore with
     | Some a =>
         do? _ <- rootfs_internal "clone snapshot state"
           (clone_readonly_asset (ra_vmstate_path a) (join jail_snapshot_path "vmstate")) ;;
         rootfs_internal "clone snapshot memory"
           (clone_readonly_asset (ra_memory_path a) (join jail_snapshot_path "memory"))
     | None => ok tt
     end ;;
   do? _ <- run_status "start chmod" "chmod sandbox rootfs failed" "chmod" ["0600"; Path_to_string rootfs_path] ;;
   run_status "start chown" "chown jail assets failed" "chown"
     [owner; Path_to_string rootfs_path; Path_to_string run_path; Path_to_string jail_snapshot_path])%prog.

Definition jailer_command (c : FirecrackerRuntimeConfig) (id : SandboxId) (spec : SandboxSpec)
    (network : option NetworkLease) : list string :=
  [ Path_to_string (jailer_binary c); "--id"; SandboxId_to_string id;
    "--exec-file"; Path_to_string (firecracker_binary c);
    "--uid"; pretty (jail_uid c); "--gid"; pretty (jail_gid c);
    "--chroot-base-dir"; Path_to_string (chroot_base c);
    "--cgroup-version"; "2"; "--parent-cgroup"; JAILER_CGROUP_PARENT;
    "--cgroup"; "memory.max=" +:+ pretty ((memory_mb spec + 128) * 1024 * 1024)%Z;
    "--cgroup"; "pids.max=512";
    "--cgroup"; "cpu.max=" +:+ pretty (cpu_count spec * 100000)%Z +:+ " 100000";
    "--resource-limit"; "no-file=1024"; "--new-pid-ns" ]
  ++ (match network with Some lease => ["--netns"; namespace_path lease] | None => [] end)
  ++ ["--"; "--api-sock"; "/run/firecracker.socket"].

(** A step of the launch whose failure ends the machine and its network. *)
Definition or_kill {A} (child : VmProcess) (network : option NetworkLease)
    (p : prog FirecrackerRuntime (result A RuntimeError)) : prog FirecrackerRuntime (result A RuntimeError) :=
  (do r <- p ;;
   match r with
   | Ok a => ok a
   | Err error =>
       do _ <- kill_and_wait child ;;
       do _ <- delete_lease network ;;
       throw error
   end)%prog.

(** From the spawned process to the guest that answers. *)
Definition boot (spec : SandboxSpec) (id : SandboxId) (restore : option RestoreAssets) (capture_template : bool)
    (chroot_root : Path) (network : option NetworkLease) (child : VmProcess) :
  prog FirecrackerRuntime (result (FirecrackerClient * GuestClient * string) RuntimeError) :=
  (let run_path := join chroot_root "run" in
   let api_socket := join run_path "firecracker.socket" in
   do limit <- config api_timeout ;;
   do? _ <- or_kill child network (outside (wait_for_socket api_socket limit)) ;;
   let api := MkFirecrackerClient api_socket limit in
   do? _ <- or_kill child network (outside (wait_for_api api limit)) ;;
   do? _ <- or_kill child network
     (match restore with Some _ => load_snapshot api | None => configure_and_start api spec network end) ;;
   do port <- config cf_guest_port ;;
   do boot_limit <- config boot_timeout ;;
   let connector := MkGuestConnector (join run_path "guest.vsock") port limit in
   do? _ <- (if capture_template then
       do? _ <- or_kill child network (outside (wait_for_guest boot_limit connector)) ;;
       or_kill child network (capture_snapshot api (join (join chroot_root "images") "rootfs.ext4")
         (join chroot_root "snapshot"))
     else ok tt) ;;
   do guest_token <- new_token ;;
   do? guest_client <- or_kill child network
     (match restore ≫= captured_guest_token with
      | Some previous_token => rekey_guest id connector previous_token guest_token network
      | None => initialize_guest id connector guest_token network
      end) ;;
   ok (api, guest_client, guest_token))%prog.

Definition register (id : SandboxId) (record : FirecrackerSandbox) : prog FirecrackerRuntime unit :=
  modify (fun s =>
    let r := fr_next s in
    set_counters (fr_ids s) (fr_uuids s) (S r)
      (set_table (<[id := r]> (fr_sandboxes s)) (set_heap (<[r := record]> (fr_records s)) s))).

Definition launch_inner (spec : SandboxSpec) (id : SandboxId) (assets : RuntimeTemplateAssets)
    (restore : option RestoreAssets) (capture_template : bool) :
  prog FirecrackerRuntime (result SandboxHandle RuntimeError) :=
  (do? _ <- of_result (map_err (fun error => RuntimeError_invalid (ValidationError_to_string error))
     (SandboxSpec_validate spec)) ;;
   do? chroot_root <- jail_root id ;;
   do c <- config (fun c => c) ;;
   let owner := pretty (jail_uid c) +:+ ":" +:+ pretty (jail_gid c) in
   do? _ <- files (prepare_jail chroot_root assets restore owner) ;;
   do? network <- host_net (create_network id (network spec)) ;;
   do spawned <- outside (act (jailer_spawn (jailer_command c id spec network))) ;;
   match spawned with
   | Err error =>
       do _ <- delete_lease network ;;
       throw (RuntimeError_internal ("start jailer: " +:+ io_text error))
   | Ok child =>
       do? (api, guest_client, guest_token) <- boot spec id restore capture_template chroot_root network child ;;
       do _ <- register id (MkFirecrackerSandbox id Running spec child api guest_client guest_token chroot_root network) ;;
       ok (MkSandboxHandle id (cf_node_id c) Running)
   end)%prog.

(** The warnings about a clean-up that fails are not modelled. *)
Definition launch (spec : SandboxSpec) (id : SandboxId) (assets : RuntimeTemplateAssets)
    (restore : option RestoreAssets) (capture_template : bool) :
  prog FirecrackerRuntime (result SandboxHandle RuntimeError) :=
  (do? chroot_root <- jail_root id ;;
   do launched <- launch_inner spec id assets restore capture_template ;;
   match launched with
   | Ok handle => ok handle
   | Err error =>
       do _ <- cleanup_chroot chroot_root ;;
       do _ <- outside (cleanup_cgroup id) ;;
       throw error
   end)%prog.

Definition reconnect_guest (r : Ref) : prog FirecrackerRuntime (result unit RuntimeError) :=
  (do? record <- deref r ;;
   do port <- config cf_guest_port ;;
   do limit <- config api_timeout ;;
   do boot_limit <- config boot_timeout ;;
   do? client <- outside (wait_for_guest boot_limit
     (MkGuestConnector (join (join (fx_chroot_root record) "run") "guest.vsock") port limit)) ;;
   do _ <- update r (set_fx_client client) ;;
   ok tt)%prog.
End Firecracker.
