(* ===== verification/FirecrackerOps.v ===== *)
(** * The microVM runtime: operations

    Models the second half of [crates/ferrobox-node/src/firecracker_runtime.rs]:
    the ready pool and the [SandboxRuntime] operations over the definitions of
    [Firecracker]. *)
From S2P Require Import Prelude Conc Fs FsOps Utf8 Commands Inet GuestOutput Guest.
From S2P Require Import Machines Network Rootfs Template TemplateRuntime Snapshot Core Firecracker.

Section Operations.
Context `{U : UuidLib} `{C : CryptoLib} `{TJ : TemplateJson} {SJ : ManifestJson}.
Context `{H : HostPrograms} `{N : NetHost} `{M : Machines} `{AJ : ApiJson}.

Definition invalid_request (e : ValidationError) : RuntimeError := RuntimeError_invalid (ValidationError_to_string e).
Definition internal_validation (e : ValidationError) : RuntimeError := RuntimeError_internal (ValidationError_to_string e).
Definition conflict (m : string) : RuntimeError := MkRuntimeError Conflict m.

(** ** Lookups *)

Definition record_of (id : SandboxId) : prog FirecrackerRuntime (result Ref RuntimeError) :=
  gets (fun s => ok_or (RuntimeError_not_found "sandbox does not exist") (fr_sandboxes s !! id)).

Definition snapshot_record (id : SnapshotId) : prog FirecrackerRuntime (result Ref RuntimeError) :=
  gets (fun s => ok_or (RuntimeError_not_found "snapshot does not exist") (fr_snapshots s !! id)).

Definition guest_client (id : SandboxId) : prog FirecrackerRuntime (result (GuestClient * string) RuntimeError) :=
  (do? r <- record_of id ;;
   do? record <- deref r ;;
   if negb (bool_decide (fx_state record = Running)) then throw (conflict "sandbox is not running")
   else ok (fx_guest_client record, fx_guest_token record))%prog.

(** The lock of a snapshot's artifact is held around [p]. *)
Definition with_artifact {A} (r : Ref) (p : SnapshotArtifact -> prog FirecrackerRuntime (result A RuntimeError)) :
  prog FirecrackerRuntime (result A RuntimeError) :=
  (do _ <- modify (fun s => set_in_use ({[r]} ∪ fr_in_use s) s) ;;
   do? artifact <- gets (fun s => ok_or dangling (fr_artifacts s !! r)) ;;
   do result <- p artifact ;;
   do _ <- modify (fun s => set_in_use (fr_in_use s ∖ {[r]}) s) ;;
   Ret result)%prog.

(** ** Creating *)

Definition pool_eligible (spec : SandboxSpec) : bool :=
  String.eqb (template_id spec) "python" && (cpu_count spec =? 1)%Z && (memory_mb spec =? 512)%Z
  && bool_decide (network spec = Disabled).

Definition set_template (t : string) (spec : SandboxSpec) : SandboxSpec :=
  MkSandboxSpec t (cpu_count spec) (memory_mb spec) (spec_timeout_seconds spec) (network spec).

Definition create_fresh (spec : SandboxSpec) : prog FirecrackerRuntime (result SandboxHandle RuntimeError) :=
  (do? _ <- of_result (map_err invalid_request (SandboxSpec_validate spec)) ;;
   do? resolved <- resolve_template_reference (template_id spec) ;;
   let spec := set_template (rrt_template_id resolved) spec in
   let snapshot_compatible := pool_eligible spec in
   do available <- (if snapshot_compatible : bool then snapshot_available else Ret false) ;;
   do root <- config snapshot_root ;;
   let restore := if available : bool
     then (fun root => MkRestoreAssets (join root "vmstate") (join root "memory") (join root "rootfs.ext4") None) <$> root
     else None in
   let capture_template := snapshot_compatible && bool_decide (is_Some root) && bool_decide (restore = None) in
   do id <- new_sandbox_id ;;
   launch spec id (rrt_assets resolved) restore capture_template)%prog.

Definition create_from_snapshot_artifact (artifact : SnapshotArtifact) (captured_guest_token : string) :
  prog FirecrackerRuntime (result SandboxHandle RuntimeError) :=
  (let restore := MkRestoreAssets (vmstate_path artifact) (memory_path artifact) (rootfs_path artifact)
     (Some captured_guest_token) in
   do assets <- config (fun c => MkRuntimeTemplateAssets (kernel_image c) (rootfs_template c)) ;;
   do id <- new_sandbox_id ;;
   launch (artifact_spec artifact) id assets (Some restore) false)%prog.

Definition fc_create (spec : SandboxSpec) : prog FirecrackerRuntime (result SandboxHandle RuntimeError) :=
  (do? _ <- of_result (map_err invalid_request (SandboxSpec_validate spec)) ;;
   do popped <- (if pool_eligible spec
     then act (fun s => (last (fr_ready_pool s), set_pool (removelast (fr_ready_pool s)) s))
     else Ret None) ;;
   match popped with
   | Some handle => ok handle
   | None => create_fresh spec
   end)%prog.

(** ** Commands and files *)

(** What is collected from the events of one process. *)
Record Collected := MkCollected {
  co_process_id : option ProcessId;
  co_stdout : list Byte.byte;
  co_stderr : list Byte.byte;
  co_termination : option ExecTermination;
  co_truncation : OutputTruncation;
}.

Definition termination_of (exit : ProcessExit) : ExecTermination :=
  if px_timed_out exit then TimedOut
  else if px_output_limit_exceeded exit then OutputLimitExceeded
  else match px_exit_code exit with
       | Some code => Exited code
       | None => Signaled (match px_signal exit with Some signal => signal | None => 0 end)
       end.

Definition collect_event (c : Collected) (event : WireEvent) : result Collected RuntimeError :=
  (let? id := match co_process_id c with
     | Some id => Ok (Some id)
     | None => if is_empty (we_process_id event) then Ok None
               else result_map Some (map_err internal_validation (ProcessId_new (we_process_id event)))
     end in
   match we_event event with
   | Some (Stdout data) =>
       Ok (MkCollected id (co_stdout c ++ data) (co_stderr c) (co_termination c) (co_truncation c))
   | Some (Stderr data) =>
       Ok (MkCollected id (co_stdout c) (co_stderr c ++ data) (co_termination c) (co_truncation c))
   | Some (Exit exit) =>
       Ok (MkCollected id (co_stdout c) (co_stderr c) (Some (termination_of exit))
             (MkOutputTruncation (px_stdout_truncated exit) (px_stderr_truncated exit)))
   | Some (EError code message) =>
       Err (MkRuntimeError Unavailable ("guest " +:+ code +:+ ": " +:+ message))
   | None => Ok (MkCollected id (co_stdout c) (co_stderr c) (co_termination c) (co_truncation c))
   end)%result.

Fixpoint collect_events (c : Collected) (events : list WireEvent) : result Collected RuntimeError :=
  match events with
  | [] => Ok c
  | event :: rest => (let? c := collect_event c event in collect_events c rest)%result
  end.

(** The end of a stream: nothing more, or an error. *)
Definition stream_end (e : option RpcStatus) : result unit RuntimeError :=
  match e with None => Ok tt | Some error => Err (guest_error error) end.

Definition collected_result (stream : Stream WireEvent) : result ExecResult RuntimeError :=
  (let? c := collect_events (MkCollected None [] [] None OutputTruncation_default) (str_messages stream) in
   let? _ := stream_end (str_end stream) in
   let? process_id := ok_or (RuntimeError_internal "guest omitted process id") (co_process_id c) in
   let? termination := ok_or (RuntimeError_internal "guest omitted process exit") (co_termination c) in
   Ok (MkExecResult process_id termination (co_stdout c) (co_stderr c) (co_truncation c)))%result.

(** [Instant::now] and [elapsed().as_micros()]. *)
Definition instant : prog FirecrackerRuntime Z := outside (gets now).
Definition elapsed_us (started : Z) : prog FirecrackerRuntime Z :=
  outside (gets (fun o => (Z.max 0 (now o - started) / 1000)%Z)).

(** A step with the time it took, when it succeeded. *)
Definition clocked {A} (p : prog FirecrackerRuntime (result A RuntimeError)) :
  prog FirecrackerRuntime (result (A * Z) RuntimeError) :=
  (do started <- instant ;;
   do? a <- p ;;
   do us <- elapsed_us started ;;
   ok (a, us))%prog.

Record ExecutionTimings := MkExecutionTimings {
  validation_us : Z; guest_lookup_us : Z; start_rpc_us : Z; stream_us : Z; total_us : Z }.

Definition execute_measured (sandbox_id : SandboxId) (request : ExecRequest) :
  prog FirecrackerRuntime (result (ExecResult * ExecutionTimings) RuntimeError) :=
  (do total_started <- instant ;;
   do validation_started <- instant ;;
   do? _ <- of_result (map_err invalid_request (ExecRequest_validate request)) ;;
   do validation_us <- elapsed_us validation_started ;;
   do lookup_started <- instant ;;
   do? (client, token_value) <- guest_client sandbox_id ;;
   do guest_lookup_us <- elapsed_us lookup_started ;;
   do rpc_started <- instant ;;
   do _ <- new_uuid ;;
   do? stream <- guest_call (rpc_start_process client
     (MkStartProcessRequest (Some (MkAuth token_value)) (argv request) (path_str (cwd request)) (environment request)
       (saturating_mul u64_max (exec_timeout_seconds request) 1000) (max_output_bytes request))) ;;
   do start_rpc_us <- elapsed_us rpc_started ;;
   do stream_started <- instant ;;
   do? result <- of_result (collected_result stream) ;;
   do stream_us <- elapsed_us stream_started ;;
   do total_us <- elapsed_us total_started ;;
   ok (result, MkExecutionTimings validation_us guest_lookup_us start_rpc_us stream_us total_us))%prog.

Definition fc_execute (sandbox_id : SandboxId) (request : ExecRequest) :
  prog FirecrackerRuntime (result ExecResult RuntimeError) :=
  fmap_prog (result_map fst) (execute_measured sandbox_id request).

Definition fc_signal (sandbox_id : SandboxId) (request : SignalRequest) :
  prog FirecrackerRuntime (result SignalResult RuntimeError) :=
  (do? (client, token_value) <- guest_client sandbox_id ;;
   do _ <- new_uuid ;;
   do? delivered <- guest_call (rpc_signal_process client
     (MkSignalProcessRequest (Some (MkAuth token_value)) (process_str (sr_process_id request)) (sr_signal request))) ;;
   ok (MkSignalResult delivered))%prog.

Definition fc_write (sandbox_id : SandboxId) (request : WriteFileRequest) :
  prog FirecrackerRuntime (result WriteFileResult RuntimeError) :=
  (do? (client, token_value) <- guest_client sandbox_id ;;
   do _ <- new_uuid ;;
   do? bytes_written <- guest_call (rpc_write_file client
     (MkGuestWriteRequest (Some (MkAuth token_value)) (path_str (wf_path request)) (wf_data request)
       (wf_overwrite request)) (wf_mode request)) ;;
   ok (MkWriteFileResult bytes_written))%prog.

(** All data of the chunks, and the flag of the last. *)
Definition join_chunks (chunks : list FileChunk) : list Byte.byte * bool :=
  (flat_map fc_data chunks, match last chunks with Some chunk => fc_eof chunk | None => false end).

Definition fc_read (sandbox_id : SandboxId) (request : ReadFileRequest) :
  prog FirecrackerRuntime (result ReadFileResult RuntimeError) :=
  (do? (client, token_value) <- guest_client sandbox_id ;;
   do _ <- new_uuid ;;
   do? stream <- guest_call (rpc_read_file client
     (MkGuestReadRequest (Some (MkAuth token_value)) (path_str (rf_path request)) (rf_offset request)
       (rf_max_bytes request))) ;;
   do? _ <- of_result (stream_end (str_end stream)) ;;
   let '(data, eof) := join_chunks (str_messages stream) in
   ok (MkReadFileResult data eof))%prog.

Definition file_kind_try_from (kind : Z) : result FileKind RuntimeError :=
  if (kind =? 1)%Z then Ok FK_File
  else if (kind =? 2)%Z then Ok FK_Directory
  else Err (RuntimeError_internal "guest returned invalid file kind").

Definition entry_of_wire (entry : WireEntry) : result DirectoryEntry RuntimeError :=
  (let? kind := file_kind_try_from (wn_kind entry) in
   let? path := map_err internal_validation (SandboxPath_new (wn_path entry)) in
   Ok (MkDirectoryEntry (wn_name entry) path kind (wn_size_bytes entry) (wn_modified_unix_millis entry)
         (wn_mode entry)))%result.

Fixpoint entries_of_wire (wire : list WireEntry) : result (list DirectoryEntry) RuntimeError :=
  match wire with
  | [] => Ok []
  | entry :: rest =>
      (let? e := entry_of_wire entry in let? es := entries_of_wire rest in Ok (e :: es))%result
  end.

Definition fc_list (sandbox_id : SandboxId) (request : ListDirectoryRequest) :
  prog FirecrackerRuntime (result ListDirectoryResult RuntimeError) :=
  (do? (client, token_value) <- guest_client sandbox_id ;;
   do _ <- new_uuid ;;
   do? wire <- guest_call (rpc_list_directory client
     (MkGuestListRequest (Some (MkAuth token_value)) (path_str (ld_path request)))) ;;
   of_result (result_map MkListDirectoryResult (entries_of_wire wire)))%prog.

(** ** Pausing and resuming *)

Definition fc_pause (sandbox_id : SandboxId) : prog FirecrackerRuntime (result unit RuntimeError) :=
  (do? r <- record_of sandbox_id ;;
   do? record <- deref r ;;
   if negb (bool_decide (fx_state record = Running)) then throw (conflict "sandbox is not running")
   else
   do? _ <- vm_patch (fx_api record) VmPaused ;;
   do _ <- update r (set_fx_state Paused) ;;
   ok tt)%prog.

Definition fc_resume (sandbox_id : SandboxId) : prog FirecrackerRuntime (result unit RuntimeError) :=
  (do? r <- record_of sandbox_id ;;
   do? record <- deref r ;;
   if negb (bool_decide (fx_state record = Paused)) then throw (conflict "sandbox is not paused")
   else
   do? _ <- vm_patch (fx_api record) VmResumed ;;
   do? _ <- reconnect_guest r ;;
   do _ <- update r (set_fx_state Running) ;;
   ok tt)%prog.

(** ** Deleting *)

Definition fc_delete (sandbox_id : SandboxId) : prog FirecrackerRuntime (result unit RuntimeError) :=
  (do? r <- act (fun s =>
     (ok_or (RuntimeError_not_found "sandbox does not exist") (fr_sandboxes s !! sandbox_id),
      set_table (delete sandbox_id (fr_sandboxes s)) s)) ;;
   terminate_record r)%prog.

(** ** Snapshots *)

Definition can_capture (st : SandboxState) : bool := bool_decide (st = Running) || bool_decide (st = Paused).

(** The machine is paused if it runs; whether the request paused it is part of
    the answer. *)
Definition capture (r : Ref) (record : FirecrackerSandbox) (snapshot_id : SnapshotId) (sandbox_id : SandboxId)
    (name : option string) : prog FirecrackerRuntime (bool * result StagedSnapshot RuntimeError) :=
  (let stem := "user-" +:+ SnapshotId_to_string snapshot_id in
   let jail_snapshot_root := join (fx_chroot_root record) "snapshot" in
   do paused <- (if bool_decide (fx_state record = Running) then
       do? _ <- vm_patch (fx_api record) VmPaused ;;
       do _ <- update r (set_fx_state Paused) ;;
       ok true
     else ok false) ;;
   match paused with
   | Err error => Ret (false, Err error)
   | Ok paused_by_request =>
       do staged <-
         (do? _ <- vm_snapshot (fx_api record) (stem +:+ ".") ;;
          do store <- gets fr_store ;;
          files (stage store (MkSnapshotStageRequest snapshot_id sandbox_id name (fx_state record) (fx_spec record)
            (join jail_snapshot_root (stem +:+ ".vmstate")) (join jail_snapshot_root (stem +:+ ".memory"))
            (join (join (fx_chroot_root record) "images") "rootfs.ext4") (fx_guest_token record)))) ;;
       Ret (paused_by_request, staged)
   end)%prog.

Definition new_snapshot_id : prog FirecrackerRuntime SnapshotId :=
  act (fun s => (SnapshotId_new (fr_ids s), set_counters (S (fr_ids s)) (fr_uuids s) (fr_next s) s)).

Definition remember_snapshot (id : SnapshotId) (artifact : SnapshotArtifact) : prog FirecrackerRuntime unit :=
  modify (fun s =>
    let r := fr_next s in
    set_counters (fr_ids s) (fr_uuids s) (S r)
      (set_snapshot_table (<[id := r]> (fr_snapshots s)) (<[r := artifact]> (fr_artifacts s)) s)).

Definition fc_create_snapshot (sandbox_id : SandboxId) (request : CreateSnapshotRequest) :
  prog FirecrackerRuntime (result SnapshotHandle RuntimeError) :=
  (do? _ <- of_result (map_err invalid_request (CreateSnapshotRequest_validate request)) ;;
   do? r <- record_of sandbox_id ;;
   do snapshot_id <- new_snapshot_id ;;
   do? record <- deref r ;;
   let source_state := fx_state record in
   if negb (can_capture source_state)
   then throw (conflict "sandbox must be running or paused to create a snapshot")
   else
   let stem := "user-" +:+ SnapshotId_to_string snapshot_id in
   let jail_snapshot_root := join (fx_chroot_root record) "snapshot" in
   do (paused_by_request, captured) <- capture r record snapshot_id sandbox_id (snapshot_name request) ;;
   do _ <- files (remove_file (join jail_snapshot_root (stem +:+ ".vmstate"))) ;;
   do _ <- files (remove_file (join jail_snapshot_root (stem +:+ ".memory"))) ;;
   do resumed <- (if paused_by_request : bool then
       do? _ <- vm_patch (fx_api record) VmResumed ;;
       reconnect_guest r
     else ok tt) ;;
   do _ <- update r (set_fx_state (if is_ok resumed then source_state else Failed)) ;;
   do store <- gets fr_store ;;
   match captured, resumed with
   | Ok staged, Ok _ =>
       do? artifact <- files (finalize store staged) ;;
       do _ <- remember_snapshot snapshot_id artifact ;;
       ok (artifact_handle artifact)
   | Ok staged, Err error => do _ <- files (discard staged) ;; throw error
   | Err error, _ => throw error
   end)%prog.

(** The order of a listing: by time, then by the text of the identifier. *)
Definition snapshot_le (a b : SnapshotHandle) : Prop :=
  (sn_created_at_unix_ms a < sn_created_at_unix_ms b)%Z
  \/ sn_created_at_unix_ms a = sn_created_at_unix_ms b
     /\ String.leb (SnapshotId_to_string (sn_snapshot_id a)) (SnapshotId_to_string (sn_snapshot_id b)) = true.
#[export] Instance snapshot_le_dec : RelDecision snapshot_le.
Proof. intros a b. unfold snapshot_le. apply _. Defined.

Definition fc_list_snapshots (sandbox_id : SandboxId) :
  prog FirecrackerRuntime (result (list SnapshotHandle) RuntimeError) :=
  (do? _ <- record_of sandbox_id ;;
   do artifacts <- gets (fun s => omap (M:=list) (fun r => fr_artifacts s !! r) (map snd (map_to_list (fr_snapshots s)))) ;;
   ok (merge_sort snapshot_le
     (map artifact_handle (filter (fun a => source_sandbox_id a = sandbox_id) artifacts))))%prog.

Definition fc_get_snapshot (id : SnapshotId) : prog FirecrackerRuntime (result SnapshotHandle RuntimeError) :=
  (do? r <- snapshot_record id ;; with_artifact r (fun artifact => ok (artifact_handle artifact)))%prog.

Definition fc_verify_snapshot (id : SnapshotId) : prog FirecrackerRuntime (result SnapshotVerification RuntimeError) :=
  (do? r <- snapshot_record id ;;
   with_artifact r (fun artifact =>
     do store <- gets fr_store ;;
     do verification <- files (verify store artifact) ;;
     ok verification))%prog.

(** The restore token of an artifact that verifies. *)
Definition checked_token (artifact : SnapshotArtifact) : prog FirecrackerRuntime (result string RuntimeError) :=
  (do store <- gets fr_store ;;
   do verification <- files (verify store artifact) ;;
   if negb (sv_valid verification)
   then throw (MkRuntimeError Unavailable
     (match sv_failure verification with
      | Some failure => failure
      | None => "snapshot integrity verification failed"
      end))
   else files (restore_token artifact))%prog.

(** Deletes the sandboxes and ignores the answers. *)
Fixpoint abandon (handles : list SandboxHandle) : prog FirecrackerRuntime unit :=
  match handles with
  | [] => Ret tt
  | handle :: rest => (do _ <- fc_delete (sh_sandbox_id handle) ;; abandon rest)%prog
  end.

Fixpoint clone_loop (count : nat) (artifact : SnapshotArtifact) (token : string) (handles : list SandboxHandle) :
  prog FirecrackerRuntime (result (list SandboxHandle) RuntimeError) :=
  match count with
  | O => ok handles
  | S count =>
      (do created <- create_from_snapshot_artifact artifact token ;;
       match created with
       | Ok handle => clone_loop count artifact token (handles ++ [handle])
       | Err error => do _ <- abandon handles ;; throw error
       end)%prog
  end.

Definition fc_clone_snapshot (id : SnapshotId) (count : Z) :
  prog FirecrackerRuntime (result (list SandboxHandle) RuntimeError) :=
  (if negb (in_range 1 32 count) then throw (RuntimeError_invalid "clone count must be between 1 and 32")
   else
   do? r <- snapshot_record id ;;
   with_artifact r (fun artifact =>
     do? token <- checked_token artifact ;;
     clone_loop (Z.to_nat count) artifact token []))%prog.

Definition fc_restore_snapshot (id : SnapshotId) : prog FirecrackerRuntime (result SandboxHandle RuntimeError) :=
  (do? restored <- fc_clone_snapshot id 1 ;;
   of_result (ok_or (RuntimeError_internal "snapshot restore produced no sandbox") (last restored)))%prog.

(** The replacement takes the place of the source if both are still what they
    were. *)
Definition swap (sandbox_id replacement_id : SandboxId) (source replacement : Ref) :
  prog FirecrackerRuntime (result unit RuntimeError) :=
  act (fun s =>
    if negb (bool_decide (fr_sandboxes s !! sandbox_id = Some source))
       || negb (bool_decide (fr_sandboxes s !! replacement_id = Some replacement))
    then (Err (conflict "sandbox changed while rollback was preparing"), s)
    else (Ok tt, set_table (<[sandbox_id := replacement]>
                   (delete replacement_id (delete sandbox_id (fr_sandboxes s)))) s)).

Definition fc_rollback_snapshot (sandbox_id : SandboxId) (id : SnapshotId) :
  prog FirecrackerRuntime (result SandboxHandle RuntimeError) :=
  (do? source <- record_of sandbox_id ;;
   do? source_record <- deref source ;;
   if negb (can_capture (fx_state source_record))
   then throw (conflict "sandbox must be running or paused to roll back")
   else
   do? r <- snapshot_record id ;;
   do? replacement_handle <- with_artifact r (fun snapshot =>
     if negb (bool_decide (source_sandbox_id snapshot = sandbox_id))
     then throw (conflict "snapshot belongs to another sandbox")
     else
     do? token <- checked_token snapshot ;;
     create_from_snapshot_artifact snapshot token) ;;
   let replacement_id := sh_sandbox_id replacement_handle in
   do? replacement <- record_of replacement_id ;;
   do? record <- deref replacement ;;
   do replacement_token <- new_token ;;
   do rekeyed <- rekey_connected_guest sandbox_id (fx_guest_client record) (fx_guest_token record)
     replacement_token (from_lease (fx_network record)) ;;
   match rekeyed with
   | Err error => do _ <- fc_delete replacement_id ;; throw error
   | Ok _ =>
       do _ <- update replacement (set_fx_token replacement_token) ;;
       do swapped <- swap sandbox_id replacement_id source replacement ;;
       match swapped with
       | Err error => do _ <- fc_delete replacement_id ;; throw error
       | Ok _ =>
           do _ <- terminate_record source ;;
           do node <- config cf_node_id ;;
           ok (MkSandboxHandle sandbox_id node Running)
       end
   end)%prog.

Definition fc_delete_snapshot (id : SnapshotId) : prog FirecrackerRuntime (result unit RuntimeError) :=
  (do? r <- snapshot_record id ;;
   do? _ <- act (fun s => if bool_decide (r ∈ fr_in_use s) then (Err (conflict "snapshot is currently in use"), s)
                          else (Ok tt, set_in_use ({[r]} ∪ fr_in_use s) s)) ;;
   do? artifact <- gets (fun s => ok_or dangling (fr_artifacts s !! r)) ;;
   do store <- gets fr_store ;;
   do deleted <- files (delete_artifact store artifact) ;;
   do _ <- modify (fun s => set_in_use (fr_in_use s ∖ {[r]}) s) ;;
   do? _ <- of_result deleted ;;
   do _ <- modify (fun s => set_snapshot_table (delete id (fr_snapshots s)) (fr_artifacts s) s) ;;
   ok tt)%prog.

#[export] Instance firecracker_runtime : SandboxRuntime FirecrackerRuntime := {|
  rt_create := fc_create;
  rt_execute := fc_execute;
  rt_signal := fc_signal;
  rt_write := fc_write;
  rt_read := fc_read;
  rt_list := fc_list;
  rt_pause := fc_pause;
  rt_resume := fc_resume;
  rt_create_snapshot := fc_create_snapshot;
  rt_list_snapshots := fc_list_snapshots;
  rt_get_snapshot := fc_get_snapshot;
  rt_verify_snapshot := fc_verify_snapshot;
  rt_restore_snapshot := fc_restore_snapshot;
  rt_clone_snapshot := fc_clone_snapshot;
  rt_rollback_snapshot := fc_rollback_snapshot;
  rt_delete_snapshot := fc_delete_snapshot;
  rt_delete := fc_delete;
|}.

(** ** The ready pool *)

Definition warm_command (argv : list string) : ExecRequest :=
  MkExecRequest argv SandboxPath_workspace ∅ 30 1024.

Definition ExecTermination_debug (t : ExecTermination) : string :=
  match t with
  | Exited code => "Exited { exit_code: " +:+ pretty code +:+ " }"
  | Signaled signal => "Signaled { signal: " +:+ pretty signal +:+ " }"
  | TimedOut => "TimedOut"
  | OutputLimitExceeded => "OutputLimitExceeded"
  end.

Definition warm_ready_sandbox (handle : SandboxHandle) : prog FirecrackerRuntime (result unit RuntimeError) :=
  for_each [["/bin/true"]; ["python3"; "-c"; "print(42)"]] (fun argv =>
    do? result <- fc_execute (sh_sandbox_id handle) (warm_command argv) ;;
    if negb (bool_decide (er_termination result = Exited 0))
    then throw (MkRuntimeError Unavailable
      ("ready-pool warmup failed: " +:+ ExecTermination_debug (er_termination result)))
    else ok tt)%prog.

(** A sandbox that was created and warmed up; one that does not warm up is
    deleted. *)
Definition create_warm (spec : SandboxSpec) : prog FirecrackerRuntime (result SandboxHandle RuntimeError) :=
  (do? handle <- create_fresh spec ;;
   do warmed <- warm_ready_sandbox handle ;;
   match warmed with
   | Ok _ => ok handle
   | Err error => do _ <- fc_delete (sh_sandbox_id handle) ;; throw error
   end)%prog.

Definition push_ready (handle : SandboxHandle) : prog FirecrackerRuntime unit :=
  modify (fun s => set_pool (fr_ready_pool s ++ [handle]) s).

Fixpoint push_all (handles : list SandboxHandle) : prog FirecrackerRuntime unit :=
  match handles with
  | [] => Ret tt
  | handle :: rest => (do _ <- push_ready handle ;; push_all rest)%prog
  end.

(** The sandboxes after the first are created concurrently by the source; here
    one after the other. *)
Definition prewarm (spec : SandboxSpec) (count : nat) : prog FirecrackerRuntime (result (list Z) RuntimeError) :=
  (if negb (pool_eligible spec)
   then throw (RuntimeError_invalid "ready pool supports 1 vCPU, 512 MiB, and disabled networking")
   else
   do available <- (if 0 <? count then snapshot_available else Ret true) ;;
   do? samples <- (if available : bool then ok []
     else do? (handle, us) <- clocked (create_warm spec) ;; do _ <- push_ready handle ;; ok [us]) ;;
   do? prepared <- map_prog (replicate (count - length samples) tt) (fun _ => clocked (create_warm spec)) ;;
   do _ <- push_all (map fst prepared) ;;
   ok (samples ++ map snd prepared))%prog.

Definition ready_pool_len : prog FirecrackerRuntime nat := gets (fun s => length (fr_ready_pool s)).
End Operations.
