(* ===== verification/FirecrackerFrame.v ===== *)
(** * The microVM runtime: what its steps leave alone

    The laws of jailers, machines and control groups that the theorems use, and
    the frame of the parts of a launch: which steps touch the runtime's tables,
    which may start a machine, and that a step that fails ends the jailer it
    works with, while the machine is ended by its control group. *)
From S2P Require Import Prelude Conc Fs FsOps Utf8 Commands Inet GuestOutput Guest.
From S2P Require Import Machines Network Rootfs Template TemplateRuntime Snapshot Core Firecracker FirecrackerOps.

(** ** The steps outside

    [Calm R]: every step on the files, the machines and the clock, other than
    the start of a machine and the requests to a VMM, relates the state before
    to the one after; [Respected R]: the requests too. *)
Section Respect.
Context `{M : Machines}.

Class Calm (R : Outside -> Outside -> Prop) := {
  calm_preorder :: PreOrder R;
  files_respected fs fs' v : R (fs, v) (fs', v);
  sleep_respected d o : R o (sleep_for d o).2;
  kill_respected c o : R o (process_kill c o).2;
  wait_respected c o : R o (process_wait c o).2;
  wait_for_respected c d o : R o (process_wait_for c d o).2;
  cgroup_metadata_respected p o : R o (cgroup_metadata p o).2;
  cgroup_write_respected p t o : R o (cgroup_write p t o).2;
  cgroup_remove_respected p o : R o (cgroup_remove_dir p o).2;
  cgroup_read_respected p o : R o (cgroup_read_to_string p o).2;
  connect_respected a b o : R o (unix_connect a b o).2;
  write_respected a b o : R o (unix_write a b o).2;
  flush_respected a o : R o (unix_flush a o).2;
  read_line_respected a b o : R o (unix_read_line a b o).2;
  tonic_respected a o : R o (tonic_connect a o).2;
  health_respected a o : R o (rpc_health a o).2;
  init_respected a b o : R o (rpc_init a b o).2;
  rekey_respected a b o : R o (rpc_rekey a b o).2;
  start_respected a b o : R o (rpc_start_process a b o).2;
  signal_respected a b o : R o (rpc_signal_process a b o).2;
  write_file_respected a b c o : R o (rpc_write_file a b c o).2;
  read_file_respected a b o : R o (rpc_read_file a b o).2;
  list_respected a b o : R o (rpc_list_directory a b o).2;
}.

Class Respected (R : Outside -> Outside -> Prop) := {
  respected_calm :: Calm R;
  http_respected a b c d e o : R o (http_request a b c d e o).2;
}.

Context (R : Outside -> Outside -> Prop) `{!Calm R}.

Lemma respects_act {A} (f : Outside -> A * Outside) : (forall o, R o (f o).2) -> preserves R (act f).
Proof. apply preserves_act. Qed.

Lemma respects_lift {A} (p : prog Fs A) : preserves R (lift p : prog Outside A).
Proof. intros [fs v]. rewrite run_lift. apply files_respected. Qed.

Lemma respects_gets {A} (f : Outside -> A) : preserves R (gets f).
Proof. intros o. cbn. reflexivity. Qed.

Lemma preserves_loop {S X T} (P : S -> S -> Prop) `{!PreOrder P} n (body : X -> prog S (X + T)) x :
  (forall y, preserves P (body y)) -> preserves P (loop n body x).
Proof.
  intros Hb. revert x. induction n as [|n IH]; intros x; cbn [loop]; [apply Hb|].
  apply preserves_bind; [done|apply IH|]. intros [y|e]; [apply IH|]. by apply preserves_ret.
Qed.

Lemma respects_turn {X T} started limit (attempt : X -> prog Outside (X + T)) expired x :
  (forall y, preserves R (attempt y)) -> preserves R (poll_turn started limit attempt expired x).
Proof.
  intros Ha. unfold poll_turn. apply preserves_bind; [apply _|apply respects_gets|]. intros t.
  destruct (limit <=? t - started)%Z; [apply preserves_ret, _|].
  apply preserves_bind; [apply _|apply Ha|]. intros [z|r]; [|apply preserves_ret, _].
  apply preserves_bind; [apply _|apply respects_act, sleep_respected|]. intros _. apply preserves_ret, _.
Qed.

Lemma respects_poll {X T} limit (attempt : X -> prog Outside (X + T)) expired x :
  (forall y, preserves R (attempt y)) -> preserves R (poll limit attempt expired x).
Proof.
  intros Ha. unfold poll. apply preserves_bind; [apply _|apply respects_gets|]. intros started.
  apply preserves_fmap; [apply _|]. apply preserves_loop; [apply _|]. intros y. by apply respects_turn.
Qed.
End Respect.

Ltac respects_leaf :=
  first
    [ apply respects_lift; apply _ | apply respects_gets; apply _
    | apply respects_act; intros;
      first [ apply sleep_respected | apply kill_respected | apply wait_respected | apply wait_for_respected
            | apply cgroup_metadata_respected | apply cgroup_write_respected | apply cgroup_remove_respected
            | apply cgroup_read_respected | apply http_respected | apply connect_respected | apply write_respected | apply flush_respected
            | apply read_line_respected | apply tonic_respected | apply health_respected | apply init_respected
            | apply rekey_respected | apply start_respected | apply signal_respected | apply write_file_respected
            | apply read_file_respected | apply list_respected ] ].

Section Waits.
Context `{U : UuidLib} `{M : Machines} `{AJ : ApiJson} (R : Outside -> Outside -> Prop) `{!Calm R}.

Lemma respects_connect_stream connector : preserves R (connect_stream connector).
Proof. unfold connect_stream. repeat first [respects_leaf | preserves_step]. Qed.

Lemma respects_client connector : preserves R (client connector).
Proof.
  unfold client, prog_map_err.
  repeat first [apply respects_connect_stream | respects_leaf | preserves_step].
Qed.

Lemma respects_wait_for_socket path limit : preserves R (wait_for_socket path limit).
Proof. apply respects_poll; [apply _|]. intros []. repeat first [respects_leaf | preserves_step]. Qed.

(** One attempt to reach the guest. *)
Lemma respects_guest_attempt connector : preserves R (
  do connected <- client connector ;;
  match connected with
  | Ok client =>
      do healthy <- act (rpc_health client) ;;
      Ret (if is_ok healthy then inr (Ok client) else inl tt)
  | Err _ => Ret (inl tt : unit + result GuestClient RuntimeError)
  end)%prog.
Proof. repeat first [apply respects_client | respects_leaf | preserves_step]. Qed.

Lemma respects_wait_for_guest limit connector : preserves R (wait_for_guest limit connector).
Proof. apply respects_poll; [apply _|]. intros []. apply respects_guest_attempt. Qed.

Lemma respects_initialize limit connector request n :
  preserves R (poll limit (initialize_turn limit connector request) (fun drawn => (Err guest_not_ready, drawn)) n).
Proof.
  apply respects_poll; [apply _|]. intros m. unfold initialize_turn.
  repeat first [apply respects_wait_for_guest | respects_leaf | preserves_step].
Qed.

Lemma respects_remove_cgroup attempts cgroup e : preserves R (remove_cgroup attempts cgroup e).
Proof.
  revert e. induction attempts as [|n IH]; intros e; cbn [remove_cgroup];
    repeat first [apply IH | respects_leaf | preserves_step].
Qed.

Lemma respects_read_or_unavailable path : preserves R (read_or_unavailable path).
Proof. unfold read_or_unavailable. repeat first [respects_leaf | preserves_step]. Qed.

Lemma respects_cleanup_cgroup id : preserves R (cleanup_cgroup id).
Proof.
  unfold cleanup_cgroup.
  repeat first [apply respects_remove_cgroup | apply respects_read_or_unavailable | respects_leaf | preserves_step].
Qed.
End Waits.

Section Requests.
Context `{M : Machines} `{AJ : ApiJson} (R : Outside -> Outside -> Prop) `{!Respected R}.

Lemma respects_request client method path body limit :
  preserves R (request_with_timeout client method path body limit).
Proof. unfold request_with_timeout. repeat first [respects_leaf | preserves_step]. Qed.

Lemma respects_send_json client method path value limit :
  preserves R (send_json_with_timeout client method path value limit).
Proof. unfold send_json_with_timeout. repeat first [apply respects_request | preserves_step]. Qed.

Lemma respects_wait_for_api api limit : preserves R (wait_for_api api limit).
Proof.
  apply respects_poll; [apply _|]. intros e. unfold api_get_version, api_request.
  repeat first [apply respects_request | preserves_step].
Qed.
End Requests.

(** ** Jailers, machines and control groups

    The jailer is the child process of the runtime. The VMM that it starts lives
    in a process namespace of its own ([--new-pid-ns]) and outlives it: the end
    of the child says nothing about the VMM, which only the kill of its control
    group ends. *)
Section Laws.
Context `{U : UuidLib} `{M : Machines}.

(** The control group of a jailer's identifier. *)
Definition group_of (id : SandboxId) : Path := join cgroup_parent (SandboxId_to_string id).

(** The command starts the jailer of [id]. *)
Definition jails (command : list string) (id : SandboxId) : Prop :=
  exists jailer arguments, command = jailer :: "--id" :: SandboxId_to_string id :: arguments.

(** - [jailer p i v]: the child [p], which was spawned as the jailer of [i], runs;
    - [runs i v]: a process of [i] runs, its jailer or its VMM;
    - [refused i v]: the kernel has refused to inspect or to kill the group of
      [i], so that the node could not end what runs in it. *)
Record Processes := MkProcesses {
  jailer : VmProcess -> SandboxId -> Vms -> Prop;
  runs : SandboxId -> Vms -> Prop;
  refused : SandboxId -> Vms -> Prop;
}.

Record outside_quiet (P : Processes) (o o' : Outside) : Prop := MkQuiet {
  qt_jailer p i : jailer P p i o'.2 -> jailer P p i o.2;
  qt_runs i : runs P i o'.2 -> runs P i o.2;
  qt_refused i : refused P i o.2 -> refused P i o'.2;
}.

(** The jailer of [i] has ended, and does not start a VMM any more. *)
Definition idle (P : Processes) (i : SandboxId) (v : Vms) : Prop := forall p, ~ jailer P p i v.

(** Only a spawn starts a jailer, and only a jailer a VMM. A child that was
    killed and waited for, or whose exit was seen, does not run. When the jailer
    of a group has ended: a group that does not exist holds no VMM; a write to
    [cgroup.kill] that succeeds ends the processes of the group; and the
    directory of a group is removed only when no process is in it. *)
Class ProcessLaws := {
  processes : Processes;
  jailer_runs p i v : jailer processes p i v -> runs processes i v;
  plain_identifier i : plain_name (SandboxId_to_string i);
  quiet_respected :: Respected (outside_quiet processes);
  spawn_law command o :
    match jailer_spawn command o with
    | (Ok c, o') =>
        (forall p i, jailer processes p i o'.2 -> jailer processes p i o.2 \/ p = c /\ jails command i)
        /\ (forall i, runs processes i o'.2 -> runs processes i o.2 \/ jails command i)
        /\ (forall i, refused processes i o.2 -> refused processes i o'.2)
    | (Err _, o') => outside_quiet processes o o'
    end;
  kill_wait_ends c i o : ~ jailer processes c i (process_wait c (process_kill c o).2).2.2;
  wait_for_ends c d i o : (process_wait_for c d o).1 = true -> ~ jailer processes c i (process_wait_for c d o).2.2;
  group_inspected i o : idle processes i o.2 ->
    match cgroup_metadata (group_of i) o with
    | (Ok _, _) => True
    | (Err e, o') => if bool_decide (io_kind e = IoNotFound) then ~ runs processes i o'.2 else refused processes i o'.2
    end;
  group_killed i o : idle processes i o.2 ->
    match cgroup_write (join (group_of i) "cgroup.kill") "1" o with
    | (Ok _, o') => ~ runs processes i o'.2
    | (Err _, o') => refused processes i o'.2
    end;
  group_removed i o : idle processes i o.2 ->
    match cgroup_remove_dir (group_of i) o with
    | (Ok _, o') => ~ runs processes i o'.2
    | (Err e, o') => io_kind e = IoNotFound -> ~ runs processes i o'.2
    end;
}.

Definition quiet `{!ProcessLaws} : Outside -> Outside -> Prop := outside_quiet processes.
#[export] Instance quiet_steps `{!ProcessLaws} : Respected quiet := quiet_respected.

Lemma SandboxId_to_string_inj i j : SandboxId_to_string i = SandboxId_to_string j -> i = j.
Proof. intros Heq. pose proof (SandboxId_roundtrip i) as Hi. rewrite Heq, SandboxId_roundtrip in Hi. by injection Hi. Qed.

Lemma jails_inj command i j : jails command i -> jails command j -> i = j.
Proof. intros (?&?&->) (?&?&[= _ Heq _]). by apply SandboxId_to_string_inj. Qed.

Lemma idle_quiet `{!ProcessLaws} i o o' : quiet o o' -> idle processes i o.2 -> idle processes i o'.2.
Proof. intros [] Hi p Hp. by apply (Hi p), qt_jailer0. Qed.

Lemma ended_quiet `{!ProcessLaws} i o o' : quiet o o' -> ~ runs processes i o.2 -> ~ runs processes i o'.2.
Proof. intros [] Hi Hr. by apply Hi, qt_runs0. Qed.
End Laws.

(** ** What the clean-up of a control group does *)
Section Groups.
Context `{U : UuidLib} `{M : Machines} `{AJ : ApiJson} `{!ProcessLaws}.

(** The directory goes only with the last process of the group. *)
Lemma remove_cgroup_ends i attempts : forall e o, idle processes i o.2 ->
  match run (remove_cgroup attempts (group_of i) e) o with
  | (Ok _, o') => ~ runs processes i o'.2
  | (Err _, _) => True
  end.
Proof.
  induction attempts as [|n IH]; intros e o Hi; cbn [remove_cgroup]; [done|]. rewrite run_bind, run_act.
  pose proof (group_removed i o Hi) as Hg. pose proof (cgroup_remove_respected (R:=quiet) (group_of i) o) as Hq.
  destruct (cgroup_remove_dir (group_of i) o) as [[[]|error] o1]; cbn [fst snd] in *; [done|].
  destruct (bool_decide_reflect (io_kind error = IoNotFound)) as [Hn|]; [by apply Hg|].
  rewrite run_bind, run_act. apply IH. eapply idle_quiet; [|exact Hi].
  etrans; [exact Hq|]. apply sleep_respected.
Qed.

(** Once the jailer has ended, the clean-up of its group ends the VMM, or the
    kernel has refused it; when it succeeds, the VMM has ended. *)
Lemma cleanup_cgroup_ends i o : idle processes i o.2 ->
  let outcome := run (cleanup_cgroup i) o in
  (runs processes i outcome.2.2 -> refused processes i outcome.2.2)
  /\ (is_ok outcome.1 = true -> ~ runs processes i outcome.2.2).
Proof.
  intros Hi. cbv zeta. unfold cleanup_cgroup. cbv zeta. fold (group_of i).
  assert (negb (path_starts_with (group_of i) cgroup_parent) || path_eq (group_of i) cgroup_parent = false) as ->
    by (apply child_guard; [apply plain_identifier|done]).
  rewrite run_bind, run_act. pose proof (group_inspected i o Hi) as Hm.
  pose proof (cgroup_metadata_respected (R:=quiet) (group_of i) o) as Hq.
  destruct (cgroup_metadata (group_of i) o) as [[[]|e] o1]; cbn [fst snd] in *.
  2: { destruct (bool_decide (io_kind e = IoNotFound)); split; done. }
  rewrite run_bind, run_act. pose proof (idle_quiet i _ _ Hq Hi) as Hi1. clear Hm.
  pose proof (group_killed i o1 Hi1) as Hk.
  pose proof (cgroup_write_respected (R:=quiet) (join (group_of i) "cgroup.kill") "1" o1) as Hq1.
  destruct (cgroup_write _ "1" o1) as [kill o2]. cbn [fst snd] in *. pose proof (idle_quiet i _ _ Hq1 Hi1) as Hi2.
  rewrite run_bind. generalize CGROUP_ATTEMPTS. intros attempts.
  pose proof (remove_cgroup_ends i attempts (MkIoError IoOther "") o2 Hi2) as Hr.
  pose proof (respects_remove_cgroup quiet attempts (group_of i) (MkIoError IoOther "") o2) as Hq2.
  destruct (run (remove_cgroup attempts _ _) o2) as [[[]|e] o3]; cbn [fst snd] in *; [by split|].
  match goal with |- context [run ?p o3] => assert (quiet o3 (run p o3).2 /\ is_ok (run p o3).1 = false) as [Hq3 He] end.
  { split.
    - match goal with |- quiet o3 (run ?p o3).2 => enough (preserves quiet p) as Hp by apply Hp end.
      repeat first [apply (respects_read_or_unavailable quiet) | preserves_step].
    - rewrite run_bind, run_bind. done. }
  rewrite He. split; [|done]. intros Ha. destruct kill as [[]|e']; cbn [fst snd] in *.
  - exfalso. revert Ha. apply (ended_quiet i o2); [by etrans|done].
  - apply (qt_refused _ _ _ Hq3), (qt_refused _ _ _ Hq2), Hk.
Qed.
End Groups.

(** ** Frames

    [framed s s']: the tables and the identifiers drawn are those of [s], and no
    jailer and no machine runs that did not run before. *)
Section Frames.
Context `{U : UuidLib} `{C : CryptoLib} `{TJ : TemplateJson} {SJ : ManifestJson}.
Context `{H : HostPrograms} `{N : NetHost} `{M : Machines} `{AJ : ApiJson} `{!ProcessLaws}.

Definition machines (s : FirecrackerRuntime) : Outside := (nt_fs (fr_net s), fr_vms s).
(** A process of [i] runs: its jailer or its VMM. *)
Definition alive (s : FirecrackerRuntime) (i : SandboxId) : Prop := runs processes i (fr_vms s).
(** The child [p], the jailer of [i], runs. *)
Definition jailed (s : FirecrackerRuntime) (p : VmProcess) (i : SandboxId) : Prop := jailer processes p i (fr_vms s).
(** The kernel has refused to inspect or to kill the group of [i]. *)
Definition stuck (s : FirecrackerRuntime) (i : SandboxId) : Prop := refused processes i (fr_vms s).

Record same_tables (s s' : FirecrackerRuntime) : Prop := MkSameTables {
  st_config : fr_config s' = fr_config s;
  st_store : fr_store s' = fr_store s;
  st_resolver : fr_resolver s' = fr_resolver s;
  st_sandboxes : fr_sandboxes s' = fr_sandboxes s;
  st_records : fr_records s' = fr_records s;
  st_snapshots : fr_snapshots s' = fr_snapshots s;
  st_artifacts : fr_artifacts s' = fr_artifacts s;
  st_in_use : fr_in_use s' = fr_in_use s;
  st_pool : fr_ready_pool s' = fr_ready_pool s;
  st_ids : fr_ids s' = fr_ids s;
  st_next : fr_next s' = fr_next s;
}.

#[export] Instance same_tables_preorder : PreOrder same_tables.
Proof. split; [done|]. intros a b c [] []. split; congruence. Qed.

Definition framed (s s' : FirecrackerRuntime) : Prop := same_tables s s' /\ quiet (machines s) (machines s').

#[export] Instance framed_preorder : PreOrder framed.
Proof. split; [done|]. intros a b c [H1 A1] [H2 A2]. split; by etrans. Qed.

(** No jailer runs that did not run before, and no machine, but for one whose
    group the kernel refused to kill. *)
Record settles (s s' : FirecrackerRuntime) : Prop := MkSettles {
  se_jailed p i : jailed s' p i -> jailed s p i;
  se_alive i : alive s' i -> alive s i \/ stuck s' i;
  se_stuck i : stuck s i -> stuck s' i;
}.

#[export] Instance settles_preorder : PreOrder settles.
Proof.
  split; [by intros s; split; auto|]. intros a b c [J1 A1 S1] [J2 A2 S2]. split; [auto| |auto].
  intros i [Ha|?]%A2; [|by right]. destruct (A1 i Ha); auto.
Qed.

Lemma framed_settles s s' : framed s s' -> settles s s'.
Proof. intros [_ []]. split; [done| |done]. intros i Hi. left. by apply qt_runs0. Qed.

Lemma framed_outside {A} (p : prog Outside A) : preserves quiet p -> preserves framed (outside p).
Proof.
  intros Hp s. unfold outside. rewrite run_lift. specialize (Hp (machines s)). cbn [view runtime_outside].
  change (nt_fs (fr_net s), fr_vms s) with (machines s). by destruct (run p (machines s)) as [a [fs v]].
Qed.

Lemma framed_files {A} (p : prog Fs A) : preserves framed (files p).
Proof. intros s. unfold files. rewrite run_lift. split; [done|]. apply files_respected. Qed.

Lemma framed_host_net {A} (p : prog NetState A) : preserves framed (host_net p).
Proof. intros s. unfold host_net. rewrite run_lift. split; [done|]. apply files_respected. Qed.

Lemma framed_gets {A} (f : FirecrackerRuntime -> A) : preserves framed (gets f).
Proof. by intros s. Qed.

Lemma framed_config {A} (f : FirecrackerRuntimeConfig -> A) : preserves framed (config f).
Proof. apply framed_gets. Qed.

Lemma framed_new_uuid : preserves framed new_uuid.
Proof. apply preserves_act. by intros s. Qed.

Lemma framed_draw n : preserves framed (draw_uuids n).
Proof. apply preserves_act. by intros s. Qed.

Lemma framed_fc_call {A} (p : prog Outside (result A FirecrackerError)) :
  preserves quiet p -> preserves framed (fc_call p).
Proof. intros. apply preserves_fmap, framed_outside; [apply _|done]. Qed.

Lemma framed_guest_call {A} (p : Outside -> result A RpcStatus * Outside) :
  (forall o, quiet o (p o).2) -> preserves framed (guest_call p).
Proof. intros. apply preserves_fmap, framed_outside, (respects_act quiet); [apply _|done]. Qed.

(** Readings of the clock change nothing. *)
Lemma run_instant s : (run instant s).2 = s.
Proof. unfold instant, outside. rewrite run_lift. apply put_view. Qed.

Lemma run_elapsed started s : (run (elapsed_us started) s).2 = s.
Proof. unfold elapsed_us, outside. rewrite run_lift. apply put_view. Qed.

Lemma preserves_instant (R : FirecrackerRuntime -> FirecrackerRuntime -> Prop) `{!PreOrder R} : preserves R instant.
Proof. intros s. by rewrite run_instant. Qed.

Lemma preserves_elapsed (R : FirecrackerRuntime -> FirecrackerRuntime -> Prop) `{!PreOrder R} started :
  preserves R (elapsed_us started).
Proof. intros s. by rewrite run_elapsed. Qed.

(** A step with the time it took is that step. *)
Lemma run_clocked {A} (p : prog FirecrackerRuntime (result A RuntimeError)) s :
  run p s = (result_map fst (run (clocked p) s).1, (run (clocked p) s).2).
Proof.
  unfold clocked. rewrite run_bind, run_instant, run_bind_ok. destruct (run p s) as [[a|e] s1]; cbn [fst snd]; [|done].
  by rewrite run_bind, run_elapsed.
Qed.

Lemma run_map_clocked {A} n (p : prog FirecrackerRuntime (result A RuntimeError)) : forall s,
  run (map_prog (replicate n tt) (fun _ => p)) s =
  (result_map (map fst) (run (map_prog (replicate n tt) (fun _ => clocked p)) s).1,
   (run (map_prog (replicate n tt) (fun _ => clocked p)) s).2).
Proof.
  induction n as [|n IH]; intros s; [done|]. cbn [replicate map_prog]. rewrite !run_bind_ok, (run_clocked p s). cbn [fst snd].
  destruct (run (clocked p) s) as [[[a us]|e] s1]; cbn [result_map fst snd]; [|done].
  rewrite !run_bind_ok, (IH s1). cbn [fst snd].
  by destruct (run (map_prog (replicate n tt) (fun _ => clocked p)) s1) as [[xs|e] s2].
Qed.

Lemma framed_kill child : preserves framed (kill_and_wait child).
Proof. apply framed_outside. repeat first [respects_leaf | preserves_step]. Qed.

Lemma framed_delete_lease network : preserves framed (delete_lease network).
Proof. destruct network; [apply framed_host_net|apply preserves_ret, _]. Qed.
End Frames.

Ltac framed_leaf :=
  match goal with
  | |- preserves framed (files _) => apply framed_files
  | |- preserves framed (host_net _) => apply framed_host_net
  | |- preserves framed (config _) => apply framed_config
  | |- preserves framed (gets _) => apply framed_gets
  | |- preserves framed instant => apply preserves_instant, _
  | |- preserves framed (elapsed_us _) => apply preserves_elapsed, _
  | |- preserves framed new_uuid => apply framed_new_uuid
  | |- preserves framed (draw_uuids _) => apply framed_draw
  | |- preserves framed (kill_and_wait _) => apply framed_kill
  | |- preserves framed (delete_lease _) => apply framed_delete_lease
  | |- preserves framed (fc_call _) =>
      apply framed_fc_call; unfold api_put, api_patch, api_put_with_timeout, send_json; apply (respects_send_json quiet)
  | |- preserves framed (guest_call _) =>
      apply framed_guest_call; intros;
      first [ apply rekey_respected | apply start_respected | apply signal_respected | apply write_file_respected
            | apply read_file_respected | apply list_respected ]
  | |- preserves framed (outside (wait_for_socket _ _)) => apply framed_outside, (respects_wait_for_socket quiet)
  | |- preserves framed (outside (wait_for_api _ _)) => apply framed_outside, (respects_wait_for_api quiet)
  | |- preserves framed (outside (wait_for_guest _ _)) => apply framed_outside, (respects_wait_for_guest quiet)
  | |- preserves framed (outside (poll _ _ _ _)) => apply framed_outside, (respects_initialize quiet)
  | |- preserves framed (outside (cleanup_cgroup _)) => apply framed_outside, (respects_cleanup_cgroup quiet)
  | |- preserves framed (outside (api_put _ _ _)) => apply framed_outside, (respects_send_json quiet)
  | |- preserves framed (outside (act _)) => apply framed_outside; respects_leaf
  end.

(** ** The parts of a launch *)
Section Launch.
Context `{U : UuidLib} `{C : CryptoLib} `{TJ : TemplateJson} {SJ : ManifestJson}.
Context `{H : HostPrograms} `{N : NetHost} `{M : Machines} `{AJ : ApiJson} `{!ProcessLaws}.

Lemma framed_jail_root id : preserves framed (jail_root id).
Proof. apply framed_gets. Qed.

Lemma framed_cleanup_chroot root : preserves framed (cleanup_chroot root).
Proof. unfold cleanup_chroot. repeat first [framed_leaf | preserves_step]. Qed.

Lemma framed_new_token : preserves framed new_token.
Proof. unfold new_token. repeat first [framed_leaf | preserves_step]. Qed.

Lemma framed_rekey_connected id client previous token network :
  preserves framed (rekey_connected_guest id client previous token network).
Proof. unfold rekey_connected_guest. repeat first [framed_leaf | preserves_step]. Qed.

Lemma framed_rekey id connector previous token network :
  preserves framed (rekey_guest id connector previous token network).
Proof. unfold rekey_guest. repeat first [apply framed_rekey_connected | framed_leaf | preserves_step]. Qed.

Lemma framed_initialize id connector token network : preserves framed (initialize_guest id connector token network).
Proof. unfold initialize_guest. repeat first [framed_leaf | preserves_step]. Qed.

Lemma framed_patch api st : preserves framed (vm_patch api st).
Proof. unfold vm_patch, api_patch, send_json. framed_leaf. Qed.

Lemma framed_vm_snapshot api stem : preserves framed (vm_snapshot api stem).
Proof. unfold vm_snapshot, api_put_with_timeout. framed_leaf. Qed.

Lemma framed_configure api spec network : preserves framed (configure_and_start api spec network).
Proof. unfold configure_and_start, api_put, send_json. repeat first [framed_leaf | preserves_step]. Qed.

Lemma framed_load api : preserves framed (load_snapshot api).
Proof. unfold load_snapshot, api_put, send_json. framed_leaf. Qed.

Lemma framed_capture_snapshot api rootfs jail : preserves framed (capture_snapshot api rootfs jail).
Proof.
  unfold capture_snapshot, snapshot_paths.
  repeat first [framed_leaf | apply framed_patch | apply framed_vm_snapshot | preserves_step].
Qed.

Lemma framed_or_kill {A} child network (p : prog FirecrackerRuntime (result A RuntimeError)) :
  preserves framed p -> preserves framed (or_kill child network p).
Proof. intros Hp. unfold or_kill. repeat first [apply Hp | framed_leaf | preserves_step]. Qed.

Ltac framed_call :=
  match goal with
  | |- preserves framed (vm_patch _ _) => apply framed_patch
  | |- preserves framed (vm_snapshot _ _) => apply framed_vm_snapshot
  | |- preserves framed (or_kill _ _ _) => apply framed_or_kill
  | |- preserves framed new_token => apply framed_new_token
  | |- preserves framed (rekey_guest _ _ _ _ _) => apply framed_rekey
  | |- preserves framed (initialize_guest _ _ _ _) => apply framed_initialize
  | |- preserves framed (configure_and_start _ _ _) => apply framed_configure
  | |- preserves framed (load_snapshot _) => apply framed_load
  | |- preserves framed (capture_snapshot _ _ _) => apply framed_capture_snapshot
  end.

Lemma framed_boot spec id restore capture root network child :
  preserves framed (boot spec id restore capture root network child).
Proof. unfold boot. repeat first [framed_call | framed_leaf | preserves_step]. Qed.

(** A failed step of the boot ends the jailer; what it started in the control
    group is left to the launch. *)
Definition ends {A} (child : VmProcess) (p : prog FirecrackerRuntime (result A RuntimeError)) : Prop :=
  forall s, match run p s with (Err _, s') => forall i, ~ jailed s' child i | _ => True end.

Lemma framed_jailed s s' p i : framed s s' -> jailed s' p i -> jailed s p i.
Proof. intros [_ []]. apply qt_jailer0. Qed.

Lemma framed_alive s s' i : framed s s' -> alive s' i -> alive s i.
Proof. intros [_ []]. apply qt_runs0. Qed.

Lemma framed_stuck s s' i : framed s s' -> stuck s i -> stuck s' i.
Proof. intros [_ []]. apply qt_refused0. Qed.

Lemma run_kill_and_wait child i s : ~ jailed (run (kill_and_wait child) s).2 child i.
Proof.
  unfold kill_and_wait, outside. rewrite run_lift, run_bind, run_act, run_bind, run_act.
  cbn [view runtime_outside]. change (nt_fs (fr_net s), fr_vms s) with (machines s).
  apply (kill_wait_ends child i (machines s)).
Qed.

Lemma ends_or_kill {A} child network (p : prog FirecrackerRuntime (result A RuntimeError)) :
  ends child (or_kill child network p).
Proof.
  intros s. unfold or_kill. rewrite run_bind. destruct (run p s) as [[a|e] s1]; cbn [fst snd]; [done|].
  rewrite run_bind. pose proof (fun i => run_kill_and_wait child i s1) as Hk.
  destruct (run (kill_and_wait child) s1) as [u s2]. cbn [fst snd] in *. rewrite run_bind.
  pose proof (framed_delete_lease network s2) as Hq. intros i Ha. apply (Hk i). by apply (framed_jailed _ _ _ _ Hq).
Qed.

Lemma ends_bind_ok {A B} child (p : prog FirecrackerRuntime (result A RuntimeError))
    (k : A -> prog FirecrackerRuntime (result B RuntimeError)) :
  ends child p -> (forall a, ends child (k a)) -> ends child (bind_ok p k).
Proof.
  intros Hp Hk s. rewrite run_bind_ok. specialize (Hp s). destruct (run p s) as [[a|e] s1]; [|done]. apply Hk.
Qed.

Lemma ends_bind {A B} child (p : prog FirecrackerRuntime A) (k : A -> prog FirecrackerRuntime (result B RuntimeError)) :
  (forall a, ends child (k a)) -> ends child (bind p k).
Proof. intros Hk s. rewrite run_bind. apply Hk. Qed.

Lemma ends_ok {A} child (a : A) : ends child (ok a).
Proof. by intros s. Qed.

Lemma ends_boot spec id restore capture root network child : ends child (boot spec id restore capture root network child).
Proof.
  unfold boot. apply ends_bind. intros limit. apply ends_bind_ok; [apply ends_or_kill|]. intros [].
  apply ends_bind_ok; [apply ends_or_kill|]. intros []. apply ends_bind_ok; [apply ends_or_kill|]. intros [].
  apply ends_bind. intros port. apply ends_bind. intros boot_limit. apply ends_bind_ok.
  { destruct capture; [|apply ends_ok]. apply ends_bind_ok; [apply ends_or_kill|]. intros. apply ends_or_kill. }
  intros []. apply ends_bind. intros token. apply ends_bind_ok; [apply ends_or_kill|]. intros. apply ends_ok.
Qed.

(** What a launch comes to: nothing, or one more record, which runs. *)
Record launched (id : SandboxId) (spec : SandboxSpec) (record : FirecrackerSandbox) (s s' : FirecrackerRuntime) : Prop := MkLaunched {
  la_tables : same_tables (set_counters (fr_ids s) (fr_uuids s) (S (fr_next s))
    (set_table (<[id := fr_next s]> (fr_sandboxes s)) (set_heap (<[fr_next s := record]> (fr_records s)) s))) s';
  la_state : fx_state record = Running;
  la_spec : fx_spec record = spec;
  la_jailer : fx_jailer_id record = id;
  la_jailed p i : jailed s' p i -> jailed s p i \/ p = fx_child record /\ i = id;
  la_alive i : alive s' i -> alive s i \/ i = id;
  la_stuck i : stuck s i -> stuck s' i;
}.

Lemma launched_trans id spec record s1 s2 s3 : framed s1 s2 -> launched id spec record s2 s3 -> launched id spec record s1 s3.
Proof.
  intros [Ht []] [[] ? ? ? Lj La Ls]. split; [|done..| | |].
  - destruct Ht. split; cbn in *; congruence.
  - intros p i [Hp|Hp]%Lj; [left; by apply qt_jailer0|by right].
  - intros i [Hp|Hp]%La; [left; by apply qt_runs0|by right].
  - intros i Hi. by apply Ls, qt_refused0.
Qed.

(** An attempt that failed: the tables are as they were and its jailer has
    ended, but a VMM may still run in its group. *)
Record attempted (id : SandboxId) (s s' : FirecrackerRuntime) : Prop := MkAttempted {
  at_tables : same_tables s s';
  at_jailed p i : jailed s' p i -> jailed s p i;
  at_alive i : alive s' i -> alive s i \/ i = id;
  at_stuck i : stuck s i -> stuck s' i;
}.

Lemma framed_attempted id s s' : framed s s' -> attempted id s s'.
Proof. intros [Ht []]. split; [done|done| |done]. intros i Hi. left. by apply qt_runs0. Qed.

Lemma attempted_trans id s1 s2 s3 : attempted id s1 s2 -> attempted id s2 s3 -> attempted id s1 s3.
Proof.
  intros [T1 J1 A1 S1] [T2 J2 A2 S2]. split; [by etrans|auto| |auto]. intros i [Hi|?]%A2; [auto|by right].
Qed.

Definition launch_outcome (id : SandboxId) (spec : SandboxSpec) (r : result SandboxHandle RuntimeError)
    (s s' : FirecrackerRuntime) : Prop :=
  match r with
  | Err _ => attempted id s s'
  | Ok handle => handle = MkSandboxHandle id (cf_node_id (fr_config s)) Running
                 /\ exists record, launched id spec record s s'
  end.

Lemma launch_outcome_trans id spec r s1 s2 s3 :
  framed s1 s2 -> launch_outcome id spec r s2 s3 -> launch_outcome id spec r s1 s3.
Proof.
  intros Hf. pose proof (st_config _ _ (proj1 Hf)) as Hc. destruct r as [handle|e]; cbn.
  - rewrite Hc. intros (->&record&Hl). split; [done|]. exists record. by eapply launched_trans.
  - by apply attempted_trans, framed_attempted.
Qed.

Lemma launch_outcome_bind {A} id spec (p : prog FirecrackerRuntime A)
    (k : A -> prog FirecrackerRuntime (result SandboxHandle RuntimeError)) s :
  preserves framed p ->
  (forall a s1, framed s s1 -> launch_outcome id spec (run (k a) s1).1 s1 (run (k a) s1).2) ->
  launch_outcome id spec (run (bind p k) s).1 s (run (bind p k) s).2.
Proof. intros Hp Hk. rewrite run_bind. eapply launch_outcome_trans; [apply Hp|apply Hk, Hp]. Qed.

Lemma launch_outcome_bind_ok {A} id spec (p : prog FirecrackerRuntime (result A RuntimeError))
    (k : A -> prog FirecrackerRuntime (result SandboxHandle RuntimeError)) s :
  preserves framed p ->
  (forall a s1, framed s s1 -> launch_outcome id spec (run (k a) s1).1 s1 (run (k a) s1).2) ->
  launch_outcome id spec (run (bind_ok p k) s).1 s (run (bind_ok p k) s).2.
Proof. intros Hp Hk. apply launch_outcome_bind; [done|]. intros [a|e] s1 Hf; [by apply Hk|]. by apply framed_attempted. Qed.
End Launch.
