(* ===== verification/FirecrackerWaits.v ===== *)
(** * The microVM runtime: waiting

    The loops that wait for a machine end by the clock, never because the model
    ran out of turns: what they return is an answer of the machine, or the time
    limit has passed. *)
From S2P Require Import Prelude Conc Fs FsOps Utf8 Commands Inet GuestOutput Guest.
From S2P Require Import Machines Network Rootfs Template TemplateRuntime Snapshot Core Firecracker FirecrackerOps.
From S2P Require Import FirecrackerFrame.

Section Waiting.
Context `{U : UuidLib} `{M : Machines} `{AJ : ApiJson}.

Definition clock_le (o o' : Outside) : Prop := (now o <= now o')%Z.

(** [Instant::now] does not go back, and a sleep takes the time it was asked for. *)
Class ClockLaws := {
  clock_respected :: Respected clock_le;
  sleep_advances d o : (0 <= d)%Z -> (now o + d <= now (sleep_for d o).2)%Z;
}.

Context `{!ClockLaws}.

(** A [Duration] has fewer than 2^64 seconds. *)
Definition duration (d : Z) : Prop := (0 <= d < 2 ^ 64 * 1000000000)%Z.

Lemma run_poll {X T} limit (attempt : X -> prog Outside (X + T)) expired (Q : T -> Outside -> Prop) x o :
  duration limit -> (forall y, preserves clock_le (attempt y)) ->
  (forall y o r o', run (attempt y) o = (inr r, o') -> Q r o') ->
  let outcome := run (poll limit attempt expired x) o in
  Q outcome.1 outcome.2 \/ (exists y, outcome.1 = expired y) /\ (limit <= now outcome.2 - now o)%Z.
Proof.
  intros Hd Ha Hq. cbv zeta. unfold poll. rewrite run_bind, run_gets. cbn [fst snd]. rewrite run_fmap.
  set (started := now o).
  destruct (run_measured (poll_turn started limit attempt expired)
    (fun _ o1 => limit + 5000000 - Z.min (limit + 5000000) (now o1 - started))%Z
    (fun _ o1 => started <= now o1)%Z
    (fun r o1 => Q r o1 \/ (exists y, r = expired y) /\ (limit <= now o1 - started)%Z)
    ltac:(intros; lia)) with (n := POLL_TURNS) (x := x) (s := o) as (r&o'&->&Hr).
  - intros y o1 Ho. unfold poll_turn. rewrite run_bind, run_gets. cbn [fst snd].
    destruct (Z.leb_spec limit (now o1 - started)); [right; split; [by exists y|done]|].
    rewrite run_bind. pose proof (Ha y o1) as Hle. pose proof (Hq y o1) as Hqy.
    destruct (run (attempt y) o1) as [[z|r] o2]; cbn [fst snd] in *; [|left; by apply Hqy].
    rewrite run_bind, run_act. pose proof (sleep_advances (millis 5) o2 ltac:(done)) as Hs.
    destruct (sleep_for (millis 5) o2) as [u o3]. cbn in Hs. change (millis 5) with 5000000%Z in Hs. unfold clock_le in Hle. cbn. split; lia.
  - unfold started. lia.
  - unfold duration in Hd. subst started. change (2 ^ Z.of_nat POLL_TURNS)%Z with 1267650600228229401496703205376%Z. lia.
  - cbn. destruct Hr as [?|[? ?]]; [by left|by right].
Qed.

Lemma wait_for_guest_ends limit connector o :
  duration limit ->
  match run (wait_for_guest limit connector) o with
  | (Ok client, o') => exists o1, rpc_health client o1 = (Ok tt, o')
  | (Err error, o') => re_kind error = Timeout /\ (limit <= now o' - now o)%Z
  end.
Proof.
  intros Hd. unfold wait_for_guest.
  pose proof (run_poll limit
    (fun _ : unit => do connected <- client connector ;;
       match connected with
       | Ok client =>
           do healthy <- act (rpc_health client) ;;
           Ret (if is_ok healthy then inr (Ok client) else inl tt)
       | Err _ => Ret (inl tt)
       end)%prog (fun _ => Err guest_not_ready)
    (fun r o' => exists client o1, r = Ok client /\ rpc_health client o1 = (Ok tt, o')) tt o Hd
    ltac:(intros []; apply (respects_guest_attempt clock_le))) as Hp.
  destruct Hp as [(client&o1&Hr&Hh)|[[y Hy] Ht]].
  - intros [] o1 r o2. rewrite run_bind. destruct (run (client connector) o1) as [[c|e] o3]; cbn [fst snd]; [|done].
    rewrite run_bind, run_act. destruct (rpc_health c o3) as [[[]|e] o4] eqn:Hh; [|done]. cbn.
    intros [= <- <-]. by exists c, o3.
  - destruct (run (poll _ _ _ _) o) as [r o']. cbn [fst snd] in *. subst r. by exists o1.
  - destruct (run (poll _ _ _ _) o) as [r o']. cbn [fst snd] in *. by subst r.
Qed.
End Waiting.
