(* ===== verification/FirecrackerLaunch.v ===== *)
(** * The microVM runtime: launching and ending machines

    A launch registers one running sandbox or changes nothing and leaves no
    machine behind; the end of a sandbox ends its jailer and its machine. The
    kernel may refuse the kill of a control group; nothing else lets a machine
    survive. *)
From S2P Require Import Prelude Conc Fs FsOps Utf8 Commands Inet GuestOutput Guest.
From S2P Require Import Machines Network Rootfs Template TemplateRuntime Snapshot Core Firecracker FirecrackerOps.
From S2P Require Import FirecrackerFrame.

Section Launching.
Context `{U : UuidLib} `{C : CryptoLib} `{TJ : TemplateJson} {SJ : ManifestJson}.
Context `{H : HostPrograms} `{N : NetHost} `{M : Machines} `{AJ : ApiJson} `{!ProcessLaws}.

(** The jailer of [id] was spawned. *)
Record spawned (id : SandboxId) (child : VmProcess) (s s' : FirecrackerRuntime) : Prop := MkSpawned {
  sp_tables : same_tables s s';
  sp_jailed p i : jailed s' p i -> jailed s p i \/ p = child /\ i = id;
  sp_alive i : alive s' i -> alive s i \/ i = id;
  sp_stuck i : stuck s i -> stuck s' i;
}.

Lemma jailer_command_jails c id spec network i : jails (jailer_command c id spec network) i -> i = id.
Proof.
  intros Hi. eapply jails_inj; [exact Hi|]. eexists _, _. reflexivity.
Qed.

Lemma run_spawn c id spec network s :
  match run (outside (act (jailer_spawn (jailer_command c id spec network))) : prog FirecrackerRuntime (result VmProcess IoError)) s with
  | (Ok child, s') => spawned id child s s'
  | (Err _, s') => framed s s'
  end.
Proof.
  unfold outside. rewrite run_lift, run_act. cbn [view runtime_outside]. change (nt_fs (fr_net s), fr_vms s) with (machines s).
  pose proof (spawn_law (jailer_command c id spec network) (machines s)) as Hs.
  destruct (jailer_spawn _ (machines s)) as [[child|e] [fs v]]; cbn [fst snd].
  - destruct Hs as (Hj&Hr&Hf). split; [done| | |exact Hf].
    + intros p i [?|[-> ?%jailer_command_jails]]%Hj; [by left|by right].
    + intros i [?|?%jailer_command_jails]%Hr; [by left|by right].
  - by split.
Qed.

Lemma register_launched id spec child api client token root network s s1 s2 :
  spawned id child s s1 -> framed s1 s2 ->
  launched id spec (MkFirecrackerSandbox id Running spec child api client token root network) s
    (run (register id (MkFirecrackerSandbox id Running spec child api client token root network)) s2).2.
Proof.
  intros [[] Hj Ha Hs] Hf. pose proof Hf as [[] _]. unfold register. rewrite run_modify. split; [|done|done|done| | |].
  - split; cbn; congruence.
  - intros p i Hp. by apply Hj, (framed_jailed _ _ _ _ Hf).
  - intros i Hi. by apply Ha, (framed_alive _ _ _ Hf).
  - intros i Hi. by apply (framed_stuck _ _ _ Hf), Hs.
Qed.

Lemma boot_outcome spec id restore capture root network child node s s1 :
  spawned id child s s1 -> node = cf_node_id (fr_config s) ->
  let booted := run (do? (api, guest_client, guest_token) <- boot spec id restore capture root network child ;;
    do _ <- register id (MkFirecrackerSandbox id Running spec child api guest_client guest_token root network) ;;
    ok (MkSandboxHandle id node Running))%prog s1 in
  launch_outcome id spec booted.1 s booted.2.
Proof.
  intros Hs ->. cbv zeta. rewrite run_bind_ok.
  pose proof (framed_boot spec id restore capture root network child s1) as Hf.
  pose proof (ends_boot spec id restore capture root network child s1) as He.
  destruct (run (boot spec id restore capture root network child) s1) as ([((api&client)&token)|e]&s2);
    cbn [fst snd] in *.
  - rewrite run_bind. cbn [run fst snd ok]. split; [done|].
    exists (MkFirecrackerSandbox id Running spec child api client token root network).
    by apply register_launched with s1.
  - destruct Hs as [Ht Hj Ha Hs]. split; [by etrans; [|apply Hf]| | |].
    + intros p i Hp. destruct (Hj p i (framed_jailed _ _ _ _ Hf Hp)) as [?|[-> ->]]; [done|]. by destruct (He id).
    + intros i Hi. by apply Ha, (framed_alive _ _ _ Hf).
    + intros i Hi. by apply (framed_stuck _ _ _ Hf), Hs.
Qed.

Lemma launch_outcome_config {A} id spec (f : FirecrackerRuntimeConfig -> A)
    (k : A -> prog FirecrackerRuntime (result SandboxHandle RuntimeError)) s :
  launch_outcome id spec (run (k (f (fr_config s))) s).1 s (run (k (f (fr_config s))) s).2 ->
  launch_outcome id spec (run (bind (config f) k) s).1 s (run (bind (config f) k) s).2.
Proof. by rewrite run_bind. Qed.

Lemma launch_inner_outcome spec id assets restore capture s :
  launch_outcome id spec (run (launch_inner spec id assets restore capture) s).1 s
    (run (launch_inner spec id assets restore capture) s).2.
Proof.
  unfold launch_inner. apply launch_outcome_bind_ok; [apply preserves_ret, _|]. intros _ s0 _.
  apply launch_outcome_bind_ok; [apply framed_jail_root|]. intros root s1 _.
  apply launch_outcome_config.
  apply launch_outcome_bind_ok; [apply framed_files|]. intros _ s2 Hc2.
  apply launch_outcome_bind_ok; [apply framed_host_net|]. intros lease s3 Hc3.
  assert (fr_config s3 = fr_config s1) as Hc by (rewrite (st_config _ _ (proj1 Hc3)); apply Hc2).
  rewrite run_bind. pose proof (run_spawn (fr_config s1) id spec lease s3) as Hsp.
  destruct (run (outside (act (jailer_spawn (jailer_command (fr_config s1) id spec lease)))) s3) as [[child|e] s4];
    cbn [fst snd].
  - apply boot_outcome; [done|]. by rewrite Hc.
  - rewrite run_bind. cbn. apply framed_attempted. etrans; [apply Hsp|apply framed_delete_lease].
Qed.

Lemma run_outside {A} (p : prog Outside A) s :
  (run (outside p : prog FirecrackerRuntime A) s).1 = (run p (machines s)).1
  /\ fr_vms (run (outside p : prog FirecrackerRuntime A) s).2 = (run p (machines s)).2.2.
Proof. unfold outside. rewrite run_lift. done. Qed.

(** The clean-up of the group of a sandbox whose jailer has ended. *)
Lemma run_cleanup_cgroup i s : (forall p, ~ jailed s p i) ->
  let outcome := run (outside (cleanup_cgroup i) : prog FirecrackerRuntime (result unit RuntimeError)) s in
  (alive outcome.2 i -> stuck outcome.2 i) /\ (is_ok outcome.1 = true -> ~ alive outcome.2 i).
Proof.
  intros Hi. cbv zeta. unfold alive, stuck. destruct (run_outside (cleanup_cgroup i) s) as [-> ->].
  by apply cleanup_cgroup_ends.
Qed.

(** A launch that fails leaves nothing in the tables, and no machine. *)
Definition launch_settled (id : SandboxId) (spec : SandboxSpec) (r : result SandboxHandle RuntimeError)
    (s s' : FirecrackerRuntime) : Prop :=
  match r with
  | Err _ => same_tables s s' /\ ((forall p, ~ jailed s p id) -> settles s s')
  | Ok handle => handle = MkSandboxHandle id (cf_node_id (fr_config s)) Running
                 /\ exists record, launched id spec record s s'
  end.

Lemma launch_result spec id assets restore capture s :
  launch_settled id spec (run (launch spec id assets restore capture) s).1 s
    (run (launch spec id assets restore capture) s).2.
Proof.
  unfold launch. rewrite run_bind_ok. change (run (jail_root id) s).2 with s.
  assert (forall e, launch_settled id spec (Err e) s s) as Hnothing by (by intros e; split; [|intros _]).
  destruct (run (jail_root id) s).1 as [root|e]; [|apply Hnothing].
  clear Hnothing.
  rewrite run_bind. pose proof (launch_inner_outcome spec id assets restore capture s) as Hl.
  destruct (run (launch_inner spec id assets restore capture) s) as [[handle|e] s2]; cbn [fst snd] in *; [done|].
  rewrite run_bind. pose proof (framed_cleanup_chroot root s2) as Hc.
  destruct (run (cleanup_chroot root) s2) as [x s3]. cbn [fst snd] in *.
  rewrite run_bind. cbn [run fst snd throw].
  pose proof (framed_outside _ (respects_cleanup_cgroup quiet id) s3) as Hf.
  pose proof (run_cleanup_cgroup id s3) as Hg. destruct (run (outside (cleanup_cgroup id)) s3) as [y s4]. cbn [fst snd] in *.
  assert (attempted id s s3) as Ha by (eapply attempted_trans; [exact Hl|by apply framed_attempted]).
  split; [etrans; [apply Ha|apply Hf]|]. intros Hi.
  destruct Hg as [Hg _]; [intros p Hp; by apply (Hi p), (at_jailed _ _ _ Ha)|].
  destruct (framed_settles _ _ Hf) as [Sj Sa Ss]. split.
  - intros p i Hp. by apply (at_jailed _ _ _ Ha), Sj.
  - intros i Hr. destruct (decide (i = id)) as [->|Hne]; [right; by apply Hg|].
    destruct (Sa i Hr) as [[?| ->]%(at_alive _ _ _ Ha)|?]; [by left|done|by right].
  - intros i Hr. by apply Ss, (at_stuck _ _ _ Ha).
Qed.

(** ** Ending a sandbox *)

Lemma run_update r f s : run (update r f) s = (tt, set_heap (alter f r (fr_records s)) s).
Proof. done. Qed.

Lemma run_deref r s : run (deref r) s = (ok_or dangling (fr_records s !! r), s).
Proof. done. Qed.

Definition end_state {A} (r : result A RuntimeError) : SandboxState := if is_ok r then Deleted else Failed.

(** The jailers of the identifier of [record] are its child. *)
Definition sole (s : FirecrackerRuntime) (record : FirecrackerSandbox) : Prop :=
  forall p, jailed s p (fx_jailer_id record) -> p = fx_child record.

(** The child has ended; and so has the machine, unless the kernel refused. *)
Record gone {A} (record : FirecrackerSandbox) (result : result A RuntimeError) (s s' : FirecrackerRuntime) : Prop := MkGone {
  gn_jailer i : ~ jailed s' (fx_child record) i;
  gn_machine : sole s record -> alive s' (fx_jailer_id record) -> stuck s' (fx_jailer_id record);
  gn_ended : sole s record -> is_ok result = true -> ~ alive s' (fx_jailer_id record);
}.

Record terminated {A} (r : Ref) (result : result A RuntimeError) (s s' : FirecrackerRuntime) : Prop := MkTerminated {
  te_tables : same_tables (set_heap (alter (set_fx_state (end_state result)) r (fr_records s)) s) s';
  te_quiet : quiet (machines s) (machines s');
  te_gone record : fr_records s !! r = Some record -> gone record result s s';
}.

(** The host's part of the end of [record], after which its state is set. *)
Definition ended (r : Ref) (record : FirecrackerSandbox) (s : FirecrackerRuntime)
    (outcome : result unit RuntimeError * FirecrackerRuntime) : Prop :=
  exists s', framed s s' /\ gone record outcome.1 s s'
    /\ outcome.2 = set_heap (alter (set_fx_state (end_state outcome.1)) r (fr_records s')) s'.

Lemma gone_framed {A} record (result : result A RuntimeError) s s1 s' :
  framed s s1 -> gone record result s1 s' -> gone record result s s'.
Proof.
  intros Hf []. assert (sole s record -> sole s1 record) as Hs.
  { intros Hs p Hp. by apply Hs, (framed_jailed _ _ _ _ Hf). }
  split; auto.
Qed.

Lemma ended_bind {A} r record (p : prog FirecrackerRuntime A) k s :
  preserves framed p -> (forall a s1, framed s s1 -> a = (run p s).1 -> s1 = (run p s).2 -> ended r record s1 (run (k a) s1)) ->
  ended r record s (run (bind p k) s).
Proof.
  intros Hp Hk. rewrite run_bind. destruct (Hk _ _ (Hp s) eq_refl eq_refl) as (s'&Hf&Hd&He).
  exists s'. split; [by etrans; [apply Hp|]|]. split; [|done]. eapply gone_framed; [apply Hp|done].
Qed.

(** The clean-up of the group, and the results of all steps. *)
Lemma ended_results r record (n j : result unit RuntimeError) s : (forall i, ~ jailed s (fx_child record) i) ->
  ended r record s (run (do c <- outside (cleanup_cgroup (fx_jailer_id record)) ;;
   do _ <- update r (set_fx_state (if is_ok n && is_ok j && is_ok c then Deleted else Failed)) ;;
   do? _ <- of_result n ;; do? _ <- of_result j ;; of_result c)%prog s).
Proof.
  intros Hd. rewrite run_bind. pose proof (framed_outside _ (respects_cleanup_cgroup quiet (fx_jailer_id record)) s) as Hf.
  pose proof (run_cleanup_cgroup (fx_jailer_id record) s) as Hg.
  destruct (run (outside (cleanup_cgroup (fx_jailer_id record))) s) as [c s']. cbn [fst snd] in *.
  exists s'. split; [done|]. split; [|by destruct n as [[]|?], j as [[]|?], c as [[]|?]].
  assert (sole s record -> forall p, ~ jailed s p (fx_jailer_id record)) as Hs.
  { intros Hs p Hp. pose proof (Hs p Hp) as ->. by apply (Hd (fx_jailer_id record)). }
  split.
  - intros i Hi. by apply (Hd i), (framed_jailed _ _ _ _ Hf).
  - intros Hsole. by apply Hg, Hs.
  - intros Hsole Hok. apply Hg; [by apply Hs|]. destruct n as [[]|?], j as [[]|?], c as [[]|?]; try discriminate Hok; done.
Qed.

Lemma run_wait_for child d i s :
  let waited := run (outside (act (process_wait_for child d)) : prog FirecrackerRuntime bool) s in
  waited.1 = true -> ~ jailed waited.2 child i.
Proof. apply (wait_for_ends child d i (machines s)). Qed.

Lemma terminate_ended r record s :
  fr_records s !! r = Some record ->
  ended r record (set_heap (alter (set_fx_state Deleting) r (fr_records s)) s) (run (terminate_record r) s).
Proof.
  intros Hr. unfold terminate_record. rewrite run_bind, run_update. cbn [fst snd].
  set (s0 := set_heap _ s). rewrite run_bind_ok, run_deref. cbn [fst snd].
  assert (fr_records s0 !! r = Some (set_fx_state Deleting record)) as ->.
  { subst s0. cbn [fr_records set_heap]. by rewrite lookup_alter_eq, Hr. }
  cbn [ok_or]. apply ended_bind; [apply framed_outside, (respects_send_json quiet)|]. intros _ s1 _ _ _.
  apply ended_bind; [framed_leaf|]. intros exited s2 _ -> ->.
  apply ended_bind; [destruct (run _ _).1; [apply preserves_ret, _|apply framed_kill]|]. intros [] s3 _ _ Hs3.
  assert (forall i, ~ jailed s3 (fx_child record) i) as Hd.
  { intros i. rewrite Hs3. pose proof (run_wait_for (fx_child record) (millis 2000) i s1) as Hw.
    change (fx_child (set_fx_state Deleting record)) with (fx_child record).
    destruct (run (outside (act (process_wait_for (fx_child record) (millis 2000)))) s1) as [[] s2];
      [by apply Hw|apply run_kill_and_wait]. }
  clear Hs3. apply ended_bind; [apply framed_delete_lease|]. intros n s4 H4 _ _.
  apply ended_bind; [apply framed_cleanup_chroot|]. intros j s5 H5 _ _.
  apply (ended_results r record n j). intros i Ha. by apply (Hd i), (framed_jailed _ _ _ _ H4), (framed_jailed _ _ _ _ H5).
Qed.

Lemma terminate_result r s : terminated r (run (terminate_record r) s).1 s (run (terminate_record r) s).2.
Proof.
  destruct (fr_records s !! r) as [record|] eqn:Hr.
  - destruct (terminate_ended r record s Hr) as (s'&[Ht Ha]&Hd&->). split.
    + pose proof (st_records _ _ Ht) as Hrec. cbn [fr_records set_heap] in Hrec.
      split; try apply Ht. cbn. rewrite Hrec. apply map_eq. intros r'.
      destruct (decide (r = r')) as [<-|Hne]; [rewrite !lookup_alter_eq, Hr; done|by rewrite !lookup_alter_ne].
    + apply Ha.
    + intros record' Hr'. assert (record' = record) as -> by congruence. by destruct Hd.
  - unfold terminate_record. rewrite run_bind, run_update. cbn [fst snd]. rewrite run_bind_ok, run_deref. cbn [fst snd].
    cbn [fr_records set_heap]. rewrite lookup_alter_eq, Hr. cbn [fmap option_fmap option_map ok_or fst snd run throw].
    assert (forall f, alter f r (fr_records s) = fr_records s) as Halter.
    { intros f. apply map_eq. intros r'.
      destruct (decide (r = r')) as [<-|Hne]; [by rewrite lookup_alter_eq, Hr|by rewrite lookup_alter_ne]. }
    split; [|done|congruence]. split; cbn; by rewrite ?Halter.
Qed.
End Launching.
