(* ===== verification/FirecrackerInv.v ===== *)
(** * The microVM runtime: the invariant of its tables

    Every jailer and every machine that runs belongs to a sandbox of the table,
    through every operation and whatever fails in it, but for machines whose
    group the kernel refused to kill; identifiers are handed out once. *)
From S2P Require Import Prelude Conc Fs FsOps Utf8 Commands Inet GuestOutput Guest.
From S2P Require Import Machines Network Rootfs Template TemplateRuntime Snapshot Core Firecracker FirecrackerOps.
From S2P Require Import FirecrackerFrame FirecrackerLaunch.

Section Invariant.
Context `{U : UuidLib} `{C : CryptoLib} `{TJ : TemplateJson} {SJ : ManifestJson}.
Context `{H : HostPrograms} `{N : NetHost} `{M : Machines} `{AJ : ApiJson} `{!ProcessLaws}.

(** The record that the table gives a sandbox. *)
Definition record_at (s : FirecrackerRuntime) (id : SandboxId) (r : Ref) (record : FirecrackerSandbox) : Prop :=
  fr_sandboxes s !! id = Some r /\ fr_records s !! r = Some record.

Record consistent (s : FirecrackerRuntime) : Prop := MkConsistent {
  co_drawn id r : fr_sandboxes s !! id = Some r -> exists n, n < fr_ids s /\ id = SandboxId_new n;
  co_valid id r : fr_sandboxes s !! id = Some r -> is_Some (fr_records s !! r);
  co_unshared id id' r : fr_sandboxes s !! id = Some r -> fr_sandboxes s !! id' = Some r -> id = id';
  co_records r : is_Some (fr_records s !! r) -> r < fr_next s;
  co_artifacts r : is_Some (fr_artifacts s !! r) -> r < fr_next s;
  co_snapshots id r : fr_snapshots s !! id = Some r -> is_Some (fr_artifacts s !! r);
  co_identity id r record : record_at s id r record -> exists n, n < fr_ids s /\ fx_jailer_id record = SandboxId_new n;
  co_own_group id r record id' r' record' : record_at s id r record -> record_at s id' r' record' ->
    fx_jailer_id record = fx_jailer_id record' -> r = r';
  co_jailed p i : jailed s p i ->
    exists id r record, record_at s id r record /\ fx_child record = p /\ fx_jailer_id record = i;
  co_owned i : alive s i -> stuck s i \/ exists id r record, record_at s id r record /\ fx_jailer_id record = i;
}.

(** What every operation but those of the ready pool does. *)
Record evolves (s s' : FirecrackerRuntime) : Prop := MkEvolves {
  ev_consistent : consistent s -> consistent s';
  ev_ids : fr_ids s <= fr_ids s';
  ev_pool : fr_ready_pool s' = fr_ready_pool s;
}.

#[export] Instance evolves_preorder : PreOrder evolves.
Proof. split; [done|]. intros a b c [] []. split; [auto|lia|congruence]. Qed.

Lemma consistent_same s s' : same_tables s s' -> settles s s' -> consistent s -> consistent s'.
Proof.
  intros [] [Hj Ha Hs] []. unfold record_at in *.
  split; unfold record_at; rewrite ?st_sandboxes, ?st_records, ?st_ids, ?st_next, ?st_artifacts, ?st_snapshots; auto.
  intros i [[?|?]%co_owned0|?]%Ha; auto.
Qed.

Lemma framed_evolves s s' : framed s s' -> evolves s s'.
Proof.
  intros Hf. pose proof Hf as [Ht _].
  split; [by apply consistent_same, framed_settles|by rewrite (st_ids _ _ Ht)|by apply Ht].
Qed.

Lemma evolves_framed {A} (p : prog FirecrackerRuntime A) : preserves framed p -> preserves evolves p.
Proof. intros Hp s. apply framed_evolves, Hp. Qed.

(** The same process and the same group. *)
Definition same_machine (a b : FirecrackerSandbox) : Prop :=
  fx_child b = fx_child a /\ fx_jailer_id b = fx_jailer_id a.

Lemma record_at_alter f r s id r' record : (forall record, same_machine record (f record)) ->
  record_at (set_heap (alter f r (fr_records s)) s) id r' record ->
  exists record0, record_at s id r' record0 /\ same_machine record0 record.
Proof.
  intros Hf [Hid Hr]. unfold record_at. cbn in *. destruct (decide (r = r')) as [<-|Hne].
  - rewrite lookup_alter_eq in Hr. destruct (fr_records s !! r) as [record0|]; [|done]. injection Hr as <-. by exists record0.
  - rewrite lookup_alter_ne in Hr by done. by exists record.
Qed.

Lemma record_at_altered f r s id r' record0 : (forall record, same_machine record (f record)) ->
  record_at s id r' record0 ->
  exists record, record_at (set_heap (alter f r (fr_records s)) s) id r' record /\ same_machine record0 record.
Proof.
  intros Hf [Hid Hr]. unfold record_at. cbn. destruct (decide (r = r')) as [<-|Hne].
  - exists (f record0). by rewrite lookup_alter_eq, Hr.
  - exists record0. by rewrite lookup_alter_ne.
Qed.

(** An update of a record that keeps its machine. *)
Lemma consistent_alter f r s : (forall record, same_machine record (f record)) ->
  consistent s -> consistent (set_heap (alter f r (fr_records s)) s).
Proof.
  intros Hf []. split; try done.
  - cbn. intros id r' Hr'. apply co_valid0 in Hr' as [record Hr']. destruct (decide (r = r')) as [<-|Hne].
    + rewrite lookup_alter_eq, Hr'. by eexists.
    + rewrite lookup_alter_ne by done. by eexists.
  - cbn. intros r' [record Hr']. apply co_records0. destruct (decide (r = r')) as [<-|Hne].
    + rewrite lookup_alter_eq in Hr'. destruct (fr_records s !! r); [by eexists|done].
    + rewrite lookup_alter_ne in Hr' by done. by eexists.
  - intros id r' record (record0&Hat&_&->)%record_at_alter; [|done]. by apply (co_identity0 id r' record0).
  - intros i1 r1 a1 i2 r2 a2 (b1&H1&_&->)%record_at_alter (b2&H2&_&->)%record_at_alter; [by eapply co_own_group0|done|done].
  - intros p i (id&r'&record0&Hat&<-&<-)%co_jailed0. destruct (record_at_altered f r s id r' record0 Hf Hat) as (record&?&[]).
    by exists id, r', record.
  - intros i [?|(id&r'&record0&Hat&<-)]%co_owned0; [by left|right].
    destruct (record_at_altered f r s id r' record0 Hf Hat) as (record&?&[]). by exists id, r', record.
Qed.

Lemma evolves_update r f : (forall record, same_machine record (f record)) -> preserves evolves (update r f).
Proof. intros Hf s. rewrite run_update. split; [by apply consistent_alter|done|done]. Qed.

(** ** Launching *)

(** What a launch adds to the records. *)
Lemma record_at_launched id spec record s s' i r record' :
  consistent s -> fr_sandboxes s !! id = None -> launched id spec record s s' ->
  record_at s' i r record' <-> i = id /\ r = fr_next s /\ record' = record \/ record_at s i r record'.
Proof.
  intros Hco Hnone [[] ? ? ? ?]. cbn in *. unfold record_at. rewrite st_sandboxes, st_records. split.
  - intros [[(<-&<-)|[Hne Hi]]%lookup_insert_Some Hr].
    + rewrite lookup_insert_eq in Hr. injection Hr as <-. by left.
    + right. split; [done|]. rewrite lookup_insert_ne in Hr; [done|]. intros Heq.
      destruct (co_valid _ Hco i r Hi) as [? ?]. pose proof (co_records _ Hco r (mk_is_Some _ _ H1)). lia.
  - intros [(->&->&->)|[Hi Hr]]; [by rewrite !lookup_insert_eq|].
    pose proof (co_records _ Hco r (mk_is_Some _ _ Hr)). rewrite !lookup_insert_ne; [done|lia|]. intros <-. congruence.
Qed.

Lemma consistent_launched id spec record s s' n :
  id = SandboxId_new n -> n < fr_ids s -> fr_sandboxes s !! id = None ->
  (forall i r a, record_at s i r a -> fx_jailer_id a <> id) ->
  launched id spec record s s' -> consistent s -> consistent s'.
Proof.
  intros Hn Hlt Hnone Hnew Hl Hco. pose proof (fun i r a => record_at_launched id spec record s s' i r a Hco Hnone Hl) as Hat.
  destruct Hl as [[] ? ? Hid Hj Ha Hs]. pose proof Hco as []. cbn in *. split.
  - intros i r. rewrite st_sandboxes, st_ids, lookup_insert_Some. intros [(<-&<-)|[_ Hr]]; [by exists n|eauto].
  - intros i r. rewrite st_sandboxes, st_records, lookup_insert_Some. intros [(<-&<-)|[_ Hr]].
    + by rewrite lookup_insert_eq.
    + rewrite lookup_insert_is_Some. destruct (decide (fr_next s = r)); eauto.
  - assert (forall i, fr_sandboxes s !! i <> Some (fr_next s)) as Hfree.
    { intros i Hr. apply co_valid0, co_records0 in Hr. lia. }
    intros i i' r. rewrite st_sandboxes, !lookup_insert_Some.
    intros [(<-&<-)|[? Hr]] [(<-&Hr')|[? Hr']]; [done|by apply Hfree in Hr'|subst r; by apply Hfree in Hr|eauto].
  - intros r. rewrite st_records, st_next, lookup_insert_is_Some. intros [->|[_ Hr%co_records0]]; lia.
  - intros r. rewrite st_artifacts, st_next. intros Hr%co_artifacts0. lia.
  - intros i r. rewrite st_artifacts, st_snapshots. apply co_snapshots0.
  - intros i r a [(_&_&->)|?]%Hat; rewrite st_ids; [exists n; by rewrite Hid|eauto].
  - intros i1 r1 a1 i2 r2 a2 [(_&->&->)|H1]%Hat [(_&->&->)|H2]%Hat; [done| | |eauto]; rewrite Hid; intros Heq.
    + by destruct (Hnew i2 r2 a2).
    + by destruct (Hnew i1 r1 a1).
  - intros p i [(i'&r&a&?&?&?)%co_jailed0|[-> ->]]%Hj.
    + exists i', r, a. split; [|done]. apply Hat. by right.
    + exists id, (fr_next s), record. split; [|done]. apply Hat. by left.
  - intros i [[?|(i'&r&a&?&?)]%co_owned0| ->]%Ha; [left; by apply Hs| |]; right.
    + exists i', r, a. split; [|done]. apply Hat. by right.
    + exists id, (fr_next s), record. split; [|done]. apply Hat. by left.
Qed.

(** The handle of a sandbox created between [s] and [s']. *)
Definition new_handle (s s' : FirecrackerRuntime) (handle : SandboxHandle) : Prop :=
  exists n, fr_ids s <= n < fr_ids s' /\ sh_sandbox_id handle = SandboxId_new n.

Lemma new_handle_mono s1 s2 s3 s4 handle :
  fr_ids s1 <= fr_ids s2 -> fr_ids s3 <= fr_ids s4 -> new_handle s2 s3 handle -> new_handle s1 s4 handle.
Proof. intros ?? (n&?&?). exists n. split; [lia|done]. Qed.

Definition one_new (s : FirecrackerRuntime) (outcome : result SandboxHandle RuntimeError * FirecrackerRuntime) : Prop :=
  evolves s outcome.2 /\ match outcome.1 with Ok handle => new_handle s outcome.2 handle | Err _ => True end.

Lemma one_new_bind {A} (p : prog FirecrackerRuntime A) k s :
  preserves evolves p -> (forall a s1, one_new s1 (run (k a) s1)) -> one_new s (run (bind p k) s).
Proof.
  intros Hp Hk. rewrite run_bind. pose proof (Hp s) as He. destruct (Hk (run p s).1 (run p s).2) as [He2 Hn].
  split; [by etrans|]. destruct (run (k _) _).1; [|done]. eapply new_handle_mono, Hn; [apply He|done].
Qed.

Lemma one_new_bind_ok {A} (p : prog FirecrackerRuntime (result A RuntimeError)) k s :
  preserves evolves p -> (forall a s1, one_new s1 (run (k a) s1)) -> one_new s (run (bind_ok p k) s).
Proof. intros Hp Hk. apply one_new_bind; [done|]. intros [a|e] s1; [apply Hk|]. by split. Qed.

Lemma undrawn s : consistent s -> fr_sandboxes s !! SandboxId_new (fr_ids s) = None.
Proof.
  intros []. apply eq_None_not_Some. intros [r (n&Hn&Heq%SandboxId_new_inj)%co_drawn0]. lia.
Qed.

Lemma undrawn_group s i r a : consistent s -> record_at s i r a -> fx_jailer_id a <> SandboxId_new (fr_ids s).
Proof. intros Hco (n&?&->)%(co_identity _ Hco) Heq%SandboxId_new_inj. lia. Qed.

Lemma undrawn_idle s p : consistent s -> ~ jailed s p (SandboxId_new (fr_ids s)).
Proof. intros Hco (i&r&a&Hat&_&Heq)%(co_jailed _ Hco). by apply (undrawn_group s i r a Hco Hat). Qed.

(** Drawing an identifier. *)
Lemma consistent_drawn n l s : fr_ids s <= n -> consistent s -> consistent (set_counters n l (fr_next s) s).
Proof.
  intros Hle []. split; try done.
  - intros id r Hr. destruct (co_drawn0 id r Hr) as (k&?&?). exists k. split; [cbn; lia|done].
  - intros id r a Hr. destruct (co_identity0 id r a Hr) as (k&?&?). exists k. split; [cbn; lia|done].
Qed.

Lemma evolves_new_sandbox_id : preserves evolves new_sandbox_id.
Proof. intros s. split; [|cbn; lia|done]. by apply consistent_drawn; lia. Qed.

Lemma one_new_launch spec assets restore capture s :
  one_new s (run (do id <- new_sandbox_id ;; launch spec id assets restore capture)%prog s).
Proof.
  rewrite run_bind. pose proof (evolves_new_sandbox_id s) as He. set (s1 := (run new_sandbox_id s).2) in *.
  change (run new_sandbox_id s).1 with (SandboxId_new (fr_ids s)).
  pose proof (launch_result spec (SandboxId_new (fr_ids s)) assets restore capture s1) as Hl.
  destruct (run (launch _ _ _ _ _) s1) as [[handle|e] s2]; cbn in Hl.
  - destruct Hl as (->&record&Hl).
    pose proof (la_tables _ _ _ _ _ Hl) as Ht. pose proof (st_ids _ _ Ht) as Hi. pose proof (st_pool _ _ Ht) as Hp.
    split; cbn [fst snd].
    + split; [|rewrite Hi; cbn; lia|by rewrite Hp]. intros Hco.
      apply (consistent_launched (SandboxId_new (fr_ids s)) spec record s1 s2 (fr_ids s)); [done| | | |exact Hl|by apply He].
      * subst s1. cbn. lia.
      * by apply (undrawn s).
      * intros i r a. by apply (undrawn_group s).
    + exists (fr_ids s). rewrite Hi. split; [cbn; lia|done].
  - destruct Hl as [Ht Hs]. split; [|done]. cbn [snd]. destruct He as [Hc Hi Hp]. split.
    + intros Hco. apply (consistent_same s1); [done| |by apply Hc]. apply Hs. intros p. by apply (undrawn_idle s).
    + by rewrite (st_ids _ _ Ht).
    + by rewrite (st_pool _ _ Ht).
Qed.

(** ** Ending *)

(** The jailers of a sandbox's identifier are its own. *)
Lemma consistent_sole s id r record : consistent s -> record_at s id r record -> sole s record.
Proof.
  intros Hco Hat p (id'&r'&record'&Hat'&<-&Heq)%(co_jailed _ Hco).
  pose proof (co_own_group _ Hco _ _ _ _ _ _ Hat' Hat Heq) as ->. destruct Hat, Hat'. congruence.
Qed.

(** The process of a record has ended, and its machine, unless the kernel
    refused. *)
Definition dead (s : FirecrackerRuntime) (record : FirecrackerSandbox) : Prop :=
  (forall i, ~ jailed s (fx_child record) i) /\ (alive s (fx_jailer_id record) -> stuck s (fx_jailer_id record)).

(** A change of the table that gives no sandbox a new identifier or a new
    record, and drops only those whose machine ended. *)
Lemma consistent_retable T s s' :
  same_tables (set_table T s) s' -> quiet (machines s) (machines s') ->
  (forall id r, T !! id = Some r -> is_Some (fr_sandboxes s !! id) /\ exists id', fr_sandboxes s !! id' = Some r) ->
  (forall id id' r, T !! id = Some r -> T !! id' = Some r -> id = id') ->
  (forall id r record, record_at s id r record -> (exists id', T !! id' = Some r) \/ dead s' record) ->
  consistent s -> consistent s'.
Proof.
  intros [] [Hj Ha Hs] Hold Hinj Hdead []. cbn in *.
  assert (forall id r a, record_at s' id r a -> exists id', record_at s id' r a) as Hat.
  { unfold record_at. rewrite st_sandboxes, st_records. intros id r a [[_ [id' Hid]]%Hold Hr]. by exists id'. }
  assert (forall id r a, record_at s id r a -> (exists id', record_at s' id' r a) \/ dead s' a) as Hkept.
  { intros id r a Hi. destruct (Hdead id r a Hi) as [[id' Hid']|]; [left|by right]. exists id'. unfold record_at.
    rewrite st_sandboxes, st_records. split; [done|apply Hi]. }
  split.
  - intros id r. rewrite st_sandboxes, st_ids. intros [[r' Hr'] _]%Hold. by apply (co_drawn0 _ r').
  - intros id r. rewrite st_sandboxes, st_records. intros [_ [id' Hr]]%Hold. by apply (co_valid0 id').
  - intros id id' r. rewrite st_sandboxes. apply Hinj.
  - intros r. rewrite st_records, st_next. apply co_records0.
  - intros r. rewrite st_artifacts, st_next. apply co_artifacts0.
  - intros i r. rewrite st_snapshots, st_artifacts. apply co_snapshots0.
  - intros id r a [id' Hi]%Hat. rewrite st_ids. eauto.
  - intros i1 r1 a1 i2 r2 a2 [j1 H1]%Hat [j2 H2]%Hat. eauto.
  - intros p i Hp. destruct (co_jailed0 p i (Hj p i Hp)) as (id&r&a&Hi&<-&<-).
    destruct (Hkept id r a Hi) as [[id' Hid']|[Hd _]]; [by exists id', r, a|by destruct (Hd (fx_jailer_id a))].
  - intros i Hi. destruct (co_owned0 i (Ha i Hi)) as [?|(id&r&a&Hat'&<-)]; [left; by apply Hs|].
    destruct (Hkept id r a Hat') as [[id' Hid']|[_ Hd]]; [right; by exists id', r, a|left; by apply Hd].
Qed.

(** The end of the machine behind [r], which the new table [T] does not have. *)
Lemma consistent_terminated {A} T r (result : result A RuntimeError) s s' :
  terminated r result (set_table T s) s' ->
  (forall id r', T !! id = Some r' -> is_Some (fr_sandboxes s !! id) /\ exists id', fr_sandboxes s !! id' = Some r') ->
  (forall id id' r', T !! id = Some r' -> T !! id' = Some r' -> id = id') ->
  (forall id r', fr_sandboxes s !! id = Some r' -> r' = r \/ exists id', T !! id' = Some r') ->
  consistent s -> consistent s'.
Proof.
  intros [Ht Hq Hd] Hold Hinj Hkept Hco. set (f := set_fx_state (end_state result)) in *.
  set (m := set_host (fr_net s') (fr_vms s') (set_table T s)).
  assert (consistent m) as Hm.
  { eapply (consistent_retable T s m); [done|apply Hq|done|done| |done]. intros id r' record Hat.
    pose proof Hat as [Hid Hr']. destruct (Hkept id r' Hid) as [->|]; [|by left]. right.
    destruct (Hd record Hr') as [Hj Ha _]. split; [exact Hj|]. apply Ha. by apply (consistent_sole s id r record). }
  apply (consistent_alter f r) in Hm; [|done]. revert Hm. apply consistent_same; [|split; [done|by left|done]].
  etrans; [|exact Ht]. done.
Qed.

Definition remove_entry (id : SandboxId) (s : FirecrackerRuntime) : FirecrackerRuntime :=
  set_table (delete id (fr_sandboxes s)) s.

Lemma run_fc_delete id s :
  run (fc_delete id) s =
  match fr_sandboxes s !! id with
  | Some r => run (terminate_record r) (remove_entry id s)
  | None => (Err (RuntimeError_not_found "sandbox does not exist"), remove_entry id s)
  end.
Proof.
  unfold fc_delete. rewrite run_bind_ok, run_act. cbn [fst snd]. by destruct (fr_sandboxes s !! id).
Qed.

Lemma delete_absent id s : fr_sandboxes s !! id = None -> remove_entry id s = s.
Proof. intros. unfold remove_entry, set_table. rewrite delete_id by done. by destruct s. Qed.

Lemma evolves_delete id : preserves evolves (fc_delete id).
Proof.
  intros s. rewrite run_fc_delete. destruct (fr_sandboxes s !! id) as [r|] eqn:Hr; [|by rewrite delete_absent].
  pose proof (terminate_result r (remove_entry id s)) as Hte. pose proof (te_tables _ _ _ _ Hte) as Ht.
  split; [|by rewrite (st_ids _ _ Ht)|by rewrite (st_pool _ _ Ht)]. intros Hco. pose proof Hco as [].
  eapply consistent_terminated; [exact Hte| | | |done].
  - intros id' r' [_ Hr']%lookup_delete_Some. split; [by eexists|eauto].
  - intros i i' r' [_ Hi]%lookup_delete_Some [_ Hi']%lookup_delete_Some. eauto.
  - intros id' r' Hr'. destruct (decide (id' = id)) as [->|Hne]; [left; congruence|right].
    exists id'. by rewrite lookup_delete_ne.
Qed.

(** ** The steps of the operations *)

Lemma evolves_record_of id : preserves evolves (record_of id).
Proof. by intros s. Qed.

Lemma evolves_deref r : preserves evolves (deref r).
Proof. by intros s. Qed.

Lemma evolves_snapshot_record id : preserves evolves (snapshot_record id).
Proof. by intros s. Qed.

Lemma evolves_guest_client id : preserves evolves (guest_client id).
Proof.
  unfold guest_client. repeat first [apply evolves_record_of | apply evolves_deref | preserves_step].
Qed.

Lemma evolves_reconnect r : preserves evolves (reconnect_guest r).
Proof.
  unfold reconnect_guest.
  repeat first [ apply evolves_deref | apply evolves_framed, framed_config | by apply evolves_update
               | apply evolves_framed, framed_outside, (respects_wait_for_guest quiet) | preserves_step ].
Qed.

Lemma evolves_in_use f : preserves evolves (modify (fun s => set_in_use (f s) s)).
Proof. intros s. split; [|done|done]. by intros []. Qed.

Lemma evolves_with_artifact {A} r (p : SnapshotArtifact -> prog FirecrackerRuntime (result A RuntimeError)) :
  (forall artifact, preserves evolves (p artifact)) -> preserves evolves (with_artifact r p).
Proof.
  intros Hp. unfold with_artifact.
  repeat first [apply evolves_in_use | apply evolves_framed, framed_gets | apply Hp | preserves_step].
Qed.

Lemma framed_checked_token artifact : preserves framed (checked_token artifact).
Proof. unfold checked_token. repeat first [framed_leaf | preserves_step]. Qed.

Lemma evolves_snapshot_id : preserves evolves new_snapshot_id.
Proof.
  intros s. split; [|cbn; lia|done]. by apply consistent_drawn; lia.
Qed.

Lemma evolves_remember id artifact : preserves evolves (remember_snapshot id artifact).
Proof.
  intros s. split; [|done|done]. intros []. split; cbn; try done.
  - intros r Hr%co_records0. lia.
  - intros r [->|[_ Hr%co_artifacts0]]%lookup_insert_is_Some; lia.
  - intros i r. rewrite lookup_insert_Some, lookup_insert_is_Some.
    intros [(<-&<-)|[_ Hr]]; [by left|]. destruct (decide (fr_next s = r)); eauto.
Qed.

Lemma evolves_forget f : (forall m i r, f m !! i = Some r -> m !! i = Some r) ->
  preserves evolves (modify (fun s => set_snapshot_table (f (fr_snapshots s)) (fr_artifacts s) s)).
Proof. intros Hf s. split; [|done|done]. intros []. split; try done. intros i r Hr%Hf. by apply (co_snapshots0 i). Qed.
End Invariant.

Ltac evolves_leaf :=
  match goal with
  | |- preserves evolves (record_of _) => apply evolves_record_of
  | |- preserves evolves (snapshot_record _) => apply evolves_snapshot_record
  | |- preserves evolves (deref _) => apply evolves_deref
  | |- preserves evolves (update _ _) => apply evolves_update; intros []; split; reflexivity
  | |- preserves evolves (guest_client _) => apply evolves_guest_client
  | |- preserves evolves (reconnect_guest _) => apply evolves_reconnect
  | |- preserves evolves (with_artifact _ _) => apply evolves_with_artifact; intros ?
  | |- preserves evolves (checked_token _) => apply evolves_framed, framed_checked_token
  | |- preserves evolves new_snapshot_id => apply evolves_snapshot_id
  | |- preserves evolves (remember_snapshot _ _) => apply evolves_remember
  | |- preserves evolves (fc_delete _) => apply evolves_delete
  | |- preserves evolves (vm_patch _ _) => apply evolves_framed, framed_patch
  | |- preserves evolves (vm_snapshot _ _) => apply evolves_framed, framed_vm_snapshot
  | |- preserves evolves new_token => apply evolves_framed, framed_new_token
  | |- preserves evolves (rekey_connected_guest _ _ _ _ _) => apply evolves_framed, framed_rekey_connected
  | |- preserves evolves (modify (fun s => set_in_use _ s)) => apply (evolves_in_use _)
  | |- preserves evolves _ => apply evolves_framed; framed_leaf
  end.
Ltac evolves_tac := repeat first [evolves_leaf | preserves_step].

Section Operations.
Context `{U : UuidLib} `{C : CryptoLib} `{TJ : TemplateJson} {SJ : ManifestJson}.
Context `{H : HostPrograms} `{N : NetHost} `{M : Machines} `{AJ : ApiJson} `{!ProcessLaws}.

Lemma evolves_execute id request : preserves evolves (fc_execute id request).
Proof. unfold fc_execute, execute_measured. evolves_tac. Qed.

Lemma evolves_signal id request : preserves evolves (fc_signal id request).
Proof. unfold fc_signal. evolves_tac. Qed.

Lemma evolves_write id request : preserves evolves (fc_write id request).
Proof. unfold fc_write. evolves_tac. Qed.

Lemma evolves_read id request : preserves evolves (fc_read id request).
Proof. unfold fc_read. evolves_tac. Qed.

Lemma evolves_list id request : preserves evolves (fc_list id request).
Proof. unfold fc_list. evolves_tac. Qed.

Lemma evolves_pause id : preserves evolves (fc_pause id).
Proof. unfold fc_pause. evolves_tac. Qed.

Lemma evolves_resume id : preserves evolves (fc_resume id).
Proof. unfold fc_resume. evolves_tac. Qed.

Lemma evolves_capture r record snapshot_id id name : preserves evolves (capture r record snapshot_id id name).
Proof. unfold capture. evolves_tac. Qed.

Lemma evolves_create_snapshot id request : preserves evolves (fc_create_snapshot id request).
Proof. unfold fc_create_snapshot. repeat first [apply evolves_capture | evolves_leaf | preserves_step]. Qed.

Lemma evolves_list_snapshots id : preserves evolves (fc_list_snapshots id).
Proof. unfold fc_list_snapshots. evolves_tac. Qed.

Lemma evolves_get_snapshot id : preserves evolves (fc_get_snapshot id).
Proof. unfold fc_get_snapshot. evolves_tac. Qed.

Lemma evolves_verify_snapshot id : preserves evolves (fc_verify_snapshot id).
Proof. unfold fc_verify_snapshot. evolves_tac. Qed.

Lemma evolves_delete_snapshot id : preserves evolves (fc_delete_snapshot id).
Proof.
  assert (forall (m : gmap SnapshotId Ref) i r, delete id m !! i = Some r -> m !! i = Some r) as Hd.
  { by intros m i r [_ ?]%lookup_delete_Some. }
  unfold fc_delete_snapshot. apply preserves_bind_ok; [apply _|evolves_leaf|]. intros r.
  apply preserves_bind_ok; [apply _| |].
  { apply preserves_act. intros s. destruct (bool_decide (r ∈ fr_in_use s)); [done|].
    apply (evolves_in_use (fun s => {[r]} ∪ fr_in_use s) s). }
  intros _. repeat first [apply (evolves_forget (delete id) Hd) | evolves_leaf | preserves_step].
Qed.

Lemma framed_resolve reference : preserves framed (resolve_template_reference reference).
Proof. unfold resolve_template_reference. repeat first [framed_leaf | preserves_step]. Qed.

Lemma framed_snapshot_available : preserves framed snapshot_available.
Proof.
  unfold snapshot_available. apply preserves_bind; [apply _|apply framed_config|].
  intros [root|]; [|apply preserves_ret, _]. unfold snapshot_paths. apply framed_files.
Qed.

Lemma one_new_create_fresh spec s : one_new s (run (create_fresh spec) s).
Proof.
  unfold create_fresh. apply one_new_bind_ok; [apply preserves_ret, _|]. intros _ s1.
  apply one_new_bind_ok; [apply evolves_framed, framed_resolve|]. intros resolved s2.
  apply one_new_bind.
  { destruct (pool_eligible _); [apply evolves_framed, framed_snapshot_available|apply preserves_ret, _]. }
  intros available s3. apply one_new_bind; [apply evolves_framed, framed_config|]. intros root s4.
  apply one_new_launch.
Qed.

Lemma one_new_from_artifact artifact token s : one_new s (run (create_from_snapshot_artifact artifact token) s).
Proof.
  unfold create_from_snapshot_artifact. apply one_new_bind; [apply evolves_framed, framed_config|]. intros assets s1.
  apply one_new_launch.
Qed.

(** Handles that were all created between [s] and [s']. *)
Definition fresh_handles (s s' : FirecrackerRuntime) (handles : list SandboxHandle) : Prop :=
  Forall (new_handle s s') handles /\ NoDup (map sh_sandbox_id handles).

Lemma fresh_snoc s0 s s' handles handle : fr_ids s0 <= fr_ids s -> fr_ids s <= fr_ids s' ->
  fresh_handles s0 s handles -> new_handle s s' handle -> fresh_handles s0 s' (handles ++ [handle]).
Proof.
  intros ?? [Hf Hn] Hh. split.
  - apply Forall_app. split; [|constructor; [by eapply new_handle_mono, Hh|done]].
    eapply Forall_impl; [exact Hf|]. intros h. by apply new_handle_mono.
  - rewrite map_app. apply NoDup_app. split; [done|]. split; [|apply NoDup_singleton].
    intros i (h&->&Hi)%list_elem_of_fmap Heq%list_elem_of_singleton.
    rewrite Forall_forall in Hf. destruct (Hf h Hi) as (n&Hn1&Hn2), Hh as (m&Hm1&Hm2).
    rewrite Hn2, Hm2 in Heq. apply SandboxId_new_inj in Heq. lia.
Qed.

Definition many_new (s : FirecrackerRuntime) (outcome : result (list SandboxHandle) RuntimeError * FirecrackerRuntime) : Prop :=
  evolves s outcome.2 /\ match outcome.1 with Ok handles => fresh_handles s outcome.2 handles | Err _ => True end.

Lemma evolves_abandon handles : preserves evolves (abandon handles).
Proof. induction handles as [|handle handles IH]; cbn [abandon]; repeat first [apply IH | evolves_leaf | preserves_step]. Qed.

Lemma clone_loop_new count artifact token : forall handles s0 s,
  evolves s0 s -> fresh_handles s0 s handles -> many_new s0 (run (clone_loop count artifact token handles) s).
Proof.
  induction count as [|count IH]; intros handles s0 s He Hf; cbn [clone_loop]; [done|].
  rewrite run_bind. destruct (one_new_from_artifact artifact token s) as [He1 Hn].
  destruct (run (create_from_snapshot_artifact artifact token) s) as [[handle|e] s1]; cbn [fst snd] in *.
  - apply IH; [by etrans|]. eapply fresh_snoc; [apply He|apply He1|done|done].
  - rewrite run_bind. split; [|done]. cbn. etrans; [exact He|]. etrans; [exact He1|]. apply evolves_abandon.
Qed.

Lemma many_new_with_artifact r (p : SnapshotArtifact -> prog FirecrackerRuntime (result (list SandboxHandle) RuntimeError)) s :
  (forall artifact s, many_new s (run (p artifact) s)) -> many_new s (run (with_artifact r p) s).
Proof.
  intros Hp. unfold with_artifact. rewrite run_bind.
  pose proof (evolves_in_use (fun s => {[r]} ∪ fr_in_use s) s) as H1. set (s1 := (run (modify _) s).2) in *.
  rewrite run_bind_ok. cbn [run gets act fst snd]. destruct (ok_or dangling (fr_artifacts s1 !! r)) as [artifact|e]; [|done].
  rewrite run_bind. destruct (Hp artifact s1) as [H2 Hn]. destruct (run (p artifact) s1) as [result s2]. cbn [fst snd] in *.
  rewrite run_bind. cbn [run modify act fst snd]. split; cbn [fst snd].
  - etrans; [exact H1|]. etrans; [exact H2|]. apply (evolves_in_use (fun s => fr_in_use s ∖ {[r]}) s2).
  - destruct result; [|done]. exact Hn.
Qed.

Lemma many_new_clone id count s : many_new s (run (fc_clone_snapshot id count) s).
Proof.
  unfold fc_clone_snapshot. destruct (in_range 1 32 count); cbn [negb]; [|done].
  rewrite run_bind_ok. cbn [run snapshot_record gets act fst snd].
  destruct (ok_or _ (fr_snapshots s !! id)) as [r|e]; [|done]. apply many_new_with_artifact. intros artifact s1.
  rewrite run_bind_ok. pose proof (framed_checked_token artifact s1) as Hf%framed_evolves.
  destruct (run (checked_token artifact) s1) as [[token|e] s2]; cbn [fst snd] in *; [|done].
  destruct (clone_loop_new (Z.to_nat count) artifact token [] s2 s2) as [He Hn]; [done|by split; constructor|].
  split; [by etrans|]. destruct (run (clone_loop _ _ _ _) s2) as [[handles|e] s3]; [|done]. cbn [fst snd] in *.
  destruct Hn as [Hn Hd]. split; [|done]. eapply Forall_impl; [exact Hn|]. intros h. apply new_handle_mono; [apply Hf|done].
Qed.

Lemma one_new_restore id s : one_new s (run (fc_restore_snapshot id) s).
Proof.
  unfold fc_restore_snapshot. rewrite run_bind_ok. destruct (many_new_clone id 1 s) as [He Hn].
  destruct (run (fc_clone_snapshot id 1) s) as [[handles|e] s1]; [|done]. cbn [fst snd] in *. split; [done|].
  cbn [run of_result fst snd]. destruct (last handles) as [handle|] eqn:Hl; [|done]. cbn.
  apply last_Some_elem_of in Hl. destruct Hn as [Hn _]. rewrite Forall_forall in Hn. by apply Hn.
Qed.

(** The table after the replacement took the place of the source. *)
Definition swapped (id replacement_id : SandboxId) (replacement : Ref) (s : FirecrackerRuntime) : gmap SandboxId Ref :=
  <[id := replacement]> (delete replacement_id (delete id (fr_sandboxes s))).

Lemma run_swap id replacement_id source replacement s :
  (fr_sandboxes s !! id = Some source /\ fr_sandboxes s !! replacement_id = Some replacement
   /\ run (swap id replacement_id source replacement) s = (Ok tt, set_table (swapped id replacement_id replacement s) s))
  \/ (~ (fr_sandboxes s !! id = Some source /\ fr_sandboxes s !! replacement_id = Some replacement)
   /\ run (swap id replacement_id source replacement) s
      = (Err (conflict "sandbox changed while rollback was preparing"), s)).
Proof.
  unfold swap. rewrite run_act. destruct (bool_decide_reflect (fr_sandboxes s !! id = Some source)); cbn [negb orb];
    [|right; naive_solver].
  destruct (bool_decide_reflect (fr_sandboxes s !! replacement_id = Some replacement)); cbn [negb]; [|right; naive_solver].
  by left.
Qed.

Lemma evolves_swapped id replacement_id source replacement s :
  fr_sandboxes s !! id = Some source -> fr_sandboxes s !! replacement_id = Some replacement ->
  evolves s (run (terminate_record source) (set_table (swapped id replacement_id replacement s) s)).2.
Proof.
  intros Hs Hr. pose proof (terminate_result source (set_table (swapped id replacement_id replacement s) s)) as Hte.
  pose proof (te_tables _ _ _ _ Hte) as Ht. split; [|by rewrite (st_ids _ _ Ht)|by rewrite (st_pool _ _ Ht)].
  intros Hco. pose proof Hco as []. unfold swapped in *. eapply consistent_terminated; [exact Hte| | | |done].
  - intros i r [(<-&<-)|(_&[_ [_ Hi]%lookup_delete_Some]%lookup_delete_Some)]%lookup_insert_Some; eauto.
  - intros i i' r [(<-&<-)|(Hne&[Hni [_ Hi]%lookup_delete_Some]%lookup_delete_Some)]%lookup_insert_Some
      [(<-&Hi')|(Hne'&[Hni' [_ Hi']%lookup_delete_Some]%lookup_delete_Some)]%lookup_insert_Some; [done| | |eauto].
    + by destruct (co_unshared0 _ _ _ Hr Hi').
    + subst r. by destruct (co_unshared0 _ _ _ Hr Hi).
  - intros i r Hi. destruct (decide (i = id)) as [->|Hne]; [left; congruence|]. right.
    destruct (decide (i = replacement_id)) as [->|Hnr].
    + exists id. rewrite lookup_insert_eq. congruence.
    + exists i. by rewrite lookup_insert_ne, !lookup_delete_ne.
Qed.

(** The second half of a rollback, in which the replacement exists. *)
Definition replace_with (sandbox_id replacement_id : SandboxId) (source : Ref) :
  prog FirecrackerRuntime (result SandboxHandle RuntimeError) :=
  (do? replacement <- record_of replacement_id ;;
   do? record <- deref replacement ;;
   do replacement_token <- new_token ;;
   do rekeyed <- rekey_connected_guest sandbox_id (fx_guest_client record) (fx_guest_token record)
     replacement_token (from_lease (fx_network record)) ;;
   match rekeyed with
   | Err error => do _ <- fc_delete replacement_id ;; throw error
   | Ok _ =>
       do _ <- update replacement (set_fx_token replacement_token) ;;
       do swapped <- swap sandbox_id replacement_id source replacement ;;
       match swapped with
       | Err error => do _ <- fc_delete replacement_id ;; throw error
       | Ok _ =>
           do _ <- terminate_record source ;;
           do node <- config cf_node_id ;;
           ok (MkSandboxHandle sandbox_id node Running)
       end
   end)%prog.

Lemma evolves_then {A B} (p : prog FirecrackerRuntime A) (k : A -> prog FirecrackerRuntime B) s s0 :
  evolves s0 (run p s).2 -> (forall a, preserves evolves (k a)) -> evolves s0 (run (bind p k) s).2.
Proof. intros Hp Hk. rewrite run_bind. etrans; [exact Hp|apply Hk]. Qed.

Lemma evolves_swap_step id replacement_id source replacement :
  preserves evolves (do swapped <- swap id replacement_id source replacement ;;
    match swapped with
    | Err error => do _ <- fc_delete replacement_id ;; throw error
    | Ok _ =>
        do _ <- terminate_record source ;;
        do node <- config cf_node_id ;;
        ok (MkSandboxHandle id node Running)
    end)%prog.
Proof.
  intros s. rewrite run_bind. destruct (run_swap id replacement_id source replacement s) as [(Hs&Hr&->)|[_ ->]]; cbn [fst snd].
  - apply evolves_then; [by apply evolves_swapped|]. intros r. evolves_tac.
  - apply evolves_then; [apply evolves_delete|]. intros r. evolves_tac.
Qed.

Lemma evolves_replace id replacement_id source : preserves evolves (replace_with id replacement_id source).
Proof.
  unfold replace_with.
  repeat first
    [ match goal with |- preserves evolves (bind (swap _ _ _ _) _) => apply evolves_swap_step end
    | evolves_leaf | preserves_step ].
Qed.

Lemma evolves_from_artifact artifact token : preserves evolves (create_from_snapshot_artifact artifact token).
Proof. intros s. apply one_new_from_artifact. Qed.

Lemma evolves_rollback id snapshot_id : preserves evolves (fc_rollback_snapshot id snapshot_id).
Proof.
  change (preserves evolves (do? source <- record_of id ;;
   do? source_record <- deref source ;;
   if negb (can_capture (fx_state source_record))
   then throw (conflict "sandbox must be running or paused to roll back")
   else
   do? r <- snapshot_record snapshot_id ;;
   do? replacement_handle <- with_artifact r (fun snapshot =>
     if negb (bool_decide (source_sandbox_id snapshot = id))
     then throw (conflict "snapshot belongs to another sandbox")
     else
     do? token <- checked_token snapshot ;;
     create_from_snapshot_artifact snapshot token) ;;
   replace_with id (sh_sandbox_id replacement_handle) source)%prog).
  repeat first
    [ match goal with
      | |- preserves evolves (replace_with _ _ _) => apply evolves_replace
      | |- preserves evolves (create_from_snapshot_artifact _ _) => apply evolves_from_artifact
      end
    | evolves_leaf | preserves_step ].
Qed.

(** ** The ready pool *)

Lemma evolves_warm handle : preserves evolves (warm_ready_sandbox handle).
Proof.
  unfold warm_ready_sandbox. cbn [for_each].
  repeat first
    [ match goal with |- preserves evolves (fc_execute _ _) => apply evolves_execute end
    | evolves_leaf | preserves_step ].
Qed.

Lemma one_new_create_warm spec s : one_new s (run (create_warm spec) s).
Proof.
  unfold create_warm. rewrite run_bind_ok. destruct (one_new_create_fresh spec s) as [He Hn].
  destruct (run (create_fresh spec) s) as [[handle|e] s1]; cbn [fst snd] in *; [|done].
  rewrite run_bind. pose proof (evolves_warm handle s1) as Hw.
  destruct (run (warm_ready_sandbox handle) s1) as [[[]|e] s2]; cbn [fst snd] in *.
  - split; cbn; [by etrans|]. eapply new_handle_mono, Hn; [done|apply Hw].
  - rewrite run_bind. split; [|done]. etrans; [exact He|]. etrans; [exact Hw|]. apply evolves_delete.
Qed.

Lemma fresh_app s0 s1 s2 l l' : fr_ids s0 <= fr_ids s1 -> fr_ids s1 <= fr_ids s2 ->
  fresh_handles s0 s1 l -> fresh_handles s1 s2 l' -> fresh_handles s0 s2 (l ++ l').
Proof.
  intros ?? [Hf Hn] [Hf' Hn']. split.
  - apply Forall_app. split; [eapply Forall_impl; [exact Hf|]|eapply Forall_impl; [exact Hf'|]];
      intros h; by apply new_handle_mono.
  - rewrite map_app. apply NoDup_app. split; [done|]. split; [|done].
    intros i (h&->&Hi)%list_elem_of_fmap (h'&Heq&Hi')%list_elem_of_fmap.
    rewrite Forall_forall in Hf, Hf'. destruct (Hf h Hi) as (n&?&Hn1), (Hf' h' Hi') as (m&?&Hm1).
    rewrite Hn1, Hm1 in Heq. apply SandboxId_new_inj in Heq. lia.
Qed.

Lemma fresh_one s s' handle : new_handle s s' handle -> fresh_handles s s' [handle].
Proof. intros Hn. split; [by constructor|apply NoDup_singleton]. Qed.

Lemma many_new_map {X} (l : list X) (body : X -> prog FirecrackerRuntime (result SandboxHandle RuntimeError)) s :
  (forall x s, one_new s (run (body x) s)) -> many_new s (run (map_prog l body) s).
Proof.
  intros Hb. revert s. induction l as [|x l IH]; intros s; cbn [map_prog]; [by split; [|split; constructor]|].
  rewrite run_bind_ok. destruct (Hb x s) as [He Hn]. destruct (run (body x) s) as [[h|e] s1]; cbn [fst snd] in *; [|done].
  rewrite run_bind_ok. destruct (IH s1) as [He' Hn'].
  destruct (run (map_prog l body) s1) as [[hs|e] s2]; cbn [fst snd run] in *; [|split; [by etrans|done]].
  split; [by etrans|]. cbn [fst snd]. apply (fresh_app s s1 s2 [h] hs); [apply He|apply He'|by apply fresh_one|done].
Qed.

(** The handles [issued] to a client and those that stay in the pool are those
    that were in the pool and new ones. *)
Record hands_out (issued : list SandboxHandle) (s s' : FirecrackerRuntime) : Prop := MkHandsOut {
  ho_consistent : consistent s -> consistent s';
  ho_ids : fr_ids s <= fr_ids s';
  ho_handles : exists fresh, fresh_handles s s' fresh
    /\ issued ++ fr_ready_pool s' ≡ₚ fr_ready_pool s ++ fresh;
}.

Lemma fresh_nil s s' : fresh_handles s s' [].
Proof. split; constructor. Qed.

Lemma hands_out_evolves s s' : evolves s s' -> hands_out [] s s'.
Proof. intros []. split; [done..|]. exists []. split; [apply fresh_nil|]. by rewrite ev_pool0, app_nil_r. Qed.

Lemma hands_out_new s s' handles : evolves s s' -> fresh_handles s s' handles -> hands_out handles s s'.
Proof. intros [] Hf. split; [done..|]. exists handles. split; [done|]. by rewrite ev_pool0, Permutation_app_comm. Qed.

Lemma hands_out_trans issued s1 s2 s3 : hands_out [] s1 s2 -> hands_out issued s2 s3 -> hands_out issued s1 s3.
Proof.
  intros [Hc Hi (f&Hf&Hp)] [Hc' Hi' (f'&Hf'&Hp')]. split; [auto|lia|]. exists (f ++ f'). split; [by eapply fresh_app|].
  cbn in Hp. by rewrite Hp', Hp, app_assoc.
Qed.

Lemma run_push_all handles : forall s, run (push_all handles) s = (tt, set_pool (fr_ready_pool s ++ handles) s).
Proof.
  induction handles as [|h handles IH]; intros s; cbn [push_all]; [by rewrite app_nil_r; destruct s|].
  rewrite run_bind. unfold push_ready. rewrite run_modify. cbn [fst snd]. rewrite IH. cbn. by rewrite <- app_assoc.
Qed.

Lemma hands_out_push s s1 handles : evolves s s1 -> fresh_handles s s1 handles ->
  hands_out [] s (set_pool (fr_ready_pool s1 ++ handles) s1).
Proof.
  intros [] Hf. split; [|done|].
  - intros []%ev_consistent0. by split.
  - exists handles. split; [done|]. cbn. by rewrite ev_pool0.
Qed.

Lemma hands_out_prewarm spec count s : hands_out [] s (run (prewarm spec count) s).2.
Proof.
  unfold prewarm. destruct (pool_eligible spec); cbn [negb]; [|by apply hands_out_evolves].
  rewrite run_bind. eapply hands_out_trans.
  { apply hands_out_evolves. assert (preserves evolves (if 0 <? count then snapshot_available else Ret true)) as Ha; [|apply Ha].
    destruct (0 <? count); [apply evolves_framed, framed_snapshot_available|apply preserves_ret, _]. }
  set (b := (run _ s).1). set (s1 := (run _ s).2). clearbody b s1. rewrite run_bind_ok.
  assert (hands_out [] s1 (run (if b : bool then ok []
    else do? (handle, us) <- clocked (create_warm spec) ;; do _ <- push_ready handle ;; ok [us])%prog s1).2) as Hfirst.
  { destruct b; [by apply hands_out_evolves|]. rewrite run_bind_ok. destruct (one_new_create_warm spec s1) as [He Hn].
    rewrite (run_clocked (create_warm spec) s1) in He, Hn.
    destruct (run (clocked (create_warm spec)) s1) as [[[h us]|e] s2]; cbn [fst snd result_map] in *; [|by apply hands_out_evolves].
    rewrite run_bind. cbn [run ok fst snd push_ready modify act]. by apply hands_out_push; [|apply fresh_one]. }
  destruct (run _ s1) as [[samples|e] s2]; cbn [fst snd] in *; [|done]. eapply hands_out_trans; [exact Hfirst|].
  rewrite run_bind_ok. set (n := count - length samples).
  destruct (many_new_map (replicate n tt) (fun _ => create_warm spec) s2) as [He Hn];
    [intros; apply one_new_create_warm|]. rewrite (run_map_clocked n (create_warm spec) s2) in He, Hn.
  destruct (run (map_prog _ (fun _ => clocked _)) s2) as [[prepared|e] s3]; cbn [fst snd result_map] in *; [|by apply hands_out_evolves].
  rewrite run_bind, run_push_all. by apply hands_out_push.
Qed.

Definition handed {E} (r : result SandboxHandle E) : list SandboxHandle :=
  match r with Ok handle => [handle] | Err _ => [] end.

Lemma hands_out_one outcome s : one_new s outcome -> hands_out (handed outcome.1) s outcome.2.
Proof.
  intros [He Hn]. destruct outcome as [[h|e] s']; cbn in *; [|by apply hands_out_evolves].
  by apply hands_out_new; [|apply fresh_one].
Qed.

Lemma hands_out_create spec s : hands_out (handed (run (fc_create spec) s).1) s (run (fc_create spec) s).2.
Proof.
  unfold fc_create. rewrite run_bind_ok. cbn [of_result run fst snd].
  destruct (map_err invalid_request (SandboxSpec_validate spec)) as [[]|e]; [|by apply hands_out_evolves].
  rewrite run_bind. destruct (pool_eligible spec); [|apply hands_out_one, one_new_create_fresh].
  rewrite run_act. cbn [fst snd]. destruct (fr_ready_pool s) as [|h pool _] eqn:Hp using rev_ind.
  - cbn [last removelast]. replace (set_pool [] s) with s by (destruct s; cbn in *; by subst).
    apply hands_out_one, one_new_create_fresh.
  - rewrite last_snoc, removelast_last. cbn [run ok fst snd handed]. split; [by intros []|done|].
    exists []. split; [apply fresh_nil|]. cbn [fr_ready_pool set_pool]. rewrite Hp, app_nil_r. apply Permutation_app_comm.
Qed.
End Operations.
