(* ===== verification/FirecrackerPool.v ===== *)
(** * The microVM runtime: the pool and the table

    How many sandboxes the ready pool holds, and that the table holds none but
    those of the pool and those that were handed out. *)
From S2P Require Import Prelude Conc Fs FsOps Utf8 Commands Inet GuestOutput Guest.
From S2P Require Import Machines Network Rootfs Template TemplateRuntime Snapshot Core Firecracker FirecrackerOps.
From S2P Require Import FirecrackerFrame FirecrackerWaits FirecrackerLaunch FirecrackerInv.

Section Pool.
Context `{U : UuidLib} `{C : CryptoLib} `{TJ : TemplateJson} {SJ : ManifestJson}.
Context `{H : HostPrograms} `{N : NetHost} `{M : Machines} `{AJ : ApiJson} `{!ProcessLaws}.

(** ** The size of the pool *)

Definition pool_size (s : FirecrackerRuntime) : nat := length (fr_ready_pool s).

Lemma length_map_prog {S X Y E} (l : list X) (body : X -> prog S (result Y E)) s ys :
  (run (map_prog l body) s).1 = Ok ys -> length ys = length l.
Proof.
  revert s ys. induction l as [|x l IH]; intros s ys; cbn [map_prog]; [by intros [= <-]|].
  rewrite run_bind_ok. destruct (run (body x) s) as [[y|e] s1]; cbn [fst snd]; [|done].
  rewrite run_bind_ok. destruct (run (map_prog l body) s1) as [[zs|e] s2] eqn:Hl; cbn [fst snd run]; [|done].
  intros [= <-]. cbn. f_equal. apply (IH s1). by rewrite Hl.
Qed.

(** The first sandbox of [prewarm], made alone when there is no snapshot. *)
Definition prewarm_first (spec : SandboxSpec) (available : bool) : prog FirecrackerRuntime (result (list Z) RuntimeError) :=
  (if available then ok []
   else do? (handle, us) <- clocked (create_warm spec) ;; do _ <- push_ready handle ;; ok [us])%prog.

Lemma prewarm_first_size spec (available : bool) s :
  match run (prewarm_first spec available) s with
  | (Ok samples, s') => length samples = (if available then 0 else 1) /\ pool_size s' = pool_size s + length samples
  | (Err _, s') => pool_size s' = pool_size s
  end.
Proof.
  unfold prewarm_first. destruct available; [cbn; split; [done|lia]|]. rewrite run_bind_ok.
  destruct (one_new_create_warm spec s) as [He _]. rewrite (run_clocked (create_warm spec) s) in He.
  destruct (run (clocked (create_warm spec)) s) as [[[h us]|e] s1]; cbn [fst snd result_map] in *;
    [|by unfold pool_size; rewrite (ev_pool _ _ He)].
  rewrite run_bind. cbn. unfold pool_size. cbn. rewrite length_app, (ev_pool _ _ He). by split.
Qed.

(** [prewarm] adds exactly what was asked for, with a sample for each, or fails,
    adds no more than that and takes nothing away. *)
Lemma prewarm_size spec count s :
  match run (prewarm spec count) s with
  | (Ok samples, s') => length samples = count /\ pool_size s' = pool_size s + count
  | (Err _, s') => pool_size s <= pool_size s' <= pool_size s + count
  end.
Proof.
  unfold prewarm. fold (prewarm_first spec). destruct (pool_eligible spec); cbn [negb]; [|cbn; lia]. rewrite run_bind.
  assert (let r := run (if 0 <? count then snapshot_available else Ret true) s in
    pool_size r.2 = pool_size s /\ (count = 0 -> r.1 = true)) as [Hp Hz].
  { destruct (0 <? count) eqn:Hc; [|by split]. apply Nat.ltb_lt in Hc. split; [|lia].
    unfold pool_size. by rewrite (ev_pool _ _ (evolves_framed _ framed_snapshot_available s)). }
  destruct (run (if 0 <? count then _ else _) s) as [available s1]. cbn [fst snd] in *. rewrite run_bind_ok.
  fold (prewarm_first spec available). pose proof (prewarm_first_size spec available s1) as Hf.
  destruct (run (prewarm_first spec available) s1) as [[samples|e] s2]; cbn [fst snd] in *; [|lia].
  destruct Hf as [Hs Hf]. rewrite run_bind_ok. set (n := count - length samples).
  destruct (many_new_map (replicate n tt) (fun _ => create_warm spec) s2) as [He _];
    [intros; apply one_new_create_warm|].
  pose proof (length_map_prog (replicate n tt) (fun _ => create_warm spec) s2) as Hl.
  rewrite (run_map_clocked n (create_warm spec) s2) in He, Hl. pose proof (ev_pool _ _ He) as Hpool.
  destruct (run (map_prog _ (fun _ => clocked _)) s2) as [[prepared|e] s3]; cbn [fst snd result_map] in *;
    [|unfold pool_size in *; rewrite Hpool; destruct available; [lia|destruct count; [by specialize (Hz eq_refl)|lia]]].
  rewrite run_bind, run_push_all. cbn [run ok fst snd]. specialize (Hl _ eq_refl). rewrite length_replicate, length_map in Hl.
  unfold pool_size in *. cbn [fr_ready_pool set_pool]. rewrite !length_app, !length_map, Hl, Hpool. subst n.
  destruct available; [lia|]. destruct count; [by specialize (Hz eq_refl)|lia].
Qed.

Lemma pool_outside {A} (p : prog Outside A) s : pool_size (run (outside p) s).2 = pool_size s.
Proof. unfold outside, pool_size. by rewrite run_lift. Qed.


(** ** The sandboxes of the table *)

(** A sandbox of the table is one of [handles] or of the pool. *)
Definition accounted (handles : list SandboxHandle) (s : FirecrackerRuntime) : Prop :=
  forall id, is_Some (fr_sandboxes s !! id) -> id ∈ map sh_sandbox_id (handles ++ fr_ready_pool s).

(** What a creation does to the table. *)
Definition tabled (s : FirecrackerRuntime) (outcome : result SandboxHandle RuntimeError * FirecrackerRuntime) : Prop :=
  match outcome.1 with
  | Ok handle => exists r, fr_sandboxes outcome.2 = <[sh_sandbox_id handle := r]> (fr_sandboxes s)
  | Err _ => fr_sandboxes outcome.2 = fr_sandboxes s
  end.

Definition same_table (s s' : FirecrackerRuntime) : Prop := fr_sandboxes s' = fr_sandboxes s.
#[export] Instance same_table_preorder : PreOrder same_table.
Proof. split; [done|]. intros a b c. unfold same_table. congruence. Qed.

Lemma framed_same_table {A} (p : prog FirecrackerRuntime A) : preserves framed p -> preserves same_table p.
Proof. intros Hp s. apply (st_sandboxes _ _ (proj1 (Hp s))). Qed.

Lemma tabled_bind {A} (p : prog FirecrackerRuntime A) k s :
  preserves same_table p -> (forall a s1, tabled s1 (run (k a) s1)) -> tabled s (run (bind p k) s).
Proof.
  intros Hp Hk. rewrite run_bind. specialize (Hk (run p s).1 (run p s).2). unfold tabled in *. by rewrite (Hp s) in Hk.
Qed.

Lemma tabled_bind_ok {A} (p : prog FirecrackerRuntime (result A RuntimeError)) k s :
  preserves same_table p -> (forall a s1, tabled s1 (run (k a) s1)) -> tabled s (run (bind_ok p k) s).
Proof. intros Hp Hk. apply tabled_bind; [done|]. by intros [a|e] s1. Qed.

Lemma tabled_launch spec id assets restore capture s : tabled s (run (launch spec id assets restore capture) s).
Proof.
  pose proof (launch_result spec id assets restore capture s) as Hl. unfold tabled.
  destruct (run (launch _ _ _ _ _) s) as [[handle|e] s']; cbn [fst snd launch_settled] in *.
  - destruct Hl as (->&record&Hl). exists (fr_next s). apply (st_sandboxes _ _ (la_tables _ _ _ _ _ Hl)).
  - apply (st_sandboxes _ _ (proj1 Hl)).
Qed.

Lemma tabled_create_fresh spec s : tabled s (run (create_fresh spec) s).
Proof.
  unfold create_fresh. apply tabled_bind_ok; [apply preserves_ret, _|]. intros _ s1.
  apply tabled_bind_ok; [apply framed_same_table, framed_resolve|]. intros resolved s2.
  apply tabled_bind.
  { destruct (pool_eligible _); [apply framed_same_table, framed_snapshot_available|apply preserves_ret, _]. }
  intros available s3. apply tabled_bind; [apply framed_same_table, framed_config|]. intros root s4.
  apply tabled_bind; [by intros s5|]. intros id s5. apply tabled_launch.
Qed.

Lemma framed_execute id request : preserves framed (fc_execute id request).
Proof. unfold fc_execute, execute_measured, guest_client, record_of, deref. repeat first [framed_leaf | apply framed_gets | preserves_step]. Qed.

Lemma framed_warm handle : preserves framed (warm_ready_sandbox handle).
Proof.
  unfold warm_ready_sandbox. cbn [for_each].
  repeat first [ match goal with |- preserves framed (fc_execute _ _) => apply framed_execute end | framed_leaf | preserves_step ].
Qed.

Lemma run_delete_table id s : fr_sandboxes (run (fc_delete id) s).2 = delete id (fr_sandboxes s).
Proof.
  rewrite run_fc_delete. destruct (fr_sandboxes s !! id) as [r|]; [|done].
  by rewrite (st_sandboxes _ _ (te_tables _ _ _ _ (terminate_result r (remove_entry id s)))).
Qed.

(** A creation with its warming accounts for one more sandbox, or for none. *)
Definition accounts (s : FirecrackerRuntime) (outcome : result SandboxHandle RuntimeError * FirecrackerRuntime) : Prop :=
  forall handles, accounted handles s -> accounted (handed outcome.1 ++ handles) outcome.2.

Lemma accounts_tabled outcome s : evolves s outcome.2 -> tabled s outcome -> accounts s outcome.
Proof.
  intros He Ht handles Ha id. unfold tabled in Ht. rewrite (ev_pool _ _ He).
  destruct outcome as [[handle|e] s']; cbn [fst snd handed app] in *.
  - destruct Ht as [r ->]. cbn. rewrite lookup_insert_is_Some. intros [->|[_ Hid]]; [by left|right]. by apply Ha.
  - rewrite Ht. apply Ha.
Qed.

Lemma accounted_framed handles s s' : framed s s' -> accounted handles s -> accounted handles s'.
Proof. intros [Ht _] Ha id. rewrite (st_sandboxes _ _ Ht), (st_pool _ _ Ht). apply Ha. Qed.

Lemma accounts_create_warm spec s : accounts s (run (create_warm spec) s).
Proof.
  unfold create_warm. rewrite run_bind_ok. destruct (one_new_create_fresh spec s) as [He _].
  pose proof (accounts_tabled _ s He (tabled_create_fresh spec s)) as Ha.
  destruct (run (create_fresh spec) s) as [[handle|e] s1]; cbn [fst snd] in *; [|done]. rewrite run_bind.
  pose proof (framed_warm handle s1) as Hw. destruct (run (warm_ready_sandbox handle) s1) as [[[]|e] s2]; cbn [fst snd run ok] in *.
  - intros handles Hh. by apply (accounted_framed _ s1), Ha.
  - rewrite run_bind. cbn [run throw fst snd]. intros handles Hh id.
    cbn [fst snd handed app]. rewrite run_delete_table.
    intros [Hne Hid]%lookup_delete_is_Some. rewrite (ev_pool _ _ (evolves_delete _ s2)).
    pose proof (accounted_framed _ s1 s2 Hw (Ha handles Hh) id Hid) as Hi. by apply elem_of_cons in Hi as [->|Hi].
Qed.
Lemma accounts_map {X} (l : list X) (body : X -> prog FirecrackerRuntime (result SandboxHandle RuntimeError)) s hs s' handles :
  (forall x s, accounts s (run (body x) s)) -> run (map_prog l body) s = (Ok hs, s') ->
  accounted handles s -> accounted (hs ++ handles) s'.
Proof.
  intros Hb. revert s hs s' handles. induction l as [|x l IH]; intros s hs s' handles; cbn [map_prog]; [by intros [= <- <-]|].
  rewrite run_bind_ok. pose proof (Hb x s) as Hx. destruct (run (body x) s) as [[h|e] s1]; cbn [fst snd] in *; [|done].
  rewrite run_bind_ok. destruct (run (map_prog l body) s1) as [[hs'|e] s2] eqn:Hl; cbn [fst snd run ok]; [|done].
  intros [= <- <-] Ha. specialize (IH s1 hs' s2 (h :: handles) Hl (Hx handles Ha)).
  intros id Hid. specialize (IH id Hid). revert IH. cbn. rewrite !map_app, elem_of_cons, !elem_of_app. cbn.
  rewrite elem_of_cons. tauto.
Qed.

Lemma accounted_push hs handles s : accounted (hs ++ handles) s -> accounted handles (set_pool (fr_ready_pool s ++ hs) s).
Proof.
  intros Ha id Hid. specialize (Ha id Hid). revert Ha. cbn [fr_ready_pool set_pool]. rewrite !map_app, !elem_of_app. tauto.
Qed.

(** [prewarm], when it succeeds, leaves every sandbox it made in the pool. *)
Lemma accounts_prewarm_first spec (available : bool) s samples s' handles :
  run (prewarm_first spec available) s = (Ok samples, s') -> accounted handles s -> accounted handles s'.
Proof.
  unfold prewarm_first. destruct available; [by intros [= _ <-]|]. rewrite run_bind_ok.
  pose proof (accounts_create_warm spec s) as Hw. rewrite (run_clocked (create_warm spec) s) in Hw.
  destruct (run (clocked (create_warm spec)) s) as [[[h us]|e] s1]; cbn [fst snd handed result_map] in *; [|done].
  rewrite run_bind. cbn [run ok push_ready modify act fst snd]. intros [= _ <-] Ha. by apply (accounted_push [h]), Hw.
Qed.

Lemma accounts_prewarm spec count s samples s' handles :
  run (prewarm spec count) s = (Ok samples, s') -> accounted handles s -> accounted handles s'.
Proof.
  unfold prewarm. fold (prewarm_first spec). destruct (pool_eligible spec); cbn [negb]; [|done]. rewrite run_bind.
  assert (framed s (run (if 0 <? count then snapshot_available else Ret true) s).2) as Hf.
  { destruct (0 <? count); [apply framed_snapshot_available|done]. }
  destruct (run (if 0 <? count then _ else _) s) as [available s1]. cbn [fst snd] in *. rewrite run_bind_ok.
  fold (prewarm_first spec available). pose proof (accounts_prewarm_first spec available s1) as Hfirst.
  destruct (run (prewarm_first spec available) s1) as [[first|e] s2]; cbn [fst snd] in *; [|done].
  rewrite run_bind_ok. set (n := count - length first).
  pose proof (accounts_map (replicate n tt) (fun _ => create_warm spec) s2) as Hm.
  rewrite (run_map_clocked n (create_warm spec) s2) in Hm.
  destruct (run (map_prog _ (fun _ => clocked _)) s2) as [[prepared|e] s3]; cbn [fst snd result_map] in *; [|done].
  rewrite run_bind, run_push_all.
  cbn [run ok fst snd]. intros [= _ <-] Ha. apply accounted_push.
  apply (Hm (map fst prepared) s3 handles); [intros; apply accounts_create_warm|done|].
  apply (Hfirst first s2 handles eq_refl). by apply (accounted_framed _ s).
Qed.

(** A creation takes its sandbox from the pool, or makes one. *)
Lemma accounts_create spec s handle s' handles :
  run (fc_create spec) s = (Ok handle, s') -> accounted handles s ->
  accounted (handle :: handles) s' /\ pool_size s' = pool_size s - (if pool_eligible spec then 1 else 0).
Proof.
  unfold fc_create. rewrite run_bind_ok. cbn [of_result run fst snd].
  destruct (map_err invalid_request (SandboxSpec_validate spec)) as [[]|e]; [|done]. rewrite run_bind.
  pose proof (one_new_create_fresh spec) as He. pose proof (tabled_create_fresh spec) as Ht.
  destruct (pool_eligible spec).
  2: { intros Hr Ha. destruct (He s) as [He' _]. specialize (Ht s). cbn [run fst snd] in Hr. rewrite Hr in *. cbn [snd] in He'.
       split; [by apply (accounts_tabled (Ok handle, s') s)|]. unfold pool_size. rewrite (ev_pool _ _ He'). cbn. lia. }
  rewrite run_act. cbn [fst snd]. unfold pool_size. destruct (fr_ready_pool s) as [|h pool _] eqn:Hp using rev_ind.
  - cbn [last removelast]. replace (set_pool [] s) with s by (clear -Hp; destruct s; cbn in Hp; by subst). intros Hr Ha.
    destruct (He s) as [He' _]. specialize (Ht s). rewrite Hr in *. cbn [snd] in He'. split; [by apply (accounts_tabled (Ok handle, s') s)|].
    by rewrite (ev_pool _ _ He'), Hp.
  - rewrite last_snoc, removelast_last. cbn [run ok fst snd]. intros [= <- <-] Ha. cbn [fr_ready_pool set_pool]. split.
    + intros id Hid. specialize (Ha id Hid). revert Ha. rewrite Hp. cbn. rewrite !map_app, elem_of_cons, !elem_of_app. cbn.
      rewrite elem_of_cons, elem_of_nil. tauto.
    + rewrite length_app. cbn. lia.
Qed.

(** Whether it succeeds or not, it adds nothing to the pool. *)
Lemma pool_create spec s : pool_size (run (fc_create spec) s).2 <= pool_size s.
Proof.
  unfold fc_create, pool_size. rewrite run_bind_ok. cbn [of_result run fst snd].
  destruct (map_err invalid_request (SandboxSpec_validate spec)) as [[]|e]; [|done]. rewrite run_bind.
  destruct (pool_eligible spec).
  - rewrite run_act. cbn [fst snd]. set (s1 := set_pool _ s).
    assert (length (fr_ready_pool s1) <= length (fr_ready_pool s)) as Hle.
    { subst s1. cbn. destruct (fr_ready_pool s) as [|h pool _] using rev_ind; [done|].
      rewrite removelast_last, length_app. lia. }
    destruct (last (fr_ready_pool s)) as [h|]; [done|]. by rewrite (ev_pool _ _ (proj1 (one_new_create_fresh spec s1))).
  - cbn [run fst snd]. by rewrite (ev_pool _ _ (proj1 (one_new_create_fresh spec s))).
Qed.

Lemma accounts_delete handle s handles :
  accounted (handle :: handles) s -> accounted handles (run (fc_delete (sh_sandbox_id handle)) s).2.
Proof.
  intros Ha id. rewrite run_delete_table, (ev_pool _ _ (evolves_delete _ s)). intros [Hne Hid]%lookup_delete_is_Some.
  specialize (Ha id Hid). cbn in Ha. apply elem_of_cons in Ha as [->|Ha]; done.
Qed.

(** ** Machines while nothing fails

    A machine whose group the kernel refused to kill is left behind by an
    operation that fails. While the operations succeed, every machine that runs
    is one of the table. *)
Definition housed (s : FirecrackerRuntime) : Prop :=
  forall i, alive s i -> exists id r record, record_at s id r record /\ fx_jailer_id record = i.

Lemma housed_same s s' : same_tables s s' -> (forall i, alive s' i -> alive s i) -> housed s -> housed s'.
Proof. intros [] Ha Hh i Hi. unfold record_at. rewrite st_sandboxes, st_records. by apply Hh, Ha. Qed.

Lemma housed_framed s s' : framed s s' -> housed s -> housed s'.
Proof. intros Hf. apply housed_same; [apply Hf|]. intros i. by apply framed_alive. Qed.

(** A program that keeps every machine in the table when it succeeds. *)
Definition shelters {A} (p : prog FirecrackerRuntime (result A RuntimeError)) : Prop :=
  forall s, consistent s -> housed s -> match run p s with (Ok _, s') => housed s' | (Err _, _) => True end.

Lemma shelters_framed {A} (p : prog FirecrackerRuntime (result A RuntimeError)) : preserves framed p -> shelters p.
Proof. intros Hp s _ Hh. specialize (Hp s). destruct (run p s) as [[a|e] s']; [by apply (housed_framed s)|done]. Qed.

Lemma shelters_bind {A B} (p : prog FirecrackerRuntime A) (k : A -> prog FirecrackerRuntime (result B RuntimeError)) :
  preserves framed p -> (forall a, shelters (k a)) -> shelters (bind p k).
Proof.
  intros Hp Hk s Hc Hh. rewrite run_bind. specialize (Hp s).
  apply Hk; [by apply (framed_evolves _ _ Hp)|by apply (housed_framed s)].
Qed.

Lemma shelters_bind_ok {A B} (p : prog FirecrackerRuntime (result A RuntimeError)) (k : A -> prog FirecrackerRuntime (result B RuntimeError)) :
  (forall s, consistent s -> consistent (run p s).2) -> shelters p -> (forall a, shelters (k a)) -> shelters (bind_ok p k).
Proof.
  intros He Hp Hk s Hc Hh. rewrite run_bind_ok. specialize (He s Hc). specialize (Hp s Hc Hh).
  destruct (run p s) as [[a|e] s1]; [by apply Hk|done].
Qed.

Lemma shelters_bind_framed {A B} (p : prog FirecrackerRuntime (result A RuntimeError)) (k : A -> prog FirecrackerRuntime (result B RuntimeError)) :
  preserves framed p -> (forall a, shelters (k a)) -> shelters (bind_ok p k).
Proof.
  intros Hp. apply shelters_bind_ok; [|by apply shelters_framed]. intros s. apply (framed_evolves _ _ (Hp s)).
Qed.

Lemma shelters_launch spec assets restore capture :
  shelters (do id <- new_sandbox_id ;; launch spec id assets restore capture)%prog.
Proof.
  intros s Hc Hh. rewrite run_bind. set (s1 := (run new_sandbox_id s).2).
  change (run new_sandbox_id s).1 with (SandboxId_new (fr_ids s)).
  pose proof (launch_result spec (SandboxId_new (fr_ids s)) assets restore capture s1) as Hl.
  destruct (run (launch _ _ _ _ _) s1) as [[handle|e] s2]; cbn [fst snd launch_settled] in *; [|done].
  destruct Hl as (_&record&Hl). assert (consistent s1) as Hc1 by (apply consistent_drawn; [lia|done]).
  pose proof (fun i r a => record_at_launched _ spec record s1 s2 i r a Hc1 (undrawn s Hc) Hl) as Hat.
  intros i [Hi|Hi]%(la_alive _ _ _ _ _ Hl).
  - destruct (Hh i Hi) as (id&r&a&?&?). exists id, r, a. split; [|done]. apply Hat. by right.
  - exists i, (fr_next s1), record. split; [|rewrite Hi; apply Hl]. apply Hat. by left.
Qed.

Lemma shelters_create_fresh spec : shelters (create_fresh spec).
Proof.
  unfold create_fresh. apply shelters_bind_framed; [apply preserves_ret, _|]. intros _.
  apply shelters_bind_framed; [apply framed_resolve|]. intros resolved. apply shelters_bind.
  { destruct (pool_eligible _); [apply framed_snapshot_available|apply preserves_ret, _]. }
  intros available. apply shelters_bind; [apply framed_config|]. intros root. apply shelters_launch.
Qed.

Lemma shelters_create_warm spec : shelters (create_warm spec).
Proof.
  unfold create_warm. apply shelters_bind_ok; [intros s; apply one_new_create_fresh|apply shelters_create_fresh|].
  intros handle s Hc Hh. rewrite run_bind. pose proof (framed_warm handle s) as Hw.
  destruct (run (warm_ready_sandbox handle) s) as [[[]|e] s1]; cbn [fst snd run ok] in *; [by apply (housed_framed s)|].
  by rewrite run_bind.
Qed.

Lemma shelters_map {X} (l : list X) (body : X -> prog FirecrackerRuntime (result SandboxHandle RuntimeError)) :
  (forall x s, one_new s (run (body x) s)) -> (forall x, shelters (body x)) -> shelters (map_prog l body).
Proof.
  intros Ho Hb. induction l as [|x l IH]; cbn [map_prog]; [by intros s|].
  apply shelters_bind_ok; [intros s; apply (Ho x s)|apply Hb|]. intros y.
  apply shelters_bind_ok; [intros s; apply (many_new_map l body s Ho)|exact IH|]. by intros ys s.
Qed.

Lemma housed_pool l s : housed s -> housed (set_pool l s).
Proof. done. Qed.

Lemma shelters_clocked {A} (p : prog FirecrackerRuntime (result A RuntimeError)) : shelters p -> shelters (clocked p).
Proof.
  intros Hp s Hc Hh. specialize (Hp s Hc Hh). rewrite (run_clocked p s) in Hp.
  by destruct (run (clocked p) s) as [[a|e] s'].
Qed.

Lemma shelters_prewarm spec count : shelters (prewarm spec count).
Proof.
  unfold prewarm. fold (prewarm_first spec). destruct (pool_eligible spec); cbn [negb]; [|by intros s].
  apply shelters_bind; [destruct (0 <? count); [apply framed_snapshot_available|apply preserves_ret, _]|].
  intros available. fold (prewarm_first spec available). apply shelters_bind_ok; unfold prewarm_first.
  - intros s Hc. destruct available; [done|]. rewrite run_bind_ok. destruct (one_new_create_warm spec s) as [[He _ _] _].
    rewrite (run_clocked (create_warm spec) s) in He.
    destruct (run (clocked (create_warm spec)) s) as [[[h us]|e] s1]; cbn [fst snd] in *; [|by apply He]. rewrite run_bind.
    destruct (He Hc). by split.
  - destruct available; [by intros s|]. intros s Hc Hh. rewrite run_bind_ok.
    pose proof (shelters_clocked _ (shelters_create_warm spec) s Hc Hh) as Hw.
    destruct (run (clocked (create_warm spec)) s) as [[[h us]|e] s1]; cbn [fst snd]; [|done]. rewrite run_bind. exact Hw.
  - intros first. set (n := count - length first). apply shelters_bind_ok.
    + intros s. destruct (many_new_map (replicate n tt) (fun _ => create_warm spec) s (fun _ => one_new_create_warm spec)) as [[He _ _] _].
      by rewrite (run_map_clocked n (create_warm spec) s) in He.
    + intros s Hc Hh. pose proof (shelters_map (replicate n tt) (fun _ => create_warm spec)
        (fun _ => one_new_create_warm spec) (fun _ => shelters_create_warm spec) s Hc Hh) as Hm.
      rewrite (run_map_clocked n (create_warm spec) s) in Hm. by destruct (run (map_prog _ (fun _ => clocked _)) s) as [[l|e] s'].
    + intros hs s _ Hh. rewrite run_bind, run_push_all. cbn [run ok fst snd]. by apply housed_pool.
Qed.

Lemma shelters_create spec : shelters (fc_create spec).
Proof.
  unfold fc_create. apply shelters_bind_framed; [apply preserves_ret, _|]. intros _.
  destruct (pool_eligible spec).
  - intros s Hc Hh. rewrite run_bind, run_act. cbn [fst snd].
    set (s1 := set_pool _ s). assert (consistent s1) as Hc1 by (by destruct Hc). assert (housed s1) as Hh1 by done.
    destruct (last (fr_ready_pool s)) as [h|]; [done|]. by apply shelters_create_fresh.
  - apply shelters_bind; [apply preserves_ret, _|]. intros [h|]; [by intros s|]. apply shelters_create_fresh.
Qed.

Lemma shelters_delete id : shelters (fc_delete id).
Proof.
  intros s Hc Hh. rewrite run_fc_delete. destruct (fr_sandboxes s !! id) as [r|] eqn:Hid; [|done].
  pose proof (terminate_result r (remove_entry id s)) as [[] [_ Ha _] Hg].
  destruct (run (terminate_record r) (remove_entry id s)) as [[[]|e] s']; cbn [fst snd] in *; [|done].
  intros i Hi. destruct (Hh i (Ha i Hi)) as (id'&r'&a&Hat&<-). pose proof Hat as [Hid' Hr'].
  destruct (decide (id' = id)) as [->|Hne].
  - assert (r' = r) as -> by congruence. exfalso. destruct (Hg a Hr') as [_ _ Hend]. apply Hend; [|done|done].
    by apply (consistent_sole s id r a).
  - exists id', r', a. split; [|done]. unfold record_at. rewrite st_sandboxes, st_records. cbn.
    rewrite lookup_delete_ne by done. split; [done|]. rewrite lookup_alter_ne; [done|]. intros <-.
    by apply Hne, (co_unshared _ Hc _ _ r).
Qed.

(** When every sandbox is accounted for by none, no machine runs. *)
Lemma accounted_nothing s :
  accounted [] s -> pool_size s = 0 -> fr_sandboxes s = ∅ /\ (housed s -> forall i, ~ alive s i).
Proof.
  intros Ha Hp. apply nil_length_inv in Hp. assert (fr_sandboxes s = ∅) as He.
  { apply map_empty. intros id. apply eq_None_not_Some. intros Hid%Ha. rewrite Hp in Hid. by apply elem_of_nil in Hid. }
  split; [done|]. intros Hh i (id&r&record&[Hid _]&_)%Hh. by rewrite He in Hid.
Qed.
End Pool.
