(* ===== verification/FirecrackerClone.v ===== *)
(** * The microVM runtime: clones and rollbacks

    A clone of a snapshot starts all the sandboxes asked for or none; a rollback
    puts a running replacement in the place of a sandbox or leaves it alone. *)
From S2P Require Import Prelude Conc Fs FsOps Utf8 Commands Inet GuestOutput Guest.
From S2P Require Import Machines Network Rootfs Template TemplateRuntime Snapshot Core Firecracker FirecrackerOps.
From S2P Require Import FirecrackerFrame FirecrackerLaunch FirecrackerInv.

Section Cloning.
Context `{U : UuidLib} `{C : CryptoLib} `{TJ : TemplateJson} {SJ : ManifestJson}.
Context `{H : HostPrograms} `{N : NetHost} `{M : Machines} `{AJ : ApiJson} `{!ProcessLaws}.

(** A sandbox that runs with the machine it was started with. *)
Definition runs_as (spec : SandboxSpec) (s : FirecrackerRuntime) (id : SandboxId) : Prop :=
  exists r record, record_at s id r record /\ fx_state record = Running /\ fx_spec record = spec.

Lemma record_at_unique s id r r' a a' : record_at s id r a -> record_at s id r' a' -> a = a'.
Proof. intros [] []. congruence. Qed.

(** The sandboxes of [s] are in [s'] as they were; the others of [s'] are those
    of [handles]. *)
Record grown (spec : SandboxSpec) (handles : list SandboxHandle) (s s' : FirecrackerRuntime) : Prop := MkGrown {
  gr_next : fr_next s <= fr_next s';
  gr_old id r record : record_at s id r record -> record_at s' id r record;
  gr_only id r : fr_sandboxes s' !! id = Some r ->
    fr_sandboxes s !! id = Some r \/ fr_next s <= r /\ id ∈ map sh_sandbox_id handles;
  gr_running : Forall (fun h => sh_state h = Running /\ runs_as spec s' (sh_sandbox_id h)) handles;
  gr_absent : Forall (fun h => fr_sandboxes s !! sh_sandbox_id h = None) handles;
  gr_distinct : NoDup (map sh_sandbox_id handles);
  gr_jailed p i : jailed s' p i -> jailed s p i \/
    exists id r record, id ∈ map sh_sandbox_id handles /\ record_at s' id r record
      /\ fx_child record = p /\ fx_jailer_id record = i;
  gr_alive i : alive s' i -> alive s i \/ stuck s' i \/
    exists id r record, id ∈ map sh_sandbox_id handles /\ record_at s' id r record /\ fx_jailer_id record = i;
  gr_stuck i : stuck s i -> stuck s' i;
}.

Lemma grown_refl spec s : grown spec [] s s.
Proof. split; [done|done| |constructor|constructor|constructor| | |]; auto. Qed.

(** One more sandbox, started from a state that has drawn all identifiers up to
    its own. *)
Lemma grown_launched spec handles id record node s s1 s2 n :
  id = SandboxId_new n -> n < fr_ids s1 -> fr_sandboxes s1 !! id = None -> consistent s -> consistent s1 ->
  fr_sandboxes s !! id = None ->
  grown spec handles s s1 -> launched id spec record s1 s2 ->
  grown spec (handles ++ [MkSandboxHandle id node Running]) s s2.
Proof.
  intros -> Hn Hnone Hc Hc1 Hnone0 [] Hl.
  pose proof (fun i r a => record_at_launched _ spec record s1 s2 i r a Hc1 Hnone Hl) as Hat.
  destruct Hl as [[] Hst Hsp Hj Hja Hal Hstu]. cbn in *.
  assert (forall i r rec, record_at s1 i r rec -> record_at s2 i r rec) as Hkeep by (intros; apply Hat; by right).
  assert (record_at s2 (SandboxId_new n) (fr_next s1) record) as Hnew by (apply Hat; by left).
  assert (Forall (fun h => sh_sandbox_id h <> SandboxId_new n) handles) as Hne.
  { eapply Forall_impl; [exact gr_running0|]. intros h (_&r&rec&[Hh _]&_) Heq. congruence. }
  split.
  - lia.
  - auto.
  - intros i r. rewrite st_sandboxes, lookup_insert_Some, map_app, elem_of_app.
    intros [(<-&<-)|[_ [Hr|[? Hr]]%gr_only0]]; [right; split; [done|right; by apply list_elem_of_singleton]|by left|].
    right. split; [done|by left].
  - apply Forall_app. split; [|constructor; [|done]].
    + eapply Forall_impl; [exact gr_running0|]. intros h (?&r&rec&Hr&?). split; [done|]. exists r, rec. auto.
    + split; [done|]. by exists (fr_next s1), record.
  - apply Forall_app. split; [done|by constructor].
  - rewrite map_app. apply NoDup_app. split; [done|]. split; [|apply NoDup_singleton].
    intros i (h&->&Hh)%list_elem_of_fmap Hi%list_elem_of_singleton. rewrite Forall_forall in Hne. by apply (Hne h).
  - intros p i. rewrite map_app. intros [[Ha|(j&r&rec&Hi&Hr&Hp)]%gr_jailed0|[-> ->]]%Hja; [by left|right|right].
    + exists j, r, rec. split; [apply elem_of_app; by left|]. split; [by apply Hkeep|done].
    + exists (SandboxId_new n), (fr_next s1), record. split; [apply elem_of_app; right; by apply list_elem_of_singleton|]. split; [exact Hnew|by split].
  - intros i. rewrite map_app.
    intros [[Ha|[Ha|(j&r&rec&Hi&Hr&Hp)]]%gr_alive0| ->]%Hal; [by left|right; left; by apply Hstu|right; right|right; right].
    + exists j, r, rec. split; [apply elem_of_app; by left|]. split; [by apply Hkeep|done].
    + exists (SandboxId_new n), (fr_next s1), record. split; [apply elem_of_app; right; by apply list_elem_of_singleton|]. by split.
  - intros i Hi. by apply Hstu, gr_stuck0.
Qed.

(** Steps that leave the tables alone, and no machine behind. *)
Lemma grown_settled spec handles s s1 s2 : grown spec handles s s1 -> same_tables s1 s2 -> settles s1 s2 -> grown spec handles s s2.
Proof.
  intros [] [] [Hj Ha Hs]. assert (forall i r rec, record_at s2 i r rec <-> record_at s1 i r rec) as Hat.
  { intros. unfold record_at. by rewrite st_sandboxes, st_records. }
  split; try done.
  - by rewrite st_next.
  - intros i r rec Hi%gr_old0. by apply Hat.
  - intros i r. rewrite st_sandboxes. apply gr_only0.
  - eapply Forall_impl; [exact gr_running0|]. intros h (?&r&rec&?&?). split; [done|]. exists r, rec. by rewrite Hat.
  - intros p i [?|(j&r&rec&?&?&?)]%Hj%gr_jailed0; [by left|]. right. exists j, r, rec. by rewrite Hat.
  - intros i [[?|[?|(j&r&rec&?&?&?)]]%gr_alive0|?]%Ha; [by left|right; left; by apply Hs| |right; by left].
    right; right. exists j, r, rec. by rewrite Hat.
  - intros i Hi. by apply Hs, gr_stuck0.
Qed.

Lemma grown_framed spec handles s s1 s2 : grown spec handles s s1 -> framed s1 s2 -> grown spec handles s s2.
Proof. intros Hg Hf. eapply grown_settled; [exact Hg|apply Hf|by apply framed_settles]. Qed.

(** What deleting all of [handles] leaves of a grown state. *)
Definition restored (s s' : FirecrackerRuntime) : Prop :=
  fr_sandboxes s' = fr_sandboxes s
  /\ (forall id r record, record_at s' id r record <-> record_at s id r record)
  /\ (forall p i, jailed s' p i -> jailed s p i)
  /\ (forall i, alive s' i -> alive s i \/ stuck s' i).

Lemma restored_refl s : restored s s.
Proof. split; [done|]. split; [done|]. split; [done|]. by left. Qed.

Lemma grown_nothing spec s s' : consistent s -> grown spec [] s s' -> restored s s'.
Proof.
  intros Hc []. assert (fr_sandboxes s' = fr_sandboxes s) as Heq.
  { apply map_eq. intros i. apply option_eq. intros r. split; [intros [?|[_ Hi]]%gr_only0; [done|by apply not_elem_of_nil in Hi]|].
    intros Hr. destruct (co_valid _ Hc _ _ Hr) as [rec Hrec]. by apply (gr_old0 i r rec). }
  split; [done|]. split; [|split; [intros p j [?|(i&?&?&Hi&_)]%gr_jailed0; [done|by apply not_elem_of_nil in Hi]
    |intros j [?|[?|(i&?&?&Hi&_)]]%gr_alive0; [by left|by right|by apply not_elem_of_nil in Hi]]].
  intros i r rec. split; [|apply gr_old0]. intros [Hi Hr]. rewrite Heq in Hi. split; [done|].
  destruct (co_valid _ Hc _ _ Hi) as [rec' Hrec']. destruct (gr_old0 i r rec') as [_ Hr']; [done|]. congruence.
Qed.

Lemma grown_delete spec handle handles s s1 :
  consistent s1 -> grown spec (handle :: handles) s s1 ->
  grown spec handles s (run (fc_delete (sh_sandbox_id handle)) s1).2.
Proof.
  intros Hc []. inversion_clear gr_running0 as [|?? (_&r&rec&[Hid Hr]&_) Hrun].
  inversion_clear gr_absent0 as [|?? Hnone Habs]. cbn [map] in gr_distinct0.
  apply NoDup_cons in gr_distinct0 as [Hnot Hdis]. set (id := sh_sandbox_id handle) in *.
  assert (sole s1 rec) as Hsole by (by apply (consistent_sole s1 id r rec)).
  rewrite run_fc_delete, Hid. pose proof (terminate_result r (remove_entry id s1)) as [[] [Hja Ha Hs] Hd].
  specialize (Hd rec Hr).
  set (s2 := (run (terminate_record r) _).2) in *. cbn in *.
  assert (forall i r' rec', i <> id -> record_at s1 i r' rec' -> record_at s2 i r' rec') as Hkeep.
  { intros i r' rec' Hne [Hi Hr']. unfold record_at. rewrite st_sandboxes, st_records, lookup_delete_ne by done.
    split; [done|]. rewrite lookup_alter_ne; [done|]. intros <-. by apply Hne, (co_unshared _ Hc _ _ r). }
  assert (forall i r' rec', record_at s i r' rec' -> i <> id) as Hold.
  { intros i r' rec' [Hi _] ->. congruence. }
  split; try done.
  - lia.
  - intros i r' rec' Hat. eapply Hkeep, gr_old0, Hat. by eapply Hold.
  - intros i r'. rewrite st_sandboxes. intros [Hne [?|[? [Heq|Hi]%elem_of_cons]]%gr_only0]%lookup_delete_Some;
      [by left|by destruct Hne|by right].
  - rewrite Forall_forall in Hrun |- *. intros h Hh. destruct (Hrun h Hh) as (?&r'&rec'&Hat&?). split; [done|].
    exists r', rec'. split; [|done]. apply Hkeep; [|done]. intros Heq. apply Hnot. rewrite <- Heq.
    by apply list_elem_of_fmap_2.
  - intros p j Hp. destruct (gr_jailed0 p j (Hja p j Hp)) as [?|(i&r'&rec'&Hi&Hat&Hch)]; [by left|]. right.
    cbn [map] in Hi. apply elem_of_cons in Hi as [->|Hi].
    + exfalso. assert (rec' = rec) as -> by (by eapply record_at_unique). destruct Hch as [<- _]. by apply (gn_jailer _ _ _ _ Hd j).
    + exists i, r', rec'. split; [done|]. split; [|done]. apply Hkeep; [|done]. by intros ->.
  - intros j Hj. destruct (gr_alive0 j (Ha j Hj)) as [?|[?|(i&r'&rec'&Hi&Hat&<-)]]; [by left|right; left; by apply Hs|].
    right. cbn [map] in Hi. apply elem_of_cons in Hi as [->|Hi].
    + left. assert (rec' = rec) as -> by (by eapply record_at_unique). by apply (gn_machine _ _ _ _ Hd).
    + right. exists i, r', rec'. split; [done|]. split; [|done]. apply Hkeep; [|done]. by intros ->.
  - intros i Hi. by apply Hs, gr_stuck0.
Qed.

Lemma grown_abandon spec handles s : consistent s -> forall s1,
  consistent s1 -> grown spec handles s s1 -> restored s (run (abandon handles) s1).2.
Proof.
  intros Hc. induction handles as [|handle handles IH]; intros s1 Hc1 Hg; cbn [abandon]; [by eapply grown_nothing|].
  rewrite run_bind. apply IH; [by apply (evolves_delete (sh_sandbox_id handle) s1)|by apply grown_delete].
Qed.

Lemma grown_launch spec assets restore capture handles s s1 :
  consistent s -> consistent s1 -> fr_ids s <= fr_ids s1 -> grown spec handles s s1 ->
  match run (do id <- new_sandbox_id ;; launch spec id assets restore capture)%prog s1 with
  | (Ok handle, s2) => grown spec (handles ++ [handle]) s s2
  | (Err _, s2) => grown spec handles s s2
  end.
Proof.
  intros Hc Hc1 Hle Hg. rewrite run_bind. set (s1' := (run new_sandbox_id s1).2).
  change (run new_sandbox_id s1).1 with (SandboxId_new (fr_ids s1)).
  assert (consistent s1') as Hc1' by (apply consistent_drawn; [lia|done]).
  assert (grown spec handles s s1') as Hg' by (by destruct Hg).
  pose proof (launch_result spec (SandboxId_new (fr_ids s1)) assets restore capture s1') as Hl.
  destruct (run (launch _ _ _ _ _) s1') as [[handle|e] s2]; cbn [fst snd launch_settled] in Hl.
  - destruct Hl as (->&record&Hl). eapply (grown_launched spec handles _ record _ s s1' s2 (fr_ids s1)); try done.
    + subst s1'. cbn. lia.
    + by apply (undrawn s1).
    + apply eq_None_not_Some. intros [r (n&?&Heq%SandboxId_new_inj)%(co_drawn _ Hc)]. lia.
  - destruct Hl as [Ht Hs]. eapply grown_settled; [exact Hg'|exact Ht|]. apply Hs. intros p. by apply (undrawn_idle s1).
Qed.

Lemma grown_from_artifact artifact token handles s s1 :
  consistent s -> consistent s1 -> fr_ids s <= fr_ids s1 -> grown (artifact_spec artifact) handles s s1 ->
  match run (create_from_snapshot_artifact artifact token) s1 with
  | (Ok handle, s2) => grown (artifact_spec artifact) (handles ++ [handle]) s s2
  | (Err _, s2) => grown (artifact_spec artifact) handles s s2
  end.
Proof. apply grown_launch. Qed.

(** The whole outcome of a number of clones. *)
Definition all_or_nothing (spec : SandboxSpec) (count : nat) (s : FirecrackerRuntime)
    (outcome : result (list SandboxHandle) RuntimeError * FirecrackerRuntime) : Prop :=
  match outcome with
  | (Ok handles, s') => length handles = count /\ grown spec handles s s'
  | (Err _, s') => restored s s'
  end.

Lemma clone_loop_all artifact token count : forall handles s s1,
  consistent s -> consistent s1 -> fr_ids s <= fr_ids s1 -> grown (artifact_spec artifact) handles s s1 ->
  all_or_nothing (artifact_spec artifact) (length handles + count) s (run (clone_loop count artifact token handles) s1).
Proof.
  induction count as [|count IH]; intros handles s s1 Hc Hc1 Hle Hg; cbn [clone_loop].
  { cbn. split; [lia|done]. }
  rewrite run_bind. pose proof (grown_from_artifact artifact token handles s s1 Hc Hc1 Hle Hg) as Hg2.
  destruct (one_new_from_artifact artifact token s1) as [[He Hi _] _].
  destruct (run (create_from_snapshot_artifact artifact token) s1) as [[handle|e] s2]; cbn [fst snd] in *.
  - replace (length handles + S count) with (length (handles ++ [handle]) + count) by (rewrite length_app; cbn; lia).
    apply IH; [done|auto|lia|done].
  - rewrite run_bind. pose proof (grown_abandon _ handles s Hc s2 (He Hc1) Hg2) as Hr.
    destruct (run (abandon handles) s2) as [u s3]. exact Hr.
Qed.

(** ** Under the lock of an artifact *)

Lemma run_with_artifact {A} r (p : SnapshotArtifact -> prog FirecrackerRuntime (result A RuntimeError)) s :
  let locked := set_in_use ({[r]} ∪ fr_in_use s) s in
  run (with_artifact r p) s =
  match fr_artifacts s !! r with
  | None => (Err dangling, locked)
  | Some artifact =>
      let outcome := run (p artifact) locked in
      (outcome.1, set_in_use (fr_in_use outcome.2 ∖ {[r]}) outcome.2)
  end.
Proof.
  cbv zeta. unfold with_artifact. rewrite run_bind, run_modify. cbn [fst snd].
  rewrite run_bind_ok, run_gets. cbn [fst snd fr_artifacts set_in_use]. destruct (fr_artifacts s !! r) as [artifact|]; [|done].
  cbn [ok_or]. rewrite run_bind. destruct (run (p artifact) _) as [x s1]. cbn [fst snd].
  rewrite run_bind, run_modify. done.
Qed.

Lemma grown_in_use spec handles s s1 l l' : grown spec handles (set_in_use l s) s1 -> grown spec handles s (set_in_use l' s1).
Proof. by intros []. Qed.

Lemma restored_in_use s s1 l l' : restored (set_in_use l s) s1 -> restored s (set_in_use l' s1).
Proof. done. Qed.

Lemma restored_locked s l : restored s (set_in_use l s).
Proof. exact (restored_refl s). Qed.

Lemma consistent_in_use l s : consistent s -> consistent (set_in_use l s).
Proof. by intros []. Qed.

Lemma framed_restored s s' : framed s s' -> restored s s'.
Proof.
  intros Hf. pose proof Hf as [[] _]. apply framed_settles in Hf as [Hj Ha _]. split; [done|]. split; [|done].
  intros. unfold record_at. by rewrite st_sandboxes, st_records.
Qed.

(** A snapshot that verifies. *)
Definition verified (s : FirecrackerRuntime) (artifact : SnapshotArtifact) : Prop :=
  sv_valid (run (verify (fr_store s) artifact) (nt_fs (fr_net s))).1 = true.

Lemma checked_token_verified artifact s token s' : run (checked_token artifact) s = (Ok token, s') -> verified s artifact.
Proof.
  unfold checked_token, verified. rewrite run_bind, run_gets. cbn [fst snd]. rewrite run_bind. unfold files at 1 2 3.
  rewrite run_lift. cbn [fst snd view runtime_files].
  destruct (sv_valid (run (verify (fr_store s) artifact) (nt_fs (fr_net s))).1); [done|]. cbn [negb]. done.
Qed.

(** The artifact of a snapshot that the runtime knows. *)
Definition artifact_of (s : FirecrackerRuntime) (id : SnapshotId) (artifact : SnapshotArtifact) : Prop :=
  exists r, fr_snapshots s !! id = Some r /\ fr_artifacts s !! r = Some artifact.

Lemma clone_result id count s : consistent s ->
  match run (fc_clone_snapshot id count) s with
  | (Ok handles, s') => (1 <= count <= 32)%Z /\ length handles = Z.to_nat count
      /\ exists artifact, artifact_of s id artifact /\ verified s artifact /\ grown (artifact_spec artifact) handles s s'
  | (Err _, s') => restored s s'
  end.
Proof.
  intros Hc. unfold fc_clone_snapshot. destruct (in_range 1 32 count) eqn:Hcount; cbn [negb]; [|apply restored_refl].
  apply in_range_spec in Hcount. rewrite run_bind_ok. unfold snapshot_record. rewrite run_gets. cbn [fst snd].
  destruct (fr_snapshots s !! id) as [r|] eqn:Hr; cbn [ok_or]; [|apply restored_refl].
  rewrite run_with_artifact. cbv zeta. destruct (fr_artifacts s !! r) as [artifact|] eqn:Ha; [|apply restored_locked].
  set (s1 := set_in_use ({[r]} ∪ fr_in_use s) s). assert (consistent s1) as Hc1 by by apply consistent_in_use.
  rewrite run_bind_ok. pose proof (framed_checked_token artifact s1) as Hf. pose proof (checked_token_verified artifact s1) as Hv.
  destruct (run (checked_token artifact) s1) as [[token|e] s2]; cbn [fst snd] in *.
  - pose proof (framed_evolves _ _ Hf) as [Hc2 Hi _].
    pose proof (clone_loop_all artifact token (Z.to_nat count) [] s1 s2 Hc1 (Hc2 Hc1) Hi
      (grown_framed _ _ _ _ _ (grown_refl _ s1) Hf)) as Hall.
    destruct (run (clone_loop _ _ _ _) s2) as [[handles|e] s3]; cbn [fst snd] in *.
    + destruct Hall as [Hl Hg]. split; [done|]. split; [done|]. exists artifact. split; [by exists r|].
      split; [by apply (Hv token s2)|]. by eapply grown_in_use.
    + by apply (restored_in_use s s3 ({[r]} ∪ fr_in_use s)).
  - apply framed_restored in Hf. by apply (restored_in_use s s2 ({[r]} ∪ fr_in_use s)).
Qed.

(** ** Rolling back *)

(** The sandbox [id] is a new machine that runs, the old one ended, and the
    others are as they were. *)
Record rolled_back (id : SandboxId) (spec : SandboxSpec) (s s' : FirecrackerRuntime) : Prop := MkRolledBack {
  rb_new : exists r record, fr_next s <= r /\ record_at s' id r record
           /\ fx_state record = Running /\ fx_spec record = spec;
  rb_ended r record : record_at s id r record ->
    (forall i, ~ jailed s' (fx_child record) i)
    /\ (alive s' (fx_jailer_id record) -> stuck s' (fx_jailer_id record));
  rb_table i : i <> id -> fr_sandboxes s' !! i = fr_sandboxes s !! i;
  rb_records i r record : i <> id -> record_at s i r record -> record_at s' i r record;
}.

(** The reference of a sandbox that is new in a grown state. *)
Lemma grown_new spec handle s s1 : grown spec [handle] s s1 ->
  exists r record, record_at s1 (sh_sandbox_id handle) r record /\ fx_state record = Running /\ fx_spec record = spec
    /\ fr_next s <= r.
Proof.
  intros []. inversion_clear gr_running0 as [|?? (_&r&record&Hat&?&?) _]. inversion_clear gr_absent0 as [|?? Hnone _].
  exists r, record. repeat split; try done; try apply Hat. destruct (gr_only0 _ _ (proj1 Hat)) as [Hr|[? _]]; [congruence|done].
Qed.

Lemma grown_token spec handle s s1 r record token :
  consistent s -> grown spec [handle] s s1 -> record_at s1 (sh_sandbox_id handle) r record -> fr_next s <= r ->
  fx_state record = Running -> fx_spec record = spec ->
  grown spec [handle] s (set_heap (alter (set_fx_token token) r (fr_records s1)) s1).
Proof.
  intros Hc [] [Hid Hr] Hnew Hst Hsp. assert (forall i r' rec', r' <> r -> record_at s1 i r' rec' ->
    record_at (set_heap (alter (set_fx_token token) r (fr_records s1)) s1) i r' rec') as Hkeep.
  { intros i r' rec' Hne [Hi Hr']. split; [done|]. cbn. by rewrite lookup_alter_ne. }
  assert (record_at (set_heap (alter (set_fx_token token) r (fr_records s1)) s1) (sh_sandbox_id handle) r
    (set_fx_token token record)) as Hat by (split; [done|cbn; by rewrite lookup_alter_eq, Hr]).
  split; try done.
  - intros i r' rec' Hold. apply Hkeep; [|by apply gr_old0]. pose proof (co_records _ Hc r' (mk_is_Some _ _ (proj2 Hold))). lia.
  - constructor; [|done]. inversion_clear gr_running0 as [|?? [? _] _]. split; [done|]. by exists r, (set_fx_token token record).
  - intros p j Hp. destruct (gr_jailed0 p j Hp) as [?|(i&r'&rec'&Hi&[Hi' Hr']&Hch)]; [by left|right]. cbn in Hi.
    apply list_elem_of_singleton in Hi as ->. exists (sh_sandbox_id handle), r, (set_fx_token token record).
    split; [by constructor|]. split; [done|]. assert (rec' = record) as -> by congruence. done.
  - intros j Hp. destruct (gr_alive0 j Hp) as [?|[?|(i&r'&rec'&Hi&[Hi' Hr']&Hch)]]; [by left|right; by left|right; right]. cbn in Hi.
    apply list_elem_of_singleton in Hi as ->. exists (sh_sandbox_id handle), r, (set_fx_token token record).
    split; [by constructor|]. split; [done|]. assert (rec' = record) as -> by congruence. done.
Qed.

Lemma swapped_rolled_back id source spec handle s s1 r record :
  consistent s -> consistent s1 -> fr_sandboxes s !! id = Some source -> grown spec [handle] s s1 ->
  record_at s1 (sh_sandbox_id handle) r record -> fx_state record = Running -> fx_spec record = spec -> fr_next s <= r ->
  rolled_back id spec s
    (run (terminate_record source) (set_table (swapped id (sh_sandbox_id handle) r s1) s1)).2.
Proof.
  intros Hc Hc1 Hid Hg [Hrid Hrec] Hst Hsp Hnew. pose proof Hg as []. inversion_clear gr_absent0 as [|?? Hnone _].
  destruct (co_valid _ Hc _ _ Hid) as [source_record Hsource].
  pose proof (co_records _ Hc source (mk_is_Some _ _ Hsource)) as Hlt.
  destruct (gr_old0 id source source_record) as [Hid1 Hsource1]; [done|].
  assert (sole s1 source_record) as Hsole by (by apply (consistent_sole s1 id source source_record)).
  pose proof (terminate_result source (set_table (swapped id (sh_sandbox_id handle) r s1) s1)) as [[] _ Hd].
  set (s2 := (run (terminate_record source) _).2) in *. cbn in *. unfold swapped in *. split.
  - exists r, record. split; [done|]. split; [|done]. unfold record_at.
    rewrite st_sandboxes, st_records, lookup_insert_eq, lookup_alter_ne by lia. done.
  - intros r' rec' [Hr' Hrec']. assert (r' = source) as -> by congruence. assert (rec' = source_record) as -> by congruence.
    destruct (Hd source_record Hsource1) as [Hj Ha _]. split; [exact Hj|]. by apply Ha.
  - intros i Hne. rewrite st_sandboxes, lookup_insert_ne by done. apply option_eq. intros r'.
    rewrite !lookup_delete_Some. split.
    + intros (?&_&[?|[_ Hi]]%gr_only0); [done|]. cbn in Hi. apply list_elem_of_singleton in Hi. by subst i.
    + intros Hi. split; [by intros <-; congruence|]. split; [done|].
      destruct (co_valid _ Hc _ _ Hi) as [rec' Hrec']. by apply (gr_old0 i r' rec').
  - intros i r' rec' Hne Hat. pose proof Hat as [Hi Hr']. destruct (gr_old0 i r' rec' Hat) as [Hi1 Hr1].
    unfold record_at. rewrite st_sandboxes, st_records, lookup_insert_ne, !lookup_delete_ne by (done || congruence).
    split; [done|]. rewrite lookup_alter_ne; [done|]. intros <-. apply Hne. by apply (co_unshared _ Hc _ _ source).
Qed.

Lemma replace_result id source spec handle s s1 :
  consistent s -> consistent s1 -> fr_sandboxes s !! id = Some source -> grown spec [handle] s s1 ->
  match run (replace_with id (sh_sandbox_id handle) source) s1 with
  | (Ok answer, s') => sh_sandbox_id answer = id /\ sh_state answer = Running /\ rolled_back id spec s s'
  | (Err _, s') => restored s s'
  end.
Proof.
  intros Hc Hc1 Hid Hg. destruct (grown_new _ _ _ _ Hg) as (r&record&Hat&Hst&Hsp&Hnew).
  unfold replace_with. rewrite run_bind_ok. unfold record_of. rewrite run_gets. cbn [fst snd]. rewrite (proj1 Hat). cbn [ok_or].
  rewrite run_bind_ok, run_deref. cbn [fst snd]. rewrite (proj2 Hat). cbn [ok_or].
  rewrite run_bind. pose proof (framed_new_token s1) as H1. destruct (run new_token s1) as [token s2]. cbn [fst snd] in *.
  rewrite run_bind.
  pose proof (framed_rekey_connected id (fx_guest_client record) (fx_guest_token record) token
    (from_lease (fx_network record)) s2) as H2.
  destruct (run (rekey_connected_guest _ _ _ _ _) s2) as [rekeyed s3]. cbn [fst snd] in *.
  assert (framed s1 s3) as H3 by by etrans. clear H1 H2 s2.
  pose proof (ev_consistent _ _ (framed_evolves _ _ H3) Hc1) as Hc3.
  pose proof (grown_framed _ _ _ _ _ Hg H3) as Hg3.
  assert (forall i r rec, record_at s1 i r rec -> record_at s3 i r rec) as Hkeep.
  { destruct H3 as [[] _]. intros. unfold record_at. by rewrite st_sandboxes, st_records. }
  apply Hkeep in Hat. clear Hkeep. destruct rekeyed as [[]|e].
  - rewrite run_bind, run_update. cbn [fst snd]. set (s4 := set_heap _ s3).
    assert (consistent s4) as Hc4 by (by apply consistent_alter).
    assert (grown spec [handle] s s4) as Hg4 by (by eapply grown_token).
    assert (record_at s4 (sh_sandbox_id handle) r (set_fx_token token record)) as Hat4.
    { split; [apply Hat|]. subst s4. cbn. by rewrite lookup_alter_eq, (proj2 Hat). }
    destruct (co_valid _ Hc _ _ Hid) as [source_record Hsource].
    assert (fr_sandboxes s4 !! id = Some source) as Hid4 by (by apply (gr_old _ _ _ _ Hg4 id source source_record)).
    rewrite run_bind. destruct (run_swap id (sh_sandbox_id handle) source r s4) as [(_&_&->)|[Hno _]];
      [|by destruct Hno; split; [|apply Hat4]]. cbn [fst snd].
    rewrite run_bind. pose proof (swapped_rolled_back id source spec handle s s4 r _ Hc Hc4 Hid Hg4 Hat4 Hst Hsp Hnew) as Hrb.
    destruct (run (terminate_record source) _) as [x s5]. cbn [fst snd] in *. done.
  - rewrite run_bind. pose proof (grown_delete spec handle [] s s3 Hc3 Hg3) as Hg4.
    destruct (run (fc_delete (sh_sandbox_id handle)) s3) as [x s4]. cbn [fst snd] in *. by eapply grown_nothing.
Qed.

(** The first half: a verified snapshot of the sandbox itself is started. *)
Definition prepare_replacement (id : SandboxId) (snapshot : SnapshotArtifact) :
  prog FirecrackerRuntime (result SandboxHandle RuntimeError) :=
  (if negb (bool_decide (source_sandbox_id snapshot = id))
   then throw (conflict "snapshot belongs to another sandbox")
   else
   do? token <- checked_token snapshot ;;
   create_from_snapshot_artifact snapshot token)%prog.

Lemma prepare_result id snapshot s : consistent s ->
  match run (prepare_replacement id snapshot) s with
  | (Ok handle, s') => source_sandbox_id snapshot = id /\ verified s snapshot /\ consistent s'
      /\ grown (artifact_spec snapshot) [handle] s s'
  | (Err _, s') => restored s s'
  end.
Proof.
  intros Hc. unfold prepare_replacement.
  destruct (bool_decide_reflect (source_sandbox_id snapshot = id)) as [Hs|]; cbn [negb]; [|apply restored_refl].
  rewrite run_bind_ok. pose proof (framed_checked_token snapshot s) as Hf. pose proof (checked_token_verified snapshot s) as Hv.
  destruct (run (checked_token snapshot) s) as [[token|e] s1]; cbn [fst snd] in *; [|by apply framed_restored].
  pose proof (framed_evolves _ _ Hf) as [Hc1 Hi _].
  pose proof (grown_from_artifact snapshot token [] s s1 Hc (Hc1 Hc) Hi (grown_framed _ _ _ _ _ (grown_refl _ s) Hf)) as Hg.
  destruct (one_new_from_artifact snapshot token s1) as [[Hc2 _ _] _].
  destruct (run (create_from_snapshot_artifact snapshot token) s1) as [[handle|e] s2]; cbn [fst snd app] in *.
  - split; [done|]. split; [by apply (Hv token s1)|]. split; [auto|done].
  - by eapply grown_nothing.
Qed.

Lemma rollback_split id snapshot_id s :
  run (fc_rollback_snapshot id snapshot_id) s =
  run (do? source <- record_of id ;;
       do? source_record <- deref source ;;
       if negb (can_capture (fx_state source_record))
       then throw (conflict "sandbox must be running or paused to roll back")
       else
       do? r <- snapshot_record snapshot_id ;;
       do? handle <- with_artifact r (prepare_replacement id) ;;
       replace_with id (sh_sandbox_id handle) source)%prog s.
Proof. reflexivity. Qed.

Lemma rollback_result id snapshot_id s : consistent s ->
  match run (fc_rollback_snapshot id snapshot_id) s with
  | (Ok answer, s') => sh_sandbox_id answer = id /\ sh_state answer = Running
      /\ exists artifact, artifact_of s snapshot_id artifact /\ verified s artifact /\ source_sandbox_id artifact = id
         /\ rolled_back id (artifact_spec artifact) s s'
  | (Err _, s') => restored s s'
  end.
Proof.
  intros Hc. rewrite rollback_split. rewrite run_bind_ok. unfold record_of. rewrite run_gets. cbn [fst snd].
  destruct (fr_sandboxes s !! id) as [source|] eqn:Hid; cbn [ok_or]; [|apply restored_refl].
  destruct (co_valid _ Hc _ _ Hid) as [source_record Hsource].
  rewrite run_bind_ok, run_deref. cbn [fst snd]. rewrite Hsource. cbn [ok_or].
  destruct (can_capture (fx_state source_record)); cbn [negb]; [|apply restored_refl].
  rewrite run_bind_ok. unfold snapshot_record. rewrite run_gets. cbn [fst snd].
  destruct (fr_snapshots s !! snapshot_id) as [r|] eqn:Hr; cbn [ok_or]; [|apply restored_refl].
  rewrite run_bind_ok, run_with_artifact. cbv zeta.
  destruct (fr_artifacts s !! r) as [artifact|] eqn:Ha; cbn [fst snd];
    [|apply restored_locked].
  set (s1 := set_in_use ({[r]} ∪ fr_in_use s) s). assert (consistent s1) as Hc1 by by apply consistent_in_use.
  pose proof (prepare_result id artifact s1 Hc1) as Hp.
  destruct (run (prepare_replacement id artifact) s1) as [[handle|e] s2]; cbn [fst snd]; [|exact Hp].
  destruct Hp as (Hs&Hv&Hc2&Hg). apply (grown_in_use _ _ _ _ _ (fr_in_use s2 ∖ {[r]})) in Hg.
  apply (consistent_in_use (fr_in_use s2 ∖ {[r]})) in Hc2.
  pose proof (replace_result id source _ handle s _ Hc Hc2 Hid Hg) as Hrep.
  destruct (run (replace_with id (sh_sandbox_id handle) source) _) as [[answer|e] s3]; [|done].
  destruct Hrep as (?&?&?). split; [done|]. split; [done|]. exists artifact. split; [by exists r|]. done.
Qed.
End Cloning.
