(* ===== verification/FirecrackerSnapshots.v ===== *)
(** * The microVM runtime: taking a snapshot

    A request for a snapshot leaves its sandbox in the state it was in, or failed
    when it could not be resumed. *)
From S2P Require Import Prelude Conc Fs FsOps Utf8 Commands Inet GuestOutput Guest.
From S2P Require Import Machines Network Rootfs Template TemplateRuntime Snapshot Core Firecracker FirecrackerOps.
From S2P Require Import FirecrackerFrame FirecrackerLaunch FirecrackerInv.

Section Taking.
Context `{U : UuidLib} `{C : CryptoLib} `{TJ : TemplateJson} {SJ : ManifestJson}.
Context `{H : HostPrograms} `{N : NetHost} `{M : Machines} `{AJ : ApiJson} `{!ProcessLaws}.

(** The same sandbox, but for its state and its connection to the guest. *)
Record same_sandbox (a b : FirecrackerSandbox) : Prop := MkSameSandbox {
  sx_jailer : fx_jailer_id b = fx_jailer_id a;
  sx_spec : fx_spec b = fx_spec a;
  sx_child : fx_child b = fx_child a;
  sx_api : fx_api b = fx_api a;
  sx_token : fx_guest_token b = fx_guest_token a;
  sx_root : fx_chroot_root b = fx_chroot_root a;
  sx_network : fx_network b = fx_network a;
}.

#[export] Instance same_sandbox_preorder : PreOrder same_sandbox.
Proof. split; [done|]. intros a b c [] []. split; congruence. Qed.

(** Only the record behind [r] changes, and it stays the same sandbox. *)
Record touches (r : Ref) (s s' : FirecrackerRuntime) : Prop := MkTouches {
  tc_sandboxes : fr_sandboxes s' = fr_sandboxes s;
  tc_others r' : r' <> r -> fr_records s' !! r' = fr_records s !! r';
  tc_record record : fr_records s !! r = Some record ->
    exists record', fr_records s' !! r = Some record' /\ same_sandbox record record';
}.

#[export] Instance touches_preorder r : PreOrder (touches r).
Proof.
  split; [by intros s; split; [| |intros record; exists record]|]. intros a b c [] []. split.
  - congruence.
  - intros r' Hr. by rewrite tc_others1, tc_others0.
  - intros record (record'&Hr'&?)%tc_record0. destruct (tc_record1 record' Hr') as (record2&?&?). exists record2.
    split; [done|]. by etrans.
Qed.

Lemma touches_framed {A} r (p : prog FirecrackerRuntime A) : preserves framed p -> preserves (touches r) p.
Proof.
  intros Hp s. destruct (Hp s) as [[] _]. split; [done|by rewrite st_records|].
  intros record Hr. exists record. by rewrite st_records.
Qed.

Lemma touches_update r f : (forall record, same_sandbox record (f record)) -> preserves (touches r) (update r f).
Proof.
  intros Hf s. rewrite run_update. split; [done| |]; cbn.
  - intros r' Hne. by rewrite lookup_alter_ne.
  - intros record Hr. exists (f record). by rewrite lookup_alter_eq, Hr.
Qed.

Lemma touches_same r s s' : fr_sandboxes s' = fr_sandboxes s -> fr_records s' = fr_records s -> touches r s s'.
Proof. intros H1 H2. split; [done|by rewrite H2|]. intros record Hr. exists record. by rewrite H2. Qed.

Lemma touches_reconnect r : preserves (touches r) (reconnect_guest r).
Proof.
  unfold reconnect_guest.
  repeat first [ apply touches_framed, framed_gets | apply touches_framed, framed_config | by apply touches_update
               | apply touches_framed, framed_outside, (respects_wait_for_guest quiet) | preserves_step ].
Qed.

Lemma touches_capture r record snapshot_id id name : preserves (touches r) (capture r record snapshot_id id name).
Proof.
  unfold capture.
  repeat first
    [ match goal with
      | |- preserves _ (vm_patch _ _) => apply touches_framed, framed_patch
      | |- preserves _ (vm_snapshot _ _) => apply touches_framed, framed_vm_snapshot
      | |- preserves _ (update _ _) => apply touches_update; done
      | |- preserves _ (gets _) => apply touches_framed, framed_gets
      | |- preserves _ (files _) => apply touches_framed, framed_files
      end
    | preserves_step ].
Qed.

(** Only a running sandbox is paused for the snapshot. *)
Lemma capture_paused r record snapshot_id id name s :
  (run (capture r record snapshot_id id name) s).1.1 = true -> fx_state record = Running.
Proof.
  unfold capture. rewrite run_bind. destruct (bool_decide_reflect (fx_state record = Running)); [done|].
  cbn [run ok fst snd]. rewrite run_bind. cbn [run fst snd]. done.
Qed.

(** What the request leaves of its sandbox, and the answer. *)
Definition source_kept (id : SandboxId) (r : Ref) (record : FirecrackerSandbox) (s : FirecrackerRuntime)
    (outcome : result SnapshotHandle RuntimeError * FirecrackerRuntime) : Prop :=
  touches r s outcome.2
  /\ exists record', record_at outcome.2 id r record' /\ same_sandbox record record'
     /\ (fx_state record' = fx_state record
         \/ fx_state record = Running /\ fx_state record' = Failed /\ is_ok outcome.1 = false).

(** The last part of the request, which publishes or discards. *)
Definition publish (snapshot_id : SnapshotId) (captured : result StagedSnapshot RuntimeError) (resumed : result unit RuntimeError) :
  prog FirecrackerRuntime (result SnapshotHandle RuntimeError) :=
  (do store <- gets fr_store ;;
   match captured, resumed with
   | Ok staged, Ok _ =>
       do? artifact <- files (finalize store staged) ;;
       do _ <- remember_snapshot snapshot_id artifact ;;
       ok (artifact_handle artifact)
   | Ok staged, Err error => do _ <- files (discard staged) ;; throw error
   | Err error, _ => throw error
   end)%prog.

Definition same_records (s s' : FirecrackerRuntime) : Prop :=
  fr_sandboxes s' = fr_sandboxes s /\ fr_records s' = fr_records s.

#[export] Instance same_records_preorder : PreOrder same_records.
Proof. split; [done|]. intros a b c [] []. split; congruence. Qed.

Lemma framed_same_records {A} (p : prog FirecrackerRuntime A) : preserves framed p -> preserves same_records p.
Proof. intros Hp s. destruct (Hp s) as [[] _]. done. Qed.

Lemma publish_records snapshot_id captured resumed : preserves same_records (publish snapshot_id captured resumed).
Proof.
  unfold publish.
  repeat first
    [ match goal with
      | |- preserves _ (gets _) => apply framed_same_records, framed_gets
      | |- preserves _ (files _) => apply framed_same_records, framed_files
      | |- preserves _ (remember_snapshot _ _) => by intros s
      end
    | preserves_step ].
Qed.

Lemma publish_error snapshot_id captured error s : is_ok (run (publish snapshot_id captured (Err error)) s).1 = false.
Proof.
  unfold publish. rewrite run_bind, run_gets. cbn [fst snd]. destruct captured as [staged|e]; [|done].
  rewrite run_bind. done.
Qed.

Lemma create_snapshot_split id request s :
  run (fc_create_snapshot id request) s =
  run (do? _ <- of_result (map_err invalid_request (CreateSnapshotRequest_validate request)) ;;
       do? r <- record_of id ;;
       do snapshot_id <- new_snapshot_id ;;
       do? record <- deref r ;;
       if negb (can_capture (fx_state record))
       then throw (conflict "sandbox must be running or paused to create a snapshot")
       else
       do (paused_by_request, captured) <- capture r record snapshot_id id (snapshot_name request) ;;
       do _ <- files (remove_file (join (join (fx_chroot_root record) "snapshot")
         ("user-" +:+ SnapshotId_to_string snapshot_id +:+ ".vmstate"))) ;;
       do _ <- files (remove_file (join (join (fx_chroot_root record) "snapshot")
         ("user-" +:+ SnapshotId_to_string snapshot_id +:+ ".memory"))) ;;
       do resumed <- (if paused_by_request : bool then
           do? _ <- vm_patch (fx_api record) VmResumed ;;
           reconnect_guest r
         else ok tt) ;;
       do _ <- update r (set_fx_state (if is_ok resumed then fx_state record else Failed)) ;;
       publish snapshot_id captured resumed)%prog s.
Proof. reflexivity. Qed.

Lemma touches_resume r record paused : preserves (touches r)
  (if paused : bool then do? _ <- vm_patch (fx_api record) VmResumed ;; reconnect_guest r else ok tt)%prog.
Proof.
  repeat first
    [ match goal with
      | |- preserves _ (vm_patch _ _) => apply touches_framed, framed_patch
      | |- preserves _ (reconnect_guest _) => apply touches_reconnect
      end
    | preserves_step ].
Qed.

Lemma touches_record_at r s s' id record : touches r s s' -> record_at s id r record ->
  exists record', record_at s' id r record' /\ same_sandbox record record'.
Proof.
  intros [] [Hid Hr]. destruct (tc_record0 record Hr) as (record'&?&?). exists record'. split; [|done]. split; [|done]. congruence.
Qed.

(** What a request goes through: it is refused before anything is done, or the
    sandbox is captured, the files in its jail are removed, it is resumed if it
    was paused for the request, and the snapshot is published or discarded. *)
Inductive steps_of (id : SandboxId) (r : Ref) (record : FirecrackerSandbox) (s : FirecrackerRuntime) :
  result SnapshotHandle RuntimeError * FirecrackerRuntime -> Prop :=
| RefusedAtOnce e s' : fr_vms s' = fr_vms s -> touches r s s' -> fr_records s' = fr_records s -> steps_of id r record s (Err e, s')
| Captured snapshot_id name paused captured resumed s1 s2 s3 s4 :
    touches r s s1 -> machines s1 = machines s ->
    run (capture r record snapshot_id id name) s1 = ((paused, captured), s2) ->
    touches r s2 s3 -> fr_vms s3 = fr_vms s2 ->
    run (if paused : bool then do? _ <- vm_patch (fx_api record) VmResumed ;; reconnect_guest r else ok tt)%prog s3
      = (resumed, s4) ->
    steps_of id r record s (run (publish snapshot_id captured resumed)
      (set_heap (alter (set_fx_state (if is_ok resumed then fx_state record else Failed)) r (fr_records s4)) s4)).

Lemma files_vms {A} (p : prog Fs A) s : fr_vms (run (files p : prog FirecrackerRuntime A) s).2 = fr_vms s.
Proof. unfold files. by rewrite run_lift. Qed.

Lemma create_snapshot_steps id request r record s :
  record_at s id r record -> steps_of id r record s (run (fc_create_snapshot id request) s).
Proof.
  intros Hat. rewrite create_snapshot_split, run_bind_ok. cbn [of_result run fst snd].
  destruct (map_err invalid_request (CreateSnapshotRequest_validate request)) as [[]|e]; [|by apply RefusedAtOnce].
  rewrite run_bind_ok. unfold record_of. rewrite run_gets. cbn [fst snd]. rewrite (proj1 Hat). cbn [ok_or].
  rewrite run_bind. set (s1 := (run new_snapshot_id s).2). set (snapshot_id := (run new_snapshot_id s).1).
  assert (touches r s s1) as H1 by by apply touches_same. assert (record_at s1 id r record) as Hat1 by done.
  rewrite run_bind_ok, run_deref. cbn [fst snd]. rewrite (proj2 Hat1). cbn [ok_or].
  destruct (can_capture (fx_state record)); cbn [negb]; [|by apply RefusedAtOnce].
  rewrite run_bind. destruct (run (capture r record snapshot_id id (snapshot_name request)) s1) as [[paused captured] s2] eqn:Hcap.
  cbn [fst snd] in *.
  rewrite run_bind. match goal with |- context [run (files ?p) s2] =>
    pose proof (touches_framed r _ (framed_files p) s2) as H2; pose proof (files_vms p s2) as V2;
    destruct (run (files p) s2) as [x2 s3] end. cbn [fst snd] in *.
  rewrite run_bind. match goal with |- context [run (files ?p) s3] =>
    pose proof (touches_framed r _ (framed_files p) s3) as H3; pose proof (files_vms p s3) as V3;
    destruct (run (files p) s3) as [x3 s4] end. cbn [fst snd] in *.
  rewrite run_bind. destruct (run (if paused : bool then _ else _) s4) as [resumed s5] eqn:Hres. cbn [fst snd].
  rewrite run_bind, run_update. cbn [fst snd].
  apply (Captured id r record s snapshot_id (snapshot_name request) paused captured resumed s1 s2 s4 s5); try done.
  - by etrans.
  - by rewrite V3.
Qed.

Lemma create_snapshot_source id request r record s :
  record_at s id r record -> source_kept id r record s (run (fc_create_snapshot id request) s).
Proof.
  intros Hat. destruct (create_snapshot_steps id request r record s Hat)
    as [e s' _ Ht Hr|snapshot_id name paused captured resumed s1 s2 s3 s4 H1 _ Hcap H3 _ Hres].
  { split; [done|]. exists record. split; [|by split; [|left]].
    split; cbn [fst snd]; [rewrite (tc_sandboxes _ _ _ Ht); apply Hat|rewrite Hr; apply Hat]. }
  pose proof (touches_capture r record snapshot_id id name s1) as H2.
  pose proof (capture_paused r record snapshot_id id name s1) as Hp. rewrite Hcap in H2, Hp. cbn [fst snd] in *.
  pose proof (touches_resume r record paused s3) as H4. rewrite Hres in H4. cbn [snd] in H4.
  assert (is_ok resumed = false -> fx_state record = Running) as Hfail.
  { destruct paused; [intros _; by apply Hp|]. cbn in Hres. by injection Hres as <- <-. }
  assert (touches r s s4) as H6 by (etrans; [exact H1|]; etrans; [exact H2|]; by etrans; [exact H3|]).
  destruct (touches_record_at _ _ _ _ _ H6 Hat) as (record'&[Hid Hr]&Hsame).
  set (st := if is_ok resumed then fx_state record else Failed). set (s6 := set_heap _ s4).
  pose proof (publish_records snapshot_id captured resumed s6) as [Htab Hrec].
  pose proof (publish_error snapshot_id captured) as Herr.
  destruct (run (publish snapshot_id captured resumed) s6) as [answer s7] eqn:Hpub. cbn [fst snd] in *. split; cbn [fst snd].
  - etrans; [exact H6|]. etrans; [apply (touches_update r (set_fx_state st)); done|]. by apply touches_same.
  - exists (set_fx_state st record'). split; [|split; [by destruct Hsame|]].
    + split; [by rewrite Htab|]. rewrite Hrec. subst s6. cbn. by rewrite lookup_alter_eq, Hr.
    + cbn. subst st. destruct resumed as [[]|e]; [by left|]. right. split; [by apply Hfail|]. split; [done|].
      specialize (Herr e s6). by rewrite Hpub in Herr.
Qed.
End Taking.

(** ** The machine of the sandbox

    Whether the machine behind the socket of an API is paused, and what a
    request to pause or to resume it does: a request to resume that is answered
    with success resumes it; a request to pause that is answered with an error
    does not pause it, while one that is not answered may have. Nothing but a
    request pauses a machine. *)
Section Pausing.
Context `{U : UuidLib} `{C : CryptoLib} `{TJ : TemplateJson} {SJ : ManifestJson}.
Context `{H : HostPrograms} `{N : NetHost} `{M : Machines} `{AJ : ApiJson} `{!ProcessLaws}.

Class PauseLaws := {
  vm_paused : Path -> Vms -> Prop;
  calm_paused socket :: Calm (fun o o' => vm_paused socket o'.2 -> vm_paused socket o.2);
  pause_refused socket body limit o :
    body_to_vec (B_VmState (MkVmState VmPaused)) = Ok body ->
    match http_request socket PATCH "/vm" body limit o with
    | (HttpAnswered status _, o') => is_success status = false -> vm_paused socket o'.2 -> vm_paused socket o.2
    | _ => True
    end;
  resume_obeyed socket body limit o :
    body_to_vec (B_VmState (MkVmState VmResumed)) = Ok body ->
    match http_request socket PATCH "/vm" body limit o with
    | (HttpAnswered status _, o') => is_success status = true -> ~ vm_paused socket o'.2
    | _ => True
    end;
}.

Context `{!PauseLaws}.

Definition machine_paused (record : FirecrackerSandbox) (s : FirecrackerRuntime) : Prop :=
  vm_paused (fc_socket (fx_api record)) (fr_vms s).

(** The steps that do not pause it. *)
Definition unpausing (record : FirecrackerSandbox) (s s' : FirecrackerRuntime) : Prop :=
  machine_paused record s' -> machine_paused record s.

#[export] Instance unpausing_preorder record : PreOrder (unpausing record).
Proof. split; [by intros s Hs|]. intros a b c Hab Hbc Hc. by apply Hab, Hbc. Qed.

Lemma unpausing_files {A} record (p : prog Fs A) : preserves (unpausing record) (files p).
Proof. intros s. unfold unpausing, machine_paused. by rewrite files_vms. Qed.

Lemma unpausing_reconnect record r : preserves (unpausing record) (reconnect_guest r).
Proof.
  unfold reconnect_guest.
  repeat first
    [ by intros s Hs
    | match goal with |- preserves _ (outside ?p) =>
        intros s; unfold unpausing, machine_paused; rewrite (proj2 (run_outside p s));
        apply (respects_wait_for_guest (fun o o' => vm_paused (fc_socket (fx_api record)) o'.2 -> vm_paused (fc_socket (fx_api record)) o.2)) end
    | preserves_step ].
Qed.

Lemma unpausing_publish record snapshot_id captured resumed : preserves (unpausing record) (publish snapshot_id captured resumed).
Proof.
  unfold publish.
  repeat first [ match goal with |- preserves _ (files _) => apply unpausing_files end | by intros s Hs | preserves_step ].
Qed.

(** The request to pause: when it fails, the machine is not paused unless its
    answer was lost. *)
Definition pause_request (record : FirecrackerSandbox) : prog Outside (result unit FirecrackerError) :=
  api_patch (fx_api record) "/vm" (B_VmState (MkVmState VmPaused)).

Lemma run_vm_patch (api : FirecrackerClient) st s :
  let outcome := run (api_patch api "/vm" (B_VmState (MkVmState st))) (machines s) in
  (run (vm_patch api st) s).1 = map_err fc_error outcome.1
  /\ fr_vms (run (vm_patch api st) s).2 = outcome.2.2.
Proof.
  cbv zeta. unfold vm_patch, fc_call. rewrite run_map_err. cbn [fst snd].
  destruct (run_outside (api_patch api "/vm" (B_VmState (MkVmState st))) s) as [-> ->]. done.
Qed.

Lemma pause_fails record s :
  match run (pause_request record) (machines s) with
  | (Ok _, _) | (Err (Transport _), _) => True
  | (Err _, o') => vm_paused (fc_socket (fx_api record)) o'.2 -> machine_paused record s
  end.
Proof.
  unfold pause_request, api_patch, send_json, send_json_with_timeout. rewrite run_bind_ok. cbn [of_result run fst snd].
  pose proof (fun body => pause_refused (fc_socket (fx_api record)) body (fc_timeout (fx_api record)) (machines s)) as Hp.
  destruct (body_to_vec (B_VmState (MkVmState VmPaused))) as [body|e]; cbn [map_err]; [|done].
  specialize (Hp body eq_refl). rewrite run_bind_ok. unfold request_with_timeout. rewrite run_bind, run_act.
  destruct (http_request _ PATCH "/vm" body _ (machines s)) as [[|e|e|status bytes] o']; cbn [fst snd run throw ok]; try done.
  destruct (is_success status); cbn [fst snd run throw ok]; [done|]. by apply Hp.
Qed.

Lemma resume_succeeds record s :
  match run (vm_patch (fx_api record) VmResumed) s with
  | (Ok _, s') => ~ machine_paused record s'
  | (Err _, _) => True
  end.
Proof.
  destruct (run_vm_patch (fx_api record) VmResumed s) as [Hout Hvms].
  destruct (run (vm_patch (fx_api record) VmResumed) s) as [[[]|e] s']; cbn [fst snd] in *; [|done].
  unfold machine_paused. rewrite Hvms. revert Hout. clear Hvms. cbv zeta.
  unfold api_patch, send_json, send_json_with_timeout. rewrite run_bind_ok. cbn [of_result run fst snd].
  pose proof (fun body => resume_obeyed (fc_socket (fx_api record)) body (fc_timeout (fx_api record)) (machines s)) as Hp.
  destruct (body_to_vec (B_VmState (MkVmState VmResumed))) as [body|e]; cbn [map_err]; [|done].
  specialize (Hp body eq_refl). rewrite run_bind_ok. unfold request_with_timeout. rewrite run_bind, run_act.
  destruct (http_request _ PATCH "/vm" body _ (machines s)) as [[|e|e|status bytes] o']; cbn [fst snd run throw ok]; try done.
  destruct (is_success status); cbn [fst snd run throw ok]; [|done]. intros _. by apply Hp.
Qed.

(** A running machine that the capture did not pause. *)
Lemma capture_unpaused r record snapshot_id id name s captured s' :
  fx_state record = Running -> run (capture r record snapshot_id id name) s = ((false, captured), s') ->
  exists e, run (vm_patch (fx_api record) VmPaused) s = (Err e, s') /\ captured = Err e.
Proof.
  intros Hst. unfold capture. rewrite run_bind, bool_decide_eq_true_2 by done. rewrite run_bind_ok.
  destruct (run (vm_patch (fx_api record) VmPaused) s) as [[[]|e] s1]; cbn [fst snd]; [|intros [= <- <-]; by exists e].
  rewrite run_bind. destruct (run (update r (set_fx_state Paused)) s1) as [u s2]. cbn [fst snd run ok]. rewrite run_bind. done.
Qed.

Lemma create_snapshot_machine id request r record s :
  record_at s id r record -> fx_state record = Running -> ~ machine_paused record s ->
  (forall m, (run (pause_request record) (machines s)).1 <> Err (Transport m)) ->
  forall record', fr_records (run (fc_create_snapshot id request) s).2 !! r = Some record' -> fx_state record' = Running ->
    ~ machine_paused record (run (fc_create_snapshot id request) s).2.
Proof.
  intros Hat Hst Hrun Hlost record'. destruct (create_snapshot_steps id request r record s Hat)
    as [e s' Hv _ _|snapshot_id name paused captured resumed s1 s2 s3 s4 _ Hm Hcap _ V3 Hres].
  { intros _ _. unfold machine_paused in *. cbn [snd]. by rewrite Hv. }
  set (s5 := set_heap _ s4). pose proof (publish_records snapshot_id captured resumed s5) as [_ ->].
  intros Hr' Hst' Hp. apply (unpausing_publish record snapshot_id captured resumed s5) in Hp.
  change (machine_paused record s4) in Hp. subst s5. cbn in Hr'. rewrite lookup_alter_eq in Hr'.
  destruct (fr_records s4 !! r) as [record4|]; [|done]. cbn in Hr'. injection Hr' as <-. cbn in Hst'.
  destruct paused.
  - rewrite run_bind_ok in Hres. pose proof (resume_succeeds record s3) as Hs.
    destruct (run (vm_patch (fx_api record) VmResumed) s3) as [[[]|e] s3']; cbn [fst snd] in *.
    + apply Hs. pose proof (unpausing_reconnect record r s3') as Hu. rewrite Hres in Hu. by apply Hu.
    + injection Hres as <- <-. done.
  - cbn in Hres. injection Hres as <- <-.
    destruct (capture_unpaused r record snapshot_id id name s1 captured s2 Hst Hcap) as (e&Hpatch&_).
    destruct (run_vm_patch (fx_api record) VmPaused s1) as [He Hv]. rewrite Hpatch in He, Hv. cbn [fst snd] in He, Hv.
    rewrite Hm in He, Hv. pose proof (pause_fails record s) as Hf. unfold pause_request in *.
    unfold machine_paused in Hp. rewrite V3, Hv in Hp.
    destruct (run (api_patch _ _ _) (machines s)) as [[u|[m|status body|m]] o']; cbn [fst snd map_err] in *;
      [done|by apply (Hlost m)|by apply Hrun, Hf|by apply Hrun, Hf].
Qed.
End Pausing.
