(* ===== verification/FirecrackerGuest.v ===== *)
(** * The microVM runtime: what the guest reports

    The result of a command is read off the events of its process; over the
    events that the guest agent sends there is always one to report. *)
From S2P Require Import Prelude Conc Fs FsOps Utf8 Commands Inet GuestOutput Guest GuestProps.
From S2P Require Import Machines Network Rootfs Template TemplateRuntime Snapshot Core Firecracker FirecrackerOps.

(** ** A reference for the collected events *)

Definition stdout_of (e : WireEvent) : list Byte.byte := match we_event e with Some (Stdout d) => d | _ => [] end.
Definition stderr_of (e : WireEvent) : list Byte.byte := match we_event e with Some (Stderr d) => d | _ => [] end.
Definition exit_of (e : WireEvent) : option ProcessExit := match we_event e with Some (Exit x) => Some x | _ => None end.
Definition no_error (e : WireEvent) : Prop := match we_event e with Some (EError _ _) => False | _ => True end.

(** The first identifier that an event carries. *)
Fixpoint first_id (events : list WireEvent) : option string :=
  match events with
  | [] => None
  | e :: rest => if is_empty (we_process_id e) then first_id rest else Some (we_process_id e)
  end.

Definition exits (events : list WireEvent) : list ProcessExit := omap exit_of events.

Definition truncation_of (x : ProcessExit) : OutputTruncation :=
  MkOutputTruncation (px_stdout_truncated x) (px_stderr_truncated x).

(** What the events add to [c]. *)
Record collects (c : Collected) (events : list WireEvent) (c' : Collected) : Prop := MkCollects {
  cl_no_error : Forall no_error events;
  cl_id : match co_process_id c with
          | Some id => co_process_id c' = Some id
          | None => match first_id events with
                    | None => co_process_id c' = None
                    | Some text => exists id, ProcessId_new text = Ok id /\ co_process_id c' = Some id
                    end
          end;
  cl_stdout : co_stdout c' = co_stdout c ++ flat_map stdout_of events;
  cl_stderr : co_stderr c' = co_stderr c ++ flat_map stderr_of events;
  cl_termination : co_termination c' = match last (exits events) with
                                       | Some x => Some (termination_of x) | None => co_termination c end;
  cl_truncation : co_truncation c' = match last (exits events) with
                                     | Some x => truncation_of x | None => co_truncation c end;
}.

Lemma collect_event_collects c e c' : collect_event c e = Ok c' <-> collects c [e] c'.
Proof.
  unfold collect_event. destruct c as [id out err term trunc], e as [text ev]. cbn [co_process_id co_stdout co_stderr
    co_termination co_truncation we_process_id we_event].
  assert (forall ident, (match id with
     | Some id => Ok (Some id)
     | None => if is_empty text then Ok None
               else result_map Some (map_err internal_validation (ProcessId_new text))
     end : result (option ProcessId) RuntimeError) = Ok ident
     <-> match id with Some id => ident = Some id | None => match first_id [MkWireEvent text ev] with
         | None => ident = None | Some text => exists id, ProcessId_new text = Ok id /\ ident = Some id end end) as Hid.
  { intros ident. destruct id as [id|]; [split; congruence|]. cbn [first_id we_process_id]. destruct (is_empty text); [split; congruence|].
    destruct (ProcessId_new text) as [i|e]; cbn; split; try congruence; naive_solver. }
  split.
  - intros Hok. destruct (match id with Some _ => _ | None => _ end) as [ident|e] eqn:Hi; [|done].
    pose proof (proj1 (Hid ident) eq_refl) as Hident. cbn [result_bind] in Hok.
    destruct ev as [[d|d|x|code m]|]; try discriminate Hok; injection Hok as <-; split; cbn; rewrite ?app_nil_r; try done;
      by repeat constructor.
  - intros [Hne Hc Ho He Ht Htr]. cbn [co_process_id] in Hc. apply Hid in Hc. rewrite Hc. cbn [result_bind].
    destruct c' as [id' out' err' term' trunc']. cbn in *. rewrite ?app_nil_r in Ho, He.
    apply Forall_cons in Hne as [Hne _]. destruct ev as [[d|d|x|code m]|]; cbn in *; subst; rewrite ?app_nil_r; done.
Qed.

Lemma collects_nil c c' : collects c [] c' <-> c' = c.
Proof.
  split.
  - intros [_ Hi Ho He Ht Htr]. destruct c as [id out err term trunc], c' as [id' out' err' term' trunc']. cbn in *.
    rewrite app_nil_r in Ho, He. subst. destruct id; by subst.
  - intros ->. split; cbn; rewrite ?app_nil_r; try done. by destruct (co_process_id c).
Qed.

Lemma exits_cons e events : last (exits (e :: events)) = match last (exits events) with
  | Some x => Some x | None => last (exits [e]) end.
Proof.
  unfold exits. change (e :: events) with ([e] ++ events). rewrite omap_app.
  destruct (omap exit_of events) as [|x l] using rev_ind; [by rewrite app_nil_r|].
  by rewrite app_assoc, !last_snoc.
Qed.

Lemma collects_cons c e events c' :
  (exists c1, collects c [e] c1 /\ collects c1 events c') <-> collects c (e :: events) c'.
Proof.
  split.
  - intros (c1&[Hn Hi Ho He Ht Htr]&[Hn' Hi' Ho' He' Ht' Htr']). split.
    + inversion Hn. by constructor.
    + destruct (co_process_id c) as [id|]; [by rewrite Hi in Hi'|]. cbn [first_id] in Hi |- *.
      destruct (is_empty (we_process_id e)); [by rewrite Hi in Hi'|]. destruct Hi as (id&?&Hi). rewrite Hi in Hi'. eauto.
    + rewrite Ho', Ho. cbn. by rewrite app_nil_r, app_assoc.
    + rewrite He', He. cbn. by rewrite app_nil_r, app_assoc.
    + rewrite exits_cons, Ht', Ht. by destruct (last (exits events)).
    + rewrite exits_cons, Htr', Htr. by destruct (last (exits events)).
  - intros [Hn Hi Ho He Ht Htr]. inversion_clear Hn as [|?? Hn1 Hn2].
    exists (MkCollected
      (match co_process_id c with Some id => Some id | None => if is_empty (we_process_id e) then None else co_process_id c' end)
      (co_stdout c ++ stdout_of e) (co_stderr c ++ stderr_of e)
      (match last (exits [e]) with Some x => Some (termination_of x) | None => co_termination c end)
      (match last (exits [e]) with Some x => truncation_of x | None => co_truncation c end)).
    cbn [first_id flat_map] in *. split; split; cbn [co_process_id co_stdout co_stderr co_termination co_truncation first_id flat_map];
      rewrite ?app_nil_r, <- ?app_assoc; try done.
    + by constructor.
    + destruct (co_process_id c); [done|]. destruct (is_empty (we_process_id e)); done.
    + destruct (co_process_id c); [done|]. destruct (is_empty (we_process_id e)); [done|].
      destruct Hi as (id&_&Hi). by rewrite Hi.
    + rewrite exits_cons in Ht. by destruct (last (exits events)).
    + rewrite exits_cons in Htr. by destruct (last (exits events)).
Qed.

Lemma collect_events_collects events : forall c c', collect_events c events = Ok c' <-> collects c events c'.
Proof.
  induction events as [|e events IH]; intros c c'; cbn [collect_events].
  - rewrite collects_nil. split; congruence.
  - rewrite <- collects_cons. split.
    + destruct (collect_event c e) as [c1|] eqn:He; cbn [result_bind]; [|done]. intros Hr. exists c1.
      by rewrite <- collect_event_collects, <- IH.
    + intros (c1&He%collect_event_collects&Hr%IH). by rewrite He.
Qed.

(** ** The result of a command *)

(** C20. The result of a command is exactly what its events say: a stream gives a
    result if and only if it ends without an error, no event is an error, the
    first identifier in it is a valid one and some event is an exit; the result is
    then that identifier, the end that the last exit reports (a timeout before an
    exceeded limit, before an exit code, before a signal), all standard output and
    all standard error in order, and the truncation flags of that exit. *)
Theorem command_result_is_reported stream result :
  collected_result stream = Ok result <->
  str_end stream = None /\ Forall no_error (str_messages stream)
  /\ exists text id x,
       first_id (str_messages stream) = Some text /\ ProcessId_new text = Ok id
       /\ last (exits (str_messages stream)) = Some x
       /\ result = MkExecResult id (termination_of x) (flat_map stdout_of (str_messages stream))
                     (flat_map stderr_of (str_messages stream)) (truncation_of x).
Proof.
  unfold collected_result. set (events := str_messages stream). split.
  - destruct (collect_events _ events) as [c|e] eqn:Hc; cbn [result_bind]; [|done].
    apply collect_events_collects in Hc as [Hn Hi Ho He Ht Htr]. cbn in *.
    destruct (str_end stream) as [error|]; cbn [stream_end result_bind]; [done|].
    destruct (co_process_id c) as [id|] eqn:Hid; cbn [ok_or result_bind]; [|done].
    destruct (co_termination c) as [term|] eqn:Hterm; cbn [ok_or result_bind]; [|done]. intros [= <-].
    split; [done|]. split; [done|]. destruct (first_id events) as [text|]; [|done].
    destruct Hi as (id'&Hnew&[= ->]). destruct (last (exits events)) as [x|]; [|done]. exists text, id', x.
    split; [done|]. split; [done|]. split; [done|]. injection Ht as ->. by rewrite Ho, He, Htr.
  - intros (Hend&Hn&text&id&x&Hf&Hid&Hx&->).
    assert (collect_events (MkCollected None [] [] None OutputTruncation_default) events
      = Ok (MkCollected (Some id) (flat_map stdout_of events) (flat_map stderr_of events) (Some (termination_of x))
             (truncation_of x))) as ->.
    { apply collect_events_collects. split; cbn; try done; [|by rewrite Hx..]. rewrite Hf. by exists id. }
    cbn [result_bind]. rewrite Hend. done.
Qed.

(** ** The events of the guest agent *)

Definition wire (e : ProcessEvent) : WireEvent := MkWireEvent (pe_process_id e) (Some (pe_event e)).

Lemma ProcessId_new_nonempty text id : ProcessId_new text = Ok id -> is_empty text = false.
Proof. unfold ProcessId_new. by destruct (is_empty text). Qed.

Lemma collect_events_error id events : Forall (fun e => ProcessId_new (we_process_id e) = Ok id) events ->
  forall c e, collect_events c events = Err e -> re_kind e = Unavailable.
Proof.
  induction 1 as [|ev events Hv _ IH]; intros c e; cbn [collect_events]; [done|].
  destruct (collect_event c ev) as [c1|e1] eqn:He; cbn [result_bind]; [apply IH|]. intros [= <-].
  revert He. unfold collect_event. rewrite (ProcessId_new_nonempty _ _ Hv), Hv. cbn [map_err result_map].
  destruct (co_process_id c), (we_event ev) as [[]|]; cbn [result_bind]; intros [= <-]; done.
Qed.

Lemma output_lengths events :
  (Z.of_nat (length (flat_map stdout_of (map wire events))) + Z.of_nat (length (flat_map stderr_of (map wire events)))
   = event_bytes events)%Z.
Proof.
  unfold event_bytes. induction events as [|[text ev] events IH]; [done|].
  cbn [map flat_map concat]. rewrite !length_app. unfold stdout_of at 1, stderr_of at 1, event_data at 1. cbn.
  destruct ev; cbn [length]; lia.
Qed.

Lemma exits_wire events x : x ∈ exits (map wire events) -> Exit x ∈ map pe_event events.
Proof.
  unfold exits. rewrite list_elem_of_omap. intros (w&(e&->&He)%list_elem_of_fmap&Hx). unfold exit_of, wire in Hx. cbn in Hx.
  destruct (pe_event e) eqn:Hp; try done. injection Hx as <-. apply list_elem_of_fmap. by exists e.
Qed.

(** A told client has an exit or an error. *)
Lemma terminal_told events : length (terminals events) = 1 ->
  (exists x, Exit x ∈ map pe_event events) \/ ~ Forall no_error (map wire events).
Proof.
  intros Hl. assert (exists e, e ∈ terminals events) as [e He].
  { destruct (terminals events) as [|e l]; [done|]. exists e. by constructor. }
  apply list_elem_of_In, List.filter_In in He as [He%list_elem_of_In Ht]. unfold terminal, is_output in Ht.
  destruct (pe_event e) as [d|d|x|code m] eqn:Hp; try done.
  - left. exists x. apply list_elem_of_fmap. by exists e.
  - right. rewrite Forall_forall. intros Hn. specialize (Hn (wire e) (list_elem_of_fmap_2 _ _ _ He)).
    unfold no_error, wire in Hn. cbn in Hn. by rewrite Hp in Hn.
Qed.

Lemma client_view_result process_id maximum o ended id :
  client_view process_id maximum o ended -> os_receiver o = true ->
  Forall (fun e => ProcessId_new (pe_process_id e) = Ok id) (os_events o) ->
  match collected_result (MkStream (map wire (os_events o)) None) with
  | Ok result => er_process_id result = id
      /\ (Z.of_nat (length (er_stdout result)) + Z.of_nat (length (er_stderr result)) <= maximum)%Z
      /\ exists x, last (os_events o) = Some (MkProcessEvent process_id (Exit x)) /\ er_termination result = termination_of x
  | Err error => re_kind error = Unavailable
  end.
Proof.
  intros [Hb _ Ht Hx] Hr Hv. specialize (Ht Hr).
  assert (Forall (fun e => ProcessId_new (we_process_id e) = Ok id) (map wire (os_events o))) as Hvw by by apply Forall_map.
  destruct (collected_result (MkStream (map wire (os_events o)) None)) as [result|error] eqn:Hc.
  - revert Hc. unfold collected_result. cbn [str_messages str_end].
    destruct (collect_events _ _) as [c|] eqn:Hev; cbn [result_bind stream_end]; [|done].
    apply collect_events_collects in Hev as [Hn Hi Ho He Hte _]. cbn in *.
    destruct (co_process_id c) as [id'|]; cbn [ok_or result_bind]; [|done].
    destruct (co_termination c) as [t|]; cbn [ok_or result_bind]; [|done]. intros [= <-]. cbn. rewrite Ho, He, output_lengths.
    assert (id' = id) as ->.
    { destruct (os_events o) as [|e events]; [done|]. inversion Hv as [|?? Hve]; subst. cbn in Hi.
      rewrite (ProcessId_new_nonempty _ _ Hve), Hve in Hi. destruct Hi as (?&?&?). congruence. }
    split; [done|]. split; [done|]. destruct (last (exits (map wire (os_events o)))) as [x|] eqn:Hl; [|done].
    apply last_Some_elem_of, exits_wire in Hl. exists x. injection Hte as ->. split; [|done]. by apply Hx.
  - revert Hc. unfold collected_result. cbn [str_messages str_end].
    destruct (collect_events _ _) as [c|e] eqn:Hev; cbn [result_bind stream_end].
    2: { intros [= <-]. by eapply collect_events_error. }
    apply collect_events_collects in Hev as [Hn Hi _ _ Hte _]. cbn in *.
    destruct (terminal_told _ Ht) as [[x Hxin]|]; [|done].
    destruct (os_events o) as [|e events]; [by apply not_elem_of_nil in Hxin|]. inversion Hv as [|?? Hve]; subst. cbn in Hi.
    rewrite (ProcessId_new_nonempty _ _ Hve) in Hi. destruct Hi as (?&_&->). cbn [ok_or result_bind].
    destruct (last (exits (map wire (e :: events)))) as [y|] eqn:Hl; [by rewrite Hte|]. exfalso.
    apply last_None in Hl. apply list_elem_of_fmap in Hxin as (ev&Hev&Hin).
    assert (x ∈ exits (map wire (e :: events))) as Hxe; [|rewrite Hl in Hxe; by apply not_elem_of_nil in Hxe].
    unfold exits. apply list_elem_of_omap. exists (wire ev). split; [by apply list_elem_of_fmap_2|].
    unfold exit_of, wire. cbn. by rewrite <- Hev.
Qed.

(** ** A command, from the guest agent to the node *)
Section Command.
Context `{U : UuidLib} `{C : CryptoLib} `{D : CapStd} `{P : GuestProcesses} `{H : HostPrograms}.

(** C19. From the guest agent's process task to the result on the node, for every
    interleaving of the task with those that forward its output: when the node
    has received all the events of a process, it never finds a result missing.
    Either the result is that process's, its outputs are together no longer than
    the requested limit and its end is the exit event that the agent sent last,
    or the agent reported an error and the node answers [Unavailable]. This is so
    when the kernel never refuses to reap a process that was killed (if it does,
    the agent sends neither an exit nor an error), when the identifier that the
    agent chose is new to it and one that the node accepts in every event, and
    when the requested limit is no negative number and, with a buffer for each
    output, below [2^64]. *)
Theorem guest_command_has_result task limit before after st id :
  (0 <= sp_max_output_bytes (tk_request task))%Z ->
  (sp_max_output_bytes (tk_request task) + 2 * buffer < 2 ^ 64)%Z ->
  (forall child fs, is_ok (child_reap child fs).1 = true) ->
  gs_processes (ts_guest st) !! tk_process_id task = None ->
  os_events (ts_output st) = [] ->
  let o := ts_output (run (process_task task limit before after) st).2 in
  os_receiver o = true ->
  Forall (fun e => ProcessId_new (pe_process_id e) = Ok id) (os_events o) ->
  match collected_result (MkStream (map wire (os_events o)) None) with
  | Ok result => er_process_id result = id
      /\ (Z.of_nat (length (er_stdout result)) + Z.of_nat (length (er_stderr result))
          <= sp_max_output_bytes (tk_request task))%Z
      /\ exists x, last (os_events o) = Some (MkProcessEvent (tk_process_id task) (Exit x))
         /\ er_termination result = termination_of x
  | Err error => re_kind error = Unavailable
  end.
Proof.
  intros H0 Hm Hreap Hfresh He o Hr Hv.
  pose proof (process_task_view task limit before after st H0 Hm Hreap Hfresh He) as [_ Hview].
  by eapply client_view_result.
Qed.
End Command.

Lemma guest_command_has_result_witness :
  let o := ts_output (run (process_task example_task 8 [] example_turns) example_task_state).2 in
  is_ok (collected_result (MkStream (map wire (os_events o)) None)) = true
  /\ match collected_result (MkStream (map wire (os_events o)) None) with
     | Ok result => er_process_id result = MkProcessId "p"
         /\ (Z.of_nat (length (er_stdout result)) + Z.of_nat (length (er_stderr result)) <= 7)%Z
         /\ exists x, last (os_events o) = Some (MkProcessEvent "p" (Exit x)) /\ er_termination result = termination_of x
     | Err error => re_kind error = Unavailable
     end.
Proof.
  cbv zeta. split; [vm_compute; reflexivity|].
  apply (guest_command_has_result example_task 8 [] example_turns example_task_state (MkProcessId "p")).
  - vm_compute. discriminate.
  - vm_compute. reflexivity.
  - intros child fs. reflexivity.
  - vm_compute. reflexivity.
  - reflexivity.
  - vm_compute. reflexivity.
  - assert (forallb (fun e => match ProcessId_new (pe_process_id e) with
      | Ok i => String.eqb (process_str i) "p" | Err _ => false end)
      (os_events (ts_output (run (process_task example_task 8 [] example_turns) example_task_state).2)) = true) as Hall
      by (vm_compute; reflexivity).
    rewrite forallb_forall in Hall. apply Forall_forall. intros e He%list_elem_of_In%Hall.
    destruct (ProcessId_new (pe_process_id e)) as [[text]|]; [|discriminate He]. apply String.eqb_eq in He. cbn in He.
    by rewrite He.
Defined.
