(* ===== verification/FirecrackerHost.v ===== *)
(** * The microVM runtime: a concrete host

    A small computable host with jailers and machines that start, answer, are
    paused and are killed with their control groups, on which the theorems about
    the runtime are applied. *)
From S2P Require Import Prelude Conc Fs FsOps Utf8 Commands Inet GuestOutput Guest Instances.
From S2P Require Import Machines Network Rootfs Template TemplateProps TemplateRuntime Snapshot Core Firecracker FirecrackerOps.
From S2P Require Import FirecrackerFrame FirecrackerWaits FirecrackerSnapshots.

(** Identifiers are numbered, and the number is written in strokes after a long
    prefix. *)
Definition strokes_prefix : string := "00000000-0000-4000-8000-".
Fixpoint strokes (n : nat) : string := match n with O => "" | S n => String "1" (strokes n) end.
Fixpoint count_strokes (s : string) : option nat :=
  match s with
  | EmptyString => Some 0
  | String c s => if Ascii.eqb c "1" then S <$> count_strokes s else None
  end.
Definition stroke_text (n : nat) : string := strokes_prefix +:+ strokes n.
Lemma count_strokes_strokes n : count_strokes (strokes n) = Some n.
Proof. induction n as [|n IH]; cbn; [done|]. by rewrite IH. Qed.

#[export] Instance host_uuid : UuidLib.
Proof.
  refine {| Uuid := nat; uuid_to_string := stroke_text;
            uuid_parse := fun s => strip_prefix strokes_prefix s ≫= count_strokes;
            now_v7 := id; new_v4 := id |}.
  - intros n. unfold stroke_text. rewrite strip_prefix_app. apply count_strokes_strokes.
  - done.
  - done.
Defined.

Lemma stroke_plain n : plain_name (stroke_text n).
Proof.
  split; [done|]. split; [done|]. unfold stroke_text. unfold string_contains. rewrite string_all_app.
  change (string_all _ strokes_prefix) with true. cbn [andb]. induction n as [|n IH]; [done|]. exact IH.
Qed.

(** A checksum for a digest. *)
Definition checksum (d : list Byte.byte) : Z := fold_left (fun a b => (a * 31 + Z.of_N (Byte.to_N b)) mod 65521)%Z d 7%Z.
#[export] Instance checksum_crypto : CryptoLib.
Proof.
  refine {| sha256 := fun d => [byte_of (checksum d); byte_of (checksum d / 256)];
            base64_url := base64_url; base64_encode := base64_encode; base64_decode := base64_decode;
            random_secret := random_secret; ct_eq := ct_eq |}.
  - apply ct_eq_spec.
  - apply base64_roundtrip.
  - apply base64_url_nonempty.
  - apply random_secret_length.
Defined.

(** ** Manifests as lists of numbers *)
#[export] Instance SandboxState_countable : Countable SandboxState.
Proof.
  refine (inj_countable' (fun s => match s with Creating => 0 | Running => 1 | Pausing => 2 | Paused => 3 | Resuming => 4
    | Deleting => 5 | Deleted => 6 | Failed => 7 end)
    (fun n => match n with 0 => Creating | 1 => Running | 2 => Pausing | 3 => Paused | 4 => Resuming
    | 5 => Deleting | 6 => Deleted | _ => Failed end) _).
  by intros [].
Defined.
#[export] Instance NetworkMode_countable : Countable NetworkMode.
Proof.
  refine (inj_countable' (fun m => match m with Disabled => true | Internet => false end)
    (fun b : bool => if b then Disabled else Internet) _).
  by intros [].
Defined.
#[export] Instance SandboxSpec_countable : Countable SandboxSpec.
Proof.
  refine (inj_countable' (fun s => (template_id s, cpu_count s, memory_mb s, spec_timeout_seconds s, network s))
    (fun '(t, c, m, e, n) => MkSandboxSpec t c m e n) _).
  by intros [].
Defined.
#[export] Instance ArtifactDigest_countable : Countable ArtifactDigest.
Proof.
  refine (inj_countable' (fun d => (ad_size_bytes d, ad_sha256 d)) (fun '(s, h) => MkArtifactDigest s h) _).
  by intros [].
Defined.

Definition manifest_fields (m : SnapshotManifest) : list positive :=
  [ encode (sm_schema_version m); encode (sm_snapshot_id m); encode (sm_source_sandbox_id m); encode (sm_name m);
    encode (sm_created_at_unix_ms m); encode (sm_source_state m); encode (sm_spec m); encode (sm_node_id m);
    encode (sm_architecture m); encode (sm_firecracker_version m); encode (sm_kernel_sha256 m); encode (sm_artifacts m);
    encode (sm_restore_token_sha256 m); encode (sm_size_bytes m); encode (sm_digest_sha256 m) ].

Definition manifest_of_fields (l : list positive) : option SnapshotManifest :=
  match l with
  | [v; i; s; n; t; q; p; o; a; f; k; g; r; z; d] =>
      v ← decode v; i ← decode i; s ← decode s; n ← decode n; t ← decode t; q ← decode q; p ← decode p; o ← decode o;
      a ← decode a; f ← decode f; k ← decode k; g ← decode g; r ← decode r; z ← decode z; d ← decode d;
      Some (MkSnapshotManifest v i s n t q p o a f k g r z d)
  | _ => None
  end.

Lemma manifest_of_fields_of m : manifest_of_fields (manifest_fields m) = Some m.
Proof. unfold manifest_of_fields, manifest_fields. rewrite !decode_encode. by destruct m. Qed.

#[export] Instance field_json : ManifestJson.
Proof.
  refine {| manifest_to_vec := fun m => Ok (bits (encode (manifest_fields m)));
            manifest_to_vec_pretty := fun m => Ok (bits (encode (manifest_fields m)));
            manifest_from_slice := fun l => ok_or "malformed" (decode (of_bits l) ≫= manifest_of_fields) |}.
  intros m b [= <-]. rewrite (proj2 (of_bits_bits _)), decode_encode. cbn [mbind option_bind].
  by rewrite manifest_of_fields_of.
Defined.

(** ** Machines *)

(** The clock, the jailers that run with the identifiers that they serve, the
    VMMs, the paused ones by their sockets, the next process, and how many VMMs
    can run. *)
Record HostVms := MkHostVms {
  hv_clock : Z;
  hv_jailers : list (nat * string);
  hv_running : list string;
  hv_paused : list Path;
  hv_next : nat;
  hv_capacity : nat;
}.
Definition host_vms (capacity : nat) : HostVms := MkHostVms 0 [] [] [] 0 capacity.

Definition set_jailers (l : list (nat * string)) (v : HostVms) : HostVms :=
  MkHostVms (hv_clock v) l (hv_running v) (hv_paused v) (hv_next v) (hv_capacity v).
Definition set_running (l : list string) (v : HostVms) : HostVms :=
  MkHostVms (hv_clock v) (hv_jailers v) l (hv_paused v) (hv_next v) (hv_capacity v).
Definition set_paused (l : list Path) (v : HostVms) : HostVms :=
  MkHostVms (hv_clock v) (hv_jailers v) (hv_running v) l (hv_next v) (hv_capacity v).

Definition host_clock (o : Fs * HostVms) : Z := hv_clock o.2.
Definition host_sleep (d : Z) (o : Fs * HostVms) : unit * (Fs * HostVms) :=
  (tt, (o.1, MkHostVms (hv_clock o.2 + Z.max 0 d) (hv_jailers o.2) (hv_running o.2) (hv_paused o.2) (hv_next o.2) (hv_capacity o.2))).

Definition argument (command : list string) (n : nat) : string := match command !! n with Some a => a | None => "" end.

(** A VMM that starts makes the socket of its API. *)
Definition api_socket_of (command : list string) : Path :=
  let executable := match file_name (Path_of_string (argument command 4)) with Some name => name | None => "" end in
  join (join (join (join (join (Path_of_string (argument command 10)) executable) (argument command 2)) "root") "run")
    "firecracker.socket".
Definition host_spawn (command : list string) (o : Fs * HostVms) : result nat IoError * (Fs * HostVms) :=
  if (length (hv_running o.2) <? hv_capacity o.2) && String.eqb (argument command 1) "--id" then
    (Ok (hv_next o.2),
     ((run (fs_write (api_socket_of command) "") o.1).2,
      MkHostVms (hv_clock o.2) ((hv_next o.2, argument command 2) :: hv_jailers o.2) (argument command 2 :: hv_running o.2)
        (hv_paused o.2) (S (hv_next o.2)) (hv_capacity o.2)))
  else (Err (MkIoError IoOther "no capacity"), o).

(** The kill of a child leaves the VMM that it started alone. *)
Definition host_kill (p : nat) (o : Fs * HostVms) : result unit IoError * (Fs * HostVms) :=
  (Ok tt, (o.1, set_jailers (List.filter (fun q => negb (q.1 =? p)) (hv_jailers o.2)) o.2)).
Definition host_wait_for (p : nat) (d : Z) (o : Fs * HostVms) : bool * (Fs * HostVms) :=
  (negb (existsb (fun q => p =? q.1) (hv_jailers o.2)), o).

(** Control groups: that of a VMM exists while the VMM runs. *)
Definition host_group (id : string) : Path := join cgroup_parent id.
Definition in_group (path : Path) (v : HostVms) : bool := existsb (fun id => bool_decide (host_group id = path)) (hv_running v).
Definition host_group_metadata (path : Path) (o : Fs * HostVms) : result unit IoError * (Fs * HostVms) :=
  (if in_group path o.2 then Ok tt else Err (MkIoError IoNotFound "no such group"), o).
Definition host_group_write (path : Path) (text : string) (o : Fs * HostVms) : result unit IoError * (Fs * HostVms) :=
  (Ok tt, (o.1, set_running (List.filter (fun id => negb (bool_decide (join (host_group id) "cgroup.kill" = path))) (hv_running o.2)) o.2)).
Definition host_group_remove (path : Path) (o : Fs * HostVms) : result unit IoError * (Fs * HostVms) :=
  (if in_group path o.2 then Err (MkIoError IoOther "busy") else Ok tt, o).

(** A request for a snapshot writes the two files that it names; one about the
    state of a machine pauses or resumes it. *)
Definition host_http (socket : Path) (method : Method) (path : string) (body : list Byte.byte) (limit : Z)
    (o : Fs * HostVms) : HttpOutcome * (Fs * HostVms) :=
  if String.eqb path "/snapshot/create" then
    match parent socket ≫= parent, split_on newline (String.string_of_list_byte body) with
    | Some root, [state; memory] =>
        (HttpAnswered 204 [], ((run (do _ <- fs_write (join (join root "snapshot") state) "state" ;;
           fs_write (join (join root "snapshot") memory) "memory")%prog o.1).2, o.2))
    | _, _ => (HttpAnswered 400 [], o)
    end
  else if String.eqb path "/vm" then
    (HttpAnswered 204 [], (o.1, set_paused
       (if String.eqb (String.string_of_list_byte body) "Paused" then socket :: hv_paused o.2
        else List.filter (fun p => negb (bool_decide (p = socket))) (hv_paused o.2)) o.2))
  else (HttpAnswered 200 [], o).

#[export] Instance host_machines : Machines := {|
  Vms := HostVms;
  VmProcess := nat;
  GuestClient := unit;
  UnixStream := unit;
  now := host_clock;
  sleep_for := host_sleep;
  jailer_spawn := host_spawn;
  process_kill := host_kill;
  process_wait _ o := (Ok tt, o);
  process_wait_for := host_wait_for;
  cgroup_metadata := host_group_metadata;
  cgroup_write := host_group_write;
  cgroup_remove_dir := host_group_remove;
  cgroup_read_to_string _ o := (Ok "", o);
  http_request := host_http;
  unix_connect _ _ o := (Some (Ok tt), o);
  unix_write _ _ o := (Ok tt, o);
  unix_flush _ o := (Ok tt, o);
  unix_read_line _ _ o := (Some (Ok (5%Z, "OK 1" +:+ String newline "")), o);
  tonic_error m := m;
  tonic_connect _ o := (Ok tt, o);
  rpc_health _ o := (Ok tt, o);
  rpc_init _ _ o := (Ok tt, o);
  rpc_rekey _ _ o := (Ok tt, o);
  rpc_start_process _ _ o :=
    (Ok (MkStream [MkWireEvent "p" (Some (Exit (MkProcessExit (Some 0%Z) None false false false false)))] None), o);
  rpc_signal_process _ _ o := (Ok true, o);
  rpc_write_file _ _ _ o := (Ok 0%Z, o);
  rpc_read_file _ _ o := (Ok (MkStream [] None), o);
  rpc_list_directory _ _ o := (Ok [], o);
|}.

(** The part of a path after the last slash. *)
Definition base_name (s : string) : string := match last (split_on "/"%char s) with Some name => name | None => s end.

#[export] Instance host_json : ApiJson := {|
  body_to_vec b := Ok (match b with
    | B_SnapshotCreate c =>
        String.list_byte_of_string (base_name (sc_snapshot_path c) +:+ String newline (base_name (mem_file_path c)))
    | B_VmState state => String.list_byte_of_string (match vm_state state with VmPaused => "Paused" | VmResumed => "Resumed" end)
    | _ => []
    end);
  version_from_slice _ := Ok FIRECRACKER_VERSION;
  fault_from_slice _ := None;
  status_display := pretty;
  debug_text s := s;
|}.

(** No [cp] is installed; the other programs succeed. *)
#[export] Instance host_programs : HostPrograms := {|
  command_output program _ fs :=
    (Ok (MkOutput (MkExitStatus (Some (if String.eqb program "cp" then 1%Z else 0%Z)) None) [] []), fs);
|}.

#[export] Instance host_network : NetHost := {|
  nft_load _ fs := (NftNotStarted (MkIoError IoOther "no nft"), fs);
  udp_bind _ _ := Ok tt;
  udp_local_addr a _ := Ok a;
  tcp_bind _ _ := Ok tt;
|}.

(** ** Its laws *)

Definition host_jailer (p : nat) (i : SandboxId) (v : HostVms) : Prop := (p, SandboxId_to_string i) ∈ hv_jailers v.
Definition host_runs (i : SandboxId) (v : HostVms) : Prop :=
  SandboxId_to_string i ∈ hv_running v \/ exists p, host_jailer p i v.
Definition host_processes : @Processes _ host_machines :=
  MkProcesses (host_jailer : VmProcess -> SandboxId -> Vms -> Prop) (host_runs : SandboxId -> Vms -> Prop) (fun _ _ => False).

(** Fewer jailers and fewer VMMs. *)
Definition host_fewer (o o' : Fs * HostVms) : Prop :=
  (forall q, q ∈ hv_jailers o'.2 -> q ∈ hv_jailers o.2) /\ (forall i, i ∈ hv_running o'.2 -> i ∈ hv_running o.2).

Lemma host_fewer_quiet (o o' : Fs * HostVms) : host_fewer o o' -> outside_quiet (M:=host_machines) host_processes o o'.
Proof.
  intros [Hj Hr]. split; [intros p i; apply Hj| |done]. intros i [Hi|[p Hp]]; [left; by apply Hr|right; exists p; by apply Hj].
Qed.

Lemma host_http_processes a b c d e o :
  hv_jailers (host_http a b c d e o).2.2 = hv_jailers o.2 /\ hv_running (host_http a b c d e o).2.2 = hv_running o.2
  /\ hv_clock (host_http a b c d e o).2.2 = hv_clock o.2.
Proof.
  unfold host_http. destruct (String.eqb c "/snapshot/create").
  - destruct (parent a ≫= parent); [|done]. by destruct (split_on _ _) as [|? [|? []]].
  - by destruct (String.eqb c "/vm").
Qed.

Lemma elem_of_filter_in {A} (f : A -> bool) (l : list A) x : x ∈ List.filter f l <-> f x = true /\ x ∈ l.
Proof. rewrite !list_elem_of_In, List.filter_In. tauto. Qed.

Lemma in_group_spec path v : in_group path v = true <-> exists id, id ∈ hv_running v /\ host_group id = path.
Proof.
  unfold in_group. rewrite existsb_exists. setoid_rewrite <- list_elem_of_In. by setoid_rewrite bool_decide_eq_true.
Qed.

(** A VMM whose jailer has ended and that is in no group does not run. *)
Lemma host_idle_runs i v : idle (M:=host_machines) host_processes i v -> in_group (group_of i) v = false -> ~ host_runs i v.
Proof.
  intros Hi Hg [Hr|[p Hp]]; [|by apply (Hi p)]. apply not_true_iff_false in Hg. apply Hg, in_group_spec.
  by exists (SandboxId_to_string i).
Qed.

#[export] Instance host_laws : ProcessLaws (M:=host_machines).
Proof.
  refine {| processes := host_processes |}.
  - intros p i v Hp. right. by exists p.
  - intros i. apply stroke_plain.
  - split; [split|]; try (intros; by apply host_fewer_quiet).
    + split; [intros o; by apply host_fewer_quiet|]. intros x y z [] []. split; cbn in *; auto.
    + intros c o. apply host_fewer_quiet. split; [|done]. cbn. intros q Hq. by apply elem_of_filter_in in Hq as [_ ?].
    + intros p t o. apply host_fewer_quiet. split; [done|]. cbn. intros q Hq. by apply elem_of_filter_in in Hq as [_ ?].
    + intros a b c d e o. apply host_fewer_quiet. destruct (host_http_processes a b c d e o) as (Hj&Hr&_).
      split; intros q Hq; [rewrite <- Hj|rewrite <- Hr]; exact Hq.
  - intros command [fs v]. cbn [jailer_spawn host_machines]. unfold host_spawn. cbn [fst snd].
    destruct (length (hv_running v) <? hv_capacity v); cbn [andb]; [|by apply host_fewer_quiet].
    destruct (String.eqb_spec (argument command 1) "--id") as [Hid|]; [|by apply host_fewer_quiet].
    assert (forall i, SandboxId_to_string i = argument command 2 -> jails command i) as Hjails.
    { intros i Hi. destruct command as [|a [|b [|c rest]]]; try discriminate Hid.
      - by apply (f_equal String.length) in Hi.
      - cbn in Hi, Hid. exists a, rest. by subst. }
    cbn. split; [|split; [|done]].
    + intros p i [Heq|Hp]%elem_of_cons; [right|by left]. injection Heq as -> Heq. split; [done|]. by apply Hjails.
    + intros i [[Heq|Hr]%elem_of_cons|[p [Heq|Hp]%elem_of_cons]].
      * right. by apply Hjails.
      * left. by left.
      * right. injection Heq as -> Heq. by apply Hjails.
      * left. right. by exists p.
  - intros c i o Hr. cbn in Hr. apply elem_of_filter_in in Hr as [Hc _]. cbn in Hc. by rewrite Nat.eqb_refl in Hc.
  - intros c d i o Hw Hr. cbn in Hw, Hr. apply negb_true_iff, not_true_iff_false in Hw. apply Hw, existsb_exists.
    exists (c, SandboxId_to_string i). split; [by apply list_elem_of_In|]. apply Nat.eqb_refl.
  - intros i o Hi. cbn [cgroup_metadata host_machines]. unfold host_group_metadata.
    match goal with |- context [if in_group ?g ?v then _ else _] => destruct (in_group g v) eqn:Hg end; [done|].
    by apply host_idle_runs.
  - intros i o Hi. cbn. intros [Hr|[p Hp]]; [|by apply (Hi p)]. cbn in Hr. apply elem_of_filter_in in Hr as [Hk _].
    by rewrite bool_decide_eq_true_2 in Hk.
  - intros i o Hi. cbn [cgroup_remove_dir host_machines]. unfold host_group_remove.
    match goal with |- context [if in_group ?g ?v then _ else _] => destruct (in_group g v) eqn:Hg end; [done|].
    by apply host_idle_runs.
Defined.

Definition host_paused (socket : Path) (v : HostVms) : Prop := socket ∈ hv_paused v.

#[export] Instance host_pause_laws : PauseLaws (M:=host_machines).
Proof.
  refine {| vm_paused := host_paused : Path -> Vms -> Prop |}.
  - intros socket. split; try (intros; try intros Hp; assumption). split; [by intros o Hp|]. intros x y z H1 H2 Hz. by apply H1, H2.
  - by intros socket body limit o [= <-].
  - intros socket body limit o [= <-]. cbn. intros _ Hp. apply elem_of_filter_in in Hp as [Hp _].
    by rewrite bool_decide_eq_true_2 in Hp.
Defined.

#[export] Instance host_clock_laws : ClockLaws (M:=host_machines).
Proof.
  split.
  - split; [split|]; try (intros; unfold clock_le; cbn; unfold host_clock; cbn; lia).
    + split; [intros o; unfold clock_le; lia|intros x y z; unfold clock_le; lia].
    + intros a b c d e o. unfold clock_le. pose proof (proj2 (proj2 (host_http_processes a b c d e o))) as Hc.
      change (now o <= hv_clock (host_http a b c d e o).2.2)%Z. rewrite Hc. cbn. unfold host_clock. lia.
  - intros d o Hd. cbn. unfold host_clock. cbn. lia.
Defined.

(** ** A runtime on it *)

Definition host_file (text : string) : Node := MkNode (File (String.list_byte_of_string text)) 33152 0.
Definition host_directory : Node := MkNode Dir 16877 0.
Definition host_tree : Fs :=
  MkFs (list_to_map
    [ (["bin"], host_directory); (["bin"; "firecracker"], host_file "vmm"); (["bin"; "jailer"], host_file "jailer");
      (["img"], host_directory); (["img"; "kernel"], host_file "kernel"); (["img"; "rootfs"], host_file "rootfs");
      (["jail"], host_directory); (["run"], host_directory) ]) [] 0 [].

Definition host_config (root : option Path) : FirecrackerRuntimeConfig :=
  let p := Path_of_string in
  MkFirecrackerRuntimeConfig (p "/bin/firecracker") (p "/bin/jailer") (p "/img/kernel") (p "/img/rootfs") None root
    (p "/jail") (p "/run") 1000 1000 5000 (millis 5000) (millis 10000) "node".

Definition host_started (capacity : nat) : result FirecrackerRuntime RuntimeError :=
  FirecrackerRuntime_new "x86_64" (host_config None) (MkNetState host_tree []) (host_vms capacity).

Definition host_spec : SandboxSpec := MkSandboxSpec "python" 1 512 300 Disabled.

Definition host_request : CreateSnapshotRequest := MkCreateSnapshotRequest None.

(** The fresh host runs nothing. *)
Lemma host_vms_idle capacity i : ~ runs host_processes i (host_vms capacity).
Proof. intros [Hi|[p Hp]]; [by apply not_elem_of_nil in Hi|by apply not_elem_of_nil in Hp]. Qed.
