(* ===== verification/FirecrackerProps.v ===== *)
(** * The microVM runtime: theorems

    Over every sequence of operations: the machines that run are those of the
    table, and no sandbox is handed out twice. Then what single operations come
    to: cloning and rolling back are all or nothing, a snapshot leaves its source
    as it was, and waiting for a guest ends by the clock. *)
From S2P Require Import Prelude Conc Fs FsOps Utf8 Commands Inet GuestOutput Guest.
From S2P Require Import Machines Network Rootfs Template TemplateRuntime Snapshot Core Firecracker FirecrackerOps.
From S2P Require Import Instances TemplateProps FirecrackerFrame FirecrackerWaits FirecrackerLaunch FirecrackerInv FirecrackerClone.
From S2P Require Import FirecrackerSnapshots FirecrackerHost.

(** ** Sequences of operations *)
Section Serving.
Context `{U : UuidLib} `{C : CryptoLib} `{TJ : TemplateJson} {SJ : ManifestJson}.
Context `{H : HostPrograms} `{N : NetHost} `{M : Machines} `{AJ : ApiJson}.

(** The calls of the runtime contract, and the warming of the pool. *)
Inductive Call :=
| CallCreate (spec : SandboxSpec)
| CallExecute (id : SandboxId) (request : ExecRequest)
| CallSignal (id : SandboxId) (request : SignalRequest)
| CallWrite (id : SandboxId) (request : WriteFileRequest)
| CallRead (id : SandboxId) (request : ReadFileRequest)
| CallList (id : SandboxId) (request : ListDirectoryRequest)
| CallPause (id : SandboxId)
| CallResume (id : SandboxId)
| CallCreateSnapshot (id : SandboxId) (request : CreateSnapshotRequest)
| CallListSnapshots (id : SandboxId)
| CallGetSnapshot (id : SnapshotId)
| CallVerifySnapshot (id : SnapshotId)
| CallRestoreSnapshot (id : SnapshotId)
| CallCloneSnapshot (id : SnapshotId) (count : Z)
| CallRollbackSnapshot (id : SandboxId) (snapshot : SnapshotId)
| CallDeleteSnapshot (id : SnapshotId)
| CallDelete (id : SandboxId)
| CallPrewarm (spec : SandboxSpec) (count : nat).

Definition quietly {A} (p : prog FirecrackerRuntime A) : prog FirecrackerRuntime (list SandboxHandle) :=
  fmap_prog (fun _ => []) p.

(** A call, and the new sandboxes that it hands to the caller. *)
Definition call (c : Call) : prog FirecrackerRuntime (list SandboxHandle) :=
  match c with
  | CallCreate spec => fmap_prog handed (rt_create spec)
  | CallExecute id request => quietly (rt_execute id request)
  | CallSignal id request => quietly (rt_signal id request)
  | CallWrite id request => quietly (rt_write id request)
  | CallRead id request => quietly (rt_read id request)
  | CallList id request => quietly (rt_list id request)
  | CallPause id => quietly (rt_pause id)
  | CallResume id => quietly (rt_resume id)
  | CallCreateSnapshot id request => quietly (rt_create_snapshot id request)
  | CallListSnapshots id => quietly (rt_list_snapshots id)
  | CallGetSnapshot id => quietly (rt_get_snapshot id)
  | CallVerifySnapshot id => quietly (rt_verify_snapshot id)
  | CallRestoreSnapshot id => fmap_prog handed (rt_restore_snapshot id)
  | CallCloneSnapshot id count =>
      fmap_prog (fun r => match r with Ok handles => handles | Err _ => [] end) (rt_clone_snapshot id count)
  | CallRollbackSnapshot id snapshot => quietly (rt_rollback_snapshot id snapshot)
  | CallDeleteSnapshot id => quietly (rt_delete_snapshot id)
  | CallDelete id => quietly (rt_delete id)
  | CallPrewarm spec count => quietly (prewarm spec count)
  end.

(** The calls one after the other. *)
Fixpoint serve (calls : list Call) : prog FirecrackerRuntime (list SandboxHandle) :=
  match calls with
  | [] => Ret []
  | c :: rest => (do issued <- call c ;; do more <- serve rest ;; Ret (issued ++ more))%prog
  end.

Context `{!ProcessLaws}.

(** A call that creates nothing and does not warm the pool hands nothing out
    and leaves the pool alone. *)
Definition plain (c : Call) : bool :=
  match c with
  | CallCreate _ | CallRestoreSnapshot _ | CallCloneSnapshot _ _ | CallPrewarm _ _ => false
  | _ => true
  end.

Lemma evolves_quietly {A} (p : prog FirecrackerRuntime A) s :
  preserves evolves p -> (run (quietly p) s).1 = [] /\ evolves s (run (quietly p) s).2.
Proof. intros Hp. unfold quietly. rewrite run_fmap. split; [done|apply Hp]. Qed.

Lemma call_plain c s : plain c = true -> (run (call c) s).1 = [] /\ evolves s (run (call c) s).2.
Proof.
  destruct c; intros Hc; try discriminate Hc; apply evolves_quietly.
  - apply evolves_execute.
  - apply evolves_signal.
  - apply evolves_write.
  - apply evolves_read.
  - apply evolves_list.
  - apply evolves_pause.
  - apply evolves_resume.
  - apply evolves_create_snapshot.
  - apply evolves_list_snapshots.
  - apply evolves_get_snapshot.
  - apply evolves_verify_snapshot.
  - apply evolves_rollback.
  - apply evolves_delete_snapshot.
  - apply evolves_delete.
Qed.

(** Restoring and cloning hand new sandboxes out and leave the pool alone. *)
Lemma call_restore id s : let handed_out := run (call (CallRestoreSnapshot id)) s in
  evolves s handed_out.2 /\ fresh_handles s handed_out.2 handed_out.1.
Proof.
  cbv zeta. cbn [call]. rewrite run_fmap. destruct (one_new_restore id s) as [He Hn]. split; [exact He|].
  cbn [rt_restore_snapshot firecracker_runtime] in *. destruct (run (fc_restore_snapshot id) s) as [[h|e] s']; cbn [fst snd handed] in *.
  - by apply fresh_one.
  - apply fresh_nil.
Qed.

Lemma call_clone id count s : let handed_out := run (call (CallCloneSnapshot id count)) s in
  evolves s handed_out.2 /\ fresh_handles s handed_out.2 handed_out.1.
Proof.
  cbv zeta. cbn [call]. rewrite run_fmap. destruct (many_new_clone id count s) as [He Hn]. split; [exact He|].
  cbn [rt_clone_snapshot firecracker_runtime] in *. destruct (run (fc_clone_snapshot id count) s) as [[hs|e] s']; cbn [fst snd] in *; [done|apply fresh_nil].
Qed.

Lemma hands_out_call c s : hands_out (run (call c) s).1 s (run (call c) s).2.
Proof.
  destruct (plain c) eqn:Hc; [destruct (call_plain c s Hc) as [-> He]; by apply hands_out_evolves|].
  destruct c; try discriminate Hc.
  - cbn [call]. rewrite run_fmap. apply hands_out_create.
  - destruct (call_restore id s). by apply hands_out_new.
  - destruct (call_clone id count s). by apply hands_out_new.
  - cbn [call]. unfold quietly. rewrite run_fmap. apply hands_out_prewarm.
Qed.

(** The handles given out so far and those in the pool are distinct, and their
    identifiers were drawn. *)
Definition issued_once (issued : list SandboxHandle) (s : FirecrackerRuntime) : Prop :=
  let handles := issued ++ fr_ready_pool s in
  NoDup (map sh_sandbox_id handles)
  /\ Forall (fun handle => exists n, n < fr_ids s /\ sh_sandbox_id handle = SandboxId_new n) handles.

Lemma issued_once_step issued new s s' : hands_out new s s' -> issued_once issued s -> issued_once (issued ++ new) s'.
Proof.
  intros [_ Hi (fresh&[Hf Hn]&Hp)] [Hd Ha]. unfold issued_once.
  assert (((issued ++ new) ++ fr_ready_pool s') ≡ₚ (issued ++ fr_ready_pool s) ++ fresh) as Hperm.
  { by rewrite <- !app_assoc, Hp. }
  assert (map sh_sandbox_id ((issued ++ new) ++ fr_ready_pool s')
    ≡ₚ map sh_sandbox_id ((issued ++ fr_ready_pool s) ++ fresh)) as Hm.
  { by apply (fmap_Permutation sh_sandbox_id). }
  cbv zeta. rewrite Hm, Hperm. split.
  - rewrite map_app. apply NoDup_app. split; [done|]. split; [|done].
    intros i (h&->&Hh)%list_elem_of_fmap (h'&Heq&Hh')%list_elem_of_fmap. rewrite Forall_forall in Ha, Hf.
    destruct (Ha h Hh) as (n&?&Hn1), (Hf h' Hh') as (m&?&Hm1). rewrite Hn1, Hm1 in Heq.
    apply SandboxId_new_inj in Heq. lia.
  - apply Forall_app. split; (eapply Forall_impl; [eassumption|]); intros h (n&?&?); exists n; (split; [lia|done]).
Qed.

Lemma serve_invariants calls : forall issued s,
  let served := run (serve calls) s in
  (consistent s -> consistent served.2) /\ (issued_once issued s -> issued_once (issued ++ served.1) served.2).
Proof.
  induction calls as [|c calls IH]; intros issued s; cbv zeta; [by rewrite app_nil_r|]. cbn [serve].
  rewrite run_bind. pose proof (hands_out_call c s) as Hc. destruct (run (call c) s) as [new s1]. cbn [fst snd] in *.
  rewrite run_bind. destruct (IH (issued ++ new) s1) as [H1 H2]. destruct (run (serve calls) s1) as [more s2].
  cbn [fst snd run] in *. split; [intros; by apply H1, Hc|]. intros Hi. rewrite app_assoc.
  by apply H2, (issued_once_step _ _ s).
Qed.

(** A runtime that was started on a host without machines. *)
Definition started (arch : string) (c : FirecrackerRuntimeConfig) (net : NetState) (vms : Vms) (s : FirecrackerRuntime) : Prop :=
  FirecrackerRuntime_new arch c net vms = Ok s /\ forall i, ~ runs processes i vms.

Lemma started_empty arch c net vms s : started arch c net vms s -> consistent s /\ issued_once [] s.
Proof.
  intros [Hn Hr]. unfold FirecrackerRuntime_new in Hn.
  destruct (run _ (nt_fs net)) as [[store|e] fs]; [|done]. injection Hn as <-. split.
  - split; cbn; try done.
    + intros r [? ?]. done.
    + intros r [? ?]. done.
    + by intros id r record [Hid _].
    + by intros id r record ? ? ? [Hid _].
    + intros p i Hp. by destruct (Hr i (jailer_runs p i _ Hp)).
    + intros i Hi. by destruct (Hr i Hi).
  - by split; constructor.
Qed.


(** C15. Over any sequence of calls, the sandboxes handed to callers by creation,
    restoration and cloning are pairwise distinct, and distinct from those that
    wait in the ready pool: a prewarmed sandbox is given away once. *)
Theorem sandboxes_issued_once arch c net vms s calls :
  started arch c net vms s ->
  let served := run (serve calls) s in
  NoDup (map sh_sandbox_id (served.1 ++ fr_ready_pool served.2)).
Proof. intros [_ Hi]%started_empty. destruct (serve_invariants calls [] s) as [_ Hs]. by apply Hs. Qed.
End Serving.

(** ** Single operations *)
Section Operations.
Context `{U : UuidLib} `{C : CryptoLib} `{TJ : TemplateJson} {SJ : ManifestJson}.
Context `{H : HostPrograms} `{N : NetHost} `{M : Machines} `{AJ : ApiJson} `{!ProcessLaws} `{!PauseLaws}.

(** C13. Cloning a snapshot is all or nothing. When it succeeds, the snapshot was
    verified, and exactly as many sandboxes as were asked for (one to thirty-two)
    are new in the table, all distinct and running with the snapshot's
    specification, next to the old ones as they were. When it fails, at whatever
    step of whatever clone, the table and every sandbox of it are as they were,
    no jailer runs that did not run before, and no machine, but for one whose
    control group the kernel refused to inspect or to kill. *)
Theorem clone_all_or_nothing id count s :
  consistent s ->
  match run (fc_clone_snapshot id count) s with
  | (Ok handles, s') => (1 <= count <= 32)%Z /\ length handles = Z.to_nat count
      /\ exists artifact, artifact_of s id artifact /\ verified s artifact /\ grown (artifact_spec artifact) handles s s'
  | (Err _, s') => fr_sandboxes s' = fr_sandboxes s
      /\ (forall i r record, record_at s' i r record <-> record_at s i r record)
      /\ (forall p i, jailed s' p i -> jailed s p i)
      /\ (forall i, alive s' i -> alive s i \/ stuck s' i)
  end.
Proof. intros Hc. exact (clone_result id count s Hc). Qed.

(** C12. Rolling back a sandbox replaces it or leaves it alone. When it succeeds,
    the snapshot was one of this sandbox and was verified, the identifier now
    stands for a new machine that runs with the snapshot's specification, the
    jailer of the old one has ended and so has its machine, unless the kernel
    refused to inspect or to kill its control group, and all other sandboxes are
    as they were. When it fails, the source and every other sandbox are as they
    were and the replacement, if it was started, has ended, with the same
    exception. *)
Theorem rollback_replaces_or_keeps id snapshot_id s :
  consistent s ->
  match run (fc_rollback_snapshot id snapshot_id) s with
  | (Ok answer, s') => sh_sandbox_id answer = id /\ sh_state answer = Running
      /\ exists artifact, artifact_of s snapshot_id artifact /\ verified s artifact /\ source_sandbox_id artifact = id
         /\ rolled_back id (artifact_spec artifact) s s'
  | (Err _, s') => fr_sandboxes s' = fr_sandboxes s
      /\ (forall i r record, record_at s' i r record <-> record_at s i r record)
      /\ (forall p i, jailed s' p i -> jailed s p i)
      /\ (forall i, alive s' i -> alive s i \/ stuck s' i)
  end.
Proof. intros Hc. exact (rollback_result id snapshot_id s Hc). Qed.

End Operations.

Section Waits.
Context `{U : UuidLib} `{M : Machines} `{AJ : ApiJson} `{!ClockLaws}.

(** C21. Waiting for a guest ends: with the client of an agent that has just
    answered its health check, or with a timeout, and then the whole boot time
    limit has passed since the wait began. *)
Theorem guest_wait_ends limit connector o :
  duration limit ->
  match run (wait_for_guest limit connector) o with
  | (Ok client, o') => exists o1, rpc_health client o1 = (Ok tt, o')
  | (Err error, o') => re_kind error = Timeout /\ (limit <= now o' - now o)%Z
  end.
Proof. apply wait_for_guest_ends. Qed.
End Waits.

(** ** At concrete inputs

    A sandbox is created and snapshotted, then cloned twice and rolled back, on a
    host with room for some machines. *)
Definition host_calls : list Call :=
  [CallCreate host_spec; CallCreateSnapshot (SandboxId_new 0) host_request; CallCloneSnapshot (SnapshotId_new 1) 2;
   CallDelete (SandboxId_new 2); CallRollbackSnapshot (SandboxId_new 0) (SnapshotId_new 1)].

(** After the first [n] of these calls. *)
Definition after_calls (capacity n : nat) : result FirecrackerRuntime RuntimeError :=
  result_map (fun s => (run (serve (take n host_calls)) s).2) (host_started capacity).

Lemma host_started_started capacity s : host_started capacity = Ok s ->
  started "x86_64" (host_config None) (MkNetState host_tree []) (host_vms capacity) s.
Proof. intros Hs. split; [exact Hs|]. exact (host_vms_idle capacity). Qed.

Lemma after_calls_consistent capacity n s : after_calls capacity n = Ok s -> consistent s.
Proof.
  unfold after_calls. destruct (host_started capacity) as [s0|e] eqn:Hs; [|done]. intros [= <-].
  destruct (started_empty _ _ _ _ _ (host_started_started capacity s0 Hs)) as [Hc _].
  destruct (serve_invariants (take n host_calls) [] s0) as [Hk _]. by apply Hk.
Qed.

Lemma Ok_inj {A E} (a b : A) : @Ok A E a = Ok b -> a = b.
Proof. congruence. Qed.


Lemma sandboxes_issued_once_witness :
  exists s : FirecrackerRuntime,
    map sh_sandbox_id (run (serve host_calls) s).1 = [SandboxId_new 0; SandboxId_new 2; SandboxId_new 3]
    /\ NoDup (map sh_sandbox_id ((run (serve host_calls) s).1 ++ fr_ready_pool (run (serve host_calls) s).2)).
Proof.
  assert (result_map (fun s => map sh_sandbox_id (run (serve host_calls) s).1) (host_started 8)
    = Ok [SandboxId_new 0; SandboxId_new 2; SandboxId_new 3]) as Hr by (vm_compute; reflexivity).
  destruct (host_started 8) as [s|e] eqn:Hs; [|discriminate Hr]. exists s. split; [by injection Hr|].
  exact (sandboxes_issued_once _ _ _ _ s host_calls (host_started_started 8 s Hs)).
Defined.

(** With room for two machines the second clone fails, and the first is gone. *)
Lemma clone_all_or_nothing_witness :
  exists s : FirecrackerRuntime, consistent s /\ hv_running (fr_vms s) = [stroke_text 0]
    /\ exists e s', run (fc_clone_snapshot (SnapshotId_new 1) 2) s = (Err e, s')
       /\ hv_next (fr_vms s') = 2 /\ fr_sandboxes s' = fr_sandboxes s.
Proof.
  assert (result_map (fun s => let '(r, s') := run (fc_clone_snapshot (SnapshotId_new 1) 2) s in
      (hv_running (fr_vms s), is_ok r, hv_next (fr_vms s'))) (after_calls 2 2) = Ok ([stroke_text 0], false, 2)) as Hr
    by (vm_compute; reflexivity).
  destruct (after_calls 2 2) as [s|e] eqn:Hs; [|discriminate Hr]. cbn [result_map] in Hr.
  pose proof (clone_all_or_nothing (SnapshotId_new 1) 2 s (after_calls_consistent 2 2 s Hs)) as Hc.
  exists s. split; [exact (after_calls_consistent 2 2 s Hs)|].
  destruct (run (fc_clone_snapshot (SnapshotId_new 1) 2) s) as [[handles|e] s']; [discriminate Hr|].
  injection Hr as Hv Hn. split; [exact Hv|]. exists e, s'. split; [reflexivity|]. split; [exact Hn|exact (proj1 Hc)].
Defined.

Lemma rollback_replaces_or_keeps_witness :
  exists s : FirecrackerRuntime, consistent s /\ hv_running (fr_vms s) = [stroke_text 0]
    /\ exists answer s', run (fc_rollback_snapshot (SandboxId_new 0) (SnapshotId_new 1)) s = (Ok answer, s')
       /\ hv_running (fr_vms s') = [stroke_text 2] /\ sh_sandbox_id answer = SandboxId_new 0.
Proof.
  assert (result_map (fun s => let '(r, s') := run (fc_rollback_snapshot (SandboxId_new 0) (SnapshotId_new 1)) s in
      (hv_running (fr_vms s), is_ok r, hv_running (fr_vms s'))) (after_calls 2 2) = Ok ([stroke_text 0], true, [stroke_text 2])) as Hr
    by (vm_compute; reflexivity).
  destruct (after_calls 2 2) as [s|e] eqn:Hs; [|discriminate Hr]. cbn [result_map] in Hr.
  pose proof (rollback_replaces_or_keeps (SandboxId_new 0) (SnapshotId_new 1) s (after_calls_consistent 2 2 s Hs)) as Hc.
  exists s. split; [exact (after_calls_consistent 2 2 s Hs)|].
  destruct (run (fc_rollback_snapshot (SandboxId_new 0) (SnapshotId_new 1)) s) as [[answer|e] s']; [|discriminate Hr].
  injection Hr as Hv Hn. split; [exact Hv|]. exists answer, s'. split; [reflexivity|]. split; [exact Hn|exact (proj1 Hc)].
Defined.


(** A wait of no time at all is over at once. *)
Lemma guest_wait_ends_witness :
  match run (wait_for_guest 0 (MkGuestConnector (Path_of_string "/guest.vsock") 5000 0)) (host_tree, MkHostVms 7 [] [] [] 0 1) with
  | (Ok client, o') => exists o1, rpc_health client o1 = (Ok tt, o')
  | (Err error, o') => re_kind error = Timeout /\ (0 <= now o' - 7)%Z
  end.
Proof.
  apply (guest_wait_ends (M:=host_machines) 0 (MkGuestConnector (Path_of_string "/guest.vsock") 5000 0)
    (host_tree, MkHostVms 7 [] [] [] 0 1)).
  unfold duration. lia.
Defined.
