(* ===== verification/FirecrackerMeasure.v ===== *)
(** * Measurements of the microVM runtime

    The benchmark operations of [crates/ferrobox-node/src/firecracker_runtime.rs]
    and the memory of the VMM processes, read from the process table. *)
From S2P Require Import Prelude Conc Fs FsOps Utf8 Commands Inet GuestOutput Guest.
From S2P Require Import Machines Network Rootfs Template TemplateRuntime Snapshot Core Firecracker FirecrackerOps.

(** ** Resident memory *)

(** [parse_vm_rss_kib]: the first line that gives a number. *)
Definition vm_rss_line (line : string) : option Z :=
  rest ← strip_prefix "VmRSS:" line; word ← head (split_whitespace rest); parse_uint u64_max word.
Definition parse_vm_rss_kib (status : string) : option Z := head (omap vm_rss_line (lines status)).

Example parses_linux_process_rss :
  parse_vm_rss_kib ("Name:" +:+ String "009" "firecracker" +:+ String newline "VmRSS:"
    +:+ String "009" "  12345 kB" +:+ String newline "") = Some 12345%Z.
Proof. reflexivity. Qed.

Definition proc_file (process_id : Z) (name : string) : Path :=
  Path_of_string ("/proc/" +:+ pretty process_id +:+ "/" +:+ name).

(** The loop over the entries of [/proc]: the sum so far and the number of
    processes found. *)
Fixpoint rss_loop (names : list string) (total : Z) (count : nat) : prog Fs (result (Z * nat) RuntimeError) :=
  (do? _ <- prog_map_err (fun error => RuntimeError_internal ("read /proc entry: " +:+ io_text error)) next_entry ;;
   match names with
   | [] => ok (total, count)
   | name :: rest =>
       match parse_uint u32_max (from_utf8_lossy (String.list_byte_of_string name)) with
       | None => rss_loop rest total count
       | Some process_id =>
           do process_name <- fs_read_to_string (proc_file process_id "comm") ;;
           let process_name := match process_name with Ok text => text | Err _ => "" end in
           if negb (String.eqb (trim process_name) "firecracker") then rss_loop rest total count
           else
           do? status <- prog_map_err
             (fun error => RuntimeError_internal ("read Firecracker process status: " +:+ io_text error))
             (fs_read_to_string (proc_file process_id "status")) ;;
           do? kib <- of_result (ok_or (RuntimeError_internal "Firecracker VmRSS is missing") (parse_vm_rss_kib status)) ;;
           rss_loop rest (saturating_add u64_max total kib) (S count)
       end
   end)%prog.

Definition firecracker_rss : prog Fs (result Z RuntimeError) :=
  (do? (_, names) <- prog_map_err (fun error => RuntimeError_internal ("read /proc: " +:+ io_text error))
     (read_dir (Path_of_string "/proc")) ;;
   do? (total, count) <- rss_loop names 0 0 ;;
   if (count =? 0)%nat then throw (RuntimeError_internal "no Firecracker processes found for RSS measurement")
   else ok total)%prog.

(** [Debug] of a message of the protocol, which [prost] derives. *)
Class ExitDebug := { exit_debug : ProcessExit -> string }.

Section Measure.
Context `{U : UuidLib} `{C : CryptoLib} `{TJ : TemplateJson} {SJ : ManifestJson}.
Context `{H : HostPrograms} `{N : NetHost} `{M : Machines} `{AJ : ApiJson} `{ED : ExitDebug}.

Definition firecracker_rss_kib : prog FirecrackerRuntime (result Z RuntimeError) := files firecracker_rss.

(** ** Benchmarks *)

Definition benchmark_execute := execute_measured.

Definition benchmark_guest_lookup_us (sandbox_id : SandboxId) : prog FirecrackerRuntime (result Z RuntimeError) :=
  (do? (_, us) <- clocked (guest_client sandbox_id) ;; ok us)%prog.

(** The events of a command that only has to succeed. *)
Fixpoint raw_events (events : list WireEvent) (successful_exit : bool) : result bool RuntimeError :=
  match events with
  | [] => Ok successful_exit
  | event :: rest =>
      match we_event event with
      | Some (Exit exit) =>
          if bool_decide (px_exit_code exit = Some 0%Z) then raw_events rest true
          else Err (RuntimeError_internal ("benchmark guest command failed: " +:+ exit_debug exit))
      | Some (EError code message) =>
          Err (MkRuntimeError Unavailable ("guest " +:+ code +:+ ": " +:+ message))
      | _ => raw_events rest successful_exit
      end
  end.

Definition raw_result (stream : Stream WireEvent) : result unit RuntimeError :=
  (let? successful_exit := raw_events (str_messages stream) false in
   let? _ := stream_end (str_end stream) in
   if successful_exit then Ok tt
   else Err (RuntimeError_internal "benchmark guest command omitted a successful exit"))%result.

Definition benchmark_raw_true_us (sandbox_id : SandboxId) : prog FirecrackerRuntime (result Z RuntimeError) :=
  (do? (_, us) <- clocked (
     do? (client, token_value) <- guest_client sandbox_id ;;
     do _ <- new_uuid ;;
     do? stream <- guest_call (rpc_start_process client
       (MkStartProcessRequest (Some (MkAuth token_value)) ["/bin/true"] "/home/sandbox" ∅ 30000 (1024 * 1024))) ;;
     of_result (raw_result stream)) ;;
   ok us)%prog.

End Measure.
