(* ===== verification/Http.v ===== *)
(** * HTTP and JSON at the edge of the control plane

    What lies between the bytes of an HTTP request and the handlers of
    [crates/ferrobox-api/src/lib.rs]: its table of routes, the limit on request
    bodies, the [Deserialize] and [Serialize] derives of its types and of the
    types of [ferrobox-core], and [IntoResponse] for errors. JSON texts and the
    texts of axum's own rejections are parameters. *)
From S2P Require Import Prelude Conc Core Api.
From S2P Require Import Inet.

(** ** JSON *)

(** A JSON text as [serde_json] hands it to a [Deserialize] implementation: the
    members of an object come in the order of the text, repeated keys included.
    [JFloat] is a number that is not an integer, by its text. *)
Inductive Value :=
| JNull
| JBool (b : bool)
| JInt (n : Z)
| JFloat (text : string)
| JString (s : string)
| JArray (l : list Value)
| JObject (l : list (string * Value)).

(** What [serde_json] reads: an integer is an [i64] or a [u64], and arrays and
    objects nest at most 127 deep. A value is exact when it is within both and
    holds no number that is not an integer. *)
Definition i64_min : Z := - 2 ^ 63.
Definition JSON_DEPTH : nat := 127.

Fixpoint exact_within (depth : nat) (v : Value) {struct v} : bool :=
  match v with
  | JInt n => in_range i64_min u64_max n
  | JFloat _ => false
  | JArray l => match depth with O => false | S d => forallb (exact_within d) l end
  | JObject l => match depth with O => false | S d => forallb (fun kv => exact_within d kv.2) l end
  | _ => true
  end.
Definition exact (v : Value) : bool := exact_within JSON_DEPTH v.

(** The characters of the texts in a value. *)
Fixpoint text_length (v : Value) : Z :=
  match v with
  | JString s => slen s
  | JArray l => fold_right (fun x n => (text_length x + n)%Z) 0%Z l
  | JObject l => fold_right (fun kv n => (text_length kv.2 + n)%Z) 0%Z l
  | _ => 0%Z
  end.

(** [serde_json]: an exact value that is written reads back, and no text in what
    is read is longer than its place in the source. *)
Class JsonText := {
  json_to_vec : Value -> list Byte.byte;
  json_from_slice : list Byte.byte -> option Value;
  json_to_string_pretty : Value -> string;
  json_roundtrip v : exact v = true -> json_from_slice (json_to_vec v) = Some v;
  json_from_slice_length b v :
    json_from_slice b = Some v -> (text_length v <= Z.of_nat (length b))%Z;
}.

(** [Value::index] and [Value::as_str]; a later member of the same name wins. *)
Definition json_index (key : string) (v : Value) : Value :=
  match v with
  | JObject l =>
      match list_find (fun kv => kv.1 = key) (rev l) with Some (_, kv) => kv.2 | None => JNull end
  | _ => JNull
  end.
Definition as_str (v : Value) : option string :=
  match v with JString s => Some s | _ => None end.

(** ** [Deserialize] *)

Definition decode_uint (max : Z) (v : Value) : option Z :=
  match v with JInt n => if in_range 0 max n then Some n else None | _ => None end.
Definition decode_string (v : Value) : option string := as_str v.
Definition decode_bool (v : Value) : option bool :=
  match v with JBool b => Some b | _ => None end.
Definition decode_list {A} (decode : Value -> option A) (v : Value) : option (list A) :=
  match v with JArray l => mapM decode l | _ => None end.
Definition decode_map {A} (decode : Value -> option A) (v : Value) : option (gmap string A) :=
  match v with
  | JObject l => (fun entries => list_to_map (rev entries)) <$>
      mapM (fun kv => pair kv.1 <$> decode kv.2) l
  | _ => None
  end.

(** A field of a derived structure: given, absent from an object, or behind the
    end of an array, which [serde] takes as the fields in their order. *)
Inductive Presence (A : Type) := Given (v : A) | Absent | Truncated.
Arguments Given {A} v.
Arguments Absent {A}.
Arguments Truncated {A}.

(** The member of a name; a repeated name is an error. *)
Definition member {A} (l : list (string * A)) (name : string) : option (Presence A) :=
  match filter (fun kv => kv.1 = name) l with
  | [] => Some Absent
  | [kv] => Some (Given kv.2)
  | _ => None
  end.

Definition struct_fields (names : list string) (v : Value) : option (list (Presence Value)) :=
  match v with
  | JObject l => mapM (member l) names
  | JArray vs =>
      if length vs <=? length names
      then Some (map Given vs ++ replicate (length names - length vs) Truncated) else None
  | _ => None
  end.

(** A field without attribute, one with [#[serde(default = ...)]], and one of
    type [Option]. *)
Definition required {A B} (decode : A -> option B) (p : Presence A) : option B :=
  match p with Given v => decode v | _ => None end.
Definition defaulted {A B} (default : B) (decode : A -> option B) (p : Presence A) : option B :=
  match p with Given v => decode v | _ => Some default end.
Definition optional {B} (decode : Value -> option B) (p : Presence Value) : option (option B) :=
  match p with
  | Given JNull => Some None
  | Given v => Some <$> decode v
  | Absent => Some None
  | Truncated => None
  end.

Definition decode_network (v : Value) : option bool :=
  (struct_fields ["internet_access"] v ≫= fun fs =>
   match fs with [i] => defaulted false decode_bool i | _ => None end).

Definition decode_create (v : Value) : option CreateSandboxRequest :=
  (struct_fields ["template"; "cpu_count"; "memory_mb"; "timeout_seconds"; "network"] v ≫= fun fs =>
   match fs with
   | [t; c; m; s; n] =>
       template ← required decode_string t;
       cpu_count ← defaulted default_cpu (decode_uint u8_max) c;
       memory_mb ← defaulted default_memory (decode_uint u32_max) m;
       timeout_seconds ← defaulted default_ttl (decode_uint u64_max) s;
       internet ← defaulted false decode_network n;
       Some (MkCreateSandboxRequest template cpu_count memory_mb timeout_seconds internet)
   | _ => None
   end).

Definition decode_command (v : Value) : option ExecuteCommandRequest :=
  (struct_fields ["argv"; "cwd"; "environment"; "timeout_seconds"; "max_output_bytes"] v ≫= fun fs =>
   match fs with
   | [a; c; e; t; m] =>
       argv ← required (decode_list decode_string) a;
       cwd ← defaulted default_cwd decode_string c;
       environment ← defaulted ∅ (decode_map decode_string) e;
       timeout ← defaulted default_command_timeout (decode_uint u64_max) t;
       limit ← defaulted default_output_limit (decode_uint u64_max) m;
       Some (MkExecuteCommandRequest argv cwd environment timeout limit)
   | _ => None
   end).

Definition decode_write (v : Value) : option WriteFileBody :=
  (struct_fields ["path"; "content_base64"; "overwrite"; "mode"] v ≫= fun fs =>
   match fs with
   | [p; c; o; m] =>
       path ← required decode_string p;
       content ← required decode_string c;
       overwrite ← defaulted false decode_bool o;
       mode ← optional (decode_uint u32_max) m;
       Some (MkWriteFileBody path content overwrite mode)
   | _ => None
   end).

Definition decode_create_snapshot (v : Value) : option CreateSnapshotRequest :=
  (struct_fields ["name"] v ≫= fun fs =>
   match fs with [n] => MkCreateSnapshotRequest <$> optional decode_string n | _ => None end).

Definition decode_restore (v : Value) : option Z :=
  (struct_fields ["timeout_seconds"] v ≫= fun fs =>
   match fs with [t] => defaulted default_ttl (decode_uint u64_max) t | _ => None end).

Definition decode_clone (v : Value) : option CloneSnapshotRequest :=
  (struct_fields ["count"; "timeout_seconds"] v ≫= fun fs =>
   match fs with
   | [c; t] =>
       count ← required (decode_uint u8_max) c;
       timeout ← defaulted default_ttl (decode_uint u64_max) t;
       Some (MkCloneSnapshotRequest count timeout)
   | _ => None
   end).

(** Query strings: pairs of texts, read by [FromStr]. *)
Definition decode_read_query (q : list (string * string)) : option ReadFileQuery :=
  (path ← member q "path" ≫= required Some;
   offset ← member q "offset" ≫= defaulted 0%Z (parse_uint u64_max);
   max ← member q "max_bytes" ≫= defaulted default_file_read_limit (parse_uint u64_max);
   Some (MkReadFileQuery path offset max)).

Definition decode_directory_query (q : list (string * string)) : option string :=
  member q "path" ≫= defaulted default_cwd Some.

Definition decode_snapshots_query (q : list (string * string)) : option ListSnapshotsQuery :=
  (limit ← member q "limit" ≫= defaulted default_snapshot_limit (fun s => Z.to_nat <$> parse_uint u64_max s);
   cursor ← member q "cursor" ≫= defaulted None (fun s => Some (Some s));
   Some (MkListSnapshotsQuery limit cursor)).

(** ** [Serialize] *)

Definition json_option {A} (f : A -> Value) (o : option A) : Value :=
  match o with Some a => f a | None => JNull end.

Definition SandboxState_json (s : SandboxState) : Value :=
  JString match s with
    | Creating => "creating" | Running => "running" | Pausing => "pausing"
    | Paused => "paused" | Resuming => "resuming" | Deleting => "deleting" | Deleted => "deleted"
    | Failed => "failed"
    end.

Definition NetworkMode_json (m : NetworkMode) : Value :=
  JString match m with Disabled => "disabled" | Internet => "internet" end.

Definition SandboxSpec_json (s : SandboxSpec) : Value :=
  JObject [("template_id", JString (template_id s)); ("cpu_count", JInt (cpu_count s));
           ("memory_mb", JInt (memory_mb s)); ("timeout_seconds", JInt (spec_timeout_seconds s));
           ("network", NetworkMode_json (network s))].

Definition ExecTermination_json (t : ExecTermination) : Value :=
  JObject match t with
    | Exited code => [("kind", JString "exited"); ("exit_code", JInt code)]
    | Signaled signal => [("kind", JString "signaled"); ("signal", JInt signal)]
    | TimedOut => [("kind", JString "timed_out")]
    | OutputLimitExceeded => [("kind", JString "output_limit_exceeded")]
    end.

Definition OutputTruncation_json (t : OutputTruncation) : Value :=
  JObject [("stdout", JBool (trunc_stdout t)); ("stderr", JBool (trunc_stderr t))].

Definition FileKind_json (k : FileKind) : Value :=
  JString match k with FK_File => "file" | FK_Directory => "directory" end.

Definition DirectoryEntry_json (e : DirectoryEntry) : Value :=
  JObject [("name", JString (de_name e)); ("path", JString (path_str (de_path e)));
           ("kind", FileKind_json (de_kind e)); ("size_bytes", JInt (de_size_bytes e));
           ("modified_unix_millis", json_option JInt (de_modified_unix_millis e));
           ("mode", json_option JInt (de_mode e))].

Definition ListDirectoryResult_json (r : ListDirectoryResult) : Value :=
  JObject [("entries", JArray (map DirectoryEntry_json (entries r)))].

Definition ReadFileResponse_json (r : ReadFileResponse) : Value :=
  JObject [("content_base64", JString (rr_content_base64 r)); ("bytes", JInt (Z.of_nat (rr_bytes r)));
           ("eof", JBool (rr_eof r))].

Definition ExecuteCommandResponse_json (r : ExecuteCommandResponse) : Value :=
  JObject [("process_id", JString (xr_process_id r)); ("termination", ExecTermination_json (xr_termination r));
           ("stdout", JString (xr_stdout r)); ("stderr", JString (xr_stderr r));
           ("stdout_base64", JString (xr_stdout_base64 r)); ("stderr_base64", JString (xr_stderr_base64 r));
           ("truncation", OutputTruncation_json (xr_truncation r))].

Definition WriteFileResponse_json (bytes : Z) : Value := JObject [("bytes_written", JInt bytes)].

(** [ApiError::into_response] *)
Definition ApiError_json (e : ApiError) : Value :=
  JObject [("error", JObject [("code", JString (ae_code e)); ("message", JString (ae_message e))])].

Section SerializeIds.
Context `{U : UuidLib}.

Definition SandboxId_json (id : SandboxId) : Value := JString (SandboxId_to_string id).
Definition SnapshotId_json (id : SnapshotId) : Value := JString (SnapshotId_to_string id).

Definition SnapshotHandle_members (s : SnapshotHandle) : list (string * Value) :=
  [("snapshot_id", SnapshotId_json (sn_snapshot_id s));
   ("source_sandbox_id", SandboxId_json (sn_source_sandbox_id s));
   ("name", json_option JString (sn_name s));
   ("created_at_unix_ms", JInt (sn_created_at_unix_ms s));
   ("source_state", SandboxState_json (sn_source_state s));
   ("spec", SandboxSpec_json (sn_spec s));
   ("size_bytes", JInt (sn_size_bytes s));
   ("digest_sha256", JString (sn_digest_sha256 s))].
Definition SnapshotHandle_json (s : SnapshotHandle) : Value := JObject (SnapshotHandle_members s).

Definition SnapshotVerification_json (v : SnapshotVerification) : Value :=
  JObject [("snapshot_id", SnapshotId_json (sv_snapshot_id v)); ("valid", JBool (sv_valid v));
           ("checked_artifacts", JInt (sv_checked_artifacts v));
           ("failure", json_option JString (sv_failure v))].

Definition CreateSandboxResponse_json (r : CreateSandboxResponse) : Value :=
  JObject [("sandbox_id", SandboxId_json (resp_sandbox_id r)); ("node_id", JString (resp_node_id r));
           ("state", SandboxState_json (resp_state r)); ("token", JString (resp_token r));
           ("expires_at_unix_ms", JInt (resp_expires_at_unix_ms r))].

Definition SandboxResponse_json (r : SandboxResponse) : Value :=
  JObject [("sandbox_id", SandboxId_json (sr_sandbox_id r)); ("node_id", JString (sr_node_id r));
           ("state", SandboxState_json (sr_state r));
           ("expires_at_unix_ms", JInt (sr_expires_at_unix_ms r))].

Definition CreateSnapshotResponse_json (r : CreateSnapshotResponse) : Value :=
  JObject (SnapshotHandle_members (csr_snapshot r) ++ [("token", JString (csr_token r))]).

Definition ListSnapshotsResponse_json (r : ListSnapshotsResponse) : Value :=
  JObject [("snapshots", JArray (map SnapshotHandle_json (ls_snapshots r)));
           ("next_cursor", json_option JString (ls_next_cursor r))].

Definition CloneSnapshotResponse_json (r : list CreateSandboxResponse) : Value :=
  JObject [("sandboxes", JArray (map CreateSandboxResponse_json r))].

(** The status and the body of what a handler returns. *)
Definition reply_parts (r : Reply) : StatusCode * option Value :=
  match r with
  | Re_status s => (s, None)
  | Re_created s r => (s, Some (CreateSandboxResponse_json r))
  | Re_sandbox r => (OK, Some (SandboxResponse_json r))
  | Re_command r => (OK, Some (ExecuteCommandResponse_json r))
  | Re_written bytes => (OK, Some (WriteFileResponse_json bytes))
  | Re_file r => (OK, Some (ReadFileResponse_json r))
  | Re_directory r => (OK, Some (ListDirectoryResult_json r))
  | Re_snapshot_created s r => (s, Some (CreateSnapshotResponse_json r))
  | Re_snapshots r => (OK, Some (ListSnapshotsResponse_json r))
  | Re_snapshot r => (OK, Some (SnapshotHandle_json r))
  | Re_verification r => (OK, Some (SnapshotVerification_json r))
  | Re_clones s r => (s, Some (CloneSnapshotResponse_json r))
  end.
Definition result_parts (r : result Reply ApiError) : StatusCode * option Value :=
  match r with
  | Ok r => reply_parts r
  | Err e => (ae_status e, Some (ApiError_json e))
  end.
End SerializeIds.

(** ** Routes *)

Inductive Method := GET | POST | PUT | DELETE | HEAD | OtherMethod.
#[export] Instance Method_eq_dec : EqDecision Method.
Proof. solve_decision. Defined.

Inductive Segment := Literal (s : string) | Capture (name : string).

(** The handler functions, by name. *)
Inductive Handler :=
| h_health | h_create_sandbox | h_get_sandbox | h_delete_sandbox | h_execute_command
| h_write_file | h_read_file | h_list_directory | h_pause_sandbox | h_resume_sandbox
| h_create_snapshot | h_list_snapshots | h_rollback_snapshot | h_get_snapshot
| h_delete_snapshot | h_verify_snapshot | h_restore_snapshot | h_clone_snapshot.

Definition sandbox_path (rest : list Segment) : list Segment :=
  [Literal "v1"; Literal "sandboxes"; Capture "id"] ++ rest.
Definition snapshot_path (rest : list Segment) : list Segment :=
  [Literal "v1"; Literal "snapshots"; Capture "snapshot_id"] ++ rest.

Definition ROUTES : list (list Segment * list (Method * Handler)) :=
  [ ([Literal "healthz"], [(GET, h_health)]);
    ([Literal "v1"; Literal "sandboxes"], [(POST, h_create_sandbox)]);
    (sandbox_path [], [(GET, h_get_sandbox); (DELETE, h_delete_sandbox)]);
    (sandbox_path [Literal "commands"], [(POST, h_execute_command)]);
    (sandbox_path [Literal "files"], [(PUT, h_write_file); (GET, h_read_file)]);
    (sandbox_path [Literal "directories"], [(GET, h_list_directory)]);
    (sandbox_path [Literal "pause"], [(POST, h_pause_sandbox)]);
    (sandbox_path [Literal "resume"], [(POST, h_resume_sandbox)]);
    (sandbox_path [Literal "snapshots"], [(POST, h_create_snapshot); (GET, h_list_snapshots)]);
    (sandbox_path [Literal "rollback"; Capture "snapshot_id"], [(POST, h_rollback_snapshot)]);
    (snapshot_path [], [(GET, h_get_snapshot); (DELETE, h_delete_snapshot)]);
    (snapshot_path [Literal "verify"], [(POST, h_verify_snapshot)]);
    (snapshot_path [Literal "restore"], [(POST, h_restore_snapshot)]);
    (snapshot_path [Literal "clones"], [(POST, h_clone_snapshot)]) ].

(** What the captures of a pattern take from a path; a capture takes one
    segment that is not empty. *)
Fixpoint match_path (pattern : list Segment) (path : list string) : option (list string) :=
  match pattern, path with
  | [], [] => Some []
  | Literal s :: pattern', p :: path' => if String.eqb s p then match_path pattern' path' else None
  | Capture _ :: pattern', p :: path' =>
      if is_empty p then None else cons p <$> match_path pattern' path'
  | _, _ => None
  end.

(** A request as it arrives: the segments of the path with their percent
    encoding undone, the one header the handlers read, the pairs of the query
    string, whether the content type is JSON, and the body. *)
Record Incoming := MkIncoming {
  in_method : Method;
  in_path : list string;
  in_headers : HeaderMap;
  in_query : list (string * string);
  in_json_content_type : bool;
  in_body : list Byte.byte;
}.

Definition MAX_REQUEST_BODY : Z := 65 * 1024 * 1024.

Definition NOT_FOUND : StatusCode := 404%N.
Definition METHOD_NOT_ALLOWED : StatusCode := 405%N.
Definition BAD_REQUEST : StatusCode := 400%N.
Definition PAYLOAD_TOO_LARGE : StatusCode := 413%N.
Definition UNSUPPORTED_MEDIA_TYPE : StatusCode := 415%N.
Definition UNPROCESSABLE_ENTITY : StatusCode := 422%N.

(** The handlers of the first pattern that matches. [HEAD] is answered by the
    handler of [GET]. *)
Definition method_handler (method : Method) (handlers : list (Method * Handler)) : option Handler :=
  snd <$> (snd <$> list_find (fun mh => mh.1 = (if bool_decide (method = HEAD) then GET else method)) handlers).

Fixpoint find_route (routes : list (list Segment * list (Method * Handler))) (path : list string) :
  option (list string * list (Method * Handler)) :=
  match routes with
  | [] => None
  | (pattern, handlers) :: rest =>
      match match_path pattern path with
      | Some captures => Some (captures, handlers)
      | None => find_route rest path
      end
  end.

(** axum: [Json] takes at most [json_body_limit] bytes, which is two mebibytes
    unless a [DefaultBodyLimit] layer says otherwise; the router has none. *)
Class AxumDefaults := {
  json_body_limit : Z;
  rejection_text : StatusCode -> list Byte.byte;
  json_body_limit_default : json_body_limit = (2 * 1024 * 1024)%Z;
}.

Section Serve.
Context `{U : UuidLib} `{C : CryptoLib} {R : Type} `{RT : @SandboxRuntime U R}.
Context `{J : JsonText} `{D : AxumDefaults}.

(** The extractors [Json<T>] and [Query<T>]. *)
Definition extract_json {A} (decode : Value -> option A) (r : Incoming) : result A StatusCode :=
  if negb (in_json_content_type r) then Err UNSUPPORTED_MEDIA_TYPE
  else if (json_body_limit <? Z.of_nat (length (in_body r)))%Z then Err PAYLOAD_TOO_LARGE
  else match json_from_slice (in_body r) with
       | None => Err BAD_REQUEST
       | Some v => ok_or UNPROCESSABLE_ENTITY (decode v)
       end.
Definition extract_query {A} (decode : list (string * string) -> option A) (r : Incoming) :
  result A StatusCode := ok_or BAD_REQUEST (decode (in_query r)).

(** The arguments of a handler, extracted from a request in the order in which
    its parameters are declared. *)
Definition extract (handler : Handler) (captures : list string) (r : Incoming) :
  result Request StatusCode :=
  let h := in_headers r in
  match handler, captures with
  | h_health, [] => Ok GET_healthz
  | h_create_sandbox, [] => result_map POST_sandboxes (extract_json decode_create r)
  | h_get_sandbox, [id] => Ok (GET_sandbox id h)
  | h_delete_sandbox, [id] => Ok (DELETE_sandbox id h)
  | h_execute_command, [id] => result_map (POST_commands id h) (extract_json decode_command r)
  | h_write_file, [id] => result_map (PUT_files id h) (extract_json decode_write r)
  | h_read_file, [id] => result_map (GET_files id h) (extract_query decode_read_query r)
  | h_list_directory, [id] => result_map (GET_directories id h) (extract_query decode_directory_query r)
  | h_pause_sandbox, [id] => Ok (POST_pause id h)
  | h_resume_sandbox, [id] => Ok (POST_resume id h)
  | h_create_snapshot, [id] => result_map (POST_snapshots id h) (extract_json decode_create_snapshot r)
  | h_list_snapshots, [id] => result_map (GET_snapshots id h) (extract_query decode_snapshots_query r)
  | h_rollback_snapshot, [id; snapshot_id] => Ok (POST_rollback id snapshot_id h)
  | h_get_snapshot, [id] => Ok (GET_snapshot id h)
  | h_delete_snapshot, [id] => Ok (DELETE_snapshot id h)
  | h_verify_snapshot, [id] => Ok (POST_verify id h)
  | h_restore_snapshot, [id] => result_map (POST_restore id h) (extract_json decode_restore r)
  | h_clone_snapshot, [id] => result_map (POST_clones id h) (extract_json decode_clone r)
  | _, _ => Err 500%N
  end.

Definition dispatch (r : Incoming) : result Request StatusCode :=
  if (MAX_REQUEST_BODY <? Z.of_nat (length (in_body r)))%Z then Err PAYLOAD_TOO_LARGE
  else match find_route ROUTES (in_path r) with
       | None => Err NOT_FOUND
       | Some (captures, handlers) =>
           match method_handler (in_method r) handlers with
           | None => Err METHOD_NOT_ALLOWED
           | Some handler => extract handler captures r
           end
       end.

Record HttpResponse := MkHttpResponse { hr_status : StatusCode; hr_body : list Byte.byte }.

Definition http_body (r : Incoming) (body : list Byte.byte) : list Byte.byte :=
  if bool_decide (in_method r = HEAD) then [] else body.

Definition http_response (r : Incoming) (parts : StatusCode * option Value) : HttpResponse :=
  MkHttpResponse parts.1 (http_body r (match parts.2 with Some v => json_to_vec v | None => [] end)).

(** The whole service: what [axum::serve] does with one request. *)
Definition serve (r : Incoming) : prog World HttpResponse :=
  match dispatch r with
  | Err status => Ret (MkHttpResponse status (http_body r (rejection_text status)))
  | Ok request => fmap_prog (fun x => http_response r (result_parts x)) (router request)
  end.
End Serve.
