(* ===== verification/Cli.v ===== *)
(** * The command-line client

    Models [crates/ferrobox-cli/src/main.rs]: its commands, the HTTP request that
    each of them sends, what it does with the answer, and the template commands,
    which work on the catalog of [Template]. A run of the client is a program
    over the server it talks to, the connection, the local files and the text it
    has printed. *)
From S2P Require Import Prelude Conc Core Utf8 Api.
From S2P Require Import Fs FsOps Template.
From S2P Require Import Http.

Definition DEFAULT_CPU_COUNT : Z := 1.
Definition DEFAULT_MEMORY_MB : Z := 512.
Definition DEFAULT_TIMEOUT_SECONDS : Z := 300.
Definition TEMPLATE_RENDER_CONTRACT : string := "ferrobox-template-render-v1".
Definition NEWLINE : string := String (ascii_of_nat 10) "".

(** ** Arguments *)

Inductive TemplateCommand :=
| TemplateBuild (request : BuildTemplateRequest)
| TemplateList
| TemplateInspect (template : string)
| TemplateRender (template : string) (cpu memory_mb ttl : Z) (internet : bool)
| TemplateDelete (template : string).

Inductive SnapshotCommand :=
| SnapshotCreate (sandbox_id : string) (name : option string) (token : string)
| SnapshotList (sandbox_id : string) (limit : nat) (cursor : option string) (token : string)
| SnapshotInspect (snapshot_id token : string)
| SnapshotVerify (snapshot_id token : string)
| SnapshotRestore (snapshot_id : string) (ttl : Z) (token : string)
| SnapshotClone (snapshot_id : string) (count ttl : Z) (token : string)
| SnapshotRollback (sandbox_id snapshot_id token : string)
| SnapshotDelete (snapshot_id token : string).

Inductive Command :=
| CliCreate (template : string) (cpu memory_mb ttl : Z) (internet : bool)
| CliInspect (sandbox_id token : string)
| CliExec (sandbox_id token cwd : string) (timeout : Z) (argv : list string)
| CliWrite (sandbox_id remote_path : string) (local_path : Path) (token : string) (overwrite : bool)
| CliRead (sandbox_id remote_path token : string) (output : option Path)
| CliList (sandbox_id remote_path token : string)
| CliPause (sandbox_id token : string)
| CliResume (sandbox_id token : string)
| CliSnapshot (command : SnapshotCommand)
| CliTemplate (store : Path) (command : TemplateCommand)
| CliDelete (sandbox_id token : string).

Record Cli := MkCli { cli_api_url : string; cli_command : Command }.

(** ** Requests *)

(** What a [reqwest::RequestBuilder] was given. *)
Record RequestBuilder := MkRequestBuilder {
  rb_method : Method;
  rb_url : string;
  rb_bearer : option string;
  rb_query : list (string * string);
  rb_json : option Value;
}.

Definition authorized (method : Method) (url token : string) : RequestBuilder :=
  MkRequestBuilder method url (Some token) [] None.
Definition with_json (v : Value) (rb : RequestBuilder) : RequestBuilder :=
  MkRequestBuilder (rb_method rb) (rb_url rb) (rb_bearer rb) (rb_query rb) (Some v).
Definition with_query (q : list (string * string)) (rb : RequestBuilder) : RequestBuilder :=
  MkRequestBuilder (rb_method rb) (rb_url rb) (rb_bearer rb) (rb_query rb ++ q) (rb_json rb).

Definition network_mode (internet_access : bool) : NetworkMode :=
  if internet_access then Internet else Disabled.

Definition sandbox_request_json (spec : SandboxSpec) : Value :=
  JObject [("template", JString (template_id spec)); ("cpu_count", JInt (cpu_count spec));
           ("memory_mb", JInt (memory_mb spec)); ("timeout_seconds", JInt (spec_timeout_seconds spec));
           ("network", JObject [("internet_access", JBool (bool_decide (network spec = Internet)))])].

Definition sandboxes_url (base : string) : string := base +:+ "/v1/sandboxes".
Definition sandbox_url (base sandbox_id : string) : string := base +:+ "/v1/sandboxes/" +:+ sandbox_id.
Definition snapshot_url (base snapshot_id : string) : string := base +:+ "/v1/snapshots/" +:+ snapshot_id.

Definition create_request (base : string) (spec : SandboxSpec) : RequestBuilder :=
  MkRequestBuilder POST (sandboxes_url base) None [] (Some (sandbox_request_json spec)).

Definition exec_json (argv : list string) (cwd : string) (timeout : Z) : Value :=
  JObject [("argv", JArray (map JString argv)); ("cwd", JString cwd); ("environment", JObject []);
           ("timeout_seconds", JInt timeout); ("max_output_bytes", JInt 1048576)].
Definition exec_request (base sandbox_id token cwd : string) (timeout : Z) (argv : list string) : RequestBuilder :=
  with_json (exec_json argv cwd timeout)
    (authorized POST (sandbox_url base sandbox_id +:+ "/commands") token).

Definition write_json (remote_path content_base64 : string) (overwrite : bool) : Value :=
  JObject [("path", JString remote_path); ("content_base64", JString content_base64);
           ("overwrite", JBool overwrite)].
Definition write_request (base sandbox_id remote_path content_base64 token : string) (overwrite : bool) :
  RequestBuilder :=
  with_json (write_json remote_path content_base64 overwrite)
    (authorized PUT (sandbox_url base sandbox_id +:+ "/files") token).

Definition read_request (base sandbox_id remote_path token : string) : RequestBuilder :=
  with_query [("path", remote_path)] (authorized GET (sandbox_url base sandbox_id +:+ "/files") token).
Definition list_request (base sandbox_id remote_path token : string) : RequestBuilder :=
  with_query [("path", remote_path)] (authorized GET (sandbox_url base sandbox_id +:+ "/directories") token).

(** The query pairs of [snapshot list]. *)
Definition snapshot_list_query (limit : nat) (cursor : option string) : list (string * string) :=
  ("limit", pretty limit) :: match cursor with Some c => [("cursor", c)] | None => [] end.

Definition snapshot_request (base : string) (command : SnapshotCommand) : RequestBuilder :=
  match command with
  | SnapshotCreate sandbox_id name token =>
      with_json (JObject [("name", json_option JString name)])
        (authorized POST (sandbox_url base sandbox_id +:+ "/snapshots") token)
  | SnapshotList sandbox_id limit cursor token =>
      with_query (snapshot_list_query limit cursor)
        (authorized GET (sandbox_url base sandbox_id +:+ "/snapshots") token)
  | SnapshotInspect snapshot_id token => authorized GET (snapshot_url base snapshot_id) token
  | SnapshotVerify snapshot_id token =>
      authorized POST (snapshot_url base snapshot_id +:+ "/verify") token
  | SnapshotRestore snapshot_id ttl token =>
      with_json (JObject [("timeout_seconds", JInt ttl)])
        (authorized POST (snapshot_url base snapshot_id +:+ "/restore") token)
  | SnapshotClone snapshot_id count ttl token =>
      with_json (JObject [("count", JInt count); ("timeout_seconds", JInt ttl)])
        (authorized POST (snapshot_url base snapshot_id +:+ "/clones") token)
  | SnapshotRollback sandbox_id snapshot_id token =>
      authorized POST (sandbox_url base sandbox_id +:+ "/rollback/" +:+ snapshot_id) token
  | SnapshotDelete snapshot_id token => authorized DELETE (snapshot_url base snapshot_id) token
  end.

(** ** Errors *)

Inductive CliError :=
| InvalidRequest (e : ValidationError)
| SendFailed (text : string)
| ApiReturned (status : StatusCode) (body : string)
| ResponseNotJson
| OmittedContent
| InvalidBase64
| LocalRead (path : Path) (e : IoError)
| LocalWrite (path : Path) (e : IoError)
| CatalogFailed (e : TemplateCatalogError).

(** ** The connection *)

(** [reqwest], [hyper] and the URL and header parsers between the client and
    [Http.serve]. A base URL accepted by [http_origin] names a server and has no
    path of its own; [visible] says that a text can stand in a header. The law
    is for URLs made of such a base and plain segments: the request arrives as
    it was built. *)
Definition segment_byte (c : ascii) : bool :=
  is_ascii_alphanumeric c || Ascii.eqb c "-" || Ascii.eqb c "_".
Definition plain_segment (s : string) : bool := negb (is_empty s) && string_all segment_byte s.

Fixpoint url_path (segments : list string) : string :=
  match segments with
  | [] => ""
  | s :: rest => "/" +:+ s +:+ url_path rest
  end.

Definition bearer_header (token : string) : option string := Some ("Bearer " +:+ token).

Class HttpClient `{JsonText} := {
  http_origin : string -> bool;
  visible : string -> bool;
  deliver : RequestBuilder -> result Incoming string;
  status_text : StatusCode -> string;
  send_error : string;
  json_error : string;
  base64_error : string;
  deliver_plain rb base segments :
    http_origin base = true -> rb_url rb = base +:+ url_path segments ->
    segments <> [] -> forallb plain_segment segments = true ->
    (forall token, rb_bearer rb = Some token -> visible token = true) ->
    deliver rb = Ok (MkIncoming (rb_method rb) segments (MkHeaderMap (bearer_header <$> rb_bearer rb))
      (rb_query rb) (if rb_json rb then true else false)
      (match rb_json rb with Some v => json_to_vec v | None => [] end));
}.

(** [Display] of the errors, as far as the outermost context. *)
Definition CliError_to_string `{HttpClient} (e : CliError) : string :=
  match e with
  | InvalidRequest _ => "invalid sandbox request"
  | SendFailed text => text
  | ApiReturned status body => "API returned " +:+ status_text status +:+ ": " +:+ body
  | ResponseNotJson => json_error
  | OmittedContent => "response omitted content_base64"
  | InvalidBase64 => base64_error
  | LocalRead path _ => "read " +:+ Path_to_string path
  | LocalWrite path _ => "write " +:+ Path_to_string path
  | CatalogFailed e => TemplateCatalogError_to_string e
  end.

(** What the network does to the next request: it arrives and is answered, it
    does not arrive, or its answer is lost. *)
Inductive Connection := Delivered | Refused | AnswerLost.

Section Client.
Context `{U : UuidLib} `{C : CryptoLib} {R : Type} `{RT : @SandboxRuntime U R}.
Context `{J : JsonText} `{D : AxumDefaults} {HC : @HttpClient J}.
Context `{TJ : TemplateJson} `{TF : TempFiles}.

Abbreviation Server := (@World U R).

Record Client := MkClient {
  cl_server : Server;
  cl_connections : list Connection;
  cl_fs : Fs;
  cl_stdout : list string;
}.

Definition set_server (w : Server) (c : Client) : Client :=
  MkClient w (cl_connections c) (cl_fs c) (cl_stdout c).
Definition set_connections (l : list Connection) (c : Client) : Client :=
  MkClient (cl_server c) l (cl_fs c) (cl_stdout c).
Definition set_client_fs (fs : Fs) (c : Client) : Client :=
  MkClient (cl_server c) (cl_connections c) fs (cl_stdout c).
Definition set_stdout (l : list string) (c : Client) : Client :=
  MkClient (cl_server c) (cl_connections c) (cl_fs c) l.

#[export] Instance client_server : Lens Client Server.
Proof. by refine {| view := cl_server; put := set_server |}; intros; destruct s. Defined.
#[export] Instance client_fs : Lens Client Fs.
Proof. by refine {| view := cl_fs; put := set_client_fs |}; intros; destruct s. Defined.

Definition print (text : string) : prog Client unit :=
  modify (fun c => set_stdout (cl_stdout c ++ [text]) c).
Definition println (text : string) : prog Client unit := print (text +:+ NEWLINE).

Definition next_connection : prog Client Connection :=
  act (fun c => match cl_connections c with
                | [] => (Delivered, c)
                | x :: rest => (x, set_connections rest c)
                end).

(** [RequestBuilder::send] *)
Definition send (rb : RequestBuilder) : prog Client (result HttpResponse CliError) :=
  match deliver rb with
  | Err text => throw (SendFailed text)
  | Ok incoming =>
      (do connection <- next_connection ;;
       match connection with
       | Refused => throw (SendFailed send_error)
       | AnswerLost => do _ <- lift (serve incoming) ;; throw (SendFailed send_error)
       | Delivered => fmap_prog Ok (lift (serve incoming))
       end)%prog
  end.

Definition is_success (status : StatusCode) : bool := (200 <=? status)%N && (status <? 300)%N.

Definition ensure_success (response : HttpResponse) : result HttpResponse CliError :=
  if is_success (hr_status response) then Ok response
  else Err (ApiReturned (hr_status response) (from_utf8_lossy (hr_body response))).

Definition response_json (response : HttpResponse) : result Value CliError :=
  ok_or ResponseNotJson (json_from_slice (hr_body response)).

Definition print_json (response : HttpResponse) : prog Client (result unit CliError) :=
  (do? value <- of_result (response_json response) ;;
   do _ <- println (json_to_string_pretty value) ;;
   ok tt)%prog.

(** The two ways in which most commands end. *)
Definition send_and_print (rb : RequestBuilder) : prog Client (result unit CliError) :=
  (do? response <- send rb ;;
   do? response <- of_result (ensure_success response) ;;
   print_json response)%prog.
Definition send_and_say (rb : RequestBuilder) (text : string) : prog Client (result unit CliError) :=
  (do? response <- send rb ;;
   do? _ <- of_result (ensure_success response) ;;
   do _ <- println text ;;
   ok tt)%prog.

Definition local {A} (error : IoError -> CliError) (p : prog Fs (result A IoError)) :
  prog Client (result A CliError) := lift (prog_map_err error p).
Definition catalog {A} (p : prog Fs (result A TemplateCatalogError)) : prog Client (result A CliError) :=
  lift (prog_map_err CatalogFailed p).

(** ** Commands *)

Definition lossy_text (data : list Byte.byte) : string := from_utf8_lossy data.

(** The contents that a file response carries. *)
Definition file_content (response : HttpResponse) : result (list Byte.byte) CliError :=
  (let? value := response_json response in
   let? encoded := ok_or OmittedContent (as_str (json_index "content_base64" value)) in
   ok_or InvalidBase64 (base64_decode encoded))%result.

Definition read_command (base sandbox_id remote_path token : string) (output : option Path) :
  prog Client (result unit CliError) :=
  (do? response <- send (read_request base sandbox_id remote_path token) ;;
   do? response <- of_result (ensure_success response) ;;
   do? data <- of_result (file_content response) ;;
   match output with
   | Some path => local (LocalWrite path) (fs_write path (String.string_of_list_byte data))
   | None => do _ <- print (lossy_text data) ;; ok tt
   end)%prog.

Definition write_command (base sandbox_id remote_path : string) (local_path : Path) (token : string)
    (overwrite : bool) : prog Client (result unit CliError) :=
  (do? data <- local (LocalRead local_path) (fs_read local_path) ;;
   send_and_print (write_request base sandbox_id remote_path (base64_encode data) token overwrite))%prog.

Definition create_command (base template : string) (cpu memory_mb ttl : Z) (internet : bool) :
  prog Client (result unit CliError) :=
  let spec := MkSandboxSpec template cpu memory_mb ttl (network_mode internet) in
  (do? _ <- of_result (map_err InvalidRequest (SandboxSpec_validate spec)) ;;
   send_and_print (create_request base spec))%prog.

(** ** Template commands *)

Definition TemplateSource_json (s : TemplateSource) : Value :=
  JObject [("kind", JString match ts_kind s with
                            | Oci => "oci" | SourceFile => "file" | Snapshot => "snapshot" end);
           ("reference", JString (ts_reference s)); ("digest", JString (ts_digest s))].
Definition TemplatePlatform_json (p : TemplatePlatform) : Value :=
  JObject [("operating_system", JString (tp_operating_system p));
           ("architecture", JString (tp_architecture p)); ("runtime", JString (tp_runtime p))].
Definition TemplateArtifact_json (a : TemplateArtifact) : Value :=
  JObject [("media_type", JString (ta_media_type a)); ("digest", JString (ta_digest a));
           ("size_bytes", JInt (ta_size_bytes a))].
Definition ArtifactLocations_json (l : ArtifactLocations) : Value :=
  JObject [("kernel", JString (Path_to_string (al_kernel l)));
           ("rootfs", JString (Path_to_string (al_rootfs l)))].
Definition TemplateDescriptor_json (d : TemplateDescriptor) : Value :=
  JObject [("contract", JString (td_contract d)); ("name", JString (td_name d));
           ("version", JString (td_version d)); ("source", TemplateSource_json (td_source d));
           ("platform", TemplatePlatform_json (td_platform d));
           ("artifacts", JObject [("kernel", TemplateArtifact_json (tas_kernel (td_artifacts d)));
                                  ("rootfs", TemplateArtifact_json (tas_rootfs (td_artifacts d)))])].
Definition TemplateRecord_json (r : TemplateRecord) : Value :=
  JObject [("catalog_schema_version", JInt (tr_catalog_schema_version r));
           ("template_id", JString (tr_template_id r)); ("alias", JString (tr_alias r));
           ("status", JString (tr_status r)); ("spec_digest", JString (tr_spec_digest r));
           ("descriptor", TemplateDescriptor_json (tr_descriptor r));
           ("locations", ArtifactLocations_json (tr_locations r))].
Definition TemplateSummary_json (s : TemplateSummary) : Value :=
  JObject [("template_id", JString (tsu_template_id s)); ("alias", JString (tsu_alias s));
           ("name", JString (tsu_name s)); ("version", JString (tsu_version s));
           ("status", JString (tsu_status s)); ("source", TemplateSource_json (tsu_source s));
           ("platform", TemplatePlatform_json (tsu_platform s))].
Definition ArtifactVerification_json (v : ArtifactVerification) : Value :=
  JObject [("present", JBool (av_present v)); ("valid", JBool (av_valid v));
           ("expected_digest", JString (av_expected_digest v));
           ("actual_digest", json_option JString (av_actual_digest v));
           ("expected_size_bytes", JInt (av_expected_size_bytes v));
           ("actual_size_bytes", json_option JInt (av_actual_size_bytes v));
           ("error", json_option JString (av_error v))].
Definition TemplateInspection_json (i : TemplateInspection) : Value :=
  JObject [("record", TemplateRecord_json (ti_record i));
           ("verification",
             JObject [("valid", JBool (tv_valid (ti_verification i)));
                      ("descriptor_valid", JBool (tv_descriptor_valid (ti_verification i)));
                      ("kernel", ArtifactVerification_json (tv_kernel (ti_verification i)));
                      ("rootfs", ArtifactVerification_json (tv_rootfs (ti_verification i)))])].
Definition DeleteTemplateResult_json (r : DeleteTemplateResult) : Value :=
  JObject [("template_id", JString (dt_template_id r)); ("alias", JString (dt_alias r));
           ("artifacts_preserved", JBool (dt_artifacts_preserved r));
           ("locations", ArtifactLocations_json (dt_locations r))].

Definition render_json (template : string) (record : TemplateRecord) (spec : SandboxSpec) : Value :=
  JObject [("schema_version", JInt 1);
           ("contract_version", JString TEMPLATE_RENDER_CONTRACT);
           ("requested_template", JString template);
           ("resolved_template_id", JString (tr_template_id record));
           ("template_spec_digest", JString (tr_spec_digest record));
           ("template_source", TemplateSource_json (td_source (tr_descriptor record)));
           ("template_platform", TemplatePlatform_json (td_platform (tr_descriptor record)));
           ("effective_request", sandbox_request_json spec);
           ("artifact_verification", JString "deferred_to_create");
           ("mutation_performed", JBool false)].

Definition print_value (v : Value) : prog Client (result unit CliError) :=
  (do _ <- println (json_to_string_pretty v) ;; ok tt)%prog.

Definition handle_template (store : Path) (command : TemplateCommand) : prog Client (result unit CliError) :=
  (match command with
   | TemplateBuild request =>
       do? inspection <- catalog (build store request) ;;
       print_value (TemplateInspection_json inspection)
   | TemplateList =>
       do? templates <- catalog (list_templates store) ;;
       print_value (JArray (map TemplateSummary_json templates))
   | TemplateInspect template =>
       do? inspection <- catalog (inspect_template store template) ;;
       print_value (TemplateInspection_json inspection)
   | TemplateRender template cpu memory_mb ttl internet =>
       do? record <- catalog (catalog_record store template) ;;
       let spec := MkSandboxSpec (tr_template_id record) cpu memory_mb ttl (network_mode internet) in
       do? _ <- of_result (map_err InvalidRequest (SandboxSpec_validate spec)) ;;
       print_value (render_json template record spec)
   | TemplateDelete template =>
       do? deleted <- catalog (delete_template store template) ;;
       print_value (DeleteTemplateResult_json deleted)
   end)%prog.

Definition handle_snapshot (base : string) (command : SnapshotCommand) : prog Client (result unit CliError) :=
  match command with
  | SnapshotDelete snapshot_id _ =>
      send_and_say (snapshot_request base command) ("deleted snapshot " +:+ snapshot_id)
  | _ => send_and_print (snapshot_request base command)
  end.

(** ** The program *)

Definition main (arguments : Cli) : prog Client (result unit CliError) :=
  let base := trim_end_matches "/" (cli_api_url arguments) in
  match cli_command arguments with
  | CliCreate template cpu memory_mb ttl internet => create_command base template cpu memory_mb ttl internet
  | CliInspect sandbox_id token => send_and_print (authorized GET (sandbox_url base sandbox_id) token)
  | CliExec sandbox_id token cwd timeout argv =>
      send_and_print (exec_request base sandbox_id token cwd timeout argv)
  | CliWrite sandbox_id remote_path local_path token overwrite =>
      write_command base sandbox_id remote_path local_path token overwrite
  | CliRead sandbox_id remote_path token output => read_command base sandbox_id remote_path token output
  | CliList sandbox_id remote_path token => send_and_print (list_request base sandbox_id remote_path token)
  | CliPause sandbox_id token =>
      send_and_say (authorized POST (sandbox_url base sandbox_id +:+ "/pause") token) ("paused " +:+ sandbox_id)
  | CliResume sandbox_id token =>
      send_and_say (authorized POST (sandbox_url base sandbox_id +:+ "/resume") token) ("resumed " +:+ sandbox_id)
  | CliSnapshot command => handle_snapshot base command
  | CliTemplate store command => handle_template store command
  | CliDelete sandbox_id token =>
      send_and_say (authorized DELETE (sandbox_url base sandbox_id) token) ("deleted " +:+ sandbox_id)
  end.
End Client.
