(* ===== verification/HttpHost.v ===== *)
(** * A concrete connection

    Computable instances of the interfaces of [Http] and [Cli]: a reversible
    text form of JSON values, axum's defaults, and a client whose base URL is the
    default one. They show that the laws can hold, and let the theorems be
    applied at concrete inputs. *)
From S2P Require Import Prelude Conc Core Utf8 Api Instances.
From S2P Require Import Fs FsOps Template TemplateProps.
From S2P Require Import Http Cli.

(** ** JSON values as trees *)

Fixpoint value_tree (v : Value) : gen_tree (bool + Z + string) :=
  match v with
  | JNull => GenNode 0 []
  | JBool b => GenNode 1 [GenLeaf (inl (inl b))]
  | JInt n => GenNode 2 [GenLeaf (inl (inr n))]
  | JFloat t => GenNode 3 [GenLeaf (inr t)]
  | JString s => GenNode 4 [GenLeaf (inr s)]
  | JArray l => GenNode 5 (map value_tree l)
  | JObject l => GenNode 6 (map (fun kv => GenNode 7 [GenLeaf (inr kv.1); value_tree kv.2]) l)
  end.

Fixpoint tree_value (t : gen_tree (bool + Z + string)) : Value :=
  match t with
  | GenNode 1 [GenLeaf (inl (inl b))] => JBool b
  | GenNode 2 [GenLeaf (inl (inr n))] => JInt n
  | GenNode 3 [GenLeaf (inr t)] => JFloat t
  | GenNode 4 [GenLeaf (inr s)] => JString s
  | GenNode 5 l => JArray (map tree_value l)
  | GenNode 6 l => JObject (map (fun t => match t with
      | GenNode _ [GenLeaf (inr k); v] => (k, tree_value v)
      | _ => ("", JNull) end) l)
  | _ => JNull
  end.

Lemma tree_value_tree : forall v, tree_value (value_tree v) = v.
Proof.
  fix IH 1. intros [| | | | |l|l]; simpl; try reflexivity.
  - f_equal. induction l as [|v l IHl]; simpl; [reflexivity|]. by rewrite IH, IHl.
  - f_equal. induction l as [|[k v] l IHl]; simpl; [reflexivity|]. by rewrite IH, IHl.
Qed.

#[export] Instance Value_eq_dec : EqDecision Value.
Proof.
  refine (fun a b => match decide (value_tree a = value_tree b) with left H => left _ | right H => right _ end).
  - by rewrite <-(tree_value_tree a), <-(tree_value_tree b), H.
  - intros ->. by apply H.
Defined.
#[export] Instance Value_countable : Countable Value.
Proof. refine (inj_countable' value_tree tree_value tree_value_tree). Defined.

Lemma of_bits_padded p l : of_bits (bits p ++ Byte.x0a :: l) = p.
Proof. induction p as [p IH|p IH|]; cbn; congruence. Qed.

#[export] Instance bit_json_text : JsonText.
Proof.
  refine {|
    json_to_vec v := bits (encode v) ++ Byte.x0a :: replicate (Z.to_nat (text_length v)) Byte.x0a;
    json_from_slice b :=
      match decode (of_bits b) with
      | Some v => if (text_length v <=? Z.of_nat (length b))%Z then Some v else None
      | None => None
      end;
    json_to_string_pretty _ := "{}" |}.
  - intros v _. rewrite of_bits_padded, decode_encode.
    destruct (Z.leb_spec (text_length v) (Z.of_nat (length
      (bits (encode v) ++ Byte.x0a :: replicate (Z.to_nat (text_length v)) Byte.x0a)))) as [|Hl]; [done|].
    rewrite length_app in Hl. simpl in Hl. rewrite length_replicate in Hl. lia.
  - intros b v H. destruct (decode (of_bits b)) as [w|]; [|done].
    destruct (Z.leb_spec (text_length w) (Z.of_nat (length b))); [|done]. by injection H as ->.
Defined.

#[export] Instance axum_defaults : AxumDefaults := {|
  json_body_limit := (2 * 1024 * 1024)%Z;
  rejection_text _ := [];
  json_body_limit_default := eq_refl;
|}.

(** ** A client of the default URL *)

Definition DEFAULT_URL : string := "http://127.0.0.1:8080".

Lemma segment_no_slash s : plain_segment s = true -> string_contains slash s = false.
Proof.
  unfold plain_segment. intros [_ H]%andb_true_iff. induction s as [|c s IH]; [done|].
  simpl in H. apply andb_true_iff in H as [Hc Hs]. rewrite string_contains_cons, (IH Hs), orb_false_r.
  destruct (Ascii.eqb slash c) eqn:E; [|done]. apply eqb_ascii_spec in E. by subst c.
Qed.

Lemma split_url_path segments : forallb plain_segment segments = true -> segments <> [] ->
  split_on slash (url_path segments) = "" :: segments.
Proof.
  intros Hp Hne. destruct segments as [|s segments]; [done|]. clear Hne. revert s Hp.
  induction segments as [|t segments IH]; intros s Hp; simpl in Hp; apply andb_true_iff in Hp as [Hs Hp].
  - change (url_path [s]) with ("" +:+ String slash (s +:+ "")).
    rewrite split_on_app_sep, append_nil_r, (split_on_no_sep _ s) by by apply segment_no_slash. done.
  - change (url_path (s :: t :: segments)) with ("" +:+ String slash (s +:+ url_path (t :: segments))).
    rewrite split_on_app_sep. change (url_path (t :: segments)) with (String slash (t +:+ url_path segments)).
    rewrite split_on_app_sep, (split_on_no_sep _ s) by by apply segment_no_slash.
    specialize (IH t Hp). change (url_path (t :: segments)) with ("" +:+ String slash (t +:+ url_path segments)) in IH.
    rewrite split_on_app_sep in IH. injection IH as IH. simpl. by rewrite IH.
Qed.

Definition visible_char (c : ascii) : bool := (32 <=? byte_code c)%N && (byte_code c <? 127)%N.

#[export] Instance plain_client : HttpClient.
Proof.
  refine {|
    http_origin := String.eqb DEFAULT_URL;
    visible := string_all visible_char;
    deliver rb :=
      match strip_prefix DEFAULT_URL (rb_url rb) with
      | Some path =>
          Ok (MkIncoming (rb_method rb) (tail (split_on slash path)) (MkHeaderMap (bearer_header <$> rb_bearer rb))
            (rb_query rb) (if rb_json rb then true else false)
            (match rb_json rb with Some v => json_to_vec v | None => [] end))
      | None => Err "invalid URL"
      end;
    status_text s := pretty s;
    send_error := "error sending request";
    json_error := "error decoding response body";
    base64_error := "Invalid symbol" |}.
  intros rb base segments Ho Hu Hne Hp _. apply String.eqb_eq in Ho. subst base.
  rewrite Hu, strip_prefix_app, split_url_path by done. done.
Defined.
