(* ===== verification/HttpProps.v ===== *)
(** * HTTP and JSON at the edge: properties

    Routes do not overlap, numbers of query strings read back, statuses tell the
    outcome, and uploads are bounded by the JSON extractor. *)
From S2P Require Import Prelude Conc Core Utf8 Api Instances ApiSafety.
From S2P Require Import Inet.
From S2P Require Import Fs FsOps Template.
From S2P Require Import Http Cli HttpHost.

(** ** Decimal numbers *)

Lemma pretty_char_digit (d : N) : (d < 10)%N ->
  is_ascii_digit (pretty_N_char d) = true /\ Z.of_N (byte_code (pretty_N_char d)) = (48 + Z.of_N d)%Z.
Proof.
  intros Hd. assert (Forall (fun d => is_ascii_digit (pretty_N_char d) = true
    /\ Z.of_N (byte_code (pretty_N_char d)) = (48 + Z.of_N d)%Z) (map N.of_nat (seq 0 10))) as H.
  { repeat constructor. }
  rewrite Forall_forall in H. apply H. apply list_elem_of_fmap. exists (N.to_nat d).
  split; [lia|]. apply elem_of_seq. lia.
Qed.

(** The digits that [pretty] puts in front of a text. *)
Lemma pretty_go_digits (n : N) : forall (tail : string), string_all is_ascii_digit tail = true ->
  exists s, pretty_N_go n tail = s +:+ tail /\ string_all is_ascii_digit s = true
    /\ digits_value s 0 = Z.of_N n /\ ((0 < n)%N -> s <> "").
Proof.
  induction (N.lt_wf_0 n) as [n _ IH]. intros tail Ht.
  destruct (decide (n = 0)%N) as [->|Hn].
  { exists "". rewrite pretty_N_go_0. repeat split; try done. }
  rewrite pretty_N_go_step by lia.
  assert (n mod 10 < 10)%N as Hd by (apply N.mod_lt; lia).
  destruct (pretty_char_digit _ Hd) as [H1 H2].
  destruct (IH (n `div` 10)%N (N.div_lt n 10 ltac:(lia) eq_refl) (String (pretty_N_char (n mod 10)) tail))
    as (s&Hs&Ha&Hv&_).
  { simpl. by rewrite H1, Ht. }
  exists (s +:+ String (pretty_N_char (n mod 10)) ""). split; [|split; [|split]].
  - rewrite Hs, <-append_assoc_s. done.
  - rewrite string_all_app. simpl. by rewrite Ha, H1.
  - assert (forall a c s acc, digits_value (s +:+ String c a) acc = digits_value a (digits_value s acc * 10 + (Z.of_N (byte_code c) - 48))%Z) as Happ.
    { clear. intros a c s. induction s as [|x s IH]; intros acc; simpl; [done|]. apply IH. }
    rewrite Happ. simpl. rewrite Hv, H2. pose proof (N.div_mod n 10 ltac:(lia)). lia.
  - intros _. destruct s; done.
Qed.

(** [usize::to_string] and [FromStr] are inverse. *)
Lemma parse_uint_pretty (max : Z) (n : nat) : (Z.of_nat n <= max)%Z ->
  parse_uint max (pretty n) = Some (Z.of_nat n).
Proof.
  intros Hmax. unfold pretty, pretty_nat, pretty, pretty_N.
  assert (exists s, (if decide (N.of_nat n = 0%N) then "0" else pretty_N_go (N.of_nat n) "") = s
    /\ string_all is_ascii_digit s = true /\ digits_value s 0 = Z.of_nat n /\ s <> "") as (s&->&Ha&Hv&Hne).
  { destruct (decide (N.of_nat n = 0)%N) as [Hz|Hz].
    - exists "0". assert (n = 0) as -> by lia. done.
    - destruct (pretty_go_digits (N.of_nat n) "" eq_refl) as (s&Hs&Ha&Hv&Hne).
      exists s. rewrite append_nil_r in Hs. split; [done|]. split; [done|]. split; [lia|]. apply Hne; lia. }
  unfold parse_uint. destruct s as [|c s]; [done|].
  assert (strip_prefix "+" (String c s) = None) as ->.
  { destruct (strip_prefix "+" (String c s)) as [r|] eqn:E; [|done].
    apply strip_prefix_Some in E. rewrite E in Ha. discriminate Ha. }
  rewrite Ha, Hv. simpl. by rewrite (proj2 (Z.leb_le _ _) Hmax).
Qed.

(** ** Routes *)

(** Two patterns of different lengths, or with different literals somewhere. *)
Fixpoint disjoint_patterns (p q : list Segment) : bool :=
  match p, q with
  | [], [] => false
  | Literal a :: p', Literal b :: q' => negb (String.eqb a b) || disjoint_patterns p' q'
  | _ :: p', _ :: q' => disjoint_patterns p' q'
  | _, _ => true
  end.

Lemma disjoint_no_match p : forall q path,
  disjoint_patterns p q = true -> match_path p path = None \/ match_path q path = None.
Proof.
  induction p as [|x p IH]; intros [|y q] [|s path] Hd; simpl in *; auto; try done.
  - right. by destruct y.
  - left. by destruct x.
  - left. by destruct x.
  - destruct x as [a|a], y as [b|b]; simpl in *.
    + apply orb_true_iff in Hd as [Hab|Hd].
      * destruct (String.eqb_spec a s) as [->|]; [|auto]. destruct (String.eqb_spec b s) as [->|]; [|auto].
        by rewrite String.eqb_refl in Hab.
      * destruct (IH q path Hd) as [H|H]; rewrite H; [left|right]; by destruct (String.eqb _ _).
    + destruct (IH q path Hd) as [H|H]; rewrite H;
        [left; by destruct (String.eqb _ _)|right; by destruct (is_empty s)].
    + destruct (IH q path Hd) as [H|H]; rewrite H;
        [left; by destruct (is_empty s)|right; by destruct (String.eqb _ _)].
    + destruct (IH q path Hd) as [H|H]; rewrite H; [left|right]; by destruct (is_empty s).
Qed.

(** A table whose patterns exclude one another. *)
Fixpoint disjoint_routes (routes : list (list Segment * list (Method * Handler))) : bool :=
  match routes with
  | [] => true
  | (p, _) :: rest => forallb (fun q => disjoint_patterns p q.1) rest && disjoint_routes rest
  end.

Lemma find_route_matching routes : disjoint_routes routes = true ->
  forall pattern handlers path captures, (pattern, handlers) ∈ routes ->
  match_path pattern path = Some captures -> find_route routes path = Some (captures, handlers).
Proof.
  induction routes as [|[p h] routes IH]; intros Hd pattern handlers path captures Hin Hm;
    [by apply not_elem_of_nil in Hin|].
  simpl in *. apply andb_true_iff in Hd as [Hp Hd].
  apply elem_of_cons in Hin as [[= -> ->]|Hin]; [by rewrite Hm|].
  rewrite forallb_forall in Hp.
  destruct (disjoint_no_match p pattern path (Hp (pattern, handlers) ltac:(by apply list_elem_of_In)))
    as [->|Hn]; [|congruence].
  by eapply IH.
Qed.

Lemma ROUTES_disjoint : disjoint_routes ROUTES = true.
Proof. reflexivity. Qed.

(** ** What is dispatched *)

Create HintDb handlers.

(** Taking apart a decoder that succeeded. *)
Ltac decode_cases :=
  repeat match goal with
  | H : Some _ = Some _ |- _ => injection H as <-
  | H : mbind _ _ = Some _ |- _ => apply bind_Some in H as (?&?&H)
  | H : match ?l with [] => _ | _ => _ end = Some _ |- _ => destruct l; try discriminate H
  end.

Section Dispatch.
Context `{U : UuidLib} `{C : CryptoLib} {R : Type} `{RT : @SandboxRuntime U R}.
Context `{J : JsonText} `{D : AxumDefaults}.

(** Every request that is handed to a handler comes from a route of the table. *)
Lemma dispatch_ok r request : dispatch r = Ok request ->
  (Z.of_nat (length (in_body r)) <= MAX_REQUEST_BODY)%Z
  /\ exists captures handlers handler, find_route ROUTES (in_path r) = Some (captures, handlers)
     /\ method_handler (in_method r) handlers = Some handler /\ extract handler captures r = Ok request.
Proof.
  unfold dispatch. destruct (Z.ltb_spec MAX_REQUEST_BODY (Z.of_nat (length (in_body r)))); [done|].
  destruct (find_route ROUTES (in_path r)) as [[captures handlers]|] eqn:Hf; [|done].
  destruct (method_handler (in_method r) handlers) as [handler|] eqn:Hm; [|done].
  intros Hx. split; [done|]. by exists captures, handlers, handler.
Qed.

Lemma extract_json_ok {A} (decode : Value -> option A) r x : extract_json decode r = Ok x ->
  exists v, json_from_slice (in_body r) = Some v /\ decode v = Some x
    /\ (Z.of_nat (length (in_body r)) <= json_body_limit)%Z.
Proof.
  unfold extract_json. destruct (in_json_content_type r); [|done]. simpl.
  destruct (Z.ltb_spec json_body_limit (Z.of_nat (length (in_body r)))); [done|].
  destruct (json_from_slice (in_body r)) as [v|]; [|done]. intros Hd%ok_or_ok. by exists v.
Qed.

Lemma result_map_ok {A B E} (f : A -> B) (r : result A E) b :
  result_map f r = Ok b -> exists a, r = Ok a /\ f a = b.
Proof. destruct r as [a|]; [|done]. intros [= <-]. by exists a. Qed.

(** ** Uploads *)

Lemma text_length_nonneg : forall v, (0 <= text_length v)%Z.
Proof.
  fix IH 1. intros [| | | |x|vs|kvs]; simpl; try lia; [unfold slen; lia|..].
  - induction vs as [|w vs IHl]; simpl; [lia|]. pose proof (IH w). lia.
  - induction kvs as [|[k w] kvs IHl]; simpl; [lia|]. pose proof (IH w). lia.
Qed.

Lemma member_text l name v : member l name = Some (Given v) ->
  (text_length v <= text_length (JObject l))%Z.
Proof.
  unfold member. intros H.
  destruct (filter _ l) as [|kv [|]] eqn:Hf; try done. injection H as <-.
  assert (kv ∈ l) as Hin.
  { apply (list_elem_of_filter (fun kv : string * Value => kv.1 = name)). rewrite Hf. by left. }
  clear Hf. simpl. induction l as [|x l IH]; [by apply not_elem_of_nil in Hin|].
  simpl. apply elem_of_cons in Hin as [->|Hin].
  - pose proof (text_length_nonneg (JObject l)). simpl in *. lia.
  - specialize (IH Hin). pose proof (text_length_nonneg x.2). lia.
Qed.

Lemma text_length_array vs v : v ∈ vs -> (text_length v <= text_length (JArray vs))%Z.
Proof.
  induction vs as [|x vs IH]; intros Hin; [by apply not_elem_of_nil in Hin|].
  simpl. apply elem_of_cons in Hin as [->|Hin].
  - pose proof (text_length_nonneg (JArray vs)). simpl in *. lia.
  - specialize (IH Hin). simpl in IH. pose proof (text_length_nonneg x). lia.
Qed.

(** The fields of a structure hold no more text than the whole. *)
Lemma struct_fields_text names v ps w : struct_fields names v = Some ps -> Given w ∈ ps ->
  (text_length w <= text_length v)%Z.
Proof.
  destruct v as [| | | | |vs|l]; try done.
  - simpl. destruct (length vs <=? length names); [|done]. intros [= <-] Hin.
    apply elem_of_app in Hin as [Hin|Hin].
    + apply list_elem_of_fmap in Hin as (x&[= ->]&Hin). by apply text_length_array.
    + by apply elem_of_replicate in Hin as [? _].
  - simpl. intros Hps Hin. apply (list_elem_of_lookup_1) in Hin as [i Hi].
    apply mapM_Some in Hps. eapply Forall2_lookup_r in Hps as (name&_&Hm); [|done].
    by eapply member_text.
Qed.

Lemma decode_write_text v b : decode_write v = Some b -> (slen (wb_content_base64 b) <= text_length v)%Z.
Proof.
  unfold decode_write. intros H. decode_cases. simpl.
  match goal with H : required decode_string ?p = Some ?x, Hs : struct_fields _ _ = Some [_; ?p; _; _] |- (slen ?x <= _)%Z =>
    destruct p as [w| |]; try discriminate H; apply (struct_fields_text _ _ _ w) in Hs; [|by right; left];
    destruct w; try discriminate H; injection H as <- end.
  done.
Qed.

Definition files_path (id : string) : list string := ["v1"; "sandboxes"; id; "files"].

(** C18. Uploads end at two mebibytes: the base64 text of a file that reaches the
    upload handler has at most 2097152 characters, since a longer JSON body is
    answered with 413 and changes nothing, whatever the credentials. The limit of
    65 MiB on request bodies never decides, and the files of up to 64 MiB that
    the runtimes accept cannot be uploaded. *)
Theorem uploads_limited r id (w : World (R:=R)) : id <> "" -> in_method r = PUT ->
  in_path r = files_path id -> in_json_content_type r = true ->
  (forall h b, dispatch r = Ok (PUT_files id h b) -> (slen (wb_content_base64 b) <= 2 * 1024 * 1024)%Z)
  /\ ((2 * 1024 * 1024 < Z.of_nat (length (in_body r)))%Z ->
      run (serve r) w = (MkHttpResponse PAYLOAD_TOO_LARGE (rejection_text PAYLOAD_TOO_LARGE), w)).
Proof.
  intros Hid Hm Hp Hj.
  assert (find_route ROUTES (in_path r) = Some ([id], [(PUT, h_write_file); (GET, h_read_file)])) as Hroute.
  { apply (find_route_matching _ ROUTES_disjoint (sandbox_path [Literal "files"])).
    - apply list_elem_of_In. simpl. tauto.
    - rewrite Hp. simpl. by destruct id. }
  split.
  - intros h b (_&captures&handlers&handler&Hf&Hh&Hx)%dispatch_ok.
    rewrite Hroute in Hf. injection Hf as <- <-. rewrite Hm in Hh. injection Hh as <-.
    cbn [extract] in Hx. apply result_map_ok in Hx as (b'&Hb&[= <- <-]).
    apply extract_json_ok in Hb as (v&Hv&Hb&Hl). rewrite json_body_limit_default in Hl.
    apply json_from_slice_length in Hv. apply decode_write_text in Hb. lia.
  - intros Hlen. unfold serve, dispatch.
    destruct (_ <? _)%Z; [unfold http_body; by rewrite Hm|].
    rewrite Hroute, Hm. cbn [method_handler]. unfold method_handler. simpl.
    unfold extract_json. rewrite Hj. simpl. rewrite json_body_limit_default.
    rewrite (proj2 (Z.ltb_lt _ _) Hlen). simpl. unfold http_body. by rewrite Hm.
Qed.

(** ** Statuses *)

Definition error_status (e : ApiError) : Prop := (400 <= ae_status e < 600)%N.
Definition success_status (s : StatusCode) : Prop := (200 <= s < 300)%N.

(** A program whose results satisfy [S] and whose errors have a status of an
    error, from every state. *)
Definition answer {A} (S : A -> Prop) (r : result A ApiError) : Prop :=
  match r with Ok a => S a | Err e => error_status e end.
Definition answers {A} (S : A -> Prop) (p : prog (World (R:=R)) (result A ApiError)) : Prop :=
  forall w, answer S (run p w).1.

Lemma answers_bind_ok {A B} (S : B -> Prop) (p : prog World (result A ApiError)) k :
  answers (fun _ => True) p -> (forall a, answers S (k a)) -> answers S (bind_ok p k).
Proof.
  intros Hp Hk w. rewrite run_bind_ok. specialize (Hp w).
  destruct (run p w) as [[a|e] w']; [apply Hk|exact Hp].
Qed.

Lemma answers_bind {A B} (S : B -> Prop) (p : prog World A) k :
  (forall a, answers S (k a)) -> answers S (bind p k).
Proof. intros Hk w. rewrite run_bind. apply Hk. Qed.

Lemma answers_result {A} (S : A -> Prop) (r : result A ApiError) : answer S r -> answers S (of_result r).
Proof. intros H w. exact H. Qed.

Lemma answer_ok_or {A} e (o : option A) : error_status e -> answer (fun _ => True) (ok_or e o).
Proof. by destruct o. Qed.
Lemma answer_validation {A} (r : result A ValidationError) : answer (fun _ => True) (validation r).
Proof. by destruct r. Qed.
Lemma answer_bearer h : answer (fun _ => True) (bearer h).
Proof. by apply answer_ok_or. Qed.
Lemma answer_validate_ttl t : answer (fun _ => True) (validate_ttl t).
Proof. unfold validate_ttl. by destruct (negb _). Qed.
Lemma answer_page l q : answer (fun _ => True) (snapshot_page l q).
Proof.
  unfold snapshot_page. destruct (lq_cursor q) as [c|]; [|done].
  unfold parse_snapshot_id. destruct (SnapshotId_from_str c) as [i|]; [|done]. simpl.
  by destruct (snapshot_position i l).
Qed.
Lemma from_runtime_status e : error_status (from_runtime e).
Proof. unfold from_runtime. by destruct (re_kind e). Qed.

Lemma answers_act {A} (S : A -> Prop) (f : World -> result A ApiError * World) :
  (forall w, answer S (f w).1) -> answers S (act f).
Proof. intros H w. apply H. Qed.

Lemma answers_runtime_call {A} (p : prog R (result A RuntimeError)) : answers (fun _ => True) (runtime_call p).
Proof.
  intros w. unfold runtime_call. autorewrite with prog. simpl.
  destruct (run p (w_runtime w)).1; [done|]. apply from_runtime_status.
Qed.

Lemma answers_audit who op o d : answers (fun _ => True) (AuditLog_record who op o d).
Proof. apply answers_act. intros w. by destruct (w_audit_faults w) as [|[] ?]. Qed.

Lemma answers_transition id next : answers (fun _ => True) (transition id next).
Proof.
  apply answers_act. intros w. destruct (w_records w !! id); [|done]. by destruct (can_transition_to _ _).
Qed.

Ltac answers_step :=
  first
    [ assumption
    | match goal with
      | |- answers _ (if ?b then _ else _) => destruct b
      | |- answers _ (match ?x with _ => _ end) => destruct x
      | |- answers _ (throw ?e) => intros ?; first [apply from_runtime_status|by vm_compute]
      | |- answers _ (ok _) => intros ?; simpl; try by vm_compute
      | |- answers _ (of_result _) => apply answers_result
      | |- answers _ (runtime_call _) => apply answers_runtime_call
      | |- answers _ (AuditLog_record _ _ _ _) => apply answers_audit
      | |- answers _ (transition _ _) => apply answers_transition
      | |- answers _ (gets _) => apply answers_act; intros ?; simpl
      | |- answers _ (act _) => apply answers_act; intros ?; simpl
      | |- answer _ (ok_or _ _) => apply answer_ok_or; by vm_compute
      | |- answer _ (parse_id _) => apply answer_ok_or; by vm_compute
      | |- answer _ (parse_snapshot_id _) => apply answer_ok_or; by vm_compute
      | |- answer _ (validation _) => apply answer_validation
      | |- answer _ (bearer _) => apply answer_bearer
      | |- answer _ (validate_ttl _) => apply answer_validate_ttl
      | |- answer _ (snapshot_page _ _) => apply answer_page
      | |- answer _ (fst (match ?x with _ => _ end)) => destruct x; [exact I || by vm_compute|..]; by vm_compute
      | |- answers _ (bind_ok _ _) => apply answers_bind_ok; [|intros ?]
      | |- answers _ (bind _ _) => apply answers_bind; intros ?
      end ].

Lemma answers_authorize id h : answers (fun _ => True) (authorize id h).
Proof. unfold authorize. repeat answers_step. Qed.
Lemma answers_authorize_running id h : answers (fun _ => True) (authorize_running id h).
Proof. unfold authorize_running. apply answers_bind_ok; [apply answers_authorize|intros ?]. repeat answers_step. Qed.
Lemma answers_authorize_snapshot id h : answers (fun _ => True) (authorize_snapshot id h).
Proof. unfold authorize_snapshot. repeat answers_step. Qed.

(** The statuses of the replies: those that carry one carry a success. *)
Definition reply_status (r : Reply) : Prop := success_status (reply_parts r).1.
Definition pair_status {A} (x : StatusCode * A) : Prop := success_status x.1.

Lemma answers_reply {A} (S : A -> Prop) (f : A -> Reply) (p : prog World (result A ApiError)) :
  answers S p -> (forall a, S a -> reply_status (f a)) -> answers reply_status (reply f p).
Proof.
  intros Hp Hf w. unfold reply. rewrite run_fmap. simpl. specialize (Hp w).
  destruct (run p w).1; [by apply Hf|exact Hp].
Qed.

Ltac answers_all :=
  repeat first
    [ apply answers_authorize | apply answers_authorize_running | apply answers_authorize_snapshot
    | answers_step ].

Lemma answers_delete_internal id reason : answers (fun _ => True) (delete_internal id reason).
Proof. unfold delete_internal. answers_all. Qed.

Lemma answers_clones snapshot_id ttl handles :
  answers (fun _ => True) (map_prog handles (register_clone snapshot_id ttl)).
Proof.
  induction handles as [|h handles IH]; simpl; [by intros w|].
  apply answers_bind_ok; [unfold register_clone; answers_all|intros ?].
  apply answers_bind_ok; [exact IH|intros ?]. by intros w.
Qed.

#[local] Hint Unfold create_sandbox get_sandbox delete_sandbox execute_command write_file read_file
  list_directory pause_sandbox resume_sandbox create_snapshot list_snapshots rollback_snapshot
  get_snapshot delete_snapshot verify_snapshot restore_snapshot clone_snapshot : handlers.

Lemma router_answers request : answers reply_status (router request).
Proof.
  destruct request; cbn [router];
    match goal with
    | |- answers _ (Ret _) => by intros ?
    | |- answers _ (reply Re_status _) => apply (answers_reply success_status); [|done]
    | |- answers _ (reply (fun '(_, _) => _) _) => apply (answers_reply pair_status); [|by intros []]
    | |- _ => apply (answers_reply (fun _ => True)); [|done]
    end;
    autounfold with handlers;
    repeat first [apply answers_delete_internal|apply answers_clones|progress answers_all].
Qed.

(** C17. The status says how a request went: the router answers every request it
    serves with a status of success (2xx) when the handler succeeded and with
    one of failure (4xx or 5xx) when it failed, from every state and over every
    runtime; the body of a failure is the JSON envelope of its code and message. *)
Theorem status_tells_outcome request (w : World) :
  match (run (router request) w).1 with
  | Ok r => success_status (result_parts (Ok r)).1
  | Err e => (400 <= (result_parts (Err e)).1 < 600)%N
      /\ (result_parts (Err e)).2 = Some (ApiError_json e)
  end.
Proof.
  pose proof (router_answers request w) as H.
  destruct (run (router request) w).1; [exact H|by split].
Qed.

(** ** Bodies *)

(** The requests that are answered with a body when they succeed. *)
Definition has_body (request : Request) : bool :=
  match request with
  | GET_healthz | DELETE_sandbox _ _ | POST_pause _ _ | POST_resume _ _ | DELETE_snapshot _ _ => false
  | _ => true
  end.

Lemma reply_has_body request (w : World) r : (run (router request) w).1 = Ok r ->
  has_body request = true -> exists v, (reply_parts r).2 = Some v.
Proof.
  intros Hr Hb. destruct request; try discriminate Hb; cbn [router] in Hr; unfold reply in Hr;
    rewrite run_fmap in Hr; cbn [fst] in Hr; apply result_map_ok in Hr as (a&_&<-); try destruct a; by eexists.
Qed.

(** The numbers of an answer lie in the range of JSON's integers: all of them do
    by their Rust types, but for the times, which are [u128] milliseconds. *)
Definition carried (r : Reply) : bool :=
  match (reply_parts r).2 with Some v => exact v | None => true end.
End Dispatch.

(** ** The theorems at concrete inputs *)

Definition example_incoming (method : Method) (path : list string) (v : Value) : Incoming :=
  MkIncoming method path (MkHeaderMap None) [] true (json_to_vec v).

Definition example_upload : Value :=
  JObject [("path", JString "/home/sandbox/a"); ("content_base64", JString "AA==")].

Lemma uploads_limited_witness : (slen "AA==" <= 2 * 1024 * 1024)%Z.
Proof.
  pose proof (uploads_limited (example_incoming PUT (files_path "0") example_upload) "0"
    (initial_world start 0 0) ltac:(discriminate) eq_refl eq_refl eq_refl) as [H _].
  apply (H (MkHeaderMap None) (MkWriteFileBody "/home/sandbox/a" "AA==" false None)).
  vm_compute. reflexivity.
Defined.
