(* ===== verification/CliProps.v ===== *)
(** * The command-line client: properties

    A command reaches the handler it is meant for and reports what that handler
    did; a file that is written and read back through the client is the same
    file; what is refused locally sends nothing; rendering a template changes
    nothing. *)
From S2P Require Import Prelude Conc Core Utf8 Api Instances ApiSafety ApiProps.
From S2P Require Import Fs FsOps Template TemplateProps.
From S2P Require Import Http Cli HttpHost HttpProps.

(** ** Texts of URLs *)

(** Both sides of an equation between URLs, flattened. *)
Ltac url_eq :=
  repeat (progress (simpl; rewrite ?append_nil_r, <-?append_assoc_s)); reflexivity.

Lemma plain_segment_nonempty s : plain_segment s = true -> is_empty s = false.
Proof. unfold plain_segment. intros [H _]%andb_true_iff. by apply negb_true_iff. Qed.

(** ** What a command asks for *)

(** The headers that carry a token. *)
Definition token_headers (token : string) : HeaderMap := MkHeaderMap (Some (Cli.bearer_header token)).

(** The handler, with its arguments, that a command is meant for; [data] is the
    contents of the local file of a write. *)
Definition intended (data : string) (command : Command) : option Request :=
  match command with
  | CliCreate template cpu memory_mb ttl internet =>
      Some (POST_sandboxes (MkCreateSandboxRequest template cpu memory_mb ttl internet))
  | CliInspect id token => Some (GET_sandbox id (token_headers token))
  | CliExec id token cwd timeout argv =>
      Some (POST_commands id (token_headers token) (MkExecuteCommandRequest argv cwd ∅ timeout 1048576))
  | CliWrite id path _ token overwrite =>
      Some (PUT_files id (token_headers token) (MkWriteFileBody path data overwrite None))
  | CliRead id path token _ =>
      Some (GET_files id (token_headers token) (MkReadFileQuery path 0 default_file_read_limit))
  | CliList id path token => Some (GET_directories id (token_headers token) path)
  | CliPause id token => Some (POST_pause id (token_headers token))
  | CliResume id token => Some (POST_resume id (token_headers token))
  | CliDelete id token => Some (DELETE_sandbox id (token_headers token))
  | CliSnapshot (SnapshotCreate id name token) =>
      Some (POST_snapshots id (token_headers token) (MkCreateSnapshotRequest name))
  | CliSnapshot (SnapshotList id limit cursor token) =>
      Some (GET_snapshots id (token_headers token) (MkListSnapshotsQuery limit cursor))
  | CliSnapshot (SnapshotInspect id token) => Some (GET_snapshot id (token_headers token))
  | CliSnapshot (SnapshotVerify id token) => Some (POST_verify id (token_headers token))
  | CliSnapshot (SnapshotRestore id ttl token) => Some (POST_restore id (token_headers token) ttl)
  | CliSnapshot (SnapshotClone id count ttl token) =>
      Some (POST_clones id (token_headers token) (MkCloneSnapshotRequest count ttl))
  | CliSnapshot (SnapshotRollback id snapshot_id token) =>
      Some (POST_rollback id snapshot_id (token_headers token))
  | CliSnapshot (SnapshotDelete id token) => Some (DELETE_snapshot id (token_headers token))
  | CliTemplate _ _ => None
  end.

(** The request that a command builds. *)
Definition built (base data : string) (command : Command) : option RequestBuilder :=
  match command with
  | CliCreate template cpu memory_mb ttl internet =>
      Some (create_request base (MkSandboxSpec template cpu memory_mb ttl (network_mode internet)))
  | CliInspect id token => Some (authorized GET (sandbox_url base id) token)
  | CliExec id token cwd timeout argv => Some (exec_request base id token cwd timeout argv)
  | CliWrite id path _ token overwrite => Some (write_request base id path data token overwrite)
  | CliRead id path token _ => Some (read_request base id path token)
  | CliList id path token => Some (list_request base id path token)
  | CliPause id token => Some (authorized POST (sandbox_url base id +:+ "/pause") token)
  | CliResume id token => Some (authorized POST (sandbox_url base id +:+ "/resume") token)
  | CliSnapshot command => Some (snapshot_request base command)
  | CliTemplate _ _ => None
  | CliDelete id token => Some (authorized DELETE (sandbox_url base id) token)
  end.

(** The identifiers and the token that a command carries. *)
Definition credentials (command : Command) : list string * option string :=
  match command with
  | CliCreate _ _ _ _ _ | CliTemplate _ _ => ([], None)
  | CliInspect id token | CliExec id token _ _ _ | CliWrite id _ _ token _ | CliRead id _ token _
  | CliList id _ token | CliPause id token | CliResume id token | CliDelete id token
  | CliSnapshot (SnapshotCreate id _ token) | CliSnapshot (SnapshotList id _ _ token)
  | CliSnapshot (SnapshotInspect id token) | CliSnapshot (SnapshotVerify id token)
  | CliSnapshot (SnapshotRestore id _ token) | CliSnapshot (SnapshotClone id _ _ token)
  | CliSnapshot (SnapshotDelete id token) => ([id], Some token)
  | CliSnapshot (SnapshotRollback id snapshot_id token) => ([id; snapshot_id], Some token)
  end.

(** The integers of a command have the types that the parser gave them. *)
Definition command_typed (command : Command) : bool :=
  match command with
  | CliCreate _ cpu memory_mb ttl _ => in_range 0 u8_max cpu && in_range 0 u32_max memory_mb && in_range 0 u64_max ttl
  | CliExec _ _ _ timeout _ => in_range 0 u64_max timeout
  | CliSnapshot (SnapshotList _ limit _ _) => (Z.of_nat limit <=? u64_max)%Z
  | CliSnapshot (SnapshotRestore _ ttl _) => in_range 0 u64_max ttl
  | CliSnapshot (SnapshotClone _ count ttl _) => in_range 0 u8_max count && in_range 0 u64_max ttl
  | _ => true
  end.

Lemma exact_strings depth l : forallb (exact_within depth) (map JString l) = true.
Proof. induction l as [|s l IH]; simpl; [done|]. exact IH. Qed.
Lemma decode_strings l : mapM decode_string (map JString l) = Some l.
Proof. induction l as [|s l IH]; simpl; [done|]. by rewrite IH. Qed.

Lemma decode_create_sent template cpu memory_mb ttl internet :
  in_range 0 u8_max cpu = true -> in_range 0 u32_max memory_mb = true -> in_range 0 u64_max ttl = true ->
  decode_create (sandbox_request_json (MkSandboxSpec template cpu memory_mb ttl (network_mode internet)))
  = Some (MkCreateSandboxRequest template cpu memory_mb ttl internet).
Proof.
  intros H1 H2 H3. unfold decode_create. simpl. rewrite H1. simpl. rewrite H2. simpl. rewrite H3. by destruct internet.
Qed.

Lemma decode_exec_sent argv cwd timeout : in_range 0 u64_max timeout = true ->
  decode_command (exec_json argv cwd timeout) = Some (MkExecuteCommandRequest argv cwd ∅ timeout 1048576).
Proof. intros H. unfold decode_command. simpl. rewrite decode_strings. simpl. by rewrite H. Qed.

Lemma decode_snapshots_sent limit cursor : (Z.of_nat limit <= u64_max)%Z ->
  decode_snapshots_query (snapshot_list_query limit cursor) = Some (MkListSnapshotsQuery limit cursor).
Proof.
  intros H. unfold decode_snapshots_query, snapshot_list_query.
  destruct cursor as [c|]; unfold member; simpl; rewrite parse_uint_pretty by done; simpl; by rewrite Nat2Z.id.
Qed.

Section Reach.
Context `{U : UuidLib} `{C : CryptoLib} {R : Type} `{RT : @SandboxRuntime U R}.
Context `{J : JsonText} `{D : AxumDefaults} {HC : @HttpClient J}.

Definition rb_body (rb : RequestBuilder) : list Byte.byte :=
  match rb_json rb with Some v => json_to_vec v | None => [] end.

(** A command whose identifiers are plain and whose token can be sent, and a
    body that the server takes. *)
Definition sendable (base : string) (command : Command) (rb : RequestBuilder) : Prop :=
  http_origin base = true /\ forallb plain_segment (credentials command).1 = true
  /\ (forall token, (credentials command).2 = Some token -> visible token = true)
  /\ command_typed command = true /\ (Z.of_nat (length (rb_body rb)) <= 2 * 1024 * 1024)%Z.

(** The path of the URL that a command builds. *)
Definition built_path (command : Command) : list string :=
  match command with
  | CliCreate _ _ _ _ _ => ["v1"; "sandboxes"]
  | CliInspect id _ | CliDelete id _ => ["v1"; "sandboxes"; id]
  | CliExec id _ _ _ _ => ["v1"; "sandboxes"; id; "commands"]
  | CliWrite id _ _ _ _ | CliRead id _ _ _ => ["v1"; "sandboxes"; id; "files"]
  | CliList id _ _ => ["v1"; "sandboxes"; id; "directories"]
  | CliPause id _ => ["v1"; "sandboxes"; id; "pause"]
  | CliResume id _ => ["v1"; "sandboxes"; id; "resume"]
  | CliSnapshot (SnapshotCreate id _ _) | CliSnapshot (SnapshotList id _ _ _) => ["v1"; "sandboxes"; id; "snapshots"]
  | CliSnapshot (SnapshotInspect id _) | CliSnapshot (SnapshotDelete id _) => ["v1"; "snapshots"; id]
  | CliSnapshot (SnapshotVerify id _) => ["v1"; "snapshots"; id; "verify"]
  | CliSnapshot (SnapshotRestore id _ _) => ["v1"; "snapshots"; id; "restore"]
  | CliSnapshot (SnapshotClone id _ _ _) => ["v1"; "snapshots"; id; "clones"]
  | CliSnapshot (SnapshotRollback id snapshot_id _) => ["v1"; "sandboxes"; id; "rollback"; snapshot_id]
  | CliTemplate _ _ => []
  end.

Lemma built_url base data command rb : built base data command = Some rb ->
  rb_url rb = base +:+ url_path (built_path command) /\ built_path command <> []
  /\ rb_bearer rb = (credentials command).2
  /\ (forallb plain_segment (credentials command).1 = true -> forallb plain_segment (built_path command) = true).
Proof.
  destruct command as [| | | | | | | |[]| |]; try discriminate; intros [= <-];
    (split; [unfold sandboxes_url, sandbox_url, snapshot_url; cbn; unfold sandboxes_url, sandbox_url, snapshot_url; url_eq|]);
    (split; [done|split; [done|]]); intros H; simpl in *; rewrite ?andb_true_iff in *;
    destruct_and?; by repeat split.
Qed.

(** An integer of a Rust type is one that JSON carries. *)
Lemma carried_uint max n : in_range 0 max n = true -> (max <= u64_max)%Z -> in_range i64_min u64_max n = true.
Proof. rewrite !in_range_spec. unfold i64_min. lia. Qed.

(** The body of a command is a value that JSON carries exactly, and decodes to
    the arguments of the handler. *)
Lemma built_exact base data command rb v : built base data command = Some rb -> command_typed command = true ->
  rb_json rb = Some v -> exact v = true.
Proof.
  intros Hb Ht. revert Hb.
  destruct command as [| | | | | | | |[? []| | | | | | |]| |]; try discriminate; intros [= <-]; simpl;
    try discriminate; intros [= <-]; cbn [command_typed] in Ht; rewrite ?andb_true_iff in Ht; destruct_and?;
    unfold exact; change JSON_DEPTH with (S (S 125)); generalize 125; intros depth; unfold sandbox_request_json, exec_json, write_json, json_option;
    cbn [exact_within forallb snd Core.template_id Core.cpu_count Core.memory_mb Core.spec_timeout_seconds]; rewrite ?exact_strings;
    repeat match goal with
    | H : in_range 0 _ _ = true |- _ => apply carried_uint in H; [rewrite H; clear H|by vm_compute]
    end; reflexivity.
Qed.

Lemma extract_json_sent {A} (decode : Value -> option A) method path headers query v x :
  (Z.of_nat (length (json_to_vec v)) <= 2 * 1024 * 1024)%Z -> exact v = true -> decode v = Some x ->
  extract_json decode (MkIncoming method path headers query true (json_to_vec v)) = Ok x.
Proof.
  intros Hl He Hd. unfold extract_json. simpl. rewrite json_body_limit_default.
  destruct (Z.ltb_spec (2 * 1024 * 1024) (Z.of_nat (length (json_to_vec v)))); [lia|].
  by rewrite json_roundtrip, Hd.
Qed.

(** What a command sends arrives at the handler it is meant for. *)
Lemma built_dispatched base data command rb request :
  built base data command = Some rb -> intended data command = Some request ->
  sendable base command rb ->
  exists r, deliver rb = Ok r /\ dispatch r = Ok request /\ in_method r <> HEAD.
Proof.
  intros Hb Hi (Ho&Hp&Ht&Hty&Hl).
  destruct (built_url _ _ _ _ Hb) as (Hu&Hne&Hbe&Hplain).
  assert (forall v, rb_json rb = Some v -> exact v = true) as He by (intros v; eapply built_exact; [done|apply Hty]).
  eexists. split; [apply (deliver_plain rb base (built_path command)); auto; by rewrite Hbe|].
  unfold rb_body in Hl. revert Hl.
  match goal with |- (Z.of_nat (length ?b) <= _)%Z -> _ => set (body := b) end. intros Hl.
  split; [|destruct command as [| | | | | | | |[]| |]; try discriminate; by injection Hb as <-].
  unfold dispatch. cbn [in_body in_path in_method].
  destruct (Z.ltb_spec MAX_REQUEST_BODY (Z.of_nat (length body))); [unfold MAX_REQUEST_BODY in *; lia|].
  destruct command as [| | | | | | | |[]| |]; try discriminate; injection Hb as <-; injection Hi as <-;
    cbn [credentials fst forallb] in Hp; rewrite ?andb_true_iff in Hp; destruct_and?;
    repeat match goal with H : plain_segment _ = true |- _ => apply plain_segment_nonempty in H end;
    cbn [built_path]; simpl;
    repeat match goal with H : is_empty _ = false |- _ => rewrite H end; simpl;
    try reflexivity; subst body; cbn [rb_json create_request exec_request write_request snapshot_request with_json] in Hl |- *;
    try (erewrite extract_json_sent; [reflexivity|exact Hl|by apply He|]);
    cbn [command_typed] in Hty; rewrite ?andb_true_iff in Hty; destruct_and?.
  - by apply decode_create_sent.
  - by apply decode_exec_sent.
  - reflexivity.
  - by destruct name.
  - unfold extract_query. cbn [in_query]. rewrite decode_snapshots_sent; [done|by apply Z.leb_le].
  - unfold decode_restore. simpl. by rewrite Hty.
  - unfold decode_clone. simpl. by repeat match goal with H : in_range _ _ _ = true |- _ => rewrite H; clear H; simpl end.
Qed.
Context `{TJ : TemplateJson} `{TF : TempFiles}.
Abbreviation Server := (@World U R).
Abbreviation Client := (@Cli.Client U R).

(** ** Sending *)

(** The client after one request: the connection used up, the server as it is
    left. *)
Definition after_send (w : Server) (c : Client) : Client :=
  set_server w (set_connections (tail (cl_connections c)) c).

Definition next (c : Client) : Connection :=
  match cl_connections c with [] => Delivered | x :: _ => x end.

Lemma run_next_connection (c : Client) : run next_connection c = (next c, set_connections (tail (cl_connections c)) c).
Proof. unfold next_connection, next. rewrite run_act. by destruct c as [w [|x l] fs out]. Qed.

Lemma set_server_same (c : Client) : set_server (cl_server c) c = c.
Proof. by destruct c. Qed.

(** What comes of a request whose arrival at a handler is known. *)
Lemma run_send rb r request (c : Client) : deliver rb = Ok r -> dispatch r = Ok request ->
  let out := run (router request) (cl_server c) in
  run (send rb) c =
  match next c with
  | Delivered => (Ok (http_response r (result_parts out.1)), after_send out.2 c)
  | AnswerLost => (Err (SendFailed send_error), after_send out.2 c)
  | Refused => (Err (SendFailed send_error), after_send (cl_server c) c)
  end.
Proof.
  intros Hd Hr out. unfold send. rewrite Hd, run_bind, run_next_connection. cbn [fst snd].
  assert (forall c', cl_server c' = cl_server c ->
    run (lift (serve r)) c' = (http_response r (result_parts out.1), set_server out.2 c')) as Hs.
  { intros c' Hc'. rewrite run_lift. cbn [view put client_server]. rewrite Hc'. unfold serve. rewrite Hr.
    rewrite run_fmap. done. }
  destruct (next c).
  - rewrite run_fmap, Hs by done. done.
  - reflexivity.
  - rewrite run_bind, Hs by done. done.
Qed.

Lemma run_print text (c : Client) : run (print text) c = (tt, set_stdout (cl_stdout c ++ [text]) c).
Proof. done. Qed.

(** The handler of [request] answers with numbers that JSON carries. *)
Definition answer_carried (request : Request) (w : Server) : Prop :=
  forall x, (run (router request) w).1 = Ok x -> carried x = true.

(** What a command prints after the reply of its handler. *)
Definition report (command : Command) (r : Reply) : string :=
  match command with
  | CliPause id _ => "paused " +:+ id
  | CliResume id _ => "resumed " +:+ id
  | CliDelete id _ => "deleted " +:+ id
  | CliSnapshot (SnapshotDelete id _) => "deleted snapshot " +:+ id
  | _ => match (reply_parts r).2 with Some v => json_to_string_pretty v | None => "" end
  end.

Definition api_failure (e : ApiError) : CliError :=
  ApiReturned (ae_status e) (from_utf8_lossy (json_to_vec (ApiError_json e))).

(** The outcome of a command that sends [request]: what the connection does
    decides whether the handler runs and whether its answer is seen; nothing is
    sent twice. *)
Definition handler_outcome (command : Command) (request : Request) (c : Client)
    (result : result unit CliError) (c' : Client) : Prop :=
  let out := run (router request) (cl_server c) in
  cl_fs c' = cl_fs c /\
  match next c with
  | Refused => result = Err (SendFailed send_error) /\ cl_server c' = cl_server c /\ cl_stdout c' = cl_stdout c
  | AnswerLost => result = Err (SendFailed send_error) /\ cl_server c' = out.2 /\ cl_stdout c' = cl_stdout c
  | Delivered =>
      cl_server c' = out.2 /\
      match out.1 with
      | Ok r => result = Ok tt /\ cl_stdout c' = cl_stdout c ++ [report command r +:+ NEWLINE]
      | Err e => result = Err (api_failure e) /\ cl_stdout c' = cl_stdout c
      end
  end.

Lemma is_success_ok status : success_status status -> is_success status = true.
Proof. unfold success_status, is_success. intros [H1 H2]. apply andb_true_iff. split; [by apply N.leb_le|by apply N.ltb_lt]. Qed.
Lemma is_success_error status : (400 <= status < 600)%N -> is_success status = false.
Proof. intros [H1 H2]. unfold is_success. apply andb_false_iff. right. apply N.ltb_ge. lia. Qed.

(** The answer of a handler, as [ensure_success] sees it. *)
Lemma ensure_answer r request (w : Server) : in_method r <> HEAD ->
  ensure_success (http_response r (result_parts (run (router request) w).1)) =
  match (run (router request) w).1 with
  | Ok x => Ok (http_response r (reply_parts x))
  | Err e => Err (api_failure e)
  end.
Proof.
  intros Hm. pose proof (router_answers request w) as H. unfold ensure_success, http_response, http_body.
  rewrite bool_decide_false by done.
  destruct (run (router request) w).1 as [x|e]; cbn [result_parts fst snd hr_status hr_body].
  - by rewrite is_success_ok.
  - by rewrite is_success_error.
Qed.

Lemma answer_json r x v : in_method r <> HEAD -> (reply_parts x).2 = Some v -> exact v = true ->
  response_json (http_response r (reply_parts x)) = Ok v.
Proof.
  intros Hm Hv He. unfold response_json, http_response, http_body. cbn [hr_body].
  rewrite bool_decide_false, Hv by done. by rewrite json_roundtrip.
Qed.

(** A request, and what is done with a successful answer. *)
Lemma run_answered {A} rb r request (c : Client) (k : HttpResponse -> prog Client (result A CliError)) :
  deliver rb = Ok r -> dispatch r = Ok request -> in_method r <> HEAD ->
  let out := run (router request) (cl_server c) in
  run (do? response <- send rb ;; do? response <- of_result (ensure_success response) ;; k response)%prog c =
  match next c with
  | Delivered =>
      match out.1 with
      | Ok x => run (k (http_response r (reply_parts x))) (after_send out.2 c)
      | Err e => (Err (api_failure e), after_send out.2 c)
      end
  | AnswerLost => (Err (SendFailed send_error), after_send out.2 c)
  | Refused => (Err (SendFailed send_error), after_send (cl_server c) c)
  end.
Proof.
  intros Hd Hr Hm. cbv zeta. rewrite run_bind_ok, (run_send rb r request c Hd Hr). cbv zeta.
  destruct (next c); cbn [fst snd]; [|done|done].
  rewrite run_bind_ok. unfold of_result. cbn [run fst snd]. rewrite ensure_answer by done.
  by destruct (run (router request) (cl_server c)).1.
Qed.

Lemma run_print_json response v (c : Client) : response_json response = Ok v ->
  run (print_json response) c
  = (Ok tt, set_stdout (cl_stdout c ++ [json_to_string_pretty v +:+ NEWLINE]) c).
Proof. intros Hv. unfold print_json. by rewrite Hv. Qed.

Lemma run_send_and_print command rb r request (c : Client) :
  deliver rb = Ok r -> dispatch r = Ok request -> in_method r <> HEAD -> has_body request = true ->
  answer_carried request (cl_server c) ->
  (forall x v, (reply_parts x).2 = Some v -> report command x = json_to_string_pretty v) ->
  handler_outcome command request c (run (send_and_print rb) c).1 (run (send_and_print rb) c).2.
Proof.
  intros Hd Hr Hm Hb Hcar Hrep. unfold handler_outcome, send_and_print. cbv zeta.
  rewrite (run_answered rb r request c _ Hd Hr Hm). cbv zeta. destruct (next c); [|done|done].
  pose proof (reply_has_body request (cl_server c)) as Hv. unfold answer_carried in Hcar.
  destruct (run (router request) (cl_server c)) as [[x|e] w]; cbn [fst snd] in *; [|done].
  destruct (Hv x eq_refl Hb) as [v Hxv].
  specialize (Hcar x eq_refl). unfold carried in Hcar. rewrite Hxv in Hcar.
  rewrite (run_print_json _ v) by (by apply answer_json). by rewrite (Hrep x v Hxv).
Qed.

Lemma run_send_and_say command rb r request (c : Client) text :
  deliver rb = Ok r -> dispatch r = Ok request -> in_method r <> HEAD ->
  (forall x, report command x = text) ->
  handler_outcome command request c (run (send_and_say rb text) c).1 (run (send_and_say rb text) c).2.
Proof.
  intros Hd Hr Hm Hrep. unfold handler_outcome, send_and_say. cbv zeta.
  rewrite (run_answered rb r request c (fun _ => (do _ <- println text ;; ok tt)%prog) Hd Hr Hm). cbv zeta.
  destruct (next c); [|done|done].
  destruct (run (router request) (cl_server c)) as [[x|e] w]; cbn [fst snd] in *; [|done].
  by rewrite (Hrep x).
Qed.

(** The commands that only send a request and report the answer. *)
Definition direct (command : Command) : bool :=
  match command with CliRead _ _ _ _ | CliWrite _ _ _ _ _ | CliTemplate _ _ => false | _ => true end.

Definition valid_create (command : Command) : Prop :=
  match command with
  | CliCreate template cpu memory_mb ttl internet =>
      SandboxSpec_validate (MkSandboxSpec template cpu memory_mb ttl (network_mode internet)) = Ok tt
  | _ => True
  end.

(** C8. A command does what its handler does: every command other than those on
    local files and templates that can be sent, to a plain http origin, sends one
    request, which arrives at the handler it is meant for with the arguments, the
    token and the limits of the command. If the network delivers it, the server
    is left as the handler leaves it, and the client succeeds, printing the
    reply, exactly when the handler succeeds; a failure is reported with its
    status and body. If the request is lost the server is unchanged, and if the
    answer is lost the handler has run exactly once though the client fails. A
    command can be sent when its identifiers are plain URL segments, its token is
    visible ASCII, its integers are those of its options' types and its body is
    at most two mebibytes; [create] also needs a specification that the client
    finds valid, and the numbers of the answer must fit an [i64] or a [u64], as
    all do by their types but the times in milliseconds. *)
Theorem command_runs_handler url command rb request (c : Client) :
  direct command = true -> valid_create command ->
  built (trim_end_matches "/" url) "" command = Some rb -> intended "" command = Some request ->
  sendable (trim_end_matches "/" url) command rb -> answer_carried request (cl_server c) ->
  handler_outcome command request c
    (run (main (MkCli url command)) c).1 (run (main (MkCli url command)) c).2.
Proof.
  set (base := trim_end_matches "/" url). intros Hdir Hval Hb Hi Hs Hcar.
  destruct (built_dispatched base "" command rb request Hb Hi Hs) as (r&Hd&Hr&Hm).
  unfold main. cbn [cli_api_url cli_command]. fold base.
  destruct command as [| | | | | | | |[]| |]; try discriminate; injection Hb as <-; injection Hi as <-;
    try (eapply run_send_and_print; [exact Hd|exact Hr|exact Hm|reflexivity|exact Hcar|]; intros x v Hv;
         cbn [report]; by rewrite Hv);
    try (eapply run_send_and_say; [exact Hd|exact Hr|exact Hm|]; reflexivity).
  unfold create_command. cbv zeta. simpl in Hval. rewrite Hval. cbn [map_err].
  eapply run_send_and_print; [exact Hd|exact Hr|exact Hm|reflexivity|exact Hcar|]. intros x v Hv.
  cbn [report]. by rewrite Hv.
Qed.

(** ** What stays local *)

(** The server and the connection are as they were. *)
Definition offline (c c' : Client) : Prop :=
  cl_server c' = cl_server c /\ cl_connections c' = cl_connections c.

Lemma run_catalog {A} (p : prog Fs (result A TemplateCatalogError)) (c : Client) :
  run (catalog p) c = (map_err CatalogFailed (run p (cl_fs c)).1, set_client_fs (run p (cl_fs c)).2 c).
Proof.
  unfold catalog. rewrite run_lift, run_map_err. cbn [view put client_fs].
  by destruct (run p (cl_fs c)) as [[a|e] fs].
Qed.

Lemma run_print_value v (c : Client) :
  run (print_value v) c = (Ok tt, set_stdout (cl_stdout c ++ [json_to_string_pretty v +:+ NEWLINE]) c).
Proof. done. Qed.

(** A catalog operation whose result is printed. *)
Lemma run_catalog_print {A} (p : prog Fs (result A TemplateCatalogError)) (f : A -> Value) (c : Client) :
  run (do? x <- catalog p ;; print_value (f x))%prog c =
  match run p (cl_fs c) with
  | (Ok a, fs) => (Ok tt, set_stdout (cl_stdout c ++ [json_to_string_pretty (f a) +:+ NEWLINE]) (set_client_fs fs c))
  | (Err e, fs) => (Err (CatalogFailed e), set_client_fs fs c)
  end.
Proof.
  rewrite run_bind_ok, run_catalog. destruct (run p (cl_fs c)) as [[a|e] fs]; cbn [map_err fst snd]; [|done].
  by rewrite run_print_value.
Qed.

Lemma handle_template_offline store command (c : Client) :
  offline c (run (handle_template store command) c).2.
Proof.
  destruct command; cbn [handle_template]; rewrite ?run_catalog_print.
  1-3,5: by repeat case_match.
  rewrite run_bind_ok, run_catalog. destruct (run (catalog_record store template) (cl_fs c)) as [[r|e] fs]; [|done].
  cbn [map_err fst snd]. rewrite run_bind_ok. unfold of_result. cbn [run fst snd].
  by destruct (SandboxSpec_validate _).
Qed.

Lemma spec_validate_widths s : SandboxSpec_validate s = Ok tt ->
  in_range 0 u8_max (cpu_count s) = true /\ in_range 0 u32_max (memory_mb s) = true
  /\ in_range 0 u64_max (spec_timeout_seconds s) = true.
Proof.
  unfold SandboxSpec_validate. intros H. repeat case_match; try discriminate H.
  repeat match goal with H : negb _ = false |- _ => apply negb_false_iff, in_range_spec in H end.
  rewrite !in_range_spec. unfold MAX_CPU_COUNT, MAX_MEMORY_MB, MIN_MEMORY_MB, MAX_TIMEOUT_SECONDS,
    u8_max, u32_max, u64_max in *. lia.
Qed.

(** Rendering is a dry run: [template render] never contacts the server and
    leaves every local file as it was. When it succeeds it printed the request
    for the record that the reference leads to in the catalog, and this request
    is accepted: the control plane decodes it to exactly that template with the
    given limits, and they pass its validation. When the limits are invalid it
    says so and prints nothing. *)
Theorem render_is_dry_run url store template cpu memory_mb ttl internet (c : Client) :
  let '(r, c') := run (main (MkCli url (CliTemplate store (TemplateRender template cpu memory_mb ttl internet)))) c in
  offline c c' /\ fs_same (cl_fs c) (cl_fs c')
  /\ match (run (catalog_record store template) (cl_fs c)).1 with
     | Err e => r = Err (CatalogFailed e) /\ cl_stdout c' = cl_stdout c
     | Ok record =>
         let spec := MkSandboxSpec (tr_template_id record) cpu memory_mb ttl (network_mode internet) in
         match SandboxSpec_validate spec with
         | Err e => r = Err (InvalidRequest e) /\ cl_stdout c' = cl_stdout c
         | Ok _ =>
             let printed := render_json template record spec in
             r = Ok tt /\ cl_stdout c' = cl_stdout c ++ [json_to_string_pretty printed +:+ NEWLINE]
             /\ exists request, decode_create (json_index "effective_request" printed) = Some request
                /\ create_spec request = spec
         end
     end.
Proof.
  pose proof (handle_template_offline store (TemplateRender template cpu memory_mb ttl internet) c) as Hoff.
  unfold main. cbn [cli_command cli_api_url]. cbn [handle_template] in *.
  rewrite run_bind_ok, run_catalog in *.
  assert (fs_same (cl_fs c) (run (catalog_record store template) (cl_fs c)).2) as Hfs.
  { rewrite run_catalog_record. apply run_resolve_template. }
  destruct (run (catalog_record store template) (cl_fs c)) as [[record|e] fs]; cbn [map_err fst snd] in *; [|done].
  cbv zeta. rewrite run_bind_ok in *. unfold of_result in *. cbn [run fst snd] in *.
  set (spec := MkSandboxSpec _ _ _ _ _) in *.
  destruct (SandboxSpec_validate spec) as [[]|e] eqn:Hv; cbn [map_err] in *; [|done].
  split; [exact Hoff|]. split; [exact Hfs|]. split; [done|]. split; [done|].
  destruct (spec_validate_widths spec Hv) as (H1&H2&H3).
  eexists. split; [exact (decode_create_sent (tr_template_id record) cpu memory_mb ttl internet H1 H2 H3)|].
  by destruct internet.
Qed.
End Reach.

(** ** The theorems at concrete inputs

    The client in front of the example server of [ApiProps]. *)
Definition example_files : Fs := MkFs ∅ [] 0 [].
Definition example_client (connections : list Connection) : @Client string_uuid Script :=
  MkClient (example_world []) connections example_files [].

Lemma command_runs_handler_witness :
  (run (main (MkCli "http://127.0.0.1:8080/" (CliPause "0" (plaintext_of 0)))) (example_client [])).1 = Ok tt
  /\ (run (main (MkCli "http://127.0.0.1:8080/" (CliPause "0" (plaintext_of 0)))) (example_client [Refused])).1
     = Err (SendFailed "error sending request").
Proof.
  set (command := CliPause "0" (plaintext_of 0)).
  pose proof (fun connections => command_runs_handler "http://127.0.0.1:8080/" command
    (authorized POST (sandbox_url DEFAULT_URL "0" +:+ "/pause") (plaintext_of 0))
    (POST_pause "0" (token_headers (plaintext_of 0))) (example_client connections) eq_refl I eq_refl eq_refl) as H.
  assert (sendable (trim_end_matches "/" "http://127.0.0.1:8080/") command
    (authorized POST (sandbox_url DEFAULT_URL "0" +:+ "/pause") (plaintext_of 0))) as Hs.
  { split; [reflexivity|]. split; [reflexivity|]. split; [by intros ? [= <-]|]. split; [reflexivity|].
    vm_compute. discriminate. }
  assert (forall connections, answer_carried (POST_pause "0" (token_headers (plaintext_of 0)))
    (cl_server (example_client connections))) as Hcar.
  { intros connections x Hx. change (cl_server _) with (example_world []) in Hx. vm_compute in Hx. by injection Hx as <-. }
  split.
  - destruct (H [] Hs (Hcar [])) as (_&_&Hr).
    assert (exists r, (run (router (POST_pause "0" (token_headers (plaintext_of 0)))) (example_world [])).1 = Ok r) as [r Hok]
      by (eexists; vm_compute; reflexivity).
    change (cl_server (example_client [])) with (example_world []) in Hr. rewrite Hok in Hr. apply Hr.
  - destruct (H [Refused] Hs (Hcar [Refused])) as (_&Hr&_). exact Hr.
Defined.
