(* ===== verification/CliFiles.v ===== *)
(** * Files through the client, the control plane and the runtime

    The whole way of a file: from the disk of the client through the command,
    the HTTP request, the handler and the development runtime to the disk of the
    host, and back. *)
From S2P Require Import Prelude Conc Core Utf8 Api Instances ApiSafety ApiProps.
From S2P Require Import Fs FsOps ProcessRuntime ProcessProps ProcessApi Template TemplateProps.
From S2P Require Import Http Cli HttpHost HttpProps CliProps.

(** ** Local files *)

(** A call that succeeds met no fault. *)
Lemma syscall_ok {A} (f : Fs -> result A IoError * Fs) g fs a fs1 :
  run (syscall f g) fs = (Ok a, fs1) ->
  exists fs0, fs_nodes fs0 = fs_nodes fs /\ fs_cwd fs0 = fs_cwd fs /\ f fs0 = (Ok a, fs1).
Proof.
  unfold syscall. rewrite run_act. destruct (fs_faults fs) as [|[e|] rest]; intros H; [by exists fs|done|].
  by exists (set_faults rest fs).
Qed.

(** A path that leads to a file or a directory, if to anything: not to a device. *)
Definition ordinary (fs : Fs) (p : Path) : Prop :=
  forall l n, lookup_path fs true p = Ok (l, n) -> is_file n || is_dir n = true.

(** A file opened for overwriting is empty, and its path leads to it, also
    after it was filled. *)
Lemma open_truncate fs p l fs1 : ordinary fs p ->
  run (open (write_options true) p) fs = (Ok l, fs1) ->
  (exists n, fs_nodes fs1 = <[l := n]> (fs_nodes fs) /\ n_kind n = File [])
  /\ fs_cwd fs1 = fs_cwd fs
  /\ forall fs2 m, fs_nodes fs2 = <[l := m]> (fs_nodes fs) -> is_file m = true ->
     fs_cwd fs2 = fs_cwd fs -> lookup_path fs2 true p = Ok (l, m).
Proof.
  intros Hreg Hopen. apply syscall_ok in Hopen as (fs0&Hn&Hc&Hopen). revert Hopen.
  cbn [write_options oo_create_new oo_write oo_create oo_truncate negb]. rewrite Hn.
  destruct (resolve fs0 true p) as [l' k|d x [|]|] eqn:Hr; [|done| |done].
  - destruct (node_at (fs_nodes fs) l') as [n|] eqn:Hl; [|done].
    assert (is_file n || is_dir n = true) as Hord.
    { apply (Hreg l' n). unfold lookup_path, resolve. rewrite <-Hc, <-Hn.
      unfold resolve in Hr. rewrite Hr. by rewrite Hn, Hl. }
    unfold is_file, is_dir in Hord. destruct (n_kind n) eqn:Hk; try discriminate Hord; [|done]. intros [= <- <-].
    assert (fs_nodes fs !! l' = Some n) as Hlk by (destruct l'; [by injection Hl as <-|exact Hl]).
    split; [by eexists|]. split; [done|]. intros fs2 m Hm Hf Hc2. unfold lookup_path.
    rewrite (resolve_refines fs0 fs2 true p l' k); [|rewrite Hn, Hm|congruence|done].
    + rewrite Hm. destruct l'; [by injection Hl as <-|]. cbn. by rewrite lookup_insert_eq.
    + apply (insert_file_grows _ _ _ Hf). rewrite Hlk. unfold is_file. by rewrite Hk.
  - intros [= <- <-]. split; [by eexists|]. split; [done|]. intros fs2 m Hm Hf Hc2.
    eapply (resolve_missing_insert fs0 true); [| |exact Hf|exact Hr|congruence].
    + intros l' a Ha Hd. rewrite Hm. rewrite lookup_insert_ne; [congruence|]. intros <-.
      apply resolve_missing in Hr. congruence.
    + by rewrite Hm, lookup_insert_eq.
Qed.

Lemma write_all_empty l data fs n : fs_nodes fs !! l = Some n -> n_kind n = File [] ->
  (run (write_all l data) fs).1 = Ok tt ->
  fs_nodes (run (write_all l data) fs).2 = <[l := MkNode (File data) (n_mode n) (fs_clock_ns fs)]> (fs_nodes fs)
  /\ fs_cwd (run (write_all l data) fs).2 = fs_cwd fs.
Proof.
  intros Hl Hk. unfold write_all, syscall. rewrite run_act.
  destruct (fs_faults fs) as [|[e|] rest]; cbn [fst snd]; [|done|]; intros _;
    unfold write_at; cbn [set_faults fs_nodes]; rewrite Hl, Hk; cbn; unfold overlay; by rewrite drop_nil, app_nil_r.
Qed.

(** What was written to a path is what the path leads to. *)
Lemma fs_write_contents fs p text fs' : ordinary fs p ->
  run (fs_write p text) fs = (Ok tt, fs') -> contents_at fs' p = Some (String.list_byte_of_string text).
Proof.
  intros Hreg. unfold fs_write. rewrite run_bind_ok.
  destruct (run (open (write_options true) p) fs) as [[l|e] fs1] eqn:Ho; cbn [fst snd]; [|done].
  destruct (open_truncate _ _ _ _ Hreg Ho) as ((n&Hn&Hk)&Hc&Hlook). intros Hw.
  destruct (write_all_empty l (String.list_byte_of_string text) fs1 n) as [Hn2 Hc2];
    [by rewrite Hn, lookup_insert_eq|done|by rewrite Hw|].
  rewrite Hw in Hn2, Hc2. cbn [snd] in *. rewrite Hn, insert_insert_eq in Hn2.
  erewrite contents_of_lookup by (apply Hlook; [exact Hn2|done|congruence]). done.
Qed.

(** ** The handlers of files *)
Section Handlers.
Context `{U : UuidLib} `{C : CryptoLib} {R : Type} `{RT : @SandboxRuntime U R}.
Abbreviation World := (@World U R).

(** What a successful upload did. *)
Lemma write_file_ok (w : World) s id h b bytes w' :
  SandboxId_from_str s = Some id -> run (write_file s h b) w = (Ok bytes, w') ->
  exists r data path res,
    authorised w id h r /\ rec_state r = Running
    /\ base64_decode (wb_content_base64 b) = Some data /\ SandboxPath_new (wb_path b) = Ok path
    /\ (run (rt_write id (MkWriteFileRequest path data (wb_overwrite b) (wb_mode b))) (w_runtime w))
       = (Ok res, w_runtime w')
    /\ w_records w' = w_records w /\ w_now w' = w_now w.
Proof.
  intros Hid. unfold write_file, parse_id. rewrite run_bind_ok, Hid. cbn [ok_or of_result run fst snd].
  rewrite run_bind_ok, run_authorize_running. unfold authorize_running_result.
  destruct (authorize_result w id h) as [r|] eqn:Ha; [|done]. cbn [result_bind].
  destruct (bool_decide (rec_state r = Running)) eqn:Hst; [|done]. cbn [fst snd].
  rewrite run_bind_ok. destruct (base64_decode (wb_content_base64 b)) as [data|]; [|done].
  cbn [of_result ok_or run fst snd]. rewrite run_bind_ok. unfold validation.
  destruct (SandboxPath_new (wb_path b)) as [path|]; [|done]. cbn [of_result map_err run fst snd].
  rewrite run_bind_ok, run_runtime_call. cbn [fst snd].
  destruct (run (rt_write id _) (w_runtime w)) as [[res|e] x] eqn:Hw; [|done]. cbn [map_err fst snd].
  rewrite run_bind_ok, run_audit. cbn [fst snd].
  set (who := Some _). set (details := {[_ := _]}).
  pose proof (audited_frame (set_runtime x w) who "write_file" "succeeded" details) as (Hx&Hrec&_&_&_&Hnow).
  destruct (audit_result (set_runtime x w)) as [[]|]; [|done]. cbn [ok run].
  intros Heq. apply pair_equal_spec in Heq as [_ <-].
  exists r, data, path, res. apply authorize_result_ok in Ha. apply bool_decide_eq_true in Hst.
  split; [done|]. split; [done|]. split; [done|]. split; [done|].
  split; [|split; [exact Hrec|apply Hnow]]. cbv zeta in Hx. rewrite Hx. exact Hw.
Qed.

(** A download that the runtime performs. *)
Lemma read_file_runs (w : World) s id h r q path res x :
  SandboxId_from_str s = Some id -> authorised w id h r -> rec_state r = Running ->
  SandboxPath_new (rq_path q) = Ok path ->
  run (rt_read id (MkReadFileRequest path (rq_offset q) (rq_max_bytes q))) (w_runtime w) = (Ok res, x) ->
  run (read_file s h q) w
  = (Ok (MkReadFileResponse (base64_encode (rf_data res)) (length (rf_data res)) (rf_eof res)), set_runtime x w).
Proof.
  intros Hid Ha Hst Hp Hr. unfold read_file, parse_id. rewrite run_bind_ok, Hid. cbn [ok_or of_result run fst snd].
  rewrite run_bind_ok, run_authorize_running. unfold authorize_running_result.
  rewrite (proj2 (authorize_result_ok _ _ _ _) Ha). cbn [result_bind].
  rewrite bool_decide_eq_true_2 by done. cbn [fst snd].
  rewrite run_bind_ok. unfold validation. rewrite Hp. cbn [of_result map_err run fst snd].
  rewrite run_bind_ok, run_runtime_call, Hr. done.
Qed.

Lemma authorised_same (w w' : World) id h r : w_records w' = w_records w -> w_now w' = w_now w ->
  authorised w id h r -> authorised w' id h r.
Proof. unfold authorised. by intros -> ->. Qed.
End Handlers.

(** ** From disk to disk *)
Section RoundTrip.
Context `{U : UuidLib} `{C : CryptoLib} `{HH : HostCommands}.
Context `{J : JsonText} `{D : AxumDefaults} {HC : @HttpClient J}.
Context `{TJ : TemplateJson} `{TF : TempFiles}.
Abbreviation Client := (@Cli.Client U ProcessRuntime).

(** A body over the limit of the JSON extractor gets no further. *)
Lemma write_too_large base id path data token overwrite (c : Client) :
  http_origin base = true -> plain_segment id = true -> visible token = true ->
  (2 * 1024 * 1024 < Z.of_nat (length (rb_body (write_request base id path data token overwrite))))%Z ->
  is_ok (run (send_and_print (write_request base id path data token overwrite)) c).1 = false.
Proof.
  intros Ho Hid Ht Hl. unfold send_and_print. rewrite run_bind_ok. unfold send.
  rewrite (deliver_plain _ base ["v1"; "sandboxes"; id; "files"]);
    [|done|unfold write_request, sandbox_url; url_eq|done|cbn; by rewrite Hid|by intros ? [= <-]].
  match goal with |- context [serve ?x] => set (r := x) end.
  assert (dispatch r = Err PAYLOAD_TOO_LARGE) as Hd.
  { unfold dispatch. destruct (_ <? _)%Z; [done|]. subst r. cbn [in_path in_method rb_method write_request].
    simpl. rewrite (plain_segment_nonempty _ Hid). simpl. unfold extract_json. simpl.
    unfold rb_body in Hl. cbn [rb_json write_request with_json] in Hl.
    rewrite json_body_limit_default. by rewrite (proj2 (Z.ltb_lt _ _) Hl). }
  unfold serve. rewrite Hd, run_bind, run_next_connection. cbn [fst snd].
  by destruct (next c).
Qed.

Definition delivering (c : Client) : Prop := Forall (eq Delivered) (cl_connections c).

Lemma delivering_next c : delivering c -> next c = Delivered /\ Forall (eq Delivered) (tail (cl_connections c)).
Proof. unfold delivering, next. by intros [|x l <- Hl]. Qed.

(** What an upload through the client leaves: the local file is stored under the
    remote path, and the client is as it was but for what it printed. *)
Lemma run_write_command base id sid remote local token overwrite (c c1 : Client) :
  http_origin base = true -> plain_segment id = true -> visible token = true ->
  SandboxId_from_str id = Some sid -> delivering c ->
  run (write_command base id remote local token overwrite) c = (Ok tt, c1) ->
  exists r data path res,
    authorised (cl_server c) sid (token_headers token) r /\ rec_state r = Running
    /\ contents_at (cl_fs c) local = Some data /\ SandboxPath_new remote = Ok path
    /\ run (rt_write sid (MkWriteFileRequest path data overwrite None)) (w_runtime (cl_server c))
       = (Ok res, w_runtime (cl_server c1))
    /\ w_records (cl_server c1) = w_records (cl_server c) /\ w_now (cl_server c1) = w_now (cl_server c)
    /\ fs_same (cl_fs c) (cl_fs c1) /\ delivering c1.
Proof.
  intros Ho Hid Ht Hs Hc. unfold write_command. rewrite run_bind_ok. unfold Cli.local.
  rewrite run_lift, run_map_err. pose proof (run_fs_read (cl_fs c) local) as [Hsame Hdata].
  cbn [view put client_fs]. destruct (run (fs_read local) (cl_fs c)) as [[data|e] fs1]; cbn [fst snd map_err] in *; [|done].
  set (c0 := set_client_fs fs1 c). set (rb := write_request base id remote (base64_encode data) token overwrite).
  destruct (Z.ltb_spec (2 * 1024 * 1024) (Z.of_nat (length (rb_body rb)))) as [Hl|Hl].
  { intros Hrun. pose proof (write_too_large base id remote (base64_encode data) token overwrite c0 Ho Hid Ht Hl) as Hno.
    fold rb in Hno. by rewrite Hrun in Hno. }
  set (command := CliWrite id remote local token overwrite).
  destruct (built_dispatched base (base64_encode data) command rb
    (PUT_files id (token_headers token) (MkWriteFileBody remote (base64_encode data) overwrite None)))
    as (r&Hd&Hr&Hm); [done|done| |].
  { split; [done|]. split; [by cbn; rewrite Hid|]. split; [by intros ? [= <-]|]. by split. }
  unfold send_and_print. rewrite (run_answered rb r _ c0 _ Hd Hr Hm). cbv zeta.
  destruct (delivering_next c Hc) as [Hn Htl]. change (next c0) with (next c). rewrite Hn.
  cbn [router]. unfold reply. rewrite run_fmap. cbn [fst snd].
  destruct (run (write_file id (token_headers token) _) (cl_server c0)) as [[bytes|e] w'] eqn:Hw; [|done].
  cbn [result_map fst snd]. unfold print_json. rewrite run_bind_ok. unfold of_result at 1. cbn [run fst snd].
  destruct (response_json _); [|done].
  intros Heq. apply pair_equal_spec in Heq as [_ <-].
  destruct (write_file_ok _ _ _ _ _ _ _ Hs Hw) as (rec&data'&path&res&Ha&Hst&Hb&Hp&Hrt&Hrec&Hnow).
  cbn [wb_content_base64 wb_path wb_overwrite wb_mode] in *. rewrite base64_roundtrip in Hb. injection Hb as <-.
  exists rec, data, path, res. repeat (split; [done|]). done.
Qed.

(** What a download through the client prints or stores. *)
Lemma run_read_command base id sid remote token output rec path res x (c : Client) :
  http_origin base = true -> plain_segment id = true -> visible token = true ->
  SandboxId_from_str id = Some sid -> delivering c ->
  authorised (cl_server c) sid (token_headers token) rec -> rec_state rec = Running ->
  SandboxPath_new remote = Ok path ->
  run (rt_read sid (MkReadFileRequest path 0 default_file_read_limit)) (w_runtime (cl_server c)) = (Ok res, x) ->
  (Z.of_nat (length (rf_data res)) <= MAX_FILE_BYTES)%Z ->
  run (read_command base id remote token output) c =
  let c1 := after_send (set_runtime x (cl_server c)) c in
  match output with
  | Some p => run (local (LocalWrite p) (fs_write p (String.string_of_list_byte (rf_data res)))) c1
  | None => (Ok tt, set_stdout (cl_stdout c1 ++ [from_utf8_lossy (rf_data res)]) c1)
  end.
Proof.
  intros Ho Hid Ht Hs Hc Ha Hst Hp Hread Hsize. unfold read_command.
  set (rb := read_request base id remote token).
  set (query := MkReadFileQuery remote 0 default_file_read_limit).
  destruct (built_dispatched base "" (CliRead id remote token output) rb (GET_files id (token_headers token) query))
    as (r&Hd&Hr&Hm); [done|done| |].
  { split; [done|]. split; [by cbn; rewrite Hid|]. split; [by intros ? [= <-]|]. split; [done|].
    cbn. by vm_compute. }
  rewrite (run_answered rb r _ c _ Hd Hr Hm). cbv zeta.
  destruct (delivering_next c Hc) as [-> _]. cbn [router]. unfold reply. rewrite run_fmap. cbn [fst snd].
  rewrite (read_file_runs (cl_server c) id sid (token_headers token) rec query path res x Hs Ha Hst Hp Hread).
  cbn [result_map fst snd]. rewrite run_bind_ok. unfold file_content, of_result.
  rewrite (answer_json _ _ (ReadFileResponse_json (MkReadFileResponse (base64_encode (rf_data res))
    (length (rf_data res)) (rf_eof res)))).
  2,3: done.
  2: { unfold exact; cbn. rewrite (proj2 (in_range_spec _ _ _)); [done|]. unfold i64_min, u64_max, MAX_FILE_BYTES in *. lia. }
  cbn [result_bind run fst snd]. simpl. rewrite base64_roundtrip. simpl. by destruct output.
Qed.

Lemma slice_all (data : list Byte.byte) max : (Z.of_nat (length data) <= max)%Z -> slice 0 max data = data.
Proof.
  intros H. unfold slice. destruct (Z.leb_spec (Z.of_nat (length data)) 0).
  - destruct data; [done|]. simpl in *; lia.
  - change (drop (Z.to_nat 0) data) with data. rewrite Z.min_r by done. rewrite Nat2Z.id.
    by rewrite firstn_all.
Qed.

(** C7. A file survives the whole way: when [ferrobox write] succeeds over the
    development runtime and [ferrobox read] of the same path follows it with
    nothing in between, the read prints exactly the bytes of the local file (as
    text), and with [--output] it leaves a file with exactly these bytes, if the
    local disk takes it. The way goes through the request that is built, the
    routes and the extractors, the credentials, the base64 text, the
    confinement of the path and the disk of the host. It is the way of a plain
    http origin, an identifier that is a plain URL segment and a visible token,
    over a network that delivers every request; of a host whose disk has no
    faults to come and whose tree holds regular files, directories and links
    only, with the sandbox's workspace a directory; and of an output path whose
    place on the client's disk is free or an ordinary file. *)
Theorem file_survives_client url id sid remote local token overwrite (c c1 : Client) sb dir k :
  http_origin (trim_end_matches "/" url) = true -> plain_segment id = true -> visible token = true ->
  SandboxId_from_str id = Some sid -> delivering c ->
  let host := w_runtime (cl_server c) in
  pr_sandboxes host !! sid = Some sb -> resolve (pr_fs host) true (ps_workspace sb) = Found dir k ->
  is_dir_at (fs_nodes (pr_fs host)) dir = true -> regular (fs_nodes (pr_fs host)) ->
  fs_faults (pr_fs host) = [] ->
  run (main (MkCli url (CliWrite id remote local token overwrite))) c = (Ok tt, c1) ->
  exists data, contents_at (cl_fs c) local = Some data
  /\ (let '(r, c2) := run (main (MkCli url (CliRead id remote token None))) c1 in
      r = Ok tt /\ cl_stdout c2 = cl_stdout c1 ++ [from_utf8_lossy data])
  /\ forall output c2, ordinary (cl_fs c) output ->
      run (main (MkCli url (CliRead id remote token (Some output)))) c1 = (Ok tt, c2) ->
      contents_at (cl_fs c2) output = Some data.
Proof.
  set (base := trim_end_matches "/" url). intros Ho Hid Ht Hs Hc host Hsb Hdir Hd Hreg Hf Hw.
  subst host. unfold main in *. cbn [cli_api_url cli_command] in *. fold base in Hw |- *.
  destruct (run_write_command base id sid remote local token overwrite c c1 Ho Hid Ht Hs Hc Hw)
    as (r&data&path&res&Ha&Hst&Hdata&Hp&Hrt&Hrec&Hnow&Hfs&Hc1).
  change (rt_write sid ?x) with (write sid x) in Hrt.
  destruct (write_then_read (w_runtime (cl_server c)) sid sb dir k (MkWriteFileRequest path data overwrite None) res
    Hsb Hdir Hd Hreg Hf ltac:(by rewrite Hrt)) as (_&Hread&_&_).
  rewrite Hrt in Hread. cbn [snd] in Hread. specialize (Hread 0%Z default_file_read_limit ltac:(lia)).
  assert (Z.of_nat (length data) <= MAX_FILE_BYTES)%Z as Hlen.
  { unfold write in Hrt. cbn [wf_data] in Hrt. destruct (Z.ltb_spec MAX_FILE_BYTES (Z.of_nat (length data))); [|lia].
    discriminate Hrt. }
  cbv zeta in Hread. cbn [wf_data wf_path] in Hread.
  rewrite slice_all in Hread by (unfold default_file_read_limit, MAX_FILE_BYTES in *; lia).
  destruct (run (read sid (MkReadFileRequest path 0 default_file_read_limit)) (w_runtime (cl_server c1)))
    as [res' x] eqn:Hrun. cbn [fst] in Hread. subst res'.
  pose proof (authorised_same _ _ _ _ _ Hrec Hnow Ha) as Ha1.
  exists data. split; [done|]. split.
  - rewrite (run_read_command base id sid remote token None r path _ x c1 Ho Hid Ht Hs Hc1 Ha1 Hst Hp Hrun Hlen).
    by split.
  - intros output c2 Hord.
    rewrite (run_read_command base id sid remote token (Some output) r path _ x c1 Ho Hid Ht Hs Hc1 Ha1 Hst Hp Hrun Hlen).
    cbv zeta. unfold Cli.local. rewrite run_lift, run_map_err. cbn [rf_data].
    set (c3 := after_send _ c1). change (view c3) with (cl_fs c1).
    destruct (run (fs_write output _) (cl_fs c1)) as [[[]|e] fs'] eqn:Hwr; [|done].
    intros Heq. apply pair_equal_spec in Heq as [_ <-]. cbn [fst snd put client_fs set_client_fs cl_fs].
    apply fs_write_contents in Hwr; [by rewrite String.list_byte_of_string_of_list_byte in Hwr|].
    intros l n. rewrite (same_lookup _ _ _ _ Hfs). apply Hord.
Qed.
End RoundTrip.

(** ** The theorem at a concrete input

    A client with one file in front of the development runtime, which has one
    sandbox. *)
Definition client_fs_before : Fs :=
  MkFs {[ ["tmp"] := MkNode Dir 16877 0; ["tmp"; "a"] := MkNode (File [Byte.x68; Byte.x69]) 33188 0 ]} [] 0 [].
Definition example_uploader : @Client string_uuid ProcessRuntime :=
  MkClient process_created [] client_fs_before [].
Definition example_upload_command : Command :=
  CliWrite "0" "/home/sandbox/notes" (Path_of_string "/tmp/a") (plaintext_of 0) false.

Lemma process_created_regular : regular (fs_nodes (pr_fs (w_runtime process_created))).
Proof.
  assert (Forall (fun kv => n_kind kv.2 <> Special) (map_to_list (fs_nodes (pr_fs (w_runtime process_created)))))
    as Hall by (vm_compute; repeat constructor; discriminate).
  intros l n Hn%elem_of_map_to_list. rewrite Forall_forall in Hall. by apply (Hall (l, n)).
Qed.

Lemma file_survives_client_witness :
  exists c1, (run (main (MkCli DEFAULT_URL example_upload_command)) example_uploader) = (Ok tt, c1)
  /\ (run (main (MkCli DEFAULT_URL (CliRead "0" "/home/sandbox/notes" (plaintext_of 0) None))) c1).1 = Ok tt
  /\ cl_stdout (run (main (MkCli DEFAULT_URL (CliRead "0" "/home/sandbox/notes" (plaintext_of 0) None))) c1).2
     = cl_stdout c1 ++ ["hi"].
Proof.
  assert ((run (main (MkCli DEFAULT_URL example_upload_command)) example_uploader).1 = Ok tt) as Hok
    by (vm_compute; reflexivity).
  destruct (run (main (MkCli DEFAULT_URL example_upload_command)) example_uploader) as [r c1] eqn:Hw.
  cbn [fst] in Hok. subst r. exists c1. split; [reflexivity|].
  destruct (file_survives_client DEFAULT_URL "0" example_sandbox "/home/sandbox/notes" (Path_of_string "/tmp/a")
    (plaintext_of 0) false example_uploader c1 (MkProcessSandbox example_workspace Running) example_dir 40)
    as (data&Hdata&Hread&_); [reflexivity|reflexivity|reflexivity|reflexivity|constructor|..].
  - vm_compute. reflexivity.
  - vm_compute. reflexivity.
  - vm_compute. reflexivity.
  - exact process_created_regular.
  - vm_compute. reflexivity.
  - exact Hw.
  - vm_compute in Hdata. injection Hdata as <-. revert Hread.
    destruct (run (main (MkCli DEFAULT_URL (CliRead _ _ _ None))) c1) as [r c2]. intros [Hr Hout]. by split.
Defined.
