(* ===== verification/ApiMain.v ===== *)
(** * Starting the control plane

    Models [crates/ferrobox-api/src/main.rs]: the choice of a backend, the
    refusals, the state that the server starts with, and the task that keeps the
    ready pool filled. A start that fails ends the process, so the host it leaves
    is not followed. *)
From S2P Require Import Prelude Conc Fs FsOps Utf8 Commands Inet GuestOutput Guest.
From S2P Require Import Machines Network Rootfs Template TemplateRuntime Snapshot Core Firecracker FirecrackerOps.
From S2P Require Import ProcessRuntime Api.
From S2P Require Import Instances TemplateProps FirecrackerFrame FirecrackerInv FirecrackerPool FirecrackerHost FirecrackerProps.

(** ** Arguments *)

(** [IpAddr] and its [is_loopback]; an IPv6 address is its 128 bits. *)
Inductive IpAddr := V4 (address : Ipv4Addr) | V6 (bits : Z).
Definition is_loopback (ip : IpAddr) : bool :=
  match ip with V4 address => (ip_a address =? 127)%Z | V6 bits => (bits =? 1)%Z end.

Record ListenAddr := MkListenAddr { la_ip : IpAddr; la_port : Z }.

Inductive Backend := BackendFirecracker | BackendProcess.

Record ApiArguments := MkApiArguments {
  aa_backend : Backend;
  aa_listen : ListenAddr;
  aa_audit_log : Path;
  aa_process_root : string;
  aa_unsafe_process_runtime : bool;
  aa_firecracker : option Path;
  aa_jailer : option Path;
  aa_kernel : option Path;
  aa_rootfs : option Path;
  aa_template_store : option Path;
  aa_snapshot_root : option Path;
  aa_ready_pool_size : nat;
  aa_chroot_base : Path;
  aa_runtime_root : Path;
  aa_jail_uid : Z;
  aa_jail_gid : Z;
}.

(** What [anyhow::Error] holds here. *)
Inductive StartError :=
| StartBail (message : string)
| StartRuntime (error : RuntimeError)
| StartIo (error : IoError).

Definition required (value : option Path) (flag : string) : result Path StartError :=
  ok_or (StartBail (flag +:+ " is required for Firecracker backend")) value.

Definition firecracker_config (arguments : ApiArguments) : result FirecrackerRuntimeConfig StartError :=
  (let? firecracker := required (aa_firecracker arguments) "--firecracker" in
   let? jailer := required (aa_jailer arguments) "--jailer" in
   let? kernel := required (aa_kernel arguments) "--kernel" in
   let? rootfs := required (aa_rootfs arguments) "--rootfs" in
   Ok (MkFirecrackerRuntimeConfig firecracker jailer kernel rootfs (aa_template_store arguments)
     (aa_snapshot_root arguments) (aa_chroot_base arguments) (aa_runtime_root arguments)
     (aa_jail_uid arguments) (aa_jail_gid arguments) 5000 (millis 5000) (millis 30000) "local-kvm"))%result.

Definition pool_spec : SandboxSpec := MkSandboxSpec "python" 1 512 300 Disabled.

(** ** The server *)

Section Start.
Context `{U : UuidLib} `{C : CryptoLib} `{TJ : TemplateJson} {SJ : ManifestJson}.
Context `{H : HostPrograms} `{N : NetHost} `{M : Machines} `{AJ : ApiJson}.

(** [AuditLog::open], which [AppState::new] calls for the directory. *)
Definition AuditLog_open (path : Path) : prog Fs (result unit IoError) :=
  match parent path with
  | Some up => create_dir_all up
  | None => ok tt
  end.

(** [AppState::new] on a runtime: no sandbox and no snapshot on record. *)
Definition AppState_new {R} `{!Lens R Fs} (runtime : R) (audit_log : Path) (clock unix_ms : Z) : result (@World U R) StartError :=
  let opened := run (lift (AuditLog_open audit_log)) runtime in
  result_map (fun _ => MkWorld opened.2 ∅ ∅ [] [] [] clock unix_ms 0) (map_err StartIo opened.1).

(** The host of the process: its network with the files, its machines, the
    clocks in milliseconds, and which addresses [TcpListener::bind] can take. *)
Record ApiHost := MkApiHost {
  ah_net : NetState;
  ah_vms : Vms;
  ah_now : Z;
  ah_unix_ms : Z;
  ah_bind : ListenAddr -> result unit IoError;
}.

Record Server (R : Type) := MkServer { sv_address : ListenAddr; sv_state : @World U R }.
#[global] Arguments MkServer {R}.
#[global] Arguments sv_address {R}.
#[global] Arguments sv_state {R}.

(** A server and, with the microVM runtime, the size of the ready pool that a
    task maintains. *)
Inductive Started :=
| ServesProcess (server : Server ProcessRuntime)
| ServesFirecracker (server : Server FirecrackerRuntime) (maintained : option nat).

Definition bind_server {R} (arguments : ApiArguments) (host : ApiHost) (state : @World U R) : result (Server R) StartError :=
  (let? _ := map_err StartIo (ah_bind host (aa_listen arguments)) in Ok (MkServer (aa_listen arguments) state))%result.

Definition start_process_backend (arguments : ApiArguments) (host : ApiHost) : result ProcessRuntime StartError :=
  if negb (aa_unsafe_process_runtime arguments)
  then Err (StartBail "process backend requires --unsafe-process-runtime")
  else if negb (is_loopback (la_ip (aa_listen arguments)))
  then Err (StartBail "process backend may bind only to loopback")
  else map_err StartRuntime (ProcessRuntime_new (aa_process_root arguments) (nt_fs (ah_net host)) (ah_now host)).

Definition start_firecracker_backend (arch : string) (arguments : ApiArguments) (host : ApiHost) :
  result FirecrackerRuntime StartError :=
  (let? config := firecracker_config arguments in
   let? runtime := map_err StartRuntime (FirecrackerRuntime_new arch config (ah_net host) (ah_vms host)) in
   if 0 <? aa_ready_pool_size arguments then
     let prepared := run (prewarm pool_spec (aa_ready_pool_size arguments)) runtime in
     let? _ := map_err StartRuntime prepared.1 in
     Ok prepared.2
   else Ok runtime)%result.

(** [main], up to [axum::serve]. *)
Definition start (arch : string) (arguments : ApiArguments) (host : ApiHost) : result Started StartError :=
  (match aa_backend arguments with
   | BackendProcess =>
       let? runtime := start_process_backend arguments host in
       let? state := AppState_new runtime (aa_audit_log arguments) (ah_now host) (ah_unix_ms host) in
       let? server := bind_server arguments host state in
       Ok (ServesProcess server)
   | BackendFirecracker =>
       let? runtime := start_firecracker_backend arch arguments host in
       let? state := AppState_new runtime (aa_audit_log arguments) (ah_now host) (ah_unix_ms host) in
       let? server := bind_server arguments host state in
       Ok (ServesFirecracker server
         (if 0 <? aa_ready_pool_size arguments then Some (aa_ready_pool_size arguments) else None))
   end)%result.

(** ** Keeping the ready pool filled

    The loop of the maintaining task, as the point that it has reached between
    two of its [await]s and what it does from there to the next. It has no
    point at which it ends. *)
Inductive Maintainer :=
| Counting
| Replenishing (missing : nat)
| Sleeping (duration : Z).

Definition maintainer_turn (target_size : nat) (m : Maintainer) : prog FirecrackerRuntime Maintainer :=
  match m with
  | Counting =>
      (do size <- ready_pool_len ;;
       let missing := target_size - size in
       Ret (if 0 <? missing then Replenishing missing else Sleeping (millis 10)))%prog
  | Replenishing missing =>
      (do prepared <- prewarm pool_spec missing ;;
       Ret (match prepared with Ok _ => Sleeping (millis 10) | Err _ => Sleeping (millis 1000) end))%prog
  | Sleeping duration =>
      (do _ <- outside (act (sleep_for duration)) ;; Ret Counting)%prog
  end.

(** What happens on a server: turns of the task and calls of its clients. *)
Inductive Event := Turn | Request (c : Call).

Record Served := MkServed { sv_task : Maintainer; sv_runtime : FirecrackerRuntime }.

Definition event (target_size : nat) (e : Event) (s : Served) : Served :=
  match e with
  | Turn => let outcome := run (maintainer_turn target_size (sv_task s)) (sv_runtime s) in MkServed outcome.1 outcome.2
  | Request c => MkServed (sv_task s) (run (call c) (sv_runtime s)).2
  end.

(** The state before the [n]-th event of an endless schedule; the task was
    spawned to begin its loop. *)
Fixpoint served_at (target_size : nat) (schedule : nat -> Event) (s : FirecrackerRuntime) (n : nat) : Served :=
  match n with
  | O => MkServed Counting s
  | S m => event target_size (schedule m) (served_at target_size schedule s m)
  end.

(** The [n]-th event is a turn in which the task tries to fill what is missing
    and fails: the error that the source logs. *)
Definition fails (target_size : nat) (schedule : nat -> Event) (s : FirecrackerRuntime) (n : nat) : Prop :=
  let now := served_at target_size schedule s n in
  schedule n = Turn /\ exists missing e, sv_task now = Replenishing missing
    /\ (run (prewarm pool_spec missing) (sv_runtime now)).1 = Err e.

(** ** Lemmas *)

Context `{!ProcessLaws}.

(** Only a creation takes from the pool, and it takes one. *)
Definition takes (e : Event) : nat := match e with Request (CallCreate _) => 1 | _ => 0 end.

Lemma call_pool c s : pool_size s <= pool_size (run (call c) s).2 + takes (Request c).
Proof.
  enough (evolves s (run (call c) s).2 \/ length (run (call c) s).1 <= takes (Request c)) as [He|Hl].
  - unfold pool_size. rewrite (ev_pool _ _ He). lia.
  - destruct (hands_out_call c s) as [_ _ (fresh&_&Hp)]. apply Permutation_length in Hp. rewrite !length_app in Hp.
    unfold pool_size. lia.
  - destruct (plain c) eqn:Hc; [left; by apply call_plain|]. destruct c; try discriminate Hc.
    + right. cbn [call takes]. rewrite run_fmap. cbn [fst]. destruct (run _ s) as [[h|e] s']; cbn; lia.
    + left. apply call_restore.
    + left. apply call_clone.
    + right. cbn [call]. unfold quietly. rewrite run_fmap. cbn. lia.
Qed.

(** A call of the runtime contract does not add to the pool. *)
Definition warms (e : Event) : bool := match e with Request (CallPrewarm _ _) => true | _ => false end.

Lemma call_pool_le c s : warms (Request c) = false -> pool_size (run (call c) s).2 <= pool_size s.
Proof.
  intros Hw. enough (evolves s (run (call c) s).2 \/ pool_size (run (call c) s).2 <= pool_size s) as [He|Hl]; [|done|].
  { unfold pool_size. rewrite (ev_pool _ _ He). lia. }
  destruct (plain c) eqn:Hc; [left; by apply call_plain|]. destruct c; try discriminate Hc; try discriminate Hw.
  - right. cbn [call]. rewrite run_fmap. cbn [snd]. apply pool_create.
  - left. apply call_restore.
  - left. apply call_clone.
Qed.

(** A turn takes nothing away; it adds what is missing when it fills. *)
Lemma turn_pool target_size m s :
  let outcome := run (maintainer_turn target_size m) s in
  pool_size s <= pool_size outcome.2
  /\ pool_size outcome.2 <= pool_size s + (match m with Replenishing missing => missing | _ => 0 end).
Proof.
  destruct m as [|missing|d]; cbv zeta; cbn [maintainer_turn]; rewrite run_bind.
  - cbn. lia.
  - pose proof (prewarm_size pool_spec missing s) as Hp.
    destruct (run (prewarm pool_spec missing) s) as [[samples|e] s']; cbn [fst snd run]; lia.
  - cbn [run snd]. rewrite pool_outside. lia.
Qed.

Lemma event_pool target_size e s :
  pool_size (sv_runtime s) <= pool_size (sv_runtime (event target_size e s)) + takes e.
Proof.
  destruct e as [|c]; cbn [event sv_runtime]; [|apply call_pool].
  pose proof (turn_pool target_size (sv_task s) (sv_runtime s)) as [Ht _]. cbn [takes]. lia.
Qed.

(** The creations among the events from [n] on, [k] of them. *)
Fixpoint taken (schedule : nat -> Event) (n k : nat) : nat :=
  match k with O => 0 | S k => taken schedule n k + takes (schedule (n + k)) end.

Section Schedule.
Context (target_size : nat) (schedule : nat -> Event) (s : FirecrackerRuntime).

Definition at_event (n : nat) : Served := served_at target_size schedule s n.
Definition pool_at (n : nat) : nat := pool_size (sv_runtime (at_event n)).
Definition task_at (n : nat) : Maintainer := sv_task (at_event n).

Lemma schedule_pool n k : pool_at n <= pool_at (n + k) + taken schedule n k.
Proof.
  induction k as [|k IH]; [cbn [taken]; rewrite !Nat.add_0_r; done|].
  rewrite Nat.add_succ_r. cbn [taken]. unfold pool_at, at_event in *. cbn [served_at].
  pose proof (event_pool target_size (schedule (n + k)) (served_at target_size schedule s (n + k))). lia.
Qed.

(** The first turn from [n] on; until then the task stays where it is. *)
Lemma next_turn n k : schedule (n + k) = Turn -> exists m, n <= m <= n + k /\ schedule m = Turn /\ task_at m = task_at n.
Proof.
  revert n. induction k as [|k IH]; intros n Hk.
  - exists n. rewrite Nat.add_0_r in Hk. by split; [lia|].
  - destruct (schedule n) as [|c] eqn:Hn; [exists n; by split; [lia|]|].
    rewrite Nat.add_succ_r in Hk. destruct (IH (S n) Hk) as (m&Hm&Ht&Htask). exists m. split; [lia|]. split; [done|].
    rewrite Htask. unfold task_at, at_event. cbn [served_at]. by rewrite Hn.
Qed.

Lemma task_turns m : schedule m = Turn -> task_at (S m) = (run (maintainer_turn target_size (task_at m)) (sv_runtime (at_event m))).1.
Proof. intros Hm. unfold task_at, at_event. cbn [served_at]. by rewrite Hm. Qed.

Lemma pool_turns m : schedule m = Turn -> pool_at (S m) = pool_size (run (maintainer_turn target_size (task_at m)) (sv_runtime (at_event m))).2.
Proof. intros Hm. unfold pool_at, at_event. cbn [served_at]. by rewrite Hm. Qed.

Context (Hfair : forall n, exists m, n <= m /\ schedule m = Turn).

Lemma fair_turn n : exists m, n <= m /\ schedule m = Turn /\ task_at m = task_at n.
Proof.
  destruct (Hfair n) as (m&Hle&Hm). replace m with (n + (m - n)) in Hm by lia.
  destruct (next_turn n (m - n) Hm) as (m'&[? _]&?&?). by exists m'.
Qed.

(** A task that sleeps counts again. *)
Lemma sleeper_counts n d : task_at n = Sleeping d -> exists m, n <= m /\ task_at m = Counting.
Proof.
  intros Hn. destruct (fair_turn n) as (m&Hle&Hm&Ht). exists (S m). split; [lia|].
  rewrite (task_turns m Hm), Ht, Hn. cbn [maintainer_turn]. by rewrite run_bind.
Qed.

(** Whatever the task is at, it counts again: an error does not end the loop. *)
Lemma task_counts n : exists c, n <= c /\ schedule c = Turn /\ task_at c = Counting.
Proof.
  enough (exists m, n <= m /\ task_at m = Counting) as (m&Hle&Hm).
  { destruct (fair_turn m) as (c&?&?&Hc). exists c. split; [lia|]. by rewrite Hc. }
  destruct (task_at n) as [|missing|d] eqn:Hn; [by exists n| |by apply (sleeper_counts n d)].
  destruct (fair_turn n) as (m&Hle&Hm&Ht).
  assert (exists d, task_at (S m) = Sleeping d) as [d Hd].
  { rewrite (task_turns m Hm), Ht, Hn. cbn [maintainer_turn]. rewrite run_bind. cbn [run fst].
    destruct (run (prewarm pool_spec missing) _).1; by eexists. }
  destruct (sleeper_counts (S m) d Hd) as (c&?&?). exists c. by split; [lia|].
Qed.

(** From one count to the end of what it leads to. *)
Lemma counted_fills c : schedule c = Turn -> task_at c = Counting ->
  exists m, c <= m /\ (target_size <= pool_at m + taken schedule c (m - c) \/ fails target_size schedule s m).
Proof.
  intros Hturn Hc. destruct (decide (target_size <= pool_at c)) as [Hfull|Hmiss].
  { exists c. split; [lia|]. left. lia. }
  assert (task_at (S c) = Replenishing (target_size - pool_at c)) as Hr.
  { rewrite (task_turns c Hturn), Hc. cbn [maintainer_turn]. rewrite run_bind. cbn [run ready_pool_len gets act fst snd].
    fold (pool_size (sv_runtime (at_event c))). fold (pool_at c).
    assert ((0 <? target_size - pool_at c) = true) as -> by (apply Nat.ltb_lt; lia). done. }
  destruct (fair_turn (S c)) as (m&Hle&Hm&Ht). rewrite Hr in Ht.
  pose proof (prewarm_size pool_spec (target_size - pool_at c) (sv_runtime (at_event m))) as Hp.
  destruct (run (prewarm pool_spec (target_size - pool_at c)) (sv_runtime (at_event m))) as [[samples|e] s'] eqn:Hrun.
  - exists (S m). split; [lia|]. left. rewrite (pool_turns m Hm), Ht. cbn [maintainer_turn]. rewrite run_bind, Hrun.
    cbn [run fst snd]. destruct Hp as [_ ->]. fold (pool_at m).
    pose proof (schedule_pool c (m - c)) as Hs. replace (c + (m - c)) with m in Hs by lia.
    replace (S m - c) with (S (m - c)) by lia. cbn [taken]. lia.
  - exists m. split; [lia|]. right. split; [done|]. exists (target_size - pool_at c), e. split; [done|].
    fold (at_event m). by rewrite Hrun.
Qed.

(** The pool never holds more than the target, or than it held at first. *)
Lemma pool_bounded n : (forall k, warms (schedule k) = false) ->
  pool_at n + (match task_at n with Replenishing missing => missing | _ => 0 end) <= Nat.max target_size (pool_size s).
Proof.
  unfold pool_at, task_at, at_event. intros Hw. induction n as [|n IH]; cbn [served_at]; [cbn [sv_task sv_runtime]; lia|].
  set (now := served_at target_size schedule s n) in *. specialize (Hw n). destruct (schedule n) as [|c]; cbn [event sv_runtime sv_task].
  - destruct (turn_pool target_size (sv_task now) (sv_runtime now)) as [_ Ht].
    destruct (sv_task now) as [|missing|d]; cbn [maintainer_turn] in *; rewrite run_bind in *; cbn [run ready_pool_len gets act fst snd] in *.
    + fold (pool_size (sv_runtime now)). destruct (0 <? target_size - pool_size (sv_runtime now)) eqn:Hm; [apply Nat.ltb_lt in Hm|]; lia.
    + destruct (run (prewarm pool_spec missing) (sv_runtime now)) as [[samples|e] s']; cbn [fst snd] in *; lia.
    + lia.
  - pose proof (call_pool_le c (sv_runtime now) Hw). lia.
Qed.
End Schedule.


(** ** What a start comes to *)

Lemma AppState_new_ok {R} `{!Lens R Fs} (runtime : R) audit_log clock unix_ms state :
  AppState_new runtime audit_log clock unix_ms = Ok state ->
  w_runtime state = (run (lift (AuditLog_open audit_log)) runtime).2
  /\ w_records state = ∅ /\ w_snapshots state = ∅ /\ w_audit state = [].
Proof.
  unfold AppState_new. cbv zeta. destruct (run (lift _) runtime) as [[[]|e] runtime']; cbn; [|done]. by intros [= <-].
Qed.

Lemma bind_server_ok {R} arguments host (state : @World U R) server :
  bind_server arguments host state = Ok server -> server = MkServer (aa_listen arguments) state
  /\ ah_bind host (aa_listen arguments) = Ok tt.
Proof. unfold bind_server. destruct (ah_bind _ _) as [[]|e]; cbn; [|done]. by intros [= <-]. Qed.

(** A server over the development runtime. *)
Lemma process_start arch arguments host server :
  start arch arguments host = Ok (ServesProcess server) ->
  aa_backend arguments = BackendProcess /\ aa_unsafe_process_runtime arguments = true
  /\ sv_address server = aa_listen arguments /\ is_loopback (la_ip (sv_address server)) = true
  /\ w_records (sv_state server) = ∅ /\ pr_sandboxes (w_runtime (sv_state server)) = ∅.
Proof.
  unfold start. destruct (aa_backend arguments).
  { intros (?&?&Hs)%result_bind_ok. apply result_bind_ok in Hs as (?&?&Hs). by apply result_bind_ok in Hs as (?&?&?). }
  intros (runtime&Hr&Hs)%result_bind_ok. apply result_bind_ok in Hs as (state&Ha&Hs).
  apply result_bind_ok in Hs as (server'&Hb&[= <-]). apply bind_server_ok in Hb as [-> _].
  apply AppState_new_ok in Ha as (Hw&Hrec&_). unfold start_process_backend in Hr.
  destruct (aa_unsafe_process_runtime arguments); cbn [negb] in Hr; [|done].
  destruct (is_loopback _); cbn [negb] in Hr; [|done]. apply map_err_ok in Hr.
  repeat split; [exact Hrec|]. cbn [sv_state]. rewrite Hw, run_lift. cbn [snd put process_fs set_fs pr_sandboxes].
  unfold ProcessRuntime_new in Hr. destruct (run (create_dir_all _) _) as [[]]; [|done]. by injection Hr as <-.
Qed.

(** The runtime of a start, before the audit log is opened. *)
Lemma firecracker_backend_ok arch arguments host runtime :
  start_firecracker_backend arch arguments host = Ok runtime ->
  exists config fresh, firecracker_config arguments = Ok config
    /\ FirecrackerRuntime_new arch config (ah_net host) (ah_vms host) = Ok fresh
    /\ hands_out [] fresh runtime /\ accounted [] runtime /\ pool_size runtime = aa_ready_pool_size arguments
    /\ (consistent fresh -> housed fresh -> housed runtime).
Proof.
  unfold start_firecracker_backend. intros (config&Hc&Hr)%result_bind_ok. apply result_bind_ok in Hr as (fresh&Hn&Hr).
  apply map_err_ok in Hn. exists config, fresh. split; [done|]. split; [done|].
  assert (pool_size fresh = 0 /\ accounted [] fresh) as [Hempty Hnone].
  { revert Hn. unfold FirecrackerRuntime_new. destruct (run _ (nt_fs _)) as [[store|e] fs]; [|done]. intros [= <-].
    split; [done|]. by intros id [? ?]. }
  destruct (0 <? aa_ready_pool_size arguments) eqn:Hz.
  - cbv zeta in Hr. apply result_bind_ok in Hr as (n&Hp&[= <-]). apply map_err_ok in Hp.
    split; [apply hands_out_prewarm|]. pose proof (prewarm_size pool_spec (aa_ready_pool_size arguments) fresh) as Hs.
    pose proof (accounts_prewarm pool_spec (aa_ready_pool_size arguments) fresh n) as Hacc.
    pose proof (shelters_prewarm pool_spec (aa_ready_pool_size arguments) fresh) as Hshelter.
    destruct (run (prewarm _ _) fresh) as [r s']. cbn [fst snd] in *. subst r. split; [by apply (Hacc s')|]. split; [lia|done].
  - injection Hr as <-. apply Nat.ltb_ge in Hz. split; [by apply hands_out_evolves|]. split; [done|]. split; [lia|done].
Qed.

(** A server over the microVM runtime. *)
Lemma firecracker_start arch arguments host server maintained :
  start arch arguments host = Ok (ServesFirecracker server maintained) ->
  let runtime := w_runtime (sv_state server) in
  (exists firecracker jailer kernel rootfs, aa_firecracker arguments = Some firecracker
     /\ aa_jailer arguments = Some jailer /\ aa_kernel arguments = Some kernel /\ aa_rootfs arguments = Some rootfs)
  /\ sv_address server = aa_listen arguments /\ w_records (sv_state server) = ∅
  /\ pool_size runtime = aa_ready_pool_size arguments
  /\ maintained = (if 0 <? pool_size runtime then Some (pool_size runtime) else None)
  /\ ((forall i, ~ runs processes i (ah_vms host)) -> forall i, alive runtime i ->
        exists handle r record, handle ∈ fr_ready_pool runtime
          /\ record_at runtime (sh_sandbox_id handle) r record /\ fx_jailer_id record = i).
Proof.
  unfold start. destruct (aa_backend arguments).
  2: { intros (?&?&Hs)%result_bind_ok. apply result_bind_ok in Hs as (?&?&Hs). by apply result_bind_ok in Hs as (?&?&?). }
  intros (runtime&Hr&Hs)%result_bind_ok. apply result_bind_ok in Hs as (state&Ha&Hs).
  apply result_bind_ok in Hs as (server'&Hb&[= <- Hm]). apply bind_server_ok in Hb as [-> _].
  apply AppState_new_ok in Ha as (Hw&Hrec&_). apply firecracker_backend_ok in Hr as (config&fresh&Hc&Hn&Ho&Hacc&Hp&Hshelter).
  cbn [sv_state sv_address]. cbv zeta. rewrite Hw.
  assert (evolves runtime (run (lift (AuditLog_open (aa_audit_log arguments))) runtime).2) as He
    by apply evolves_framed, framed_files.
  unfold pool_size. rewrite (ev_pool _ _ He). fold (pool_size runtime). rewrite Hp.
  split; [|split; [done|split; [done|split; [done|split; [done|]]]]].
  - unfold firecracker_config, required in Hc. destruct (aa_firecracker arguments), (aa_jailer arguments), (aa_kernel arguments),
      (aa_rootfs arguments); try discriminate Hc. eauto 10.
  - intros Hnone i Hi. set (opened := (run (lift _) runtime).2) in *.
    destruct (started_empty arch config (ah_net host) (ah_vms host) fresh) as [Hco _]; [by split|].
    assert (fr_vms fresh = ah_vms host) as Hvms.
    { revert Hn. unfold FirecrackerRuntime_new. destruct (run _ (nt_fs _)) as [[store|e] fs]; [|done]. by intros [= <-]. }
    assert (housed fresh) as Hempty by (intros j Hj; unfold alive in Hj; rewrite Hvms in Hj; by destruct (Hnone j)).
    assert (framed runtime opened) as Hf by apply framed_files.
    destruct (housed_framed _ _ Hf (Hshelter Hco Hempty) i Hi) as (id&r&record&Hat&Hid).
    pose proof (accounted_framed [] runtime opened Hf Hacc) as Hacc'.
    destruct (proj1 (list_elem_of_fmap _ _ _) (Hacc' id ltac:(eexists; apply Hat))) as (handle&->&Hin).
    rewrite (ev_pool _ _ He) in Hin. by exists handle, r, record.
Qed.

(** C16. A server starts as it should or not at all. The development runtime,
    which isolates nothing, is served only when it was asked for with the flag
    that accepts it, and only on a loopback address. A server over the microVM
    runtime was given the four programs and images, and its ready pool holds
    exactly as many sandboxes as it was asked to keep, with a task that maintains
    that number unless it is none. Neither has a record, and on a host without
    machines every machine that runs after the start belongs to a sandbox of the
    pool. *)
Theorem start_is_guarded arch arguments host :
  match start arch arguments host with
  | Ok (ServesProcess server) =>
      aa_backend arguments = BackendProcess /\ aa_unsafe_process_runtime arguments = true
      /\ sv_address server = aa_listen arguments /\ is_loopback (la_ip (sv_address server)) = true
      /\ w_records (sv_state server) = ∅ /\ pr_sandboxes (w_runtime (sv_state server)) = ∅
  | Ok (ServesFirecracker server maintained) =>
      let runtime := w_runtime (sv_state server) in
      (exists firecracker jailer kernel rootfs, aa_firecracker arguments = Some firecracker
         /\ aa_jailer arguments = Some jailer /\ aa_kernel arguments = Some kernel /\ aa_rootfs arguments = Some rootfs)
      /\ sv_address server = aa_listen arguments /\ w_records (sv_state server) = ∅
      /\ pool_size runtime = aa_ready_pool_size arguments
      /\ maintained = (if 0 <? pool_size runtime then Some (pool_size runtime) else None)
      /\ ((forall i, ~ runs processes i (ah_vms host)) -> forall i, alive runtime i ->
            exists handle r record, handle ∈ fr_ready_pool runtime
              /\ record_at runtime (sh_sandbox_id handle) r record /\ fx_jailer_id record = i)
  | Err _ => True
  end.
Proof.
  destruct (start arch arguments host) as [[server|server maintained]|e] eqn:Hs; [|  |done].
  - by apply (process_start arch arguments host server).
  - by apply (firecracker_start arch arguments host server maintained).
Qed.
End Start.

(** ** At concrete inputs *)

Definition loopback : ListenAddr := MkListenAddr (V4 (MkIpv4 127 0 0 1)) 8080.
Definition server_host (capacity : nat) : ApiHost :=
  MkApiHost (MkNetState host_tree []) (host_vms capacity) 0 0 (fun _ => Ok tt).
Definition server_arguments (backend : Backend) (pool : nat) : ApiArguments :=
  let p := Path_of_string in
  MkApiArguments backend loopback (p "/run/audit/events.jsonl") "/run/process" true
    (Some (p "/bin/firecracker")) (Some (p "/bin/jailer")) (Some (p "/img/kernel")) (Some (p "/img/rootfs"))
    None None pool (p "/jail") (p "/run") 1000 1000.

Definition firecracker_server (s : Started) : option (Server FirecrackerRuntime * option nat) :=
  match s with ServesFirecracker server maintained => Some (server, maintained) | _ => None end.

Lemma start_is_guarded_witness :
  exists server, start "x86_64" (server_arguments BackendFirecracker 2) (server_host 4) = Ok (ServesFirecracker server (Some 2))
    /\ pool_size (w_runtime (sv_state server)) = 2
    /\ forall i, alive (w_runtime (sv_state server)) i -> exists handle, handle ∈ fr_ready_pool (w_runtime (sv_state server)).
Proof.
  assert (result_map (fun s => snd <$> firecracker_server s)
    (start "x86_64" (server_arguments BackendFirecracker 2) (server_host 4)) = Ok (Some (Some 2))) as Hs
    by (vm_compute; reflexivity).
  pose proof (start_is_guarded "x86_64" (server_arguments BackendFirecracker 2) (server_host 4)) as Hg. revert Hs Hg.
  destruct (start _ _ _) as [[server|server m]|e]; intros Hs Hg; try discriminate Hs. injection Hs as ->.
  exists server. split; [reflexivity|]. destruct Hg as (_&_&_&Hp&_&Hi). split; [exact Hp|]. intros i Hal.
  destruct (Hi (host_vms_idle 4) i Hal) as (handle&_&_&Hin&_). by exists handle.
Defined.

