(* ===== verification/NodeMain.v ===== *)
(** * The node's own commands

    Models [crates/ferrobox-node/src/main.rs]: the check of the host, the run of a
    template in a sandbox, and the benchmark, each a program over a microVM runtime
    and the text it prints. *)
From S2P Require Import Prelude Conc Fs FsOps Utf8 Commands Inet GuestOutput Guest.
From S2P Require Import Machines Network Rootfs Template TemplateRuntime Snapshot Core Firecracker FirecrackerOps.
From S2P Require Import FirecrackerMeasure Http.

(** ** Arguments *)

Record RuntimeArgs := MkRuntimeArgs {
  ra_firecracker : Path;
  ra_jailer : Path;
  ra_kernel : Path;
  ra_rootfs : Path;
  ra_template_store : option Path;
  ra_snapshot_root : option Path;
  ra_chroot_base : Path;
  ra_runtime_root : Path;
  ra_jail_uid : Z;
  ra_jail_gid : Z;
}.

Definition node_config (self : RuntimeArgs) : FirecrackerRuntimeConfig :=
  MkFirecrackerRuntimeConfig (ra_firecracker self) (ra_jailer self) (ra_kernel self) (ra_rootfs self)
    (ra_template_store self) (ra_snapshot_root self) (ra_chroot_base self) (ra_runtime_root self)
    (ra_jail_uid self) (ra_jail_gid self) 5000 (millis 5000) (millis 30000) "local-kvm".

Inductive NodeCommand :=
| NodeCheck (runtime : RuntimeArgs)
| NodeBenchmark (create_iterations exec_iterations python_iterations file_iterations : nat) (runtime : RuntimeArgs)
| NodeRunTemplate (template : string) (internet : bool) (runtime : RuntimeArgs).

(** What [anyhow::Error] holds here, and the panics of [expect] and of an index
    out of range. *)
Inductive NodeError :=
| NodeBail (message : string)
| NodeRuntime (error : RuntimeError)
| NodeIo (error : IoError)
| NodePanic.

(** ** Percentiles *)

(** The nearest rank in a sorted slice; [None] is the panic on an empty one. *)
Definition rank (len percentile : nat) : nat := (len * percentile + 99) / 100.
Definition percentile (sorted : list Z) (percentile : nat) : option Z :=
  match length sorted with
  | O => None
  | S last => sorted !! Nat.min (rank (S last) percentile - 1) last
  end.

Example nearest_rank_p95_is_conservative_for_five_samples : percentile [1; 2; 3; 4; 5]%Z 95 = Some 5%Z.
Proof. reflexivity. Qed.
Example nearest_rank_p95_selects_nineteenth_of_twenty : percentile (Z.of_nat <$> seq 1 20) 95 = Some 19%Z.
Proof. reflexivity. Qed.

(** [sort_unstable] of integers. *)
Definition sort_unstable (samples : list Z) : list Z := merge_sort Z.le samples.

(** [u128::from(n).saturating_mul(1_000_000_000).checked_div(us).unwrap_or_default()] *)
Definition throughput (iterations : nat) (total_us : Z) : Z :=
  if (total_us =? 0)%Z then 0 else (saturating_mul u128_max (Z.of_nat iterations) 1000000000 / total_us)%Z.

(** ** Requests *)

Definition benchmark_spec : SandboxSpec := MkSandboxSpec "python" 1 512 300 Disabled.
Definition exec_request (argv : list string) : ExecRequest :=
  MkExecRequest argv SandboxPath_workspace ∅ 30 (1024 * 1024).
Definition true_argv : list string := ["/bin/true"].
Definition python_argv : list string := ["python3"; "-c"; "print(42)"].
Definition file_command : list string :=
  ["python3"; "-c"; "from pathlib import Path; p=Path('/tmp/ferrobox-bench.bin'); data=b'x'*1048576; p.write_bytes(data); assert p.read_bytes()==data; p.unlink()"].

Definition template_spec (template : string) (internet : bool) : SandboxSpec :=
  MkSandboxSpec template 1 512 300 (if internet then Internet else Disabled).

(** The script that checks the network from inside. *)
Definition NL : string := String newline "".
Definition network_script : string :=
  "import socket, sys, urllib.request; "
  +:+ "resolver=open('/etc/resolv.conf').read().strip(); "
  +:+ "route=open('/proc/net/route').read().strip(); "
  +:+ "assert resolver.startswith('nameserver 10.200.'); "
  +:+ "dns=resolver.split()[1]; "
  +:+ NL +:+ "try: response=urllib.request.urlopen('https://example.com', timeout=10)"
  +:+ NL +:+ "except Exception:"
  +:+ NL +:+ " print('resolv.conf=' + resolver, file=sys.stderr, flush=True)"
  +:+ NL +:+ " print('route=' + route, file=sys.stderr, flush=True)"
  +:+ NL +:+ " print('addresses=' + repr(socket.getaddrinfo('example.com', 443)), file=sys.stderr, flush=True)"
  +:+ NL +:+ " raise"
  +:+ NL +:+ "assert response.status == 200; "
  +:+ "query=bytes.fromhex('123401000001000000000000076578616d706c6503636f6d0000010001'); "
  +:+ "tcp=socket.create_connection((dns, 53), timeout=2); "
  +:+ "tcp.sendall(len(query).to_bytes(2, 'big') + query); "
  +:+ "reader=tcp.makefile('rb'); "
  +:+ "answer_length=int.from_bytes(reader.read(2), 'big'); "
  +:+ "answer=reader.read(answer_length); tcp.close(); "
  +:+ "assert len(answer) == answer_length and answer[:2] == query[:2] and answer[2] & 128; "
  +:+ "s=socket.socket(); s.settimeout(2); "
  +:+ "blocked=False; "
  +:+ NL +:+ "try: s.connect(('169.254.169.254', 80))"
  +:+ NL +:+ "except OSError: blocked=True"
  +:+ NL +:+ "assert blocked; print('internet=ok')".
Definition network_argv : list string := ["python3"; "-c"; network_script].

Definition ensure_exit_success (result : ExecResult) : Prelude.result unit NodeError :=
  if bool_decide (er_termination result = Exited 0) then Ok tt
  else Err (NodeBail ("guest command failed: " +:+ ExecTermination_debug (er_termination result)
    +:+ ": stdout=" +:+ from_utf8_lossy (er_stdout result) +:+ " stderr=" +:+ from_utf8_lossy (er_stderr result))).

(** ** Runs *)

Record BenchmarkExecutionTimings := MkBenchmarkExecutionTimings {
  bt_validation_us : Z; bt_guest_lookup_us : Z; bt_start_rpc_us : Z; bt_stream_us : Z; bt_total_us : Z }.

(** A sorted series with its two percentiles. *)
Record Series := MkSeries { se_us : list Z; se_p50_us : Z; se_p95_us : Z }.

Record BenchmarkResult := MkBenchmarkResult {
  bm_pool_prepare : Series;
  bm_pool_firecracker_rss_kib : Z;
  bm_pool_size : nat;
  bm_create_to_ready : Series;
  bm_guest_lookup : Series;
  bm_exec_true : Series;
  bm_exec_true_timings : list BenchmarkExecutionTimings;
  bm_raw_guest_true : Series;
  bm_exec_true_total_us : Z;
  bm_exec_true_throughput : Z;
  bm_exec_python : Series;
  bm_exec_python_total_us : Z;
  bm_exec_python_throughput : Z;
  bm_exec_file_roundtrip : Series;
  bm_exec_file_roundtrip_total_us : Z;
  bm_exec_file_roundtrip_throughput : Z;
  bm_delete : Series;
  bm_total_us : Z;
}.

(** A series that is sorted before its percentiles are taken. *)
Definition series (samples : list Z) : Prelude.result Series NodeError :=
  let sorted := sort_unstable samples in
  match percentile sorted 50, percentile sorted 95 with
  | Some p50, Some p95 => Ok (MkSeries sorted p50 p95)
  | _, _ => Err NodePanic
  end.

Definition JInts (l : list Z) : Value := JArray (map JInt l).
Definition timings_json (t : BenchmarkExecutionTimings) : Value :=
  JObject [("validation_us", JInt (bt_validation_us t)); ("guest_lookup_us", JInt (bt_guest_lookup_us t));
           ("start_rpc_us", JInt (bt_start_rpc_us t)); ("stream_us", JInt (bt_stream_us t));
           ("total_us", JInt (bt_total_us t))].

Definition BenchmarkResult_json (r : BenchmarkResult) : Value :=
  let us s := JInts (se_us s) in
  let p50 s := JInt (se_p50_us s) in
  let p95 s := JInt (se_p95_us s) in
  JObject
    [("schema_version", JInt 11);
     ("pool_prepare_us", us (bm_pool_prepare r)); ("pool_prepare_p50_us", p50 (bm_pool_prepare r));
     ("pool_prepare_p95_us", p95 (bm_pool_prepare r));
     ("pool_firecracker_rss_kib", JInt (bm_pool_firecracker_rss_kib r)); ("pool_size", JInt (Z.of_nat (bm_pool_size r)));
     ("create_to_ready_us", us (bm_create_to_ready r)); ("create_to_ready_p50_us", p50 (bm_create_to_ready r));
     ("create_to_ready_p95_us", p95 (bm_create_to_ready r));
     ("guest_lookup_us", us (bm_guest_lookup r)); ("guest_lookup_p50_us", p50 (bm_guest_lookup r));
     ("guest_lookup_p95_us", p95 (bm_guest_lookup r));
     ("exec_true_us", us (bm_exec_true r)); ("exec_true_timings", JArray (map timings_json (bm_exec_true_timings r)));
     ("raw_guest_true_us", us (bm_raw_guest_true r)); ("raw_guest_true_p50_us", p50 (bm_raw_guest_true r));
     ("raw_guest_true_p95_us", p95 (bm_raw_guest_true r));
     ("exec_true_p50_us", p50 (bm_exec_true r)); ("exec_true_p95_us", p95 (bm_exec_true r));
     ("exec_true_total_us", JInt (bm_exec_true_total_us r));
     ("exec_true_throughput_milli_ops_per_second", JInt (bm_exec_true_throughput r));
     ("exec_python_us", us (bm_exec_python r)); ("exec_python_p50_us", p50 (bm_exec_python r));
     ("exec_python_p95_us", p95 (bm_exec_python r));
     ("exec_python_total_us", JInt (bm_exec_python_total_us r));
     ("exec_python_throughput_milli_ops_per_second", JInt (bm_exec_python_throughput r));
     ("exec_file_roundtrip_us", us (bm_exec_file_roundtrip r)); ("exec_file_roundtrip_p50_us", p50 (bm_exec_file_roundtrip r));
     ("exec_file_roundtrip_p95_us", p95 (bm_exec_file_roundtrip r));
     ("exec_file_roundtrip_total_us", JInt (bm_exec_file_roundtrip_total_us r));
     ("exec_file_roundtrip_throughput_milli_ops_per_second", JInt (bm_exec_file_roundtrip_throughput r));
     ("delete_us", us (bm_delete r)); ("delete_p50_us", p50 (bm_delete r)); ("delete_p95_us", p95 (bm_delete r));
     ("total_us", JInt (bm_total_us r))].

Section Node.
Context `{U : UuidLib} `{C : CryptoLib} `{TJ : TemplateJson} {SJ : ManifestJson}.
Context `{H : HostPrograms} `{N : NetHost} `{M : Machines} `{AJ : ApiJson} `{ED : ExitDebug} `{J : JsonText}.

Record NodeRun := MkNodeRun { nd_runtime : FirecrackerRuntime; nd_stdout : list string }.

#[export] Instance node_runtime : Lens NodeRun FirecrackerRuntime.
Proof. by refine {| view := nd_runtime; put := fun s w => MkNodeRun s (nd_stdout w) |}; intros; destruct s. Defined.

Definition print (text : string) : prog NodeRun unit :=
  modify (fun w => MkNodeRun (nd_runtime w) (nd_stdout w ++ [text])).

(** A call of the runtime with [?]. *)
Definition runtime {A} (p : prog FirecrackerRuntime (result A RuntimeError)) : prog NodeRun (result A NodeError) :=
  lift (prog_map_err NodeRuntime p).

(** A step with the time it took, when it succeeded. *)
Definition stopwatch {A} (p : prog NodeRun (result A NodeError)) : prog NodeRun (result (A * Z) NodeError) :=
  (do started <- lift instant ;;
   do? a <- p ;;
   do us <- lift (elapsed_us started) ;;
   ok (a, us))%prog.

(** A step [n] times, with its answers. *)
Definition times {A} (n : nat) (p : prog NodeRun (result A NodeError)) : prog NodeRun (result (list A) NodeError) :=
  map_prog (replicate n tt) (fun _ => p).

(** A command that has to succeed. *)
Definition succeed (sandbox_id : SandboxId) (argv : list string) : prog NodeRun (result ExecResult NodeError) :=
  (do? result <- runtime (rt_execute sandbox_id (exec_request argv)) ;;
   do? _ <- of_result (ensure_exit_success result) ;;
   ok result)%prog.

(** ** Running a template *)

Definition run_template (template : string) (internet : bool) : prog NodeRun (result unit NodeError) :=
  (do? handle <- runtime (rt_create (template_spec template internet)) ;;
   do? result <- succeed (sh_sandbox_id handle) python_argv ;;
   do _ <- print (from_utf8_lossy (er_stdout result)) ;;
   do? _ <- (if internet
     then do? network_result <- succeed (sh_sandbox_id handle) network_argv ;;
          do _ <- print (from_utf8_lossy (er_stdout network_result)) ;; ok tt
     else ok tt) ;;
   runtime (rt_delete (sh_sandbox_id handle)))%prog.

(** ** The benchmark *)

(** The sandboxes created, and all but the last deleted again: the last one,
    with the times. *)
Fixpoint create_loop (iterations : nat) (create_to_ready_us delete_us : list Z) :
  prog NodeRun (result (option SandboxHandle * list Z * list Z) NodeError) :=
  match iterations with
  | O => ok (None, create_to_ready_us, delete_us)
  | S rest =>
      (do? (created, us) <- stopwatch (runtime (rt_create benchmark_spec)) ;;
       let create_to_ready_us := create_to_ready_us ++ [us] in
       match rest with
       | O => ok (Some created, create_to_ready_us, delete_us)
       | S _ =>
           do? (_, us) <- stopwatch (runtime (rt_delete (sh_sandbox_id created))) ;;
           create_loop rest create_to_ready_us (delete_us ++ [us])
       end)%prog
  end.

(** One measured [/bin/true]. *)
Definition exec_true (sandbox_id : SandboxId) : prog NodeRun (result (BenchmarkExecutionTimings * Z) NodeError) :=
  stopwatch (
    do? (result, timings) <- runtime (benchmark_execute sandbox_id (exec_request true_argv)) ;;
    do? _ <- of_result (ensure_exit_success result) ;;
    ok (MkBenchmarkExecutionTimings (validation_us timings) (guest_lookup_us timings) (start_rpc_us timings)
      (stream_us timings) (total_us timings)))%prog.

(** A command once, then measured [n] times: the times and their total. *)
Definition measure_command (sandbox_id : SandboxId) (n : nat) (argv : list string) :
  prog NodeRun (result (list Z * Z) NodeError) :=
  (do? _ <- succeed sandbox_id argv ;;
   do? (samples, total_us) <- stopwatch (times n (stopwatch (succeed sandbox_id argv))) ;;
   ok (map snd samples, total_us))%prog.

(** The benchmark on a runtime that was started after [total_started]. *)
Definition benchmark (create_iterations exec_iterations python_iterations file_iterations : nat) (total_started : Z) :
  prog NodeRun (result unit NodeError) :=
  (do? pool_prepare_us <- runtime (prewarm benchmark_spec create_iterations) ;;
   do pool_size <- lift ready_pool_len ;;
   do? pool_firecracker_rss_kib <- runtime firecracker_rss_kib ;;
   do? (last_created, create_to_ready_us, delete_us) <- create_loop create_iterations [] [] ;;
   do? handle <- of_result (ok_or NodePanic last_created) ;;
   let sandbox_id := sh_sandbox_id handle in
   do? guest_lookup_us <- times exec_iterations (runtime (benchmark_guest_lookup_us sandbox_id)) ;;
   do? (exec_true_samples, exec_true_total_us) <- stopwatch (times exec_iterations (exec_true sandbox_id)) ;;
   do? raw_guest_true_us <- times exec_iterations (runtime (benchmark_raw_true_us sandbox_id)) ;;
   do? (exec_python_us, exec_python_total_us) <- measure_command sandbox_id python_iterations python_argv ;;
   do? (exec_file_roundtrip_us, exec_file_roundtrip_total_us) <- measure_command sandbox_id file_iterations file_command ;;
   do? (_, us) <- stopwatch (runtime (rt_delete sandbox_id)) ;;
   let delete_us := delete_us ++ [us] in
   do? pool_prepare <- of_result (series pool_prepare_us) ;;
   do? create_to_ready <- of_result (series create_to_ready_us) ;;
   do? guest_lookup <- of_result (series guest_lookup_us) ;;
   do? exec_true <- of_result (series (map snd exec_true_samples)) ;;
   do? raw_guest_true <- of_result (series raw_guest_true_us) ;;
   do? exec_python <- of_result (series exec_python_us) ;;
   do? exec_file_roundtrip <- of_result (series exec_file_roundtrip_us) ;;
   do? delete <- of_result (series delete_us) ;;
   do total_us <- lift (elapsed_us total_started) ;;
   do _ <- print (json_to_string_pretty (BenchmarkResult_json (MkBenchmarkResult pool_prepare pool_firecracker_rss_kib
     pool_size create_to_ready guest_lookup exec_true (map fst exec_true_samples) raw_guest_true
     exec_true_total_us (throughput exec_iterations exec_true_total_us)
     exec_python exec_python_total_us (throughput python_iterations exec_python_total_us)
     exec_file_roundtrip exec_file_roundtrip_total_us (throughput file_iterations exec_file_roundtrip_total_us)
     delete total_us)) +:+ NL) ;;
   ok tt)%prog.

(** ** The commands *)

Definition in_limits (name : string) (value limit : nat) : result unit NodeError :=
  if (value =? 0) || (limit <? value)
  then Err (NodeBail (name +:+ " must be between 1 and " +:+ pretty limit)) else Ok tt.

Definition check (arguments : RuntimeArgs) : prog Fs (result unit NodeError) :=
  (do? _ <- prog_map_err NodeRuntime (validate_config (node_config arguments)) ;;
   do? _ <- prog_map_err NodeIo (open (MkOpenOptions true false false false) (Path_of_string "/dev/kvm")) ;;
   ok tt)%prog.

(** What a command answers and prints, and the runtime it leaves, when it
    started one. *)
Record NodeOutcome := MkNodeOutcome {
  no_result : result unit NodeError;
  no_stdout : list string;
  no_runtime : option FirecrackerRuntime;
}.

(** A program on a runtime that is started first. *)
Definition on_runtime (arch : string) (arguments : RuntimeArgs) (net : NetState) (vms : Vms)
    (p : prog NodeRun (result unit NodeError)) : NodeOutcome :=
  match FirecrackerRuntime_new arch (node_config arguments) net vms with
  | Err error => MkNodeOutcome (Err (NodeRuntime error)) [] None
  | Ok s =>
      let done := run p (MkNodeRun s []) in
      MkNodeOutcome done.1 (nd_stdout done.2) (Some (nd_runtime done.2))
  end.

Definition main (arch : string) (command : NodeCommand) (net : NetState) (vms : Vms) : NodeOutcome :=
  match command with
  | NodeBenchmark create_iterations exec_iterations python_iterations file_iterations arguments =>
      match (let? _ := in_limits "create-iterations" create_iterations 20 in
             let? _ := in_limits "exec-iterations" exec_iterations 1000 in
             let? _ := in_limits "python-iterations" python_iterations 1000 in
             in_limits "file-iterations" file_iterations 1000)%result with
      | Err error => MkNodeOutcome (Err error) [] None
      | Ok _ =>
          on_runtime arch arguments net vms
            (benchmark create_iterations exec_iterations python_iterations file_iterations (now (nt_fs net, vms)))
      end
  | NodeCheck arguments =>
      match (run (check arguments) (nt_fs net)).1 with
      | Err error => MkNodeOutcome (Err error) [] None
      | Ok _ => MkNodeOutcome (Ok tt) ["Firecracker/KVM prerequisites are accessible" +:+ NL] None
      end
  | NodeRunTemplate template internet arguments =>
      on_runtime arch arguments net vms (run_template template internet)
  end.
End Node.
