(* ===== verification/NodeProps.v ===== *)
(** * The node's own commands: theorems

    Percentiles are nearest ranks; no command panics, and one that succeeds leaves
    no sandbox and no machine behind. *)
From S2P Require Import Prelude Conc Fs FsOps Utf8 Commands Inet GuestOutput Guest.
From S2P Require Import Machines Network Rootfs Template TemplateRuntime Snapshot Core Firecracker FirecrackerOps.
From S2P Require Import Instances TemplateProps FirecrackerFrame FirecrackerWaits FirecrackerLaunch FirecrackerInv FirecrackerPool.
From S2P Require Import FirecrackerHost FirecrackerProps FirecrackerMeasure Http HttpHost NodeMain.

(** ** Percentiles *)

Lemma rank_bounds len p : 0 < len -> 1 <= p <= 100 -> 1 <= rank len p <= len /\ len * p <= 100 * rank len p < len * p + 100.
Proof.
  intros Hl Hp. unfold rank. pose proof (Nat.div_mod (len * p + 99) 100 ltac:(lia)) as Hd.
  pose proof (Nat.mod_upper_bound (len * p + 99) 100 ltac:(lia)). nia.
Qed.

(** How many samples satisfy [P]. *)
Definition count (P : Z -> bool) (l : list Z) : nat := length (List.filter P l).

Lemma count_app P l l' : count P (l ++ l') = count P l + count P l'.
Proof. unfold count. by rewrite List.filter_app, length_app. Qed.
Lemma count_le P l : count P l <= length l.
Proof. apply List.filter_length_le. Qed.
Lemma count_all P l : Forall (fun x => P x = true) l -> count P l = length l.
Proof. induction 1 as [|x l Hx _ IH]; [done|]. unfold count in *. cbn. rewrite Hx. cbn. by f_equal. Qed.
Lemma count_none P l : Forall (fun x => P x = false) l -> count P l = 0.
Proof. induction 1 as [|x l Hx _ IH]; [done|]. unfold count in *. cbn. by rewrite Hx. Qed.
Lemma count_perm P l l' : l ≡ₚ l' -> count P l = count P l'.
Proof.
  unfold count. induction 1 as [|x l l' _ IH|x y l|l l' l'' _ IH1 _ IH2]; cbn; [done| | |congruence].
  - by destruct (P x); cbn; rewrite IH.
  - by destruct (P x), (P y).
Qed.

(** In a sorted list, the samples up to the [i]-th are at most it, those from it
    on at least. *)
Lemma sorted_split l i v : StronglySorted Z.le l -> l !! i = Some v ->
  Forall (fun x => (x <= v)%Z) (take (S i) l) /\ Forall (fun x => (v <= x)%Z) (drop i l).
Proof.
  intros Hs Hv. rewrite (take_S_r _ _ _ Hv), (drop_S _ _ _ Hv). rewrite <- (take_drop_middle l i v Hv) in Hs.
  apply StronglySorted_app in Hs as (Hx&_&[Hf _]%StronglySorted_cons). split.
  - apply Forall_app. split; [|by repeat constructor]. apply Forall_forall. intros x Hin. apply Hx; [done|by left].
  - by constructor; [lia|].
Qed.

Lemma sort_sorted l : StronglySorted Z.le (sort_unstable l).
Proof. apply StronglySorted_merge_sort; [intros x y z; lia|intros x y; lia]. Qed.

(** C22. The percentile of a series of samples, in the order they were taken, is
    its nearest rank: one of the samples, with at least that share of them not
    above it and less than that share below it. *)
Theorem percentile_is_nearest_rank samples p :
  samples <> [] -> 1 <= p <= 100 ->
  exists v, percentile (sort_unstable samples) p = Some v /\ v ∈ samples
  /\ p * length samples <= 100 * count (fun x => (x <=? v)%Z) samples
  /\ 100 * count (fun x => (x <? v)%Z) samples < p * length samples.
Proof.
  intros Hne Hp. set (sorted := sort_unstable samples).
  assert (sorted ≡ₚ samples) as Hperm by apply merge_sort_Permutation.
  assert (length sorted = length samples) as Hlen by (by apply Permutation_length).
  assert (0 < length samples) as Hpos by (destruct samples; [done|cbn; lia]).
  destruct (rank_bounds (length samples) p Hpos Hp) as [Hr1 Hr2].
  set (i := Nat.min (rank (length samples) p - 1) (length samples - 1)).
  assert (i = rank (length samples) p - 1) as Hi by (subst i; lia).
  destruct (lookup_lt_is_Some_2 sorted i) as [v Hv]; [lia|]. exists v.
  assert (percentile sorted p = Some v) as Hperc.
  { unfold percentile. rewrite <- Hv. destruct (length sorted) as [|last] eqn:Hl; [lia|]. f_equal. subst i. rewrite <- Hlen. f_equal. lia. }
  split; [done|]. split; [rewrite <- Hperm; by eapply list_elem_of_lookup_2|].
  rewrite <- !(count_perm _ _ _ Hperm), <- (take_drop (S i) sorted), count_app.
  destruct (sorted_split sorted i v (sort_sorted samples) Hv) as [Hle Hge]. split.
  - rewrite count_all, length_take by (eapply Forall_impl; [exact Hle|]; intros; by apply Z.leb_le). lia.
  - rewrite take_drop, <- (take_drop i sorted), count_app.
    rewrite (count_none _ (drop i sorted)) by (eapply Forall_impl; [exact Hge|]; intros; by apply Z.ltb_ge).
    pose proof (count_le (fun x => (x <? v)%Z) (take i sorted)) as Hc. rewrite length_take in Hc. lia.
Qed.

Lemma percentile_is_nearest_rank_witness :
  exists v, percentile (sort_unstable [7; 3; 9; 3; 5]%Z) 95 = Some v /\ v ∈ [7; 3; 9; 3; 5]%Z
  /\ 95 * 5 <= 100 * count (fun x => (x <=? v)%Z) [7; 3; 9; 3; 5]%Z.
Proof.
  destruct (percentile_is_nearest_rank [7; 3; 9; 3; 5]%Z 95) as (v&Hv&Hin&Hle&_); [discriminate|lia|]. by exists v.
Defined.

(** A series with a sample has its percentiles. *)
Lemma series_ok samples : samples <> [] -> is_ok (series samples) = true.
Proof.
  intros Hne. unfold series.
  assert (length (sort_unstable samples) = length samples) as Hlen by apply Permutation_length, merge_sort_Permutation.
  assert (forall p, is_Some (percentile (sort_unstable samples) p)) as Hp.
  { intros p. unfold percentile. destruct (length (sort_unstable samples)) as [|last] eqn:Hl.
    - by destruct samples.
    - apply lookup_lt_is_Some_2. lia. }
  by destruct (Hp 50) as [? ->], (Hp 95) as [? ->].
Qed.

(** ** Programs on a runtime

    [triple P p Q]: from a runtime with [P], the program answers with [Q], or
    fails, but never by a panic. *)
Section Runs.
Context `{U : UuidLib} `{C : CryptoLib} `{TJ : TemplateJson} {SJ : ManifestJson}.
Context `{H : HostPrograms} `{N : NetHost} `{M : Machines} `{AJ : ApiJson} `{ED : ExitDebug} `{J : JsonText}.

Definition triple {A} (P : FirecrackerRuntime -> Prop) (p : prog NodeRun (result A NodeError))
    (Q : A -> FirecrackerRuntime -> Prop) : Prop :=
  forall w, P (nd_runtime w) ->
  match run p w with (Ok a, w') => Q a (nd_runtime w') | (Err e, _) => e <> NodePanic end.

Lemma triple_ok {A} (P : FirecrackerRuntime -> Prop) (a : A) Q : (forall s, P s -> Q a s) -> triple P (ok a) Q.
Proof. intros Hq w Hp. by apply Hq. Qed.

Lemma triple_post {A} P (p : prog NodeRun (result A NodeError)) (Q Q' : A -> FirecrackerRuntime -> Prop) :
  triple P p Q -> (forall a s, Q a s -> Q' a s) -> triple P p Q'.
Proof. intros Ht Hq w Hp. specialize (Ht w Hp). destruct (run p w) as [[a|e] w']; auto. Qed.

Lemma triple_pure {A} (F : Prop) P (p : prog NodeRun (result A NodeError)) Q :
  (F -> triple P p Q) -> triple (fun s => F /\ P s) p Q.
Proof. intros Hf w [HF Hp]. by apply Hf. Qed.

Lemma triple_bind {A B} P (p : prog NodeRun (result A NodeError)) Q (k : A -> prog NodeRun (result B NodeError)) R :
  triple P p Q -> (forall a, triple (Q a) (k a) R) -> triple P (bind_ok p k) R.
Proof.
  intros Ht Hk w Hp. rewrite run_bind_ok. specialize (Ht w Hp). destruct (run p w) as [[a|e] w']; cbn [fst snd]; [|done].
  by apply Hk.
Qed.

(** A step that leaves the runtime alone. *)
Lemma triple_silent {X A} P (p : prog NodeRun X) (k : X -> prog NodeRun (result A NodeError)) Q :
  (forall w, nd_runtime (run p w).2 = nd_runtime w) -> (forall x, triple P (k x) Q) -> triple P (bind p k) Q.
Proof. intros Hs Hk w Hp. rewrite run_bind. apply Hk. by rewrite Hs. Qed.

Lemma triple_result {A B} P (r : result A NodeError) (k : A -> prog NodeRun (result B NodeError)) Q :
  r <> Err NodePanic -> (forall a, r = Ok a -> triple P (k a) Q) -> triple P (bind_ok (of_result r) k) Q.
Proof. intros Hr Hk w Hp. rewrite run_bind_ok. cbn. destruct r as [a|e]; [by apply Hk|congruence]. Qed.

Lemma triple_runtime {A} (P : FirecrackerRuntime -> Prop) (p : prog FirecrackerRuntime (result A RuntimeError)) Q :
  (forall s a s', P s -> run p s = (Ok a, s') -> Q a s') -> triple P (runtime p) Q.
Proof.
  intros Hq w Hp. unfold runtime. rewrite run_lift, run_map_err. cbn [view node_runtime put fst snd].
  destruct (run p (nd_runtime w)) as [[a|e] s'] eqn:Hr; cbn [fst snd map_err nd_runtime]; [by eapply Hq|done].
Qed.

Lemma silent_lift {A} (p : prog FirecrackerRuntime A) (w : NodeRun) :
  (forall s, (run p s).2 = s) -> nd_runtime (run (lift p) w).2 = nd_runtime w.
Proof. intros Hp. rewrite run_lift. cbn. apply Hp. Qed.

Lemma triple_stopwatch {A} P (p : prog NodeRun (result A NodeError)) (Q : A -> FirecrackerRuntime -> Prop) :
  triple P p Q -> triple P (stopwatch p) (fun '(a, _) => Q a).
Proof.
  intros Ht. unfold stopwatch. apply triple_silent; [intros w; apply silent_lift, run_instant|]. intros started.
  eapply triple_bind; [exact Ht|]. intros a. apply triple_silent; [intros w; apply silent_lift, run_elapsed|]. intros us.
  by apply triple_ok.
Qed.

Lemma triple_times {A} P n (p : prog NodeRun (result A NodeError)) :
  triple P p (fun _ => P) -> triple P (times n p) (fun l s => length l = n /\ P s).
Proof.
  intros Ht. unfold times. induction n as [|n IH]; cbn [replicate map_prog]; [by apply triple_ok|].
  eapply triple_bind; [exact Ht|]. intros a. cbv beta. eapply triple_bind; [exact IH|]. intros l. apply triple_ok. intros s [<- Hp]. by split.
Qed.

(** ** What the runtime holds *)
Context `{!ProcessLaws} (quiet_host : Prop).

(** No sandbox but [handles] and the pool of [n]; on a host that ran no machine
    when the runtime was started, a consistent runtime that has every machine in
    its table. *)
Definition sound (s : FirecrackerRuntime) : Prop := consistent s /\ housed s.
Definition holding (handles : list SandboxHandle) (n : nat) (s : FirecrackerRuntime) : Prop :=
  (quiet_host -> sound s) /\ accounted handles s /\ pool_size s = n.

Lemma holding_framed handles n s s' : framed s s' -> holding handles n s -> holding handles n s'.
Proof.
  intros Hf (Hc&Ha&Hn). split; [|split].
  - intros Hq. destruct (Hc Hq). split; [by apply (framed_evolves _ _ Hf)|by apply (housed_framed _ _ Hf)].
  - by apply (accounted_framed _ s).
  - unfold pool_size. by rewrite (st_pool _ _ (proj1 Hf)).
Qed.

Lemma holds_framed {A} (p : prog FirecrackerRuntime (result A RuntimeError)) handles n :
  preserves framed p -> triple (holding handles n) (runtime p) (fun _ => holding handles n).
Proof. intros Hp. apply triple_runtime. intros s a s' Hh Hr. apply (holding_framed _ _ s); [|done]. specialize (Hp s). by rewrite Hr in Hp. Qed.

Lemma holds_create spec handles n :
  triple (holding handles n) (runtime (rt_create spec))
    (fun handle => holding (handle :: handles) (n - if pool_eligible spec then 1 else 0)).
Proof.
  apply triple_runtime. intros s handle s' (Hc&Ha&<-) Hr. cbn [rt_create firecracker_runtime] in Hr.
  destruct (accounts_create spec s handle s' handles Hr Ha) as [Ha' Hn]. split; [|by split].
  intros Hq. destruct (Hc Hq) as [Hs Hh]. pose proof (ho_consistent _ _ _ (hands_out_create spec s)) as He.
  pose proof (shelters_create spec s Hs Hh) as Hh'. rewrite Hr in He, Hh'. by split; [apply He|].
Qed.

Lemma holds_delete handle handles n :
  triple (holding (handle :: handles) n) (runtime (rt_delete (sh_sandbox_id handle))) (fun _ => holding handles n).
Proof.
  apply triple_runtime. intros s a s' (Hc&Ha&Hn) Hr. cbn [rt_delete firecracker_runtime] in Hr.
  pose proof (evolves_delete (sh_sandbox_id handle) s) as He. pose proof (accounts_delete handle s handles Ha) as Ha'.
  pose proof (shelters_delete (sh_sandbox_id handle) s) as Hs.
  rewrite Hr in He, Ha', Hs. cbn [fst snd] in He, Ha'. split; [|split; [done|]].
  { intros Hq. destruct (Hc Hq). split; [by apply He|by apply Hs]. } unfold pool_size. by rewrite (ev_pool _ _ He).
Qed.

Lemma holds_prewarm spec count handles n :
  triple (holding handles n) (runtime (prewarm spec count))
    (fun samples s => length samples = count /\ holding handles (n + count) s).
Proof.
  apply triple_runtime. intros s samples s' (Hc&Ha&<-) Hr.
  pose proof (prewarm_size spec count s) as Hs. pose proof (hands_out_prewarm spec count s) as Ho.
  pose proof (shelters_prewarm spec count s) as Hh.
  rewrite Hr in Hs, Ho, Hh. destruct Hs as [Hl Hs]. split; [done|]. split; [|split; [|done]].
  - intros Hq. destruct (Hc Hq). split; [by apply Ho|by apply Hh].
  - by apply (accounts_prewarm spec count s samples s').
Qed.

Lemma framed_benchmark_execute id request : preserves framed (benchmark_execute id request).
Proof.
  unfold benchmark_execute, execute_measured, guest_client, record_of, deref.
  repeat first [framed_leaf | apply framed_gets | preserves_step].
Qed.

Lemma framed_client id : preserves framed (guest_client id).
Proof. unfold guest_client, record_of, deref. repeat first [framed_leaf | apply framed_gets | preserves_step]. Qed.

Lemma framed_clocked {A} (p : prog FirecrackerRuntime (result A RuntimeError)) : preserves framed p -> preserves framed (clocked p).
Proof. intros Hp. unfold clocked. repeat first [exact Hp | framed_leaf | preserves_step]. Qed.

Lemma framed_lookup_us id : preserves framed (benchmark_guest_lookup_us id).
Proof.
  unfold benchmark_guest_lookup_us. apply preserves_bind_ok; [apply _|apply framed_clocked, framed_client|].
  intros [? us]. apply preserves_ret, _.
Qed.

Lemma framed_raw_true id : preserves framed (benchmark_raw_true_us id).
Proof.
  unfold benchmark_raw_true_us. apply preserves_bind_ok; [apply _|apply framed_clocked|intros [? us]; apply preserves_ret, _].
  repeat first [apply framed_client | framed_leaf | preserves_step].
Qed.

(** ** The commands *)

Lemma exit_success_no_panic r : ensure_exit_success r <> Err NodePanic.
Proof. unfold ensure_exit_success. by destruct (bool_decide _). Qed.

Lemma holds_succeed id argv handles n :
  triple (holding handles n) (succeed id argv) (fun _ => holding handles n).
Proof.
  unfold succeed. eapply triple_bind; [apply holds_framed; apply framed_execute|]. intros r.
  apply triple_result; [apply exit_success_no_panic|]. intros _ _. by apply triple_ok.
Qed.

Lemma silent_print text w : nd_runtime (run (print text) w).2 = nd_runtime w.
Proof. done. Qed.

Lemma holds_run_template template internet :
  triple (holding [] 0) (run_template template internet) (fun _ => holding [] 0).
Proof.
  unfold run_template. eapply triple_bind; [apply holds_create|]. intros handle. cbv beta.
  eapply triple_bind; [apply holds_succeed|]. intros r. cbv beta. apply triple_silent; [apply silent_print|]. intros _.
  eapply (triple_bind _ _ (fun _ => holding [handle] 0)); [|intros []; apply holds_delete].
  destruct internet; [|by apply triple_ok]. eapply triple_bind; [apply holds_succeed|]. intros r'. cbv beta.
  apply triple_silent; [apply silent_print|]. intros _. by apply triple_ok.
Qed.

Lemma holds_create_loop iterations : forall created deleted n,
  triple (holding [] n) (create_loop iterations created deleted)
    (fun '(last_created, created', _) s => length created' = length created + iterations
       /\ match last_created with
          | Some handle => holding [handle] (n - iterations) s
          | None => iterations = 0
          end).
Proof.
  induction iterations as [|iterations IH]; intros created deleted n; cbn [create_loop].
  { apply triple_ok. intros s _. split; [lia|done]. }
  eapply triple_bind; [apply triple_stopwatch, holds_create|]. intros [handle us]. cbv beta iota.
  change (n - (if pool_eligible benchmark_spec then 1 else 0)) with (n - 1).
  destruct iterations as [|rest].
  - apply triple_ok. intros s Hs. rewrite length_app. split; [cbn; lia|done].
  - eapply triple_bind; [apply triple_stopwatch, holds_delete|]. intros [[] us']. cbv beta iota.
    eapply triple_post; [apply IH|]. intros [[last_created created'] deleted'] s [Hl Hs]. rewrite Hl, length_app.
    split; [cbn; lia|]. destruct last_created; [|lia]. by replace (n - S (S rest)) with (n - 1 - S rest) by lia.
Qed.

Lemma holds_measure id k argv handles n :
  triple (holding handles n) (measure_command id k argv) (fun '(samples, _) s => length samples = k /\ holding handles n s).
Proof.
  unfold measure_command. eapply triple_bind; [apply holds_succeed|]. intros r. cbv beta.
  eapply triple_bind; [apply triple_stopwatch, triple_times|].
  - eapply triple_post; [apply triple_stopwatch, holds_succeed|]. by intros [? us] s.
  - intros [samples us]. cbv beta iota. apply triple_ok. intros s [<- Hs]. by rewrite length_map.
Qed.

Lemma holds_exec_true id handles n :
  triple (holding handles n) (exec_true id) (fun _ => holding handles n).
Proof.
  unfold exec_true. eapply triple_post; [apply (triple_stopwatch _ _ (fun _ => holding handles n))|by intros [? ?] s Hs].
  eapply triple_bind; [apply holds_framed, framed_benchmark_execute|]. intros [r timings]. cbv beta.
  apply triple_result; [apply exit_success_no_panic|]. intros _ _. by apply triple_ok.
Qed.

(** The series of a benchmark all have samples. *)
Lemma triple_series {A} P samples (k : Series -> prog NodeRun (result A NodeError)) Q :
  0 < length samples -> (forall s, triple P (k s) Q) -> triple P (bind_ok (of_result (series samples)) k) Q.
Proof.
  intros Hl Hk. assert (is_ok (series samples) = true) as Ho by (apply series_ok; by destruct samples; [cbn in Hl; lia|]).
  apply triple_result; [by destruct (series samples)|]. intros s _. apply Hk.
Qed.

Lemma holds_benchmark create_iterations exec_iterations python_iterations file_iterations total_started :
  0 < create_iterations -> 0 < exec_iterations -> 0 < python_iterations -> 0 < file_iterations ->
  triple (holding [] 0)
    (benchmark create_iterations exec_iterations python_iterations file_iterations total_started) (fun _ => holding [] 0).
Proof.
  intros Hcreate Hexec Hpython Hfile. unfold benchmark.
  eapply triple_bind; [apply holds_prewarm|]. intros pool. apply triple_pure. intros Hpool.
  apply triple_silent; [intros w; by apply silent_lift|]. intros size.
  eapply triple_bind; [apply holds_framed, framed_files|]. intros rss. cbv beta.
  eapply triple_bind; [apply holds_create_loop|]. intros [[[handle|] created] deleted]; apply triple_pure; intros Hcreated.
  2: { intros w Hw. cbv beta in Hw. lia. }
  replace (0 + create_iterations - create_iterations) with 0 by lia.
  apply triple_result; [done|]. intros ? [= <-].
  eapply triple_bind; [apply triple_times, holds_framed, framed_lookup_us|]. intros lookups. apply triple_pure. intros Hlookups.
  eapply triple_bind; [apply triple_stopwatch, triple_times, holds_exec_true|]. intros [trues us]. apply triple_pure. intros Htrues.
  eapply triple_bind; [apply triple_times, holds_framed, framed_raw_true|]. intros raws. apply triple_pure. intros Hraws.
  eapply triple_bind; [apply holds_measure|]. intros [pythons us1]. apply triple_pure. intros Hpythons.
  eapply triple_bind; [apply holds_measure|]. intros [fs us2]. apply triple_pure. intros Hfs.
  eapply triple_bind; [apply triple_stopwatch, holds_delete|]. intros [[] us3]. cbv beta iota.
  repeat (apply triple_series; [rewrite ?length_app, ?length_map; cbn [length]; lia|intros ?]).
  apply triple_silent; [intros w; apply silent_lift, run_elapsed|]. intros us4.
  apply triple_silent; [apply silent_print|]. intros _. by apply triple_ok.
Qed.

Lemma in_limits_ok name value limit : in_limits name value limit = Ok tt -> 0 < value.
Proof. unfold in_limits. destruct (value =? 0) eqn:Hv; [done|]. apply Nat.eqb_neq in Hv. lia. Qed.
Lemma in_limits_no_panic name value limit : in_limits name value limit <> Err NodePanic.
Proof. unfold in_limits. by destruct (_ || _). Qed.
End Runs.

(** ** Runs of the commands *)
Section Commands.
Context `{U : UuidLib} `{C : CryptoLib} `{TJ : TemplateJson} {SJ : ManifestJson}.
Context `{H : HostPrograms} `{N : NetHost} `{M : Machines} `{AJ : ApiJson} `{ED : ExitDebug} `{J : JsonText} `{!ProcessLaws}.

(** A command on a runtime that it starts on a host without machines. *)
Lemma run_on_runtime arch arguments net vms (p : prog NodeRun (result unit NodeError)) :
  triple (holding (forall i, ~ runs processes i vms) [] 0) p (fun _ => holding (forall i, ~ runs processes i vms) [] 0) ->
  let outcome := on_runtime arch arguments net vms p in
  no_result outcome <> Err NodePanic
  /\ (no_result outcome = Ok tt -> exists s, no_runtime outcome = Some s /\ holding (forall i, ~ runs processes i vms) [] 0 s).
Proof.
  intros Ht. unfold on_runtime. destruct (FirecrackerRuntime_new _ _ _ _) as [s|e] eqn:Hn; [|done]. cbv zeta.
  cbn [no_result no_runtime].
  assert (holding (forall i, ~ runs processes i vms) [] 0 s) as Hs.
  { split.
    { intros Hq. split; [by destruct (started_empty arch (node_config arguments) net vms s)|].
      revert Hn. unfold FirecrackerRuntime_new. destruct (run _ (nt_fs net)) as [[store|e] fs]; [|done]. intros [= <-].
      intros i Hi. by destruct (Hq i). }
    revert Hn. unfold FirecrackerRuntime_new. destruct (run _ (nt_fs net)) as [[store|e] fs]; [|done]. intros [= <-].
    split; [|done]. intros id [r Hr]. done. }
  specialize (Ht (MkNodeRun s []) Hs). destruct (run p _) as [[[]|e] w']; cbn [fst snd] in *.
  - split; [done|]. intros _. by exists (nd_runtime w').
  - split; [congruence|done].
Qed.

(** Every command either ends before it starts a runtime, or runs on it. *)
Lemma main_outcome arch command net vms :
  let outcome := main arch command net vms in
  no_result outcome <> Err NodePanic
  /\ (no_result outcome = Ok tt -> forall s, no_runtime outcome = Some s -> holding (forall i, ~ runs processes i vms) [] 0 s).
Proof.
  assert (forall arguments p,
    triple (holding (forall i, ~ runs processes i vms) [] 0) p (fun _ => holding (forall i, ~ runs processes i vms) [] 0) ->
    let outcome := on_runtime arch arguments net vms p in no_result outcome <> Err NodePanic
    /\ (no_result outcome = Ok tt -> forall s, no_runtime outcome = Some s -> holding (forall i, ~ runs processes i vms) [] 0 s)) as Hrun.
  { intros arguments p Ht. destruct (run_on_runtime arch arguments net vms p Ht) as [Hp Hh]. split; [done|].
    intros Ho s Hs. destruct (Hh Ho) as (s'&Hs'&?). congruence. }
  destruct command as [arguments|c e p f arguments|template internet arguments]; cbn [main].
  - destruct (run (check arguments) (nt_fs net)) as [[[]|error] fs] eqn:Hc; cbn [fst]; [done|]. cbn [no_result no_runtime].
    split; [|done]. intros [= ->]. revert Hc. unfold check. rewrite !run_bind_ok, !run_map_err.
    destruct (run (validate_config _) _) as [[[]|?] ?]; cbn [map_err fst snd]; [|by intros [=]].
    rewrite ?run_bind_ok, ?run_map_err. by destruct (run (open _ _) _) as [[?|?] ?].
  - destruct (in_limits "create-iterations" c 20) as [[]|e1] eqn:H1; cbn [result_bind].
    2: { split; [|done]. intros [= ->]. by apply in_limits_no_panic in H1. }
    destruct (in_limits "exec-iterations" e 1000) as [[]|e1] eqn:H2; cbn [result_bind].
    2: { split; [|done]. intros [= ->]. by apply in_limits_no_panic in H2. }
    destruct (in_limits "python-iterations" p 1000) as [[]|e1] eqn:H3; cbn [result_bind].
    2: { split; [|done]. intros [= ->]. by apply in_limits_no_panic in H3. }
    destruct (in_limits "file-iterations" f 1000) as [[]|e1] eqn:H4.
    2: { split; [|done]. intros [= ->]. by apply in_limits_no_panic in H4. }
    apply in_limits_ok in H1, H2, H3, H4. apply Hrun. by apply holds_benchmark.
  - apply Hrun, holds_run_template.
Qed.

(** C11. The node's commands neither panic nor leave anything behind when they
    succeed. Whatever fails, a benchmark has a last sandbox and takes its
    percentiles from series that all have samples. And on a host that ran no
    machines, a benchmark, which warms a pool and creates and deletes sandboxes
    from it, or the run of a template, ends with no sandbox in the table, nothing
    in the pool and no machine that runs. *)
Theorem commands_clean_up arch command net vms :
  let outcome := main arch command net vms in
  no_result outcome <> Err NodePanic
  /\ ((forall i, ~ runs processes i vms) -> no_result outcome = Ok tt ->
      forall s, no_runtime outcome = Some s -> fr_sandboxes s = ∅ /\ fr_ready_pool s = [] /\ forall i, ~ alive s i).
Proof.
  destruct (main_outcome arch command net vms) as [Hpanic Hclean]. split; [exact Hpanic|].
  intros Hq Ho s Hs. destruct (Hclean Ho s Hs) as (Hc&Ha&Hp).
  destruct (accounted_nothing s Ha Hp) as [He Hn]. split; [done|]. split; [by apply nil_length_inv|]. by apply Hn, Hc.
Qed.
End Commands.

(** ** At concrete inputs *)
#[export] Instance host_exit_debug : ExitDebug := {| exit_debug _ := "ProcessExit" |}.
Definition host_arguments : RuntimeArgs :=
  let p := Path_of_string in
  MkRuntimeArgs (p "/bin/firecracker") (p "/bin/jailer") (p "/img/kernel") (p "/img/rootfs") None None
    (p "/jail") (p "/run") 1000 1000.
Definition host_outcome : NodeOutcome :=
  main "x86_64" (NodeRunTemplate "python" false host_arguments) (MkNetState host_tree []) (host_vms 4).

Lemma commands_clean_up_witness :
  no_result host_outcome = Ok tt /\ exists s, no_runtime host_outcome = Some s /\ fr_sandboxes s = ∅ /\ forall i, ~ alive s i.
Proof.
  assert ((no_result host_outcome, bool_decide (is_Some (no_runtime host_outcome))) = (Ok tt, true)) as Hr
    by (vm_compute; reflexivity).
  pose proof (commands_clean_up "x86_64" (NodeRunTemplate "python" false host_arguments) (MkNetState host_tree [])
    (host_vms 4)) as Hclean. fold host_outcome in Hclean. revert Hr Hclean.
  cbv zeta.
  generalize host_outcome. intros outcome [= Ho Hs%bool_decide_eq_true] [_ Hclean]. destruct Hs as [s Hs].
  split; [exact Ho|]. exists s. split; [exact Hs|]. destruct (Hclean (host_vms_idle 4) Ho s Hs) as (He&_&Hn). by split.
Defined.

(** A benchmark that succeeds, with one VMM process to be seen in [/proc]. *)
Definition proc_tree : Fs :=
  set_nodes (fs_nodes host_tree ∪ list_to_map
    [ (["proc"], host_directory); (["proc"; "7"], host_directory); (["proc"; "7"; "comm"], host_file "firecracker");
      (["proc"; "7"; "status"], host_file "VmRSS: 5 kB"); (["proc"; "version"], host_file "Linux") ]) host_tree.
Example benchmark_succeeds :
  no_result (main "x86_64" (NodeBenchmark 2 1 2 1 host_arguments) (MkNetState proc_tree []) (host_vms 4)) = Ok tt.
Proof. vm_compute. reflexivity. Qed.
