(* ===== verification/Probe.v ===== *)
(** * The probe of a microVM

    Models [crates/ferrobox-node/src/bin/microvm-probe.rs], a program that waits
    for the guest of a machine someone else launched, initializes it and measures
    commands, and shows that it agrees with the node's benchmark. *)
From S2P Require Import Prelude Conc Fs FsOps Utf8 Commands Inet GuestOutput Guest Instances.
From S2P Require Import Machines Network Rootfs Template TemplateProps TemplateRuntime Snapshot Core Firecracker FirecrackerOps.
From S2P Require Import FirecrackerFrame FirecrackerWaits FirecrackerMeasure FirecrackerHost Http HttpHost NodeMain NodeProps.

(** What the probe uses besides: the [ready] flag of a health answer, and the
    system clock in nanoseconds ([None] before 1970). *)
Class ProbeHost `{M : Machines} := {
  health_ready : GuestClient -> Outside -> result bool RpcStatus * Outside;
  unix_nanos : Outside -> option Z;
}.

Record ProbeArgs := MkProbeArgs {
  pa_vsock : Path;
  pa_launched_unix_nanos : Z;
  pa_health_only : bool;
}.

(** What [anyhow::Error] holds here. *)
Inductive ProbeError :=
| ProbeBail (message : string)
| ProbeStatus (status : RpcStatus)
| ProbeClock.

(** ** Results *)

Definition probe_percentile (samples : list Z) (value : nat) : option Z :=
  match samples with
  | [] => None
  | _ => samples !! Nat.min (rank (length samples) value - 1) (length samples - 1)
  end.

Definition probe_percentiles (name : string) (samples : list Z) : list (string * Value) :=
  let sorted := sort_unstable samples in
  let field p := match probe_percentile sorted p with Some v => JInt v | None => JNull end in
  [(name +:+ "_us", JInts sorted); (name +:+ "_p50_us", field 50); (name +:+ "_p95_us", field 95)].

(** [ProbeResult], as [print_result] fills it. *)
Definition ProbeResult_json (ready_us : Z) (exec_true_us exec_true_cloned_client_us exec_python_us : list Z) : Value :=
  JObject ([("schema_version", JInt 2); ("ready_us", JInt ready_us)]
    ++ probe_percentiles "exec_true" exec_true_us
    ++ probe_percentiles "exec_true_cloned_client" exec_true_cloned_client_us
    ++ probe_percentiles "exec_python" exec_python_us).

Section Probe.
Context `{U : UuidLib} `{M : Machines} `{AJ : ApiJson} `{ED : ExitDebug} `{J : JsonText} {PH : @ProbeHost M}.

(** ** Waiting

    The deadline is looked at after each attempt. *)
Definition READY_LIMIT : Z := millis 30000.

Definition guest_attempt (connector : GuestConnector) : prog Outside (option GuestClient) :=
  (do connected <- client connector ;;
   match connected with
   | Ok client =>
       do response <- act (health_ready client) ;;
       Ret (match response with Ok true => Some client | _ => None end)
   | Err _ => Ret None
   end)%prog.

Definition probe_turn (connector : GuestConnector) (started : Z) (_ : unit) :
  prog Outside (unit + result GuestClient ProbeError) :=
  (do attempt <- guest_attempt connector ;;
   match attempt with
   | Some client => Ret (inr (Ok client))
   | None =>
       do t <- gets now ;;
       if (READY_LIMIT <=? t - started)%Z
       then Ret (inr (Err (ProbeBail "guest did not become ready within 30 seconds")))
       else do _ <- act (sleep_for (millis 5)) ;; Ret (inl tt)
   end)%prog.

(** 2^40 turns of five milliseconds are more than the thirty seconds. *)
Definition PROBE_TURNS : nat := 40.

Definition probe_wait (connector : GuestConnector) : prog Outside (result GuestClient ProbeError) :=
  (do started <- gets now ;;
   fmap_prog (fun r => match r with inr r => r | inl _ => Err (ProbeBail "out of turns") end)
     (loop PROBE_TURNS (probe_turn connector started) tt))%prog.

(** ** Commands *)

(** The events of the stream, with the exit seen so far. *)
Fixpoint probe_events (events : list WireEvent) (successful_exit : bool) : result bool ProbeError :=
  match events with
  | [] => Ok successful_exit
  | event :: rest =>
      match we_event event with
      | Some (Exit exit) =>
          if bool_decide (px_exit_code exit = Some 0%Z) then probe_events rest true
          else Err (ProbeBail ("guest command failed: " +:+ exit_debug exit))
      | Some (EError code message) =>
          Err (ProbeBail ("guest command error " +:+ code +:+ ": " +:+ message))
      | _ => probe_events rest successful_exit
      end
  end.

Definition probe_result (stream : Stream WireEvent) : result unit ProbeError :=
  (let? successful_exit := probe_events (str_messages stream) false in
   let? _ := match str_end stream with None => Ok tt | Some status => Err (ProbeStatus status) end in
   if successful_exit then Ok tt else Err (ProbeBail "guest command omitted a successful exit event"))%result.

Definition probe_execute (client : GuestClient) (token : string) (argv : list string) : prog Outside (result Z ProbeError) :=
  (do started <- gets now ;;
   do? stream <- prog_map_err ProbeStatus (act (rpc_start_process client
     (MkStartProcessRequest (Some (MkAuth token)) argv "/home/sandbox" ∅ 30000 (1024 * 1024)))) ;;
   do? _ <- of_result (probe_result stream) ;;
   do us <- gets (fun o => (Z.max 0 (now o - started) / 1000)%Z) ;;
   ok us)%prog.

Definition probe_times (n : nat) (client : GuestClient) (token : string) (argv : list string) :
  prog Outside (result (list Z) ProbeError) :=
  map_prog (replicate n tt) (fun _ => probe_execute client token argv).

(** ** The program

    It answers the text it prints. A cloned client is the same connection. *)
Definition PROBE_TOKEN : string := "ferrobox-microvm-benchmark-token-00000000".

Definition print_result (ready_us : Z) (exec_true_us exec_true_cloned_client_us exec_python_us : list Z) : string :=
  json_to_string_pretty (ProbeResult_json ready_us exec_true_us exec_true_cloned_client_us exec_python_us) +:+ NL.

Definition probe_main (arguments : ProbeArgs) : prog Outside (result string ProbeError) :=
  (let connector := MkGuestConnector (pa_vsock arguments) 5000 (millis 1000) in
   do? client <- probe_wait connector ;;
   do? ready_unix_nanos <- gets (fun o => ok_or ProbeClock (unix_nanos o)) ;;
   let ready_us := (saturating_sub ready_unix_nanos (pa_launched_unix_nanos arguments) / 1000)%Z in
   if pa_health_only arguments then ok (print_result ready_us [] [] [])
   else
   do? _ <- prog_map_err ProbeStatus (act (rpc_init client
     (MkInitRequest (uuid_to_string (new_v4 1)) PROBE_TOKEN 1000 1000 (64 * 1024 * 1024) 512 "" 0 "" ""))) ;;
   do? exec_true_us <- probe_times 100 client PROBE_TOKEN true_argv ;;
   do? exec_true_cloned_client_us <- probe_times 100 client PROBE_TOKEN true_argv ;;
   do? _ <- probe_execute client PROBE_TOKEN python_argv ;;
   do? exec_python_us <- probe_times 30 client PROBE_TOKEN python_argv ;;
   ok (print_result ready_us exec_true_us exec_true_cloned_client_us exec_python_us))%prog.

(** ** The probe and the benchmark *)

Lemma probe_events_raw events b : result_ok (probe_events events b) = result_ok (raw_events events b).
Proof.
  revert b. induction events as [|event events IH]; intros b; [done|]. cbn.
  destruct (we_event event) as [[]|]; try apply IH; [|done]. destruct (bool_decide _); [apply IH|done].
Qed.

Lemma probe_result_raw stream : is_ok (probe_result stream) = is_ok (raw_result stream).
Proof.
  unfold probe_result, raw_result. pose proof (probe_events_raw (str_messages stream) false) as He.
  destruct (probe_events _ _) as [b|e], (raw_events _ _) as [b'|e']; try discriminate He; [|done].
  cbn in He. injection He as ->. cbn [result_bind]. destruct (str_end stream); [done|]. by destruct b'.
Qed.

(** The probe and the node's benchmark measure the same: they accept the
    same streams of a command, and take the same percentiles of the samples, the
    probe answering nothing where the node would panic. *)
Theorem probe_agrees_with_benchmark :
  (forall stream, is_ok (probe_result stream) = is_ok (raw_result stream))
  /\ (forall samples p, probe_percentile samples p = percentile samples p)
  /\ (forall samples, samples = [] <-> probe_percentile samples 50 = None).
Proof.
  assert (forall samples p, probe_percentile samples p = percentile samples p) as Hp.
  { intros [|x samples] p; [done|]. unfold probe_percentile, percentile. cbn [length]. f_equal. lia. }
  split; [apply probe_result_raw|]. split; [exact Hp|]. intros samples. split; [by intros ->|]. rewrite Hp.
  unfold percentile. destruct samples as [|x samples]; [done|]. cbn [length]. intros Hn%lookup_ge_None. cbn [length] in Hn. lia.
Qed.

(** ** The wait ends *)
Context `{!ClockLaws} (ready_keeps_time : forall client o, clock_le o (health_ready client o).2).

Lemma attempt_keeps_time connector : preserves clock_le (guest_attempt connector).
Proof.
  unfold guest_attempt. apply preserves_bind; [apply _|apply (respects_client clock_le)|]. intros [c|e]; [|apply preserves_ret, _].
  apply preserves_bind; [apply _|by apply preserves_act|]. intros r. apply preserves_ret, _.
Qed.

Lemma attempt_ready connector o c o' : run (guest_attempt connector) o = (Some c, o') ->
  exists o1, health_ready c o1 = (Ok true, o').
Proof.
  unfold guest_attempt. rewrite run_bind. destruct (run (client connector) o) as [[c'|e] o1]; cbn [fst snd]; [|done].
  rewrite run_bind, run_act. destruct (health_ready c' o1) as [[[]|e] o2] eqn:Hh; cbn; [|done..].
  intros [= <- <-]. by exists o1.
Qed.

Lemma loop_ends_at_once {S X R} n (body : X -> prog S (X + R)) x s r s' :
  run (body x) s = (inr r, s') -> run (loop n body x) s = (inr r, s').
Proof. intros Hb. induction n as [|n IH]; cbn [loop]; [done|]. by rewrite run_bind, IH. Qed.

(** The probe's wait ends: with a guest that has just said it is ready, or
    with an error after an attempt, thirty seconds or more after it began. Unlike
    the runtime's wait it looks at the clock after an attempt, so that a guest
    that is ready at once is found whatever the clock says. *)
Theorem probe_wait_ends connector o :
  match run (probe_wait connector) o with
  | (Ok client, o') => exists o1, health_ready client o1 = (Ok true, o')
  | (Err error, o') => error = ProbeBail "guest did not become ready within 30 seconds"
      /\ (READY_LIMIT <= now o' - now o)%Z
  end
  /\ (forall c o', run (guest_attempt connector) o = (Some c, o') -> run (probe_wait connector) o = (Ok c, o')).
Proof.
  unfold probe_wait. rewrite run_bind, run_gets. cbn [fst snd]. rewrite run_fmap. split.
  2: { intros c o' Ha. rewrite (loop_ends_at_once _ _ _ _ (Ok c) o'); [done|].
       unfold probe_turn. by rewrite run_bind, Ha. }
  set (started := now o).
  destruct (run_measured (probe_turn connector started)
    (fun _ o1 => READY_LIMIT + 5000000 - Z.min (READY_LIMIT + 5000000) (now o1 - started))%Z
    (fun _ o1 => started <= now o1)%Z
    (fun r o' => match r with
       | Ok client => exists o1, health_ready client o1 = (Ok true, o')
       | Err error => error = ProbeBail "guest did not become ready within 30 seconds" /\ (READY_LIMIT <= now o' - started)%Z
       end) ltac:(intros; lia)) with (n := PROBE_TURNS) (x := tt) (s := o) as (r&o'&->&Hr).
  - intros [] o1 Ho. unfold probe_turn. rewrite run_bind. pose proof (attempt_keeps_time connector o1) as Hle.
    pose proof (attempt_ready connector o1) as Hc. destruct (run (guest_attempt connector) o1) as [[c|] o2]; cbn [fst snd run] in *;
      [by apply Hc|]. unfold clock_le in Hle. rewrite run_bind, run_gets. cbn [fst snd].
    destruct (Z.leb_spec READY_LIMIT (now o2 - started)); [by split|].
    rewrite run_bind, run_act. pose proof (sleep_advances (millis 5) o2 ltac:(done)) as Hs.
    destruct (sleep_for (millis 5) o2) as [u o3]. cbn in Hs. change (millis 5) with 5000000%Z in Hs.
    change READY_LIMIT with 30000000000%Z in *. cbn. split; lia.
  - unfold started. lia.
  - change READY_LIMIT with 30000000000%Z. change (2 ^ Z.of_nat PROBE_TURNS)%Z with 1099511627776%Z. subst started. lia.
  - exact Hr.
Qed.
End Probe.

(** ** At a concrete input

    The concrete host, whose guest is ready. *)
#[export] Instance host_probe : @ProbeHost host_machines := {|
  health_ready _ o := (Ok true, o);
  unix_nanos o := Some (now o);
|}.

Example ready_guest_is_found :
  run (probe_wait (MkGuestConnector (Path_of_string "/vsock") 5000 (millis 1000))) (host_tree, MkHostVms 7 [] [] [] 0 1)
  = (Ok tt, (host_tree, MkHostVms 7 [] [] [] 0 1)).
Proof.
  assert (forall c o, clock_le o (health_ready c o).2) as Htime by (intros c [fs v]; unfold clock_le; cbn; lia).
  destruct (probe_wait_ends Htime (MkGuestConnector (Path_of_string "/vsock") 5000 (millis 1000))
    (host_tree, MkHostVms 7 [] [] [] 0 1)) as [_ Hready].
  apply (Hready tt). vm_compute. reflexivity.
Qed.
